(* ===== verification/_CoqProject ===== *)
-Q . S2P
Prelude.v
JsString.v
Routing.v
SearchPalette.v
Content.v
Page.v
Scripts.v
Float64.v
DiagramViewer.v
GoLang.v
GoStrings.v
Paths.v
Subscriptions.v
Dedup.v
RetryQueue.v
RabbitConnection.v
RateLimiter.v
TokenBucket.v
Pacer.v
OutgoingHandler.v
Idempotency.v
IncomingBuffer.v
Jid.v
MessagePayload.v
UrlGuard.v
Cipher.v
Migration.v
WebhookSender.v
MediaStore.v
Docsgen.v
Reads.v
Errors.v
Auth.v
Settings.v
Sending.v
Groups.v
DocsSession.v
Sessions.v
QueueHandlers.v
Html.v
RapidocUrl.v
RapidocSpec.v
RapidocElement.v
RapidocAuth.v
RapidocOperation.v
RapidocMain.v
RapidocNav.v
RapidocTheme.v
RapidocPage.v
RapidocEvents.v
RapidocLinks.v
RapidocResponse.v
RapidocJson.v
RapidocJsonText.v
RapidocRequest.v
RapidocRequestFacts.v
RapidocConsole.v
RapidocSchema.v
RapidocSchemaTree.v
RapidocSchemaFacts.v
RapidocSchemaShown.v
RapidocExamples.v
RapidocForm.v
RapidocFormFacts.v
RapidocViewer.v
RapidocConsoleExample.v
RapidocExample.v
