(* ===== verification/Prelude.v ===== *)
(** * WhatsApp Gateway: verification development (root file)

    The gateway connects WhatsApp accounts to HTTP clients: it takes messages to send,
    queues them, paces them and hands them to the whatsmeow library; it turns what the
    library receives into webhooks; and it serves its own documentation as a browser
    application.  This library models the documentation application and the core of the
    server as shallow Rocq definitions, translated function by function from [src/], and
    proves what makes each part correct.

    ** How the program's parts interact

    - The documentation application, [docs/ui/assets/app.js] and [search.js], is two
      scripts on one page.  The address's hash selects a view and a document; loads are
      asynchronous; the search palette navigates by assigning the hash.
    - The API view of that page is the element [rapi-doc] of [docs/ui/assets/rapidoc-min.js],
      configured in [index.html].  It loads the OpenAPI document, renders it with templates,
      keeps the reader's API keys, and writes the part that is shown into the same address.
    - A number registers once an operator has admitted it and gets a token; every request
      about the account carries the token.
    - A request to send is checked, and becomes an outgoing job on a RabbitMQ queue; when
      the queue takes no job, or is off, the request sends at once and paces itself.  What
      the library refuses is turned into an error of the API.  A worker checks the
      duplicate cache, asks the pacer, sends, records the job's status, and announces
      it to the account's webhook subscriptions.  A failed message goes through a retry
      queue back to its work queue, and at last to a dead-letter queue, whose worker
      announces the failure.
    - A received message is buffered for polling and queued (or delivered at once when the
      queue is down); a worker turns it into one webhook message per matching
      subscription; a third worker signs and delivers each.
    - Lifecycle events of an account's connection update the session table, evict the
      client and are announced the same way; the inventory and the pacer's ban gate read
      that table.
    - Reads that ask WhatsApp go through a cache and a budget; received media are kept in a
      store whose files a public route serves; the documentation stands behind a login, and
      its search index is made of its files at start-up.

    ** Files

    Shared: [Prelude] (automation, lists), [JsString] (UTF-16 strings of JavaScript),
    [Float64] (doubles), [GoLang] (64-bit integers, durations, results that may panic, the
    functions of package [strings]), [GoStrings] (more of them), [Paths] (file paths).

    Documentation application:
    - [Routing]: [getBasePath], [buildUrl], [parseHash], [buildHash], [generateSlug].
    - [Content]: [addHeadingAnchors], [buildTableOfContents] and the scroll spy.
    - [Page]: the module variables, the parts of the DOM the handlers use, and every
      handler; a load is cut at its two [await]s, so loads settle in any order.
    - [Scripts]: [ensureMermaid] and [ensureHljs] (module [Loader]), the copy button
      (module [CopyButton]), and the decorations of code blocks and diagrams (module
      [Blocks]).
    - [DiagramViewer]: the overlay of [ensureDiagramOverlay], in IEEE doubles.
    - [SearchPalette]: scoring, ranking, snippets, and the palette as a state machine.

    API reference ([rapidoc-min.js]; the definitions have its minified names):
    - [Html]: documents as trees, the observers of a document ([attrs], [binds]) and the
      tactic [collect_simpl] that computes what an observer finds in a template.
    - [RapidocSpec]: [hR], from the parsed document to tags, operations, components,
      security schemes and servers, and [mt], the search.
    - [RapidocElement]: the attributes as [connectedCallback] leaves them, the state.
    - [RapidocAuth]: the keys ([OR], [IR], [DR], [jR], [CR], [_R]) and their templates.
    - [RapidocOperation], [RapidocMain], [RapidocNav], [RapidocPage]: the templates of an
      operation, of the content, of the navigation bar, and of the whole page ([KF]).
    - [RapidocTheme]: colours, palettes, the style sheet [JF], in IEEE doubles.
    - [RapidocResponse]: the element [api-response].
    - [RapidocJson]: the elements [json-tree] and [tag-input].
    - [RapidocEvents]: loading, navigation, the address, searching; [handle] is one event
      of the element and [reachable] the states that events lead to.
    - [RapidocLinks]: theorems that relate the navigation bar, the content and the address.
    - [RapidocSchema]: [QR], [eF], [pF] and [uF], from a schema to the data of its tree;
      [RapidocSchemaTree]: the elements [schema-tree] and [schema-table]; their theorems in
      [RapidocSchemaFacts] and [RapidocSchemaShown].
    - [RapidocExamples] and [RapidocForm]: the examples of a request, and every template of
      its form; theorems in [RapidocFormFacts].
    - [RapidocUrl], [RapidocJsonText]: texts in URLs, JSON texts.
    - [RapidocRequest]: the URL, headers, body and command line that the element
      [api-request] makes of the form's fields; theorems in [RapidocRequestFacts].
    - [RapidocConsole]: its state, TRY and the other buttons, the answer.
    - [RapidocViewer]: the element [json-schema-viewer], which shows the schemas of a
      document: its bar, content and page, and the clicks.
    - [RapidocExample] and [RapidocConsoleExample]: small documents on which the theorems
      are instantiated.

    Server:
    - [Subscriptions]: [domain/queue/status_webhook.go], the subscription table of
      [internal/whatsapp/repository.go] and the operations of [client.go] and [manager.go].
    - [Dedup]: [pkg/queue/dedup.go].
    - [RetryQueue]: [processMessage] of [pkg/queue/worker_pool.go], [constants.go], and the
      topology of [rabbitmq.go] with the broker's documented routing.
    - [RabbitConnection]: the rest of [rabbitmq.go] as interleaved steps.
    - [RateLimiter], [TokenBucket], [Pacer]: [pkg/ratelimiter].  The interface [Limiter] is
      a type class; the pacer is proved against it, and the bucket's operations are
      written over a class of arithmetic ([Arith]) with doubles and rationals as
      instances.
    - [OutgoingHandler] and [QueueHandlers]: [internal/queue/handlers] and
      [internal/queue/job_repository.go].
    - [Idempotency]: [internal/middleware/idempotency.go] as interleaved steps.
    - [IncomingBuffer], [MessagePayload], [Jid], [Sessions]: [internal/whatsapp].
    - [UrlGuard]: [internal/utils/url_utils.go] and the dialer of the sender.
    - [Cipher]: [pkg/cipherx/chiper.go]; the AEAD is a class ([Aead], [AeadLaws]).
    - [Migration]: the backfill of [internal/whatsapp/migration.go], over failing boots.
    - [WebhookSender]: [internal/whatsapp/webhook_sender.go].
    - [MediaStore]: [pkg/storage/local.go], [internal/whatsapp/media_downloader.go] and the
      route of [internal/handler/storage].
    - [Reads]: [query.go], [read_usecase.go] and [resolveChat] of
      [internal/usecase/whatsapp], as interleaved requests over the memory limiter.
    - [Docsgen]: [pkg/docsgen].
    - [DocsSession]: [internal/middleware/docs_session_auth.go].
    - [Errors]: [domain/error], [internal/httperror], and [mapWhatsmeowErr] of [client.go].
    - [Auth]: [pkg/auth/jwt.go], [internal/usecase/auth], and the middlewares
      [jwt_auth_middleware.go], [admin.go] and [rate_limit.go]; the JWT library is a class
      ([JwtLibrary], [JwtLaws]).
    - [Settings]: [config/config.go], [pacer_provider.go], and the time limit of a worker's
      call.
    - [Sending]: [message_usecase.go] and [interaction_usecase.go], with the pacing and the
      job of [outgoing_handler.go] that carries a request.
    - [Groups]: [group_usecase.go].

    ** What the theorems show

    - Delivery: no job is sent twice and no receiver called twice within the duplicate
      window ([job_sends_spaced], [webhook_calls_spaced], over the refinement
      [dedup_refines_history]); every message is settled once, retried at most as
      configured, and comes back to its own queue ([message_settled], [retries_bounded],
      [retry_returns_to_its_queue]); no subscriber is missed ([fanout_complete],
      [registered_filter_means]); the connection is consumed whenever it is up
      ([connection_invariant]); lemmas: [dead_letters_notified], [teardown_notified].
    - Requests: a request to send makes at most one job and, without the queue, at most one
      call, never both unless a job's confirmation was lost ([request_sends_once]); the
      worker sends of a job what the request would have sent ([queue_agrees_with_direct]);
      no group is asked for before the account and the arguments are in order
      ([group_calls_guarded]); whatever the library answers, the API answers with a status of a fixed list
      ([upstream_error_answered]).
    - Access and settings: who is admitted was registered ([admitted_was_registered]), for
      as long as the token says ([token_admits_until_expiry]); whatever the environment
      says, the settings that are used are sane ([settings_safe]); lemmas:
      [refusal_is_401], [admin_plane_spec], [loaded_pacer_throughput].
    - Admission: [key_succeeds_once], [memory_limiter_bounds], [wait_returns],
      [reads_fresh_and_budgeted]; lemmas: [limiters_agree], [bucket_throughput].
    - Webhooks: [signed_with_registered_secret], [dial_never_private], [backfill_once];
      lemmas: [guard_ranges], [retry_budget_suffices].
    - Files and logins: [stored_media_safe], [served_after_login].
    - Sessions and messages, as lemmas: [inventory_accounts], [ban_gate_follows_last_event],
      [translations_agree], [sender_resolution], [latest_is_recent],
      [resolveChat_canonical], [cacheKey_inj].
    - Documentation application: [page_views_consistent], [ordered_loads_show_current],
      [palette_invariant], [snippet_safe]; the search index agrees with the page's script
      about every heading ([index_ids_match_page]); and the lemmas
      [parseHash_buildHash_docs], [hash_navigation_loads], [generateSlug_canonical],
      [toc_entries], [palette_go_sound], [rankedHits_best], [score_meaning],
      [loader_single_flight], [decorations_commute], [viewer_zoom_bounded].
    - API reference, page: what events keep ([element_invariant]); every operation is listed
      once, under ids that the address carries ([operations_listed_once],
      [loaded_ids_addressable]); no link of the navigation bar is dead and a reload returns
      to it ([nav_click_shows], [reload_returns]); the keys ([kept_key_returns]);
      lemmas: [search_shows_matching], [removed_key_stays_removed], [one_response_shown],
      [palette_always_computed], [operation_address_opens_docs].
    - API reference, requests: what is typed reaches the receiver as it was typed
      ([url_carries_fields], [path_value_one_segment]), and every request settles
      ([try_settles]); lemmas: the form has a field for every parameter
      ([form_offers_parameters]), a key is sent ([key_reaches_request]), the answer is
      shown as it came ([json_reply_shown]), and [editor_holds_example], [body_settles],
      [shell_reads_body], [parse_stringify].
    - API reference, schemas: nothing that should be shown is missing
      ([tree_shows_property]); lemmas: nothing that should be hidden is shown
      ([tree_hides], [table_hides]), and a link of the schema viewer leads to its schema
      ([schema_link_leads], [panel_shows_one]).

    Where the code does not do what it means to, a lemma says exactly what it does, among
    them [Page.overtaken_load_shows_stale], [SearchPalette.index_settles_once],
    [RabbitConnection.failed_restart_panics], [RabbitConnection.shutdown_overtaken],
    [OutgoingHandler.failed_event_per_attempt], [Idempotency.takeover_not_recorded],
    [Sessions.relogin_still_logged_out], [MediaStore.served_outside],
    [MediaStore.voice_type_refused], [DocsSession.root_redirect_leaves],
    [Docsgen.later_title_wins], [Reads.letters_dropped],
    [RapidocAuth.basic_not_kept], [RapidocAuth.cleared_key_returns],
    [RapidocSpec.regex_ignores_path], [RapidocJson.empty_last_comma],
    [RapidocRequestFacts.tidied_two], [RapidocRequestFacts.json_quote_open],
    [RapidocFormFacts.cookies_unsent], [RapidocFormFacts.body_example_ignored],
    [RapidocFormFacts.number_const_throws], [RapidocSchemaShown.tree_never_ends],
    [RapidocViewer.viewer_example_ignored], [Sending.unconfirmed_sends_twice],
    [Sending.early_worker_status_lost], [Sending.job_status_refusal_panics],
    [Auth.empty_number_useless] and [Settings.shouted_production_unchecked].

    ** Conventions, bounds and fuel

    Machine integers are [Z] wrapped to 64 bits where they can overflow; instants and
    durations are nanoseconds.  Each reading of the clock is an argument of the
    operation that makes it.  These definitions take fuel: the highlighter's matcher (as
    much as the text is long), the replacement of links in a document (as much as the text
    is long, [Docsgen.replaceLinks_enough]), reading JSON ([RapidocJsonText]), the names of
    a schema's properties (the depth of the value, [RapidocEvents.ft_enough]), the data of
    a schema (twice its size, [RapidocSchema.schema_read]) and its tree
    ([RapidocSchemaShown.tree_ends]; only data that contains itself is rendered without
    end), the journey of a message (one unit per delivery; one more than the retries is
    enough) and the pacer's loop (one unit per turn; one more than the nanoseconds it may
    wait is enough, since the clock moves every turn).  Where two
    goroutines, or two asynchronous functions, can interleave, a step is what runs between
    two points at which the other can get in.

    Parameters of the model: the Unicode case tables, the markdown renderer and the
    third-party scripts; whatsmeow and its JID parser, the JWT library, the sniffer of media
    types, the SQL engine's answers, the Redis
    server, HTTP, DNS, the URL parser, AES-GCM, HMAC, random identifiers and JSON of the
    server; for the API reference the parsed document, [RegExp] tests, [btoa], the order of
    [localeCompare], the highlighter, the XML formatter, the text of a numeral
    ([Numerals]), [new URL] ([resolveUrl]), the generator [cF] of example values, the ids
    in generated HTML, and what [location.href] reads after it was replaced.  What is
    relied on of them is in the hypotheses of the theorems or the laws of a class.  A
    template's white space and comments are not kept.

    ** Not modelled

    Of the server: the calls of [client.go] that build protobuf messages for the library
    and hand them on (they are the function [manager] or [se_manager] that the use cases ask,
    with the call as its argument), pairing and the use cases of webhooks and
    incoming messages (each hands its arguments to a modelled component), the parsing of
    HTTP requests and of the environment (Fiber's and viper's), the S3 client, metrics,
    the wiring and process start-up.  They are input and output around the modelled code,
    with no state of their own.  The encoding of a job in JSON and its decoding are taken
    as exact.

    Of [rapidoc-min.js]: the style sheets and the libraries it bundles (lit, marked, prism,
    the OpenAPI parser, the XML formatter, the generator of random texts), which are not
    the program's; the OAuth windows, whose behaviour is that of other windows and their
    messages; the intersection observer, which depends on the layout; and the elements
    [rapi-doc-mini] and [oauth-receiver], which the page does not use.  Of [app.js] and
    [search.js]: the markdown renderer's set-up and the layout of the page. *)

From Stdlib Require Export Lia ZifyN ZifyNat ZifyBool.
From stdpp Require Import strings numbers list.

(** ** Notation scope of the development *)

Declare Scope gateway_scope.
Delimit Scope gateway_scope with gw.
Open Scope gateway_scope.

(** Comparisons of numbers stay folded under [simpl] and [cbn]. *)
#[global] Arguments N.eqb : simpl never.
#[global] Arguments N.leb : simpl never.
#[global] Arguments N.ltb : simpl never.
#[global] Arguments Z.eqb : simpl never.
#[global] Arguments Z.leb : simpl never.
#[global] Arguments Z.ltb : simpl never.

(** ** Automation *)

Create HintDb gateway discriminated.
Create Rewrite HintDb gateway.

(** Splits the boolean conjunctions, disjunctions and [bool_decide]s of the
    hypotheses and of the goal. *)
Ltac bool_simpl :=
  repeat match goal with
    | H : (_ && _) = true |- _ => apply andb_true_iff in H as [? ?]
    | H : (_ && _) = false |- _ => apply andb_false_iff in H
    | H : (_ || _) = true |- _ => apply orb_true_iff in H
    | H : (_ || _) = false |- _ => apply orb_false_iff in H as [? ?]
    | H : negb _ = true |- _ => apply negb_true_iff in H
    | H : negb _ = false |- _ => apply negb_false_iff in H
    | H : bool_decide _ = true |- _ => apply bool_decide_eq_true in H
    | H : bool_decide _ = false |- _ => apply bool_decide_eq_false in H
    end.

(** Case analysis on every [if] and [match] in sight, keeping the equations. *)
Ltac split_cases :=
  repeat (case_match; simplify_eq/=); bool_simpl.

(** Splits the conjunctions of the hypotheses. *)
Ltac conj_hyps := repeat match goal with H : _ /\ _ |- _ => destruct H end.

(** Case analysis on a decision of the goal only. *)
Ltac goal_decide :=
  match goal with |- context [decide ?P] => destruct (decide P) end.

(** ** Lists *)

Section lists.
Context {A : Type}.
Implicit Types (l : list A) (p : A -> bool).

(** Drops the longest prefix whose elements satisfy [p]. *)
Fixpoint drop_while p l : list A :=
  match l with
  | [] => []
  | x :: r => if p x then drop_while p r else l
  end.

(** [trim_with p l] drops the elements satisfying [p] at both ends. *)
Definition trim_with p l : list A :=
  reverse (drop_while p (reverse (drop_while p l))).

Definition allb p l : bool := forallb p l.

Lemma allb_app p l1 l2 : allb p (l1 ++ l2) = allb p l1 && allb p l2.
Proof. apply forallb_app. Qed.

Lemma allb_Forall p l : allb p l = true <-> Forall (fun x => p x = true) l.
Proof. unfold allb. rewrite forallb_forall, List.Forall_forall. done. Qed.

Lemma allb_elem p l x : allb p l = true -> x ∈ l -> p x = true.
Proof. rewrite allb_Forall, Forall_forall. auto. Qed.

Lemma allb_filter p l : allb p l = true -> List.filter p l = l.
Proof.
  induction l as [|x l IH]; simpl; [done|].
  intros [-> H]%andb_true_iff. by rewrite IH.
Qed.

Lemma allb_impl p q l :
  (forall x, p x = true -> q x = true) -> allb p l = true -> allb q l = true.
Proof. rewrite !allb_Forall. intros Hpq H. eapply Forall_impl; eauto. Qed.

Lemma drop_while_id p l : allb (fun x => negb (p x)) l = true -> drop_while p l = l.
Proof. destruct l as [|x l]; simpl; [done|]. by destruct (p x). Qed.

Lemma drop_while_all p l : allb p l = true -> drop_while p l = [].
Proof. induction l as [|x l IH]; simpl; [done|]. intros [-> H]%andb_true_iff. auto. Qed.

Lemma allb_reverse p l : allb p (reverse l) = allb p l.
Proof.
  induction l as [|x l IH]; [done|].
  rewrite reverse_cons, allb_app, IH. simpl. destruct (p x), (allb p l); done.
Qed.

Lemma trim_with_id p l : allb (fun x => negb (p x)) l = true -> trim_with p l = l.
Proof.
  intros H. unfold trim_with. rewrite (drop_while_id _ l H).
  rewrite drop_while_id by (by rewrite allb_reverse).
  apply reverse_involutive.
Qed.

Lemma trim_with_all p l : allb p l = true -> trim_with p l = [].
Proof. intros H. unfold trim_with. by rewrite (drop_while_all _ _ H). Qed.

Lemma drop_while_sub p l x : x ∈ drop_while p l -> x ∈ l.
Proof.
  induction l as [|y l IH]; simpl; [done|].
  destruct (p y); [|done]. intros H. right. auto.
Qed.

Lemma trim_with_sub p l x : x ∈ trim_with p l -> x ∈ l.
Proof.
  unfold trim_with. rewrite elem_of_reverse. intros H%drop_while_sub.
  rewrite elem_of_reverse in H. by eapply drop_while_sub.
Qed.

(** The head of a trimmed list does not satisfy [p]. *)
Lemma drop_while_head p l x r : drop_while p l = x :: r -> p x = false.
Proof.
  induction l as [|y l IH]; simpl; [done|].
  destruct (p y) eqn:E; [done|]. intros [= <- _]. done.
Qed.
End lists.

#[export] Hint Rewrite @allb_app @allb_reverse : gateway.
