(* ===== verification/JsString.v ===== *)
(** * JavaScript strings

    The string operations of ECMAScript that [app.js] and [search.js] call, on
    strings as the language has them: sequences of UTF-16 code units.  Case
    mapping depends on the Unicode tables, which are an interface
    ([CaseMapping]) with the two facts about it that the code relies on. *)

From stdpp Require Import strings numbers list.
From S2P Require Import Prelude.

(** A code unit is a number below 2^16; a string is a list of them. *)

Abbreviation jstr := (list N).

(** String literals of the source, which are ASCII unless given in code units. *)
Fixpoint lit (s : string) : jstr :=
  match s with
  | EmptyString => []
  | String c r => Ascii.N_of_ascii c :: lit r
  end.

Open Scope N_scope.

(** ** Character classes *)

Definition isUpper (c : N) : bool := (65 <=? c) && (c <=? 90).
Definition isLower (c : N) : bool := (97 <=? c) && (c <=? 122).
Definition isDigit (c : N) : bool := (48 <=? c) && (c <=? 57).

(** The class [\w] of a regular expression without the [u] and [i] flags. *)
Definition isWord (c : N) : bool :=
  isUpper c || isLower c || isDigit c || (c =? 95).

(** The class [\s]: WhiteSpace and LineTerminator of ECMAScript; the same
    characters are removed by [trim]. *)
Definition isSpace (c : N) : bool :=
  ((9 <=? c) && (c <=? 13)) || (c =? 32) || (c =? 160) || (c =? 5760)
  || ((8192 <=? c) && (c <=? 8202)) || (c =? 8232) || (c =? 8233)
  || (c =? 8239) || (c =? 8287) || (c =? 12288) || (c =? 65279).

Definition isAscii (c : N) : bool := c <? 128.

(** Character codes that the code names. *)
Definition cHash : N := 35.
Definition cSlash : N := 47.
Definition cColon : N := 58.
Definition cHyphen : N := 45.

Definition asciiLower (c : N) : N := if isUpper c then c + 32 else c.

(** ** Case mapping: an interface to the Unicode tables *)

Class CaseMapping := {
  toLowerCase : jstr -> jstr;
  (** [Canonicalize] of a case-insensitive regular expression. *)
  canonicalize : N -> N;
  toLowerCase_ascii s :
    allb isAscii s = true -> toLowerCase s = map asciiLower s;
  toLowerCase_no_upper s :
    allb (fun c => negb (isUpper c)) (toLowerCase s) = true;
  canonicalize_ascii c d :
    isAscii c = true -> isAscii d = true ->
    canonicalize c = canonicalize d <-> asciiLower c = asciiLower d;
}.

(** The mapping of the Latin-1 block, which the witnesses use. *)
Definition latin1Lower (c : N) : N :=
  if isUpper c then c + 32
  else if (192 <=? c) && (c <=? 222) && negb (c =? 215) then c + 32
  else c.

#[export] Program Instance latin1 : CaseMapping := {
  toLowerCase := map latin1Lower;
  canonicalize := latin1Lower;
}.
Next Obligation.
  induction s as [|c s IH]; simpl; [done|].
  unfold isAscii at 1. intros [Hc Hs]%andb_true_iff. rewrite IH; [|done]. f_equal.
  unfold latin1Lower, asciiLower. destruct (isUpper c); [done|].
  destruct (N.leb_spec 192 c); [lia|done].
Qed.
Next Obligation.
  induction s as [|c s IH]; simpl; [done|]. rewrite IH, andb_true_r.
  unfold latin1Lower. destruct (isUpper c) eqn:E.
  - unfold isUpper in *. lia.
  - case_match; [|by rewrite E]. unfold isUpper. lia.
Qed.
Next Obligation.
  intros c d Hc Hd. unfold latin1Lower, asciiLower, isAscii in *.
  destruct (isUpper c), (isUpper d);
    destruct (N.leb_spec 192 c); destruct (N.leb_spec 192 d); try lia; done.
Qed.

(** ** Operations *)

(** [s.startsWith(p)] *)
Fixpoint startsWith (p s : jstr) : bool :=
  match p, s with
  | [], _ => true
  | x :: p', y :: s' => (x =? y) && startsWith p' s'
  | _ :: _, [] => false
  end.

(** [s.endsWith(p)] *)
Definition endsWith (p s : jstr) : bool := startsWith (reverse p) (reverse s).

(** [s.substring(n)] *)
Definition substring (n : nat) (s : jstr) : jstr := drop n s.

(** [s.slice(0, -1)] *)
Definition sliceLast (s : jstr) : jstr := take (pred (length s)) s.

(** [s.slice(a, b)] for [0 <= a <= b] *)
Definition slice (a b : nat) (s : jstr) : jstr := take (b - a) (drop a s).

(** [s.split(c)] for a one-unit separator: never empty. *)
Fixpoint splitOn (c : N) (s : jstr) : list jstr :=
  match s with
  | [] => [[]]
  | x :: r =>
      if x =? c then [] :: splitOn c r
      else match splitOn c r with
           | h :: t => (x :: h) :: t
           | [] => [[x]]
           end
  end.

(** [s.split(/p+/)]: the fields between maximal runs of [p]. *)
Fixpoint splitRuns (p : N -> bool) (inRun : bool) (s : jstr) : list jstr :=
  match s with
  | [] => [[]]
  | x :: r =>
      if p x then (if inRun then splitRuns p true r else [] :: splitRuns p true r)
      else match splitRuns p false r with
           | h :: t => (x :: h) :: t
           | [] => [[x]]
           end
  end.

(** [s.replace(/p+/g, rep)]: every maximal run of [p] becomes [rep]. *)
Fixpoint collapseRuns (p : N -> bool) (rep : jstr) (inRun : bool) (s : jstr) : jstr :=
  match s with
  | [] => []
  | x :: r =>
      if p x then (if inRun then collapseRuns p rep true r
                   else rep ++ collapseRuns p rep true r)
      else x :: collapseRuns p rep false r
  end.

(** [s.replace(/p/g, '')] *)
Definition removeAll (p : N -> bool) (s : jstr) : jstr :=
  List.filter (fun c => negb (p c)) s.

(** [s.trim()] *)
Definition trim (s : jstr) : jstr := trim_with isSpace s.

(** [s.indexOf(t, from)], [None] for -1. *)
Fixpoint indexOfAux (t s : jstr) (i : nat) : option nat :=
  if startsWith t s then Some i
  else match s with
       | [] => None
       | _ :: r => indexOfAux t r (S i)
       end.

Definition indexOf (t s : jstr) (from : nat) : option nat :=
  if Nat.leb from (length s) then indexOfAux t (drop from s) from
  else if (match t with [] => true | _ => false end) then Some (length s) else None.

(** A JavaScript value used as [x || null] or tested for truth, when it is a
    string or absent: the empty string is falsy. *)
Definition orNull (o : option jstr) : option jstr :=
  match o with
  | Some (_ :: _) => o
  | _ => None
  end.

(** [`${x}`] of a value that is a string or [null]. *)
Definition interp (o : option jstr) : jstr :=
  match o with Some s => s | None => lit "null" end.

(** ** Facts about the operations *)

Lemma startsWith_spec p s : startsWith p s = true <-> exists r, s = p ++ r.
Proof.
  revert s. induction p as [|x p IH]; intros s; simpl; [by split; eauto|].
  destruct s as [|y s].
  - split; [done|]. by intros [r [=]].
  - rewrite andb_true_iff, N.eqb_eq, IH. split.
    + intros [-> [r ->]]. by exists r.
    + intros [r [= -> ->]]. eauto.
Qed.

Lemma startsWith_app p r : startsWith p (p ++ r) = true.
Proof. apply startsWith_spec. eauto. Qed.

Lemma startsWith_length p s : startsWith p s = true -> (length p <= length s)%nat.
Proof. rewrite startsWith_spec. intros [r ->]. rewrite length_app. lia. Qed.

Lemma startsWith_nil_r p : startsWith p [] = true -> p = [].
Proof. by destruct p. Qed.

Lemma startsWith_app_l p a b :
  (length p <= length a)%nat -> startsWith p (a ++ b) = startsWith p a.
Proof.
  revert a. induction p as [|x p IH]; intros [|y a] Hl; simpl in *; try done; try lia.
  rewrite IH; [done|lia].
Qed.

Lemma endsWith_spec p s : endsWith p s = true <-> exists r, s = r ++ p.
Proof.
  unfold endsWith. rewrite startsWith_spec. split.
  - intros [r Hr]. exists (reverse r). apply (inj reverse).
    by rewrite Hr, reverse_app, reverse_involutive.
  - intros [r ->]. exists (reverse r). by rewrite reverse_app.
Qed.

Lemma splitOn_ne c s : splitOn c s <> [].
Proof. induction s as [|x s IH]; simpl; [done|]. repeat case_match; done. Qed.

Lemma splitOn_none c s : c ∉ s -> splitOn c s = [s].
Proof.
  induction s as [|x s IH]; simpl; [done|].
  rewrite not_elem_of_cons. intros [Hne Hs].
  rewrite (proj2 (N.eqb_neq x c)) by done. by rewrite IH.
Qed.

Lemma splitOn_app c a b : c ∉ a -> splitOn c (a ++ c :: b) = a :: splitOn c b.
Proof.
  induction a as [|x a IH]; simpl; intros Ha.
  - by rewrite N.eqb_refl.
  - apply not_elem_of_cons in Ha as [Hne Ha].
    rewrite (proj2 (N.eqb_neq x c)) by done. by rewrite IH.
Qed.

(** Runs of [p] collapse to a unit [r] that itself satisfies [q]: what the
    result is made of. *)
Lemma collapseRuns_all (q p : N -> bool) rep b s :
  allb q rep = true -> allb (fun c => p c || q c) s = true ->
  allb q (collapseRuns p rep b s) = true.
Proof.
  intros Hrep. revert b. induction s as [|x s IH]; intros b; simpl; [done|].
  intros [Hx Hs]%andb_true_iff. destruct (p x); simpl in *.
  - destruct b; [auto|]. rewrite allb_app, Hrep. simpl. auto.
  - rewrite Hx. simpl. auto.
Qed.

Lemma collapseRuns_id p rep b s :
  allb (fun c => negb (p c)) s = true -> collapseRuns p rep b s = s.
Proof.
  revert b. induction s as [|x s IH]; intros b; simpl; [done|].
  destruct (p x); simpl; [done|]. intros H. by rewrite IH.
Qed.

(** No two adjacent elements satisfy [p]. *)
Fixpoint noRuns (p : N -> bool) (s : jstr) : bool :=
  match s with
  | x :: (y :: _) as r => negb (p x && p y) && noRuns p r
  | _ => true
  end.

Lemma noRuns_cons p x s :
  noRuns p (x :: s) = negb (p x && match s with y :: _ => p y | [] => false end) && noRuns p s.
Proof. destruct s; simpl; [by rewrite andb_false_r|done]. Qed.

Lemma collapseRuns_noRuns p c s :
  p c = true ->
  noRuns p (collapseRuns p [c] false s) = true
  /\ noRuns p (c :: collapseRuns p [c] true s) = true.
Proof.
  intros Hc. induction s as [|x s [IH1 IH2]]; [done|].
  cbn [collapseRuns app]. destruct (p x) eqn:Hx.
  - cbn [app]. by split.
  - rewrite !noRuns_cons, Hx. cbn [andb negb]. rewrite andb_false_r. by rewrite IH1.
Qed.

(** Collapsing single-unit runs to the unit they consist of changes nothing. *)
Lemma collapseRuns_noRuns_id c s :
  noRuns (N.eqb c) s = true -> collapseRuns (N.eqb c) [c] false s = s.
Proof.
  induction s as [|x s IH]; [done|].
  rewrite noRuns_cons. intros [Hh Ht]%andb_true_iff. cbn [collapseRuns].
  destruct (N.eqb_spec c x) as [->|Hne].
  - cbn [app]. f_equal. destruct s as [|y s]; [done|].
    simpl in Hh. cbn [collapseRuns] in IH |- *.
    destruct (N.eqb_spec x y); [done|]. by apply IH.
  - by rewrite IH.
Qed.

Lemma indexOfAux_spec t s i :
  match indexOfAux t s i with
  | Some j => (i <= j)%nat /\ startsWith t (drop (j - i) s) = true
              /\ (forall k, (k < j - i)%nat -> startsWith t (drop k s) = false)
              /\ (j - i <= length s)%nat
  | None => forall k, startsWith t (drop k s) = false
  end.
Proof.
  revert i. induction s as [|x s IH]; intros i; cbn [indexOfAux].
  - destruct (startsWith t []) eqn:E.
    + rewrite Nat.sub_diag. repeat split; try done; lia.
    + intros k. by rewrite drop_nil.
  - destruct (startsWith t (x :: s)) eqn:E.
    + rewrite Nat.sub_diag. repeat split; try done; lia.
    + specialize (IH (S i)). destruct (indexOfAux t s (S i)) as [j|] eqn:Ej.
      * destruct IH as (H1 & H2 & H3 & H4).
        replace (j - i)%nat with (S (j - S i)) by lia.
        repeat split; [lia|done| |simpl; lia].
        intros [|k] Hk; [done|]. simpl. apply H3. lia.
      * intros [|k]; [done|]. apply IH.
Qed.

(** [indexOf] finds the first occurrence at or after [from]. *)
Lemma indexOf_Some t s from i :
  t <> [] -> indexOf t s from = Some i ->
  (from <= i)%nat /\ startsWith t (drop i s) = true
  /\ (i + length t <= length s)%nat
  /\ (forall k, (from <= k < i)%nat -> startsWith t (drop k s) = false).
Proof.
  intros Ht. unfold indexOf. destruct (Nat.leb_spec from (length s)) as [Hf|].
  2: { by destruct t. }
  intros Hi. pose proof (indexOfAux_spec t (drop from s) from) as H.
  rewrite Hi in H. destruct H as (H1 & H2 & H3 & H4).
  rewrite drop_drop in H2. replace (from + (i - from))%nat with i in H2 by lia.
  pose proof (startsWith_length _ _ H2) as Hl. rewrite length_drop in Hl.
  assert (0 < length t)%nat by (destruct t; simpl; [done|lia]).
  repeat split; [lia|done|lia|].
  intros k Hk. specialize (H3 (k - from)%nat). rewrite drop_drop in H3.
  replace (from + (k - from))%nat with k in H3 by lia. apply H3. lia.
Qed.

Lemma indexOf_None t s from k :
  t <> [] -> indexOf t s from = None -> (from <= k)%nat -> startsWith t (drop k s) = false.
Proof.
  intros Ht. unfold indexOf. destruct (Nat.leb_spec from (length s)) as [Hf|Hf].
  - intros Hi Hk. pose proof (indexOfAux_spec t (drop from s) from) as H.
    rewrite Hi in H. specialize (H (k - from)%nat). rewrite drop_drop in H.
    by replace (from + (k - from))%nat with k in H by lia.
  - intros _ Hk. rewrite drop_ge by lia. by destruct t.
Qed.

(** [t] occurs in [s]. *)
Definition occurs (t s : jstr) : Prop := exists a b, s = a ++ t ++ b.

Lemma occurs_indexOf t s : t <> [] -> occurs t s <-> is_Some (indexOf t s 0).
Proof.
  intros Ht. split.
  - intros (a & b & ->). destruct (indexOf t (a ++ t ++ b) 0) as [i|] eqn:E; [eauto|].
    eapply (indexOf_None _ _ _ (length a)) in E; [|done|lia].
    rewrite drop_app_length, startsWith_app in E. done.
  - intros [i Hi]. apply indexOf_Some in Hi as (_ & Hs & _ & _); [|done].
    apply startsWith_spec in Hs as [r Hr]. exists (take i s), r.
    rewrite <- Hr. symmetry. apply take_drop.
Qed.
