(* ===== verification/Routing.v ===== *)
(** * Base path, hash routing and heading slugs of the documentation site

    The pure functions of [docs/ui/assets/app.js]: [getBasePath], [buildUrl],
    [parseHash], [buildHash] and [generateSlug].  The location they read is an
    argument. *)

From stdpp Require Import strings numbers list.
From S2P Require Import Prelude JsString.
Open Scope N_scope.

(** ** getBasePath and buildUrl *)

(** [/\/?[^\/]*\.html$/] matches at the start of [s]. *)
Definition htmlSegment (s : jstr) : bool :=
  allb (fun c => negb (c =? cSlash)) s && endsWith (lit ".html") s.

Definition htmlMatch (s : jstr) : bool :=
  match s with
  | c :: r => ((c =? cSlash) && htmlSegment r) || htmlSegment s
  | [] => false
  end.

(** [s.replace(/\/?[^\/]*\.html$/, '')]: the leftmost match, which runs to the
    end of the string. *)
Fixpoint stripHtml (s : jstr) : jstr :=
  if htmlMatch s then []
  else match s with
       | [] => []
       | c :: r => c :: stripHtml r
       end.

Definition getBasePath (pathname : jstr) : jstr :=
  let basePath := stripHtml pathname in
  if endsWith [cSlash] basePath then sliceLast basePath else basePath.

Definition buildUrl (pathname path : jstr) : jstr :=
  let basePath := getBasePath pathname in
  let cleanPath := if startsWith [cSlash] path then substring 1 path else path in
  match basePath with
  | [] => cSlash :: cleanPath
  | _ => basePath ++ [cSlash] ++ cleanPath
  end.

(** ** Hash routing *)

(** The two views the code names; a view is the string of [data-view]. *)
Definition viewDocs : jstr := lit "docs".
Definition viewApi : jstr := lit "api".

(** What [parseHash] returns: the docs objects carry [doc] and [section], the
    api object carries [target]. *)
Inductive HashData :=
| HDocs (doc section : option jstr)
| HApi (target : option jstr).

Definition hdView (h : HashData) : jstr :=
  match h with HDocs _ _ => viewDocs | HApi _ => viewApi end.

(** [hashData.doc] and [hashData.section]: absent ([undefined]) on api objects. *)
Definition hdDoc (h : HashData) : option jstr :=
  match h with HDocs d _ => d | HApi _ => None end.

Definition hdSection (h : HashData) : option jstr :=
  match h with HDocs _ s => s | HApi _ => None end.

Definition docsParts (s : jstr) : HashData :=
  let parts := splitOn cColon s in
  HDocs (orNull (parts !! 0%nat)) (orNull (parts !! 1%nat)).

(** [parseHash] on the value of [window.location.hash]. *)
Definition parseHash (locationHash : jstr) : HashData :=
  let hash := substring 1 locationHash in
  match hash with
  | [] => HDocs None None
  | _ =>
      if startsWith (lit "docs:") hash then docsParts (substring 5 hash)
      else if startsWith (lit "api:") hash then HApi (orNull (Some (substring 4 hash)))
      else docsParts hash
  end.

(** [x || ''] *)
Definition orEmpty (o : option jstr) : jstr := match o with Some s => s | None => [] end.

Definition buildHash (view : jstr) (doc section : option jstr) : jstr :=
  if decide (view = viewApi) then lit "#api:" ++ orEmpty doc
  else match orNull section with
       | Some s => lit "#docs:" ++ interp doc ++ lit ":" ++ s
       | None => match orNull doc with
                 | Some d => lit "#docs:" ++ d
                 | None => []
                 end
       end.

(** ** Slugs *)

Section slug.
Context `{CaseMapping}.

(** The class [[^\w\s-]] of the first replacement. *)
Definition slugBad (c : N) : bool :=
  negb (isWord c || isSpace c || (c =? cHyphen)).

Definition generateSlug (text : jstr) : jstr :=
  trim
    (collapseRuns (N.eqb cHyphen) [cHyphen] false
       (collapseRuns isSpace [cHyphen] false
          (removeAll slugBad (toLowerCase text)))).
End slug.

(** The characters of a slug. *)
Definition isSlugChar (c : N) : bool :=
  isLower c || isDigit c || (c =? 95) || (c =? cHyphen).

(** ** Lemmas on base paths *)

Lemma htmlSegment_slash a b : htmlSegment (a ++ cSlash :: b) = false.
Proof.
  unfold htmlSegment. rewrite allb_app. cbn [allb forallb]. rewrite N.eqb_refl.
  cbn [negb andb]. by rewrite andb_false_r.
Qed.

Lemma htmlMatch_slash c a b : htmlMatch (c :: a ++ cSlash :: b) = false.
Proof.
  cbn [htmlMatch]. rewrite htmlSegment_slash, andb_false_r.
  change (c :: a ++ cSlash :: b) with ((c :: a) ++ cSlash :: b).
  by rewrite htmlSegment_slash.
Qed.

Lemma stripHtml_page d seg :
  cSlash ∉ seg -> stripHtml (d ++ cSlash :: seg ++ lit ".html") = d.
Proof.
  intros Hseg. induction d as [|c d IH].
  - cbn [app stripHtml]. replace (htmlMatch _) with true; [done|]. symmetry.
    cbn [htmlMatch]. rewrite N.eqb_refl. unfold htmlSegment.
    rewrite allb_app. replace (endsWith _ _) with true.
    2: { symmetry. apply endsWith_spec. eauto. }
    replace (allb _ seg) with true; [done|]. symmetry. rewrite allb_Forall, Forall_forall.
    intros x Hx. apply negb_true_iff, N.eqb_neq. by intros ->.
  - cbn [app stripHtml]. rewrite htmlMatch_slash. by rewrite IH.
Qed.

Lemma stripHtml_no_html s : endsWith (lit ".html") s = false -> stripHtml s = s.
Proof.
  intros Hs. assert (Hall : forall a b, s = a ++ b -> endsWith (lit ".html") b = false).
  { intros a b ->. apply not_true_iff_false. rewrite endsWith_spec. intros [r ->].
    apply not_true_iff_false in Hs. apply Hs, endsWith_spec.
    exists (a ++ r). by rewrite app_assoc. }
  clear Hs. revert Hall. induction s as [|c r IH]; intros Hall; [done|].
  cbn [stripHtml]. replace (htmlMatch (c :: r)) with false.
  - rewrite IH; [done|]. intros a b ->. by apply (Hall (c :: a) b).
  - cbn [htmlMatch]. unfold htmlSegment.
    rewrite (Hall [c] r), (Hall [] (c :: r)) by done. by rewrite !andb_false_r.
Qed.

Lemma stripHtml_prefix s : exists r, s = stripHtml s ++ r.
Proof.
  induction s as [|c s [r Hr]]; [by exists []|]. cbn [stripHtml].
  destruct (htmlMatch (c :: s)); [by eexists|]. exists r. cbn. by rewrite <- Hr.
Qed.

Lemma sliceLast_app s c : sliceLast (s ++ [c]) = s.
Proof.
  unfold sliceLast. rewrite length_app. cbn. rewrite Nat.add_1_r. cbn.
  apply take_app_length.
Qed.

Lemma endsWith_char c s : endsWith [c] s = true <-> exists r, s = r ++ [c].
Proof. apply endsWith_spec. Qed.

Lemma getBasePath_slash d : getBasePath (d ++ [cSlash]) = d.
Proof.
  unfold getBasePath. rewrite stripHtml_no_html.
  - rewrite (proj2 (endsWith_char _ _)) by eauto. apply sliceLast_app.
  - apply not_true_iff_false. rewrite endsWith_spec. intros [r Hr].
    replace (lit ".html") with (lit ".htm" ++ [108]) in Hr by done.
    rewrite app_assoc in Hr. by apply app_inj_tail in Hr as [_ ?].
Qed.

Lemma getBasePath_shape p :
  startsWith [cSlash] p = true -> noRuns (N.eqb cSlash) p = true ->
  getBasePath p = []
  \/ exists c r, getBasePath p = cSlash :: c :: r /\ c <> cSlash.
Proof.
  intros Hp Hruns. destruct (stripHtml_prefix p) as [r Hr].
  unfold getBasePath. destruct (stripHtml p) as [|a [|b s]] eqn:E; [by left| |].
  - left. rewrite Hr in Hp. cbn in Hp. rewrite andb_true_r in Hp.
    apply N.eqb_eq in Hp as <-. done.
  - right. rewrite Hr in Hp, Hruns. cbn [app startsWith] in Hp.
    rewrite andb_true_r in Hp. apply N.eqb_eq in Hp as <-.
    cbn [app] in Hruns. rewrite noRuns_cons in Hruns.
    apply andb_true_iff in Hruns as [Hh _]. cbn in Hh. apply negb_true_iff, N.eqb_neq in Hh.
    destruct (endsWith [cSlash] _) eqn:Hend; [|eauto].
    apply endsWith_char in Hend as [q Hq]. rewrite Hq, sliceLast_app.
    destruct q as [|a' [|b' q]]; cbn in Hq; simplify_eq; eauto.
Qed.

(** ** Lemmas on hashes *)

Lemma docsParts_one d :
  d <> [] -> cColon ∉ d -> docsParts d = HDocs (Some d) None.
Proof.
  intros Hd Hc. unfold docsParts. rewrite splitOn_none by done. by destruct d.
Qed.

Lemma docsParts_two d s :
  d <> [] -> s <> [] -> cColon ∉ d -> cColon ∉ s ->
  docsParts (d ++ cColon :: s) = HDocs (Some d) (Some s).
Proof.
  intros Hd Hs Hc Hc'. unfold docsParts.
  rewrite splitOn_app, splitOn_none by done. by destruct d, s.
Qed.

Lemma parseHash_docs s : parseHash (lit "#docs:" ++ s) = docsParts s.
Proof. by destruct s. Qed.

(** The sections of a hash contain no separator. *)
Lemma splitOn_no_sep c s p : p ∈ splitOn c s -> c ∉ p.
Proof.
  revert p. induction s as [|x s IH]; intros p; cbn [splitOn].
  - intros ->%list_elem_of_singleton. apply not_elem_of_nil.
  - destruct (N.eqb_spec x c) as [->|Hne].
    + intros [->|H]%elem_of_cons; [apply not_elem_of_nil|auto].
    + destruct (splitOn c s) as [|h t] eqn:E; [by apply splitOn_ne in E|].
      intros [->|H]%elem_of_cons; [|apply IH; by right].
      rewrite not_elem_of_cons. split; [done|]. apply IH. by left.
Qed.

Lemma orNull_Some o s : orNull o = Some s -> o = Some s /\ s <> [].
Proof. destruct o as [[|x r]|]; cbn; intros [=]. by subst. Qed.

Lemma docsParts_fields x d s :
  docsParts x = HDocs d s ->
  (forall v, d = Some v \/ s = Some v -> v <> [] /\ cColon ∉ v).
Proof.
  unfold docsParts. intros [= <- <-] v [Hv|Hv];
    apply orNull_Some in Hv as [Hv Hne]; split; try done;
    eapply splitOn_no_sep; eapply list_elem_of_lookup_2; eauto.
Qed.

(** ** Lemmas on slugs *)

Lemma isSlugChar_not_space c : isSlugChar c = true -> isSpace c = false.
Proof. unfold isSlugChar, isSpace, isLower, isDigit, cHyphen. lia. Qed.

Lemma isSlugChar_ascii c : isSlugChar c = true -> isAscii c = true.
Proof. unfold isSlugChar, isAscii, isLower, isDigit, cHyphen. lia. Qed.

Lemma isSlugChar_lower c : isSlugChar c = true -> asciiLower c = c.
Proof.
  unfold isSlugChar, asciiLower, isUpper, isLower, isDigit, cHyphen.
  case_match; [lia|done].
Qed.

Lemma isSlugChar_not_bad c : isSlugChar c = true -> negb (slugBad c) = true.
Proof.
  unfold isSlugChar, slugBad, isWord, isUpper, isLower, isDigit, cHyphen. lia.
Qed.

Lemma slug_stage_space c :
  negb (isUpper c) = true -> negb (slugBad c) = true ->
  isSpace c || isSlugChar c = true.
Proof.
  unfold slugBad, isSlugChar, isWord.
  destruct (isUpper c), (isLower c), (isDigit c), (isSpace c), (c =? 95), (c =? cHyphen);
    by simpl.
Qed.

Section slug_lemmas.
Context `{CaseMapping}.

Definition slugHyphens (t : jstr) : jstr :=
  collapseRuns isSpace [cHyphen] false (removeAll slugBad (toLowerCase t)).

Lemma slugHyphens_chars t : allb isSlugChar (slugHyphens t) = true.
Proof.
  apply collapseRuns_all; [done|]. unfold removeAll.
  pose proof (toLowerCase_no_upper t) as Hup. revert Hup.
  generalize (toLowerCase t). intros s. induction s as [|c s IH]; [done|].
  cbn [allb forallb List.filter]. intros [Hc Hs]%andb_true_iff.
  destruct (negb (slugBad c)) eqn:Hb; [|by apply IH].
  cbn [forallb]. rewrite (slug_stage_space c) by done. by apply IH.
Qed.

Lemma slug_chars_pre t :
  allb isSlugChar
    (collapseRuns (N.eqb cHyphen) [cHyphen] false (slugHyphens t)) = true.
Proof.
  apply collapseRuns_all; [done|].
  eapply allb_impl; [|apply slugHyphens_chars]. intros c ->. by rewrite orb_true_r.
Qed.

(** The final [trim] of [generateSlug] never removes anything. *)
Lemma generateSlug_untrimmed t :
  generateSlug t = collapseRuns (N.eqb cHyphen) [cHyphen] false (slugHyphens t).
Proof.
  unfold generateSlug, trim. apply trim_with_id.
  eapply allb_impl; [|apply slug_chars_pre].
  intros c Hc. by rewrite isSlugChar_not_space.
Qed.

Lemma generateSlug_chars t : allb isSlugChar (generateSlug t) = true.
Proof. rewrite generateSlug_untrimmed. apply slug_chars_pre. Qed.

Lemma generateSlug_noRuns t : noRuns (N.eqb cHyphen) (generateSlug t) = true.
Proof. rewrite generateSlug_untrimmed. by apply collapseRuns_noRuns. Qed.

Lemma generateSlug_fixed s :
  allb isSlugChar s = true -> noRuns (N.eqb cHyphen) s = true -> generateSlug s = s.
Proof.
  intros Hs Hr. rewrite generateSlug_untrimmed. unfold slugHyphens, removeAll.
  rewrite toLowerCase_ascii by (eapply allb_impl; [apply isSlugChar_ascii|done]).
  replace (map asciiLower s) with s.
  2: { clear Hr. induction s as [|c s IH]; [done|].
       cbn [allb forallb map] in *. apply andb_true_iff in Hs as [Hc Hs].
       rewrite isSlugChar_lower by done. by rewrite <- IH. }
  rewrite allb_filter by (eapply allb_impl; [apply isSlugChar_not_bad|done]).
  rewrite (collapseRuns_id isSpace); [by apply collapseRuns_noRuns_id|].
  eapply allb_impl; [|exact Hs]. intros c Hc. by rewrite isSlugChar_not_space.
Qed.

Lemma slug_no_colon t : cColon ∉ generateSlug t.
Proof. intros Hc. by eapply allb_elem in Hc; [|apply generateSlug_chars]. Qed.
End slug_lemmas.

(** ** Properties *)

(** A docs hash built from a document key and an optional section parses back
    to exactly that document and section, for every key and section the router
    can name (non-empty, without the separator). *)
Theorem parseHash_buildHash_docs (doc : jstr) (section : option jstr) :
  doc <> [] -> cColon ∉ doc ->
  (forall s, section = Some s -> s <> [] /\ cColon ∉ s) ->
  parseHash (buildHash viewDocs (Some doc) section) = HDocs (Some doc) section.
Proof.
  intros Hd Hc Hs. unfold buildHash. rewrite decide_False by done.
  destruct section as [s|].
  - destruct (Hs s eq_refl) as [Hne Hcs]. destruct s as [|x s]; [done|].
    cbn [orNull interp]. rewrite parseHash_docs. by apply docsParts_two.
  - destruct doc as [|x doc]; [done|]. cbn [orNull]. rewrite parseHash_docs.
    by apply docsParts_one.
Qed.

Lemma parseHash_buildHash_docs_witness :
  parseHash (buildHash viewDocs (Some (lit "mcp/introduction")) (Some (lit "tools")))
  = HDocs (Some (lit "mcp/introduction")) (Some (lit "tools")).
Proof.
  apply (parseHash_buildHash_docs (lit "mcp/introduction") (Some (lit "tools"))).
  - done.
  - by apply (bool_decide_eq_true_1 (cColon ∉ lit "mcp/introduction")).
  - intros s [= <-]. split; [done|]. by apply (bool_decide_eq_true_1 (cColon ∉ lit "tools")).
Defined.

(** Routing is a normal form.  Whatever hash the address bar holds, prefixed or
    in the older unprefixed form, the document it selects and the hash rebuilt
    from it select the same document and section. *)
Theorem parseHash_normal_form (x d : jstr) :
  hdDoc (parseHash x) = Some d ->
  parseHash (buildHash (hdView (parseHash x)) (Some d) (hdSection (parseHash x)))
  = parseHash x.
Proof.
  intros Hd. destruct (parseHash x) as [d' s|t] eqn:E; [|done].
  cbn [hdDoc hdView hdSection] in *. subst d'.
  assert (Hf : forall v, Some d = Some v \/ s = Some v -> v <> [] /\ cColon ∉ v).
  { unfold parseHash in E. repeat case_match; try done; by eapply docsParts_fields. }
  destruct (Hf d (or_introl eq_refl)) as [Hne Hc].
  unfold buildHash. rewrite decide_False by done. destruct s as [s|].
  - destruct (Hf s (or_intror eq_refl)) as [Hsne Hsc]. destruct s as [|y s]; [done|].
    cbn [orNull interp]. rewrite parseHash_docs. by apply docsParts_two.
  - destruct d as [|y d]; [done|]. cbn [orNull]. rewrite parseHash_docs.
    by apply docsParts_one.
Qed.

Lemma parseHash_normal_form_witness :
  parseHash (buildHash viewDocs (Some (lit "a/b")) (Some (lit "c")))
  = parseHash (lit "#a/b:c:ignored").
Proof.
  apply (parseHash_normal_form (lit "#a/b:c:ignored") (lit "a/b")). reflexivity.
Defined.

(** A slug consists of lower-case letters, digits, underscores and hyphens
    only, never has two hyphens in a row, and is a fixed point of
    [generateSlug]; in particular the final [trim] has nothing to remove. *)
Theorem generateSlug_canonical `{CaseMapping} (t : jstr) :
  allb isSlugChar (generateSlug t) = true
  /\ noRuns (N.eqb cHyphen) (generateSlug t) = true
  /\ generateSlug (generateSlug t) = generateSlug t
  /\ generateSlug t = collapseRuns (N.eqb cHyphen) [cHyphen] false
                        (collapseRuns isSpace [cHyphen] false
                           (removeAll slugBad (toLowerCase t))).
Proof.
  split_and!; auto using generateSlug_chars, generateSlug_noRuns, generateSlug_fixed.
  apply generateSlug_untrimmed.
Qed.

(** However a page of a directory is opened (as [dir/page.html], as [dir/] or
    as [dir]), the base path is the directory, so the resources it loads are the
    same. *)
Theorem getBasePath_forms (d seg : jstr) :
  cSlash ∉ seg -> endsWith [cSlash] d = false -> endsWith (lit ".html") d = false ->
  getBasePath (d ++ cSlash :: seg ++ lit ".html") = d
  /\ getBasePath (d ++ [cSlash]) = d
  /\ getBasePath d = d.
Proof.
  intros Hseg Hd Hh. split_and!.
  - unfold getBasePath. rewrite stripHtml_page by done. by rewrite Hd.
  - apply getBasePath_slash.
  - unfold getBasePath. rewrite stripHtml_no_html by done. by rewrite Hd.
Qed.

Lemma getBasePath_forms_witness :
  getBasePath (lit "/docs/index.html") = lit "/docs"
  /\ getBasePath (lit "/docs/") = lit "/docs" /\ getBasePath (lit "/docs") = lit "/docs".
Proof.
  apply (getBasePath_forms (lit "/docs") (lit "index")); [|reflexivity..].
  by apply (bool_decide_eq_true_1 (cSlash ∉ lit "index")).
Defined.

(** The URL of a resource is never protocol-relative: on a page whose path is
    absolute and has no empty segment, [buildUrl] of a relative resource starts
    with exactly one slash, so it stays on the page's own host. *)
Theorem buildUrl_same_host (pathname path : jstr) :
  startsWith [cSlash] pathname = true -> noRuns (N.eqb cSlash) pathname = true ->
  startsWith (lit "//") path = false ->
  startsWith [cSlash] (buildUrl pathname path) = true
  /\ startsWith (lit "//") (buildUrl pathname path) = false.
Proof.
  intros Hp Hruns Hpath. unfold buildUrl.
  destruct (getBasePath_shape pathname Hp Hruns) as [->|(c & r & -> & Hc)].
  - split; [done|]. destruct path as [|x path]; [done|].
    change (lit "//") with [cSlash; cSlash] in *. unfold substring.
    cbn [startsWith] in *. rewrite andb_true_r. rewrite N.eqb_refl. cbn [andb].
    destruct (N.eqb_spec cSlash x) as [<-|Hx]; cbn [andb] in *.
    + cbn [drop]. done.
    + by rewrite (proj2 (N.eqb_neq cSlash x)).
  - split; [done|]. change (lit "//") with [cSlash; cSlash]. cbn [app startsWith andb].
    rewrite N.eqb_refl. cbn [andb]. by rewrite (proj2 (N.eqb_neq cSlash c)).
Qed.

Lemma buildUrl_same_host_witness :
  startsWith [cSlash] (buildUrl (lit "/") (lit "assets/nav.json")) = true
  /\ startsWith (lit "//") (buildUrl (lit "/") (lit "assets/nav.json")) = false.
Proof. apply buildUrl_same_host; reflexivity. Defined.
