(* ===== verification/SearchPalette.v ===== *)
(** * The full-text search palette ([docs/ui/assets/search.js])

    Ranking ([score], [runSearch]), result snippets ([snippet]) and their HTML
    ([render]), and the palette as a state machine over its events: typing, the
    arrow keys, Enter, opening and closing, and the asynchronous load of the
    index. *)

From stdpp Require Import strings numbers pretty list sorting.
From S2P Require Import Prelude JsString Routing.
Open Scope N_scope.
#[local] Set Default Proof Using "Type".

(** One record of [assets/search-index.json]. *)
Record SearchRec := mkRec {
  rFile : jstr;
  rDocTitle : jstr;
  rHeading : jstr;
  rHeadingId : jstr;
  rText : jstr;
}.

#[export] Instance SearchRec_eq_dec : EqDecision SearchRec.
Proof. solve_decision. Defined.

(** ** Escaping *)

(** The class [[.*+?^${}()|[\]\\]] of [escapeRe]. *)
Definition reSyntax : jstr := lit ".*+?^${}()|[]\".

Definition isReSyntax (c : N) : bool := bool_decide (c ∈ reSyntax).

Definition cBackslash : N := 92.
Definition cBar : N := 124.

Definition escapeRe (s : jstr) : jstr :=
  flat_map (fun c => if isReSyntax c then [cBackslash; c] else [c]) s.

Definition escapeChar (c : N) : jstr :=
  if c =? 38 then lit "&amp;" else if c =? 60 then lit "&lt;"
  else if c =? 62 then lit "&gt;" else [c].

Definition escapeHtml (s : jstr) : jstr := flat_map escapeChar s.

(** ** Ranking *)

Section ranking.
Context `{CaseMapping}.

(** The [while] loop of [score]: at most [n] further hits, the search resuming
    after the previous hit. *)
Fixpoint countHits (n : nat) (t text : jstr) (idx : option nat) : nat :=
  match n, idx with
  | S n', Some i => S (countHits n' t text (indexOf t text (i + length t)))
  | _, _ => 0%nat
  end.

(** The body of the [for] loop of [score] on the term [t]: the points of [t],
    [None] when it occurs nowhere. *)
Definition termPoints (heading title text t : jstr) : option nat :=
  let h := bool_decide (is_Some (indexOf t heading 0)) in
  let d := bool_decide (is_Some (indexOf t title 0)) in
  let hits := countHits 5 t text (indexOf t text 0) in
  if h || d || Nat.ltb 0 hits
  then Some ((if h then 10 else 0) + (if d then 4 else 0) + 2 * hits)%nat
  else None.

Fixpoint scoreLoop (heading title text : jstr) (terms : list jstr) (s : nat) : nat :=
  match terms with
  | [] => s
  | [] :: ts => scoreLoop heading title text ts s
  | t :: ts =>
      match termPoints heading title text t with
      | Some p => scoreLoop heading title text ts (s + p)%nat
      | None => 0%nat
      end
  end.

Definition score (rec : SearchRec) (terms : list jstr) : nat :=
  scoreLoop (toLowerCase (rHeading rec)) (toLowerCase (rDocTitle rec))
    (toLowerCase (rText rec)) terms 0.

(** [q.toLowerCase().split(/\s+/).filter(Boolean)] *)
Definition queryTerms (q : jstr) : list jstr :=
  List.filter (fun t => negb (bool_decide (t = []))) (splitRuns isSpace false (toLowerCase q)).

Record Hit := mkHit { hRec : SearchRec; hScore : nat; hTerms : list jstr }.

(** The stable sort by descending score that [scored.sort] is. *)
Fixpoint insertHit (x : Hit) (l : list Hit) : list Hit :=
  match l with
  | [] => [x]
  | y :: r => if Nat.leb (hScore y) (hScore x) then x :: l else y :: insertHit x r
  end.

Definition sortHits (l : list Hit) : list Hit := foldr insertHit [] l.

Fixpoint scoredHits (index : list SearchRec) (terms : list jstr) : list Hit :=
  match index with
  | [] => []
  | rec :: r =>
      let sc := score rec terms in
      if Nat.ltb 0 sc then mkHit rec sc terms :: scoredHits r terms
      else scoredHits r terms
  end.

Definition rankedHits (index : list SearchRec) (terms : list jstr) : list Hit :=
  take 30 (sortHits (scoredHits index terms)).
End ranking.

(** ** Snippets *)

Section snippets.
Context `{CaseMapping}.

(** Regular expressions of the form [(lit|...|lit)], the only ones [snippet]
    builds: the pattern is read back to the list of its literal alternatives. *)
Fixpoint readAlternatives (p : jstr) (cur : jstr) : option (list jstr) :=
  match p with
  | [] => Some [reverse cur]
  | c :: r =>
      if c =? cBackslash then
        match r with
        | d :: r' => if isReSyntax d then readAlternatives r' (d :: cur) else None
        | [] => None
        end
      else if c =? cBar then
        match readAlternatives r [] with
        | Some alts => Some (reverse cur :: alts)
        | None => None
        end
      else if isReSyntax c then None
      else readAlternatives r (c :: cur)
  end.

(** [terms.map(escapeRe).join('|')] *)
Fixpoint joinBar (l : list jstr) : jstr :=
  match l with
  | [] => []
  | [x] => x
  | x :: r => x ++ [cBar] ++ joinBar r
  end.

(** ['(' + terms.map(escapeRe).join('|') + ')'] and its reading back. *)
Definition highlightPattern (terms : list jstr) : jstr :=
  lit "(" ++ joinBar (map escapeRe terms) ++ lit ")".

Definition readPattern (p : jstr) : option (list jstr) :=
  match p with
  | c :: r => if (c =? 40) && endsWith [41] r then readAlternatives (sliceLast r) [] else None
  | [] => None
  end.

(** [t] matches at the start of [s], ignoring case. *)
Fixpoint ciPrefix (t s : jstr) : bool :=
  match t, s with
  | [], _ => true
  | x :: t', y :: s' => (canonicalize x =? canonicalize y) && ciPrefix t' s'
  | _ :: _, [] => false
  end.

(** The first alternative that matches at the start of [s]: its length. *)
Fixpoint matchHere (alts : list jstr) (s : jstr) : option nat :=
  match alts with
  | [] => None
  | t :: r => if ciPrefix t s then Some (length t) else matchHere r s
  end.

(** [frag.replace(re, ...)] with the [g] flag, as the list of its pieces: matched
    ([true]) and unmatched ([false]).  An empty match advances by one. *)
Fixpoint segments (fuel : nat) (alts : list jstr) (s : jstr) : list (bool * jstr) :=
  match fuel with
  | O => [(false, s)]
  | S f =>
      match matchHere alts s, s with
      | Some (S n), _ => (true, take (S n) s) :: segments f alts (drop (S n) s)
      | Some O, c :: r => (true, []) :: (false, [c]) :: segments f alts r
      | Some O, [] => [(true, [])]
      | None, c :: r => (false, [c]) :: segments f alts r
      | None, [] => []
      end
  end.

Definition renderSegment (p : bool * jstr) : jstr :=
  if p.1 then lit "<mark>" ++ p.2 ++ lit "</mark>" else p.2.

Definition highlight (alts : list jstr) (s : jstr) : jstr :=
  flat_map renderSegment (segments (S (length s)) alts s).

(** The position of the earliest term, 0 when there is none. *)
Definition hitStep (low : jstr) (at_ : option nat) (t : jstr) : option nat :=
  match indexOf t low 0, at_ with
  | Some p, Some a => if Nat.ltb p a then Some p else at_
  | Some p, None => Some p
  | None, _ => at_
  end.

Definition firstHit (low : jstr) (terms : list jstr) : option nat :=
  fold_left (hitStep low) terms None.

Definition windowStart (rec : SearchRec) (terms : list jstr) : nat :=
  (default 0%nat (firstHit (toLowerCase (rText rec)) terms) - 50)%nat.

(** The text window, before escaping: 160 units, with an ellipsis (U+2026) when
    it does not start at the beginning. *)
Definition fragment (rec : SearchRec) (terms : list jstr) : jstr :=
  let start := windowStart rec terms in
  let frag := slice start (start + 160) (rText rec) in
  if Nat.ltb 0 start then 8230 :: frag else frag.

Definition snippet (rec : SearchRec) (terms : list jstr) : jstr :=
  let frag := escapeHtml (fragment rec terms) in
  match terms with
  | [] => frag
  | _ => match readPattern (highlightPattern terms) with
         | Some alts => highlight alts frag
         | None => frag  (* a SyntaxError; [readPattern_highlightPattern] excludes it *)
         end
  end.
End snippets.

(** ** The palette *)

(** A quotation mark, and a double-quoted attribute value. *)
Definition quoted (s : jstr) : jstr := [34] ++ s ++ [34].

Definition decimal (n : nat) : jstr := lit (pretty (N.of_nat n)).

(** [x || y] on strings *)
Definition orElse (x y : jstr) : jstr := match x with [] => y | _ => x end.

Record Palette := mkPalette {
  pIndex : option (list SearchRec);  (** [INDEX], [None] for [null] *)
  pLoading : bool;                   (** [loading] *)
  pResults : list Hit;               (** [results] *)
  pActive : Z;                       (** [active] *)
  pInput : jstr;                     (** [input.value] *)
  pOpen : bool;                      (** [overlay] has the class [open] *)
  pList : jstr;                      (** [list.innerHTML] *)
  pHash : option jstr;               (** the last value assigned to [location.hash] *)
}.

Definition initPalette : Palette := mkPalette None false [] 0 [] false [] None.

(** A keyboard event: [e.key], the modifiers and the target. *)
Record KeyEvent := mkKey {
  eKey : jstr;
  eMeta : bool;
  eCtrl : bool;
  eTag : jstr;
  eEditable : bool;
}.

Inductive PaletteEvent :=
| EInput (value : jstr)                         (** the user edits the input *)
| EKey (inInput : bool) (e : KeyEvent)          (** a key, in the input or elsewhere *)
| ERow (i : Z)                                  (** a click on the result row [i] *)
| EBackdrop                                     (** a click on the overlay itself *)
| ETrigger                                      (** a click on the trigger button *)
| EIndex (res : option (list SearchRec)).       (** the fetch of the index settles *)

Section palette.
Context `{CaseMapping}.

Definition rowHtml (active : Z) (i : nat) (h : Hit) : jstr :=
  let rec := hRec h in
  let crumb := escapeHtml (orElse (rDocTitle rec) (rFile rec)) ++
    match rHeading rec with
    | [] => []
    | hd => lit "<span class=" ++ quoted (lit "sep") ++ lit ">" ++ [8250]
              ++ lit "</span>" ++ escapeHtml hd
    end in
  lit "<li data-i=" ++ quoted (decimal i) ++ lit " class="
    ++ quoted (if decide (Z.of_nat i = active) then lit "active" else []) ++ lit ">"
    ++ lit "<div class=" ++ quoted (lit "search-crumb") ++ lit ">" ++ crumb ++ lit "</div>"
    ++ lit "<div class=" ++ quoted (lit "search-snippet") ++ lit ">"
    ++ snippet rec (hTerms h) ++ lit "</div></li>".

Fixpoint rowsHtml (active : Z) (i : nat) (l : list Hit) : jstr :=
  match l with
  | [] => []
  | h :: r => rowHtml active i h ++ rowsHtml active (S i) r
  end.

Definition renderHtml (st : Palette) : jstr :=
  match trim (pInput st) with
  | [] => []
  | _ => match pResults st with
         | [] => lit "<div class=" ++ quoted (lit "search-empty") ++ lit ">No results</div>"
         | l => rowsHtml (pActive st) 0 l
         end
  end.

Definition render (st : Palette) : Palette :=
  mkPalette (pIndex st) (pLoading st) (pResults st) (pActive st) (pInput st) (pOpen st)
    (renderHtml st) (pHash st).

Definition setResults (l : list Hit) (active : Z) (st : Palette) : Palette :=
  mkPalette (pIndex st) (pLoading st) l active (pInput st) (pOpen st) (pList st) (pHash st).

Definition setInput (v : jstr) (st : Palette) : Palette :=
  mkPalette (pIndex st) (pLoading st) (pResults st) (pActive st) v (pOpen st) (pList st)
    (pHash st).

(** [runSearch(q)]: without terms, or before the index is there, the results are
    dropped and [active] keeps its value. *)
Definition runSearch (q : jstr) (st : Palette) : Palette :=
  match queryTerms q, pIndex st with
  | (_ :: _) as terms, Some index => render (setResults (rankedHits index terms) 0 st)
  | _, _ => render (setResults [] (pActive st) st)
  end.

Definition close (st : Palette) : Palette :=
  mkPalette (pIndex st) (pLoading st) (pResults st) (pActive st) (pInput st) false
    (pList st) (pHash st).

(** The hash assigned by [go]. *)
Definition goHash (rec : SearchRec) : jstr :=
  lit "docs:" ++ rFile rec ++
    match rHeadingId rec with [] => [] | id => lit ":" ++ id end.

(** [results[i]]: [undefined] out of range. *)
Definition resultAt (st : Palette) (i : Z) : option Hit :=
  if (0 <=? i)%Z then pResults st !! Z.to_nat i else None.

Definition go (i : Z) (st : Palette) : Palette :=
  match resultAt st i with
  | None => st
  | Some r =>
      let st := close st in
      mkPalette (pIndex st) (pLoading st) (pResults st) (pActive st) (pInput st) (pOpen st)
        (pList st) (Some (goHash (hRec r)))
  end.

(** [ensureIndex] up to its first [await], and its settling. *)
Definition ensureIndex (st : Palette) : Palette :=
  if bool_decide (is_Some (pIndex st)) || pLoading st then st
  else mkPalette (pIndex st) true (pResults st) (pActive st) (pInput st) (pOpen st)
         (pList st) (pHash st).

Definition indexSettled (res : option (list SearchRec)) (st : Palette) : Palette :=
  if pLoading st
  then mkPalette (Some (default [] res)) false (pResults st) (pActive st) (pInput st)
         (pOpen st) (pList st) (pHash st)
  else st.

Definition open (st : Palette) : Palette :=
  ensureIndex
    (mkPalette (pIndex st) (pLoading st) (pResults st) (pActive st) [] true [] (pHash st)).

(** The [keydown] listener of the input. *)
Definition inputKey (e : KeyEvent) (st : Palette) : Palette :=
  if decide (eKey e = lit "ArrowDown") then
    render (setResults (pResults st)
              (Z.min (pActive st + 1) (Z.of_nat (length (pResults st)) - 1)) st)
  else if decide (eKey e = lit "ArrowUp") then
    render (setResults (pResults st) (Z.max (pActive st - 1) 0) st)
  else if decide (eKey e = lit "Enter") then go (pActive st) st
  else if decide (eKey e = lit "Escape") then close st
  else st.

(** The [keydown] listener of the document. *)
Definition documentKey (e : KeyEvent) (st : Palette) : Palette :=
  let typing :=
    bool_decide (eTag e ∈ [lit "INPUT"; lit "TEXTAREA"; lit "SELECT"]) || eEditable e in
  if bool_decide (eKey e ∈ [lit "k"; lit "K"]) && (eMeta e || eCtrl e) then
    (if pOpen st then close st else open st)
  else if bool_decide (eKey e = lit "/") && negb typing && negb (pOpen st) then open st
  else st.

Definition paletteStep (ev : PaletteEvent) (st : Palette) : Palette :=
  match ev with
  | EInput v => runSearch v (setInput v st)
  | EKey inInput e => documentKey e (if inInput then inputKey e st else st)
  | ERow i => go i st
  | EBackdrop => close st
  | ETrigger => open st
  | EIndex res => indexSettled res st
  end.

Definition runPalette (evs : list PaletteEvent) : Palette :=
  fold_left (fun st ev => paletteStep ev st) evs initPalette.
End palette.

(** ** Ranking: reference definitions and lemmas *)

(** The number of non-overlapping occurrences of [t], counted from the left. *)
Fixpoint nonOverlap (t : jstr) (skip : nat) (s : jstr) : nat :=
  match s with
  | [] => 0%nat
  | _ :: r =>
      match skip with
      | S k => nonOverlap t k r
      | O => if startsWith t s then S (nonOverlap t (pred (length t)) r)
             else nonOverlap t 0 r
      end
  end.

Lemma nonOverlap_skip t k s : nonOverlap t k s = nonOverlap t 0 (drop k s).
Proof.
  revert k. induction s as [|c s IH]; intros [|k]; try done. cbn [nonOverlap drop]. apply IH.
Qed.

Lemma nonOverlap_none t s :
  (forall k, startsWith t (drop k s) = false) -> nonOverlap t 0 s = 0%nat.
Proof.
  induction s as [|c s IH]; [done|]. intros Hn. cbn [nonOverlap].
  rewrite (Hn 0%nat : startsWith t (c :: s) = false). apply IH.
  intros k. apply (Hn (S k)).
Qed.

Lemma nonOverlap_next t s j :
  t <> [] -> (forall k, (k < j)%nat -> startsWith t (drop k s) = false) ->
  startsWith t (drop j s) = true ->
  nonOverlap t 0 s = S (nonOverlap t 0 (drop (j + length t) s)).
Proof.
  intros Ht. revert j. induction s as [|c s IH]; intros j Hlt Hj.
  - rewrite drop_nil in Hj. apply startsWith_nil_r in Hj. done.
  - destruct j as [|j].
    + cbn [drop] in Hj. cbn [nonOverlap]. rewrite Hj, nonOverlap_skip.
      destruct t as [|x t]; done.
    + cbn [nonOverlap]. rewrite (Hlt 0%nat ltac:(lia) : startsWith t (c :: s) = false).
      cbn [drop Nat.add] in *. apply IH; [|done]. intros k Hk. apply (Hlt (S k)). lia.
Qed.

(** The bounded loop computes the number of hits, cut at [n]. *)
Lemma countHits_spec n t text i :
  t <> [] ->
  countHits n t text (indexOf t text i) = Nat.min n (nonOverlap t 0 (drop i text)).
Proof.
  intros Ht. revert i. induction n as [|n IH]; intros i; [done|]. cbn [countHits].
  destruct (indexOf t text i) as [j|] eqn:Hj.
  - apply indexOf_Some in Hj as (Hij & Hs & Hl & Hk); [|done].
    rewrite IH. rewrite (nonOverlap_next t (drop i text) (j - i)); [|done|..].
    + rewrite drop_drop. replace (i + (j - i + length t))%nat with (j + length t)%nat by lia.
      lia.
    + intros k Hk'. rewrite drop_drop. apply Hk. lia.
    + rewrite drop_drop. by replace (i + (j - i))%nat with j by lia.
  - rewrite nonOverlap_none; [done|]. intros k. rewrite drop_drop.
    eapply indexOf_None; eauto. lia.
Qed.

Section score_spec.
Context `{CaseMapping}.

(** What the ranking means: per term, 10 points for the heading, 4 for the
    document title, 2 per hit in the text up to five hits. *)
Definition refPoints (rec : SearchRec) (t : jstr) : nat :=
  ((if decide (is_Some (indexOf t (toLowerCase (rHeading rec)) 0)) then 10 else 0)
   + (if decide (is_Some (indexOf t (toLowerCase (rDocTitle rec)) 0)) then 4 else 0)
   + 2 * Nat.min 5 (nonOverlap t 0 (toLowerCase (rText rec))))%nat.

Definition matchesTerm (rec : SearchRec) (t : jstr) : Prop :=
  occurs t (toLowerCase (rHeading rec)) \/ occurs t (toLowerCase (rDocTitle rec))
  \/ occurs t (toLowerCase (rText rec)).

Lemma nonOverlap_pos t s : t <> [] -> occurs t s <-> (0 < nonOverlap t 0 s)%nat.
Proof.
  intros Ht. rewrite occurs_indexOf by done.
  pose proof (countHits_spec 1 t s 0 Ht) as Hc. rewrite drop_0 in Hc.
  destruct (indexOf t s 0); cbn [countHits] in Hc.
  - split; [intros; lia|by eauto].
  - split; [by intros [? ?]|lia].
Qed.

Lemma termPoints_spec rec t :
  t <> [] ->
  termPoints (toLowerCase (rHeading rec)) (toLowerCase (rDocTitle rec))
    (toLowerCase (rText rec)) t
  = if decide (0 < refPoints rec t)%nat then Some (refPoints rec t) else None.
Proof.
  intros Ht. unfold termPoints, refPoints.
  rewrite countHits_spec, drop_0 by done.
  set (n := nonOverlap t 0 (toLowerCase (rText rec))).
  set (hd := is_Some (indexOf t (toLowerCase (rHeading rec)) 0)).
  set (tl := is_Some (indexOf t (toLowerCase (rDocTitle rec)) 0)).
  rewrite (bool_decide_decide hd), (bool_decide_decide tl).
  destruct (decide hd), (decide tl); cbn [orb];
    [rewrite decide_True by lia; f_equal; lia..|].
  destruct (Nat.ltb_spec 0 (Nat.min 5 n)).
  - rewrite decide_True by lia. f_equal; lia.
  - rewrite decide_False by lia. done.
Qed.

Lemma refPoints_pos rec t : t <> [] -> (0 < refPoints rec t)%nat <-> matchesTerm rec t.
Proof.
  intros Ht. unfold refPoints, matchesTerm.
  rewrite (nonOverlap_pos t (toLowerCase (rText rec))), !occurs_indexOf by done.
  repeat case_decide; split; try tauto; try lia.
  intros [?|[?|?]]; [done..|lia].
Qed.

Lemma refPoints_le rec t : (refPoints rec t <= 24)%nat.
Proof. unfold refPoints. repeat case_decide; lia. Qed.

Lemma scoreLoop_spec rec terms s :
  Forall (fun t => t <> []) terms ->
  scoreLoop (toLowerCase (rHeading rec)) (toLowerCase (rDocTitle rec))
    (toLowerCase (rText rec)) terms s
  = if decide (Forall (fun t => 0 < refPoints rec t)%nat terms)
    then (s + sum_list_with (refPoints rec) terms)%nat else 0%nat.
Proof.
  revert s. induction terms as [|t terms IH]; intros s Hne.
  - rewrite decide_True by done. cbn. lia.
  - apply Forall_cons in Hne as [Ht Hne]. destruct t as [|x t]; [done|].
    cbn [scoreLoop]. rewrite termPoints_spec by done.
    destruct (decide (0 < refPoints rec (x :: t))%nat) as [Hp|Hp].
    + rewrite IH by done. cbn [sum_list_with].
      destruct (decide (Forall _ terms)) as [Hf|Hf].
      * rewrite decide_True by by constructor. lia.
      * rewrite decide_False; [done|]. by inversion 1.
    + rewrite decide_False; [done|]. by inversion 1.
Qed.

Lemma refPoints_sum_le rec terms :
  (sum_list_with (refPoints rec) terms <= 24 * length terms)%nat.
Proof.
  induction terms as [|t terms IH]; cbn; [lia|]. pose proof (refPoints_le rec t). lia.
Qed.

Lemma refPoints_all_pos rec terms :
  Forall (fun t => t <> []) terms ->
  Forall (fun t => 0 < refPoints rec t)%nat terms <-> Forall (matchesTerm rec) terms.
Proof.
  rewrite !Forall_forall. intros Hne.
  split; intros Hf t Ht; apply refPoints_pos; auto.
Qed.

Lemma score_sum rec terms :
  Forall (fun t => t <> []) terms ->
  score rec terms = if decide (Forall (fun t => 0 < refPoints rec t)%nat terms)
                    then sum_list_with (refPoints rec) terms else 0%nat.
Proof. intros Hne. unfold score. by rewrite scoreLoop_spec. Qed.

Lemma score_pos rec terms :
  Forall (fun t => t <> []) terms ->
  (0 < score rec terms)%nat <-> terms <> [] /\ Forall (matchesTerm rec) terms.
Proof.
  intros Hne. rewrite score_sum, <- refPoints_all_pos by done.
  case_decide as Hd; [|split; [lia|tauto]].
  destruct terms as [|t terms]; cbn; [split; [lia|tauto]|].
  pose proof Hd as [Ht _]%Forall_cons. split; [done|lia].
Qed.

Lemma queryTerms_ne q : Forall (fun t => t <> []) (queryTerms q).
Proof.
  unfold queryTerms. rewrite List.Forall_forall. intros t [_ Ht]%filter_In.
  by bool_simpl.
Qed.
End score_spec.

(** ** The stable sort *)

Definition hitGe (x y : Hit) : Prop := (hScore y <= hScore x)%nat.

Lemma insertHit_perm x l : Permutation (x :: l) (insertHit x l).
Proof.
  induction l as [|y l IH]; [done|]. cbn [insertHit]. case_match; [done|].
  rewrite Permutation_swap. by constructor.
Qed.

Lemma sortHits_perm l : Permutation l (sortHits l).
Proof.
  induction l as [|x l IH]; [done|]. cbn. rewrite <- insertHit_perm. by constructor.
Qed.

Lemma insertHit_sorted x l :
  StronglySorted hitGe l -> StronglySorted hitGe (insertHit x l).
Proof.
  induction 1 as [|y l Hs IH Hall]; cbn [insertHit]; [by repeat constructor|].
  destruct (Nat.leb_spec (hScore y) (hScore x)) as [Hle|Hlt].
  - constructor; [by constructor|]. constructor; [done|].
    eapply Forall_impl; [exact Hall|]. unfold hitGe. intros z ?. lia.
  - constructor; [done|]. rewrite <- insertHit_perm. constructor; [|done].
    unfold hitGe. lia.
Qed.

Lemma sortHits_sorted l : StronglySorted hitGe (sortHits l).
Proof. induction l; cbn; [constructor|by apply insertHit_sorted]. Qed.

Lemma insertHit_filter k x l :
  List.filter (fun h => Nat.eqb (hScore h) k) (insertHit x l)
  = List.filter (fun h => Nat.eqb (hScore h) k) (x :: l).
Proof.
  induction l as [|y l IH]; [done|]. cbn [insertHit].
  destruct (Nat.leb_spec (hScore y) (hScore x)) as [Hle|Hlt]; [done|].
  cbn [List.filter] in *. rewrite IH.
  destruct (Nat.eqb_spec (hScore y) k), (Nat.eqb_spec (hScore x) k); try done. lia.
Qed.

(** Hits of equal score keep the order of the index. *)
Lemma sortHits_stable k l :
  List.filter (fun h => Nat.eqb (hScore h) k) (sortHits l)
  = List.filter (fun h => Nat.eqb (hScore h) k) l.
Proof.
  induction l as [|x l IH]; [done|]. cbn [sortHits foldr].
  rewrite insertHit_filter. cbn [List.filter]. change (foldr _ _ _) with (sortHits l).
  by rewrite IH.
Qed.

Lemma StronglySorted_app_l {A} (R : A -> A -> Prop) l1 l2 :
  StronglySorted R (l1 ++ l2) -> StronglySorted R l1.
Proof.
  induction l1 as [|x l1 IH]; cbn; [constructor|].
  intros [Hs Hf]%StronglySorted_inv. constructor; [auto|].
  by apply Forall_app in Hf as [? _].
Qed.

Lemma StronglySorted_app_rel {A} (R : A -> A -> Prop) l1 l2 x y :
  StronglySorted R (l1 ++ l2) -> x ∈ l1 -> y ∈ l2 -> R x y.
Proof.
  induction l1 as [|z l1 IH]; cbn; [by intros _ ?%elem_of_nil|].
  intros [Hs Hf]%StronglySorted_inv. rewrite elem_of_cons. intros [->|Hx] Hy; [|auto].
  rewrite Forall_forall in Hf. apply Hf. apply elem_of_app; by right.
Qed.

Section ranked.
Context `{CaseMapping}.

Lemma scoredHits_spec index terms h :
  h ∈ scoredHits index terms
  <-> hRec h ∈ index /\ hTerms h = terms /\ hScore h = score (hRec h) terms
      /\ (0 < hScore h)%nat.
Proof.
  induction index as [|rec index IH]; cbn [scoredHits].
  - rewrite !elem_of_nil. tauto.
  - destruct (Nat.ltb_spec 0 (score rec terms)) as [Hp|Hp].
    + rewrite !elem_of_cons, IH. split.
      * intros [->|(?&?&?&?)]; [cbn; tauto|tauto].
      * intros ([Heq|Hin]&Ht&Hs&Hpos); [|tauto]. left.
        destruct h; cbn in *; by subst.
    + rewrite IH, elem_of_cons. split; [tauto|].
      intros ([Heq|Hin]&Ht&Hs&Hpos); [|tauto]. subst. lia.
Qed.

Lemma rankedHits_elem index terms h :
  h ∈ rankedHits index terms -> h ∈ scoredHits index terms.
Proof.
  unfold rankedHits. intros Hin. rewrite (sortHits_perm (scoredHits index terms)).
  rewrite <- (take_drop 30 (sortHits _)). apply elem_of_app. by left.
Qed.
End ranked.

(** ** Escaping and highlighting *)

Lemma readAlternatives_escape_one x rest cur :
  readAlternatives (escapeRe x ++ rest) cur
  = readAlternatives rest (reverse x ++ cur).
Proof.
  revert cur. induction x as [|c x IH]; intros cur; [done|].
  cbn [escapeRe flat_map]. rewrite <- app_assoc. fold (escapeRe x).
  rewrite reverse_cons, <- app_assoc.
  destruct (isReSyntax c) eqn:Hc; cbn [app readAlternatives].
  - rewrite N.eqb_refl, Hc. apply IH.
  - destruct (N.eqb_spec c cBackslash) as [->|_]; [done|].
    destruct (N.eqb_spec c cBar) as [->|_]; [done|]. rewrite Hc. apply IH.
Qed.

Lemma readAlternatives_join x l :
  readAlternatives (joinBar (map escapeRe (x :: l))) [] = Some (x :: l).
Proof.
  revert x. induction l as [|y l IH]; intros x.
  - cbn [map joinBar]. rewrite <- (app_nil_r (escapeRe x)), readAlternatives_escape_one.
    cbn. by rewrite app_nil_r, reverse_involutive.
  - change (joinBar (map escapeRe (x :: y :: l)))
      with (escapeRe x ++ [cBar] ++ joinBar (map escapeRe (y :: l))).
    rewrite readAlternatives_escape_one. cbn [app readAlternatives].
    change (cBar =? cBackslash) with false. rewrite N.eqb_refl, IH.
    by rewrite app_nil_r, reverse_involutive.
Qed.

Lemma readPattern_highlightPattern x l :
  readPattern (highlightPattern (x :: l)) = Some (x :: l).
Proof.
  unfold highlightPattern, readPattern. cbn [lit app].
  rewrite (proj2 (endsWith_char _ _)) by (by eexists). change (40 =? 40) with true.
  cbn [andb]. rewrite sliceLast_app. apply readAlternatives_join.
Qed.

Lemma escapeChar_safe c : allb (fun d => negb ((d =? 60) || (d =? 62))) (escapeChar c) = true.
Proof.
  unfold escapeChar.
  destruct (N.eqb_spec c 38); [done|]. destruct (N.eqb_spec c 60); [done|].
  destruct (N.eqb_spec c 62); [done|]. cbn.
  rewrite (proj2 (N.eqb_neq c 60)), (proj2 (N.eqb_neq c 62)) by done. done.
Qed.

Lemma escapeHtml_safe s : allb (fun d => negb ((d =? 60) || (d =? 62))) (escapeHtml s) = true.
Proof.
  induction s as [|c s IH]; [done|]. cbn [escapeHtml flat_map].
  rewrite allb_app, escapeChar_safe. exact IH.
Qed.

Section highlighting.
Context `{CaseMapping}.

(** [a] and [b] are equal up to case. *)
Definition ciEq (a b : jstr) : Prop := map canonicalize a = map canonicalize b.

Lemma ciPrefix_spec t s :
  ciPrefix t s = true ->
  (length t <= length s)%nat /\ ciEq t (take (length t) s).
Proof.
  revert s. induction t as [|x t IH]; intros s.
  - intros _. split; [cbn; lia|done].
  - destruct s as [|y s]; [done|]. cbn. intros [Hxy Hts]%andb_true_iff. apply N.eqb_eq in Hxy.
    apply IH in Hts as [Hl He]. split; [lia|]. unfold ciEq in *. cbn. by rewrite Hxy, He.
Qed.

Lemma matchHere_spec alts s n :
  matchHere alts s = Some n ->
  (n <= length s)%nat /\ exists t, t ∈ alts /\ length t = n /\ ciEq t (take n s).
Proof.
  induction alts as [|t alts IH]; cbn [matchHere]; [done|].
  destruct (ciPrefix t s) eqn:E.
  - intros [= <-]. apply ciPrefix_spec in E as [Hl He]. split; [done|].
    exists t. split; [by left|done].
  - intros Hm. destruct (IH Hm) as (Hl & t' & Ht' & ?). split; [done|].
    exists t'. split; [by right|done].
Qed.

Lemma segments_spec fuel alts s :
  (length s < fuel)%nat -> Forall (fun t => t <> []) alts ->
  concat (map snd (segments fuel alts s)) = s
  /\ Forall (fun p => p.1 = true -> exists t, t ∈ alts /\ ciEq t p.2)
       (segments fuel alts s).
Proof.
  revert s. induction fuel as [|f IH]; intros s Hf Hne; [lia|]. cbn [segments].
  destruct (matchHere alts s) as [[|n]|] eqn:Em.
  - apply matchHere_spec in Em as (_ & t & Ht & Hlen & _).
    rewrite Forall_forall in Hne. specialize (Hne t Ht). by destruct t.
  - apply matchHere_spec in Em as (Hl & t & Ht & Hlen & Heq).
    destruct (IH (drop (S n) s)) as [H1 H2]; [rewrite length_drop; lia|done|].
    split; [cbn [map concat snd]; rewrite H1; apply take_drop|].
    constructor; [|done]. intros _. exists t. by split.
  - destruct s as [|c r]; [by split|].
    destruct (IH r) as [H1 H2]; [cbn in Hf; lia|done|].
    split; [cbn [map concat snd app]; by rewrite H1|]. by constructor.
Qed.
End highlighting.

(** ** The palette's invariant *)

Section palette_lemmas.
Context `{CaseMapping}.

(** The results on display come from the loaded index, [active] points at one of
    them, and a load in flight means there is no index yet. *)
Definition paletteInv (st : Palette) : Prop :=
  (pLoading st = true -> pIndex st = None)
  /\ (pResults st <> [] -> (0 <= pActive st < Z.of_nat (length (pResults st)))%Z)
  /\ (pResults st = []
      \/ exists index q, pIndex st = Some index /\ queryTerms q <> []
                         /\ pResults st = rankedHits index (queryTerms q)).

Lemma initPalette_inv : paletteInv initPalette.
Proof. split_and!; [done..|by left]. Qed.

Lemma paletteInv_ext st st' :
  pIndex st' = pIndex st -> pLoading st' = pLoading st -> pResults st' = pResults st ->
  pActive st' = pActive st -> paletteInv st -> paletteInv st'.
Proof. unfold paletteInv. by intros -> -> -> ->. Qed.

Lemma close_inv st : paletteInv st -> paletteInv (close st).
Proof. by apply paletteInv_ext. Qed.

Lemma runSearch_inv q st : paletteInv st -> paletteInv (runSearch q st).
Proof.
  intros (Hl & Ha & Hr). unfold runSearch.
  destruct (queryTerms q) as [|t ts] eqn:Eq; [by split_and!; [..|left]|].
  destruct (pIndex st) as [index|] eqn:Ei; [|by split_and!; [cbn..|left]].
  split_and!; cbn; rewrite ?Ei.
  - exact Hl.
  - destruct (rankedHits _ _); cbn; [done|lia].
  - right. exists index, q. by rewrite Eq.
Qed.

Lemma go_inv i st : paletteInv st -> paletteInv (go i st).
Proof. intros Hi. unfold go. case_match; [|done]. by eapply paletteInv_ext, Hi. Qed.

Lemma ensureIndex_inv st : paletteInv st -> paletteInv (ensureIndex st).
Proof.
  intros (Hl & Ha & Hr). unfold ensureIndex.
  destruct (pIndex st) eqn:Ei; cbn; [by split_and!; rewrite ?Ei|].
  destruct (pLoading st) eqn:El; [by split_and!; rewrite ?Ei, ?El|].
  by split_and!; cbn; rewrite ?Ei.
Qed.

Lemma open_inv st : paletteInv st -> paletteInv (open st).
Proof. intros Hi. apply ensureIndex_inv. by eapply paletteInv_ext, Hi. Qed.

Lemma setActive_inv st i :
  paletteInv st ->
  (pResults st <> [] -> (0 <= i < Z.of_nat (length (pResults st)))%Z) ->
  paletteInv (render (setResults (pResults st) i st)).
Proof. intros (Hl & Ha & Hr) Hi. by split_and!. Qed.

Lemma inputKey_inv e st : paletteInv st -> paletteInv (inputKey e st).
Proof.
  intros Hi. pose proof Hi as (_ & Ha & _). unfold inputKey.
  repeat case_decide; auto using go_inv, close_inv; apply setActive_inv; try done;
    intros Hne; specialize (Ha Hne); lia.
Qed.

Lemma documentKey_inv e st : paletteInv st -> paletteInv (documentKey e st).
Proof.
  intros Hi. unfold documentKey. repeat case_match; auto using close_inv, open_inv.
Qed.

Lemma indexSettled_inv res st : paletteInv st -> paletteInv (indexSettled res st).
Proof.
  intros (Hl & Ha & Hr). unfold indexSettled.
  destruct (pLoading st) eqn:El; [|by split_and!; rewrite ?El].
  split_and!; cbn; [done|done|]. destruct Hr as [Hr|(index & q & Hi & _)]; [by left|].
  rewrite Hl in Hi by done. done.
Qed.

Lemma paletteStep_inv ev st : paletteInv st -> paletteInv (paletteStep ev st).
Proof.
  destruct ev; cbn; intros Hi; auto using go_inv, close_inv, open_inv, indexSettled_inv.
  - apply runSearch_inv. by eapply paletteInv_ext, Hi.
  - apply documentKey_inv. case_match; auto using inputKey_inv.
Qed.

Lemma runPalette_snoc evs ev :
  runPalette (evs ++ [ev]) = paletteStep ev (runPalette evs).
Proof. unfold runPalette. by rewrite fold_left_app. Qed.

Lemma runPalette_inv evs : paletteInv (runPalette evs).
Proof.
  induction evs as [|ev evs IH] using rev_ind; [apply initPalette_inv|].
  rewrite runPalette_snoc. by apply paletteStep_inv.
Qed.

Lemma paletteStep_index ev st index :
  pIndex st = Some index -> pLoading st = false ->
  pIndex (paletteStep ev st) = Some index /\ pLoading (paletteStep ev st) = false.
Proof.
  intros Hi Hl.
  assert (Hopen : forall s, pIndex s = Some index -> pLoading s = false ->
    pIndex (open s) = Some index /\ pLoading (open s) = false).
  { intros s H1 H2. unfold open, ensureIndex. cbn. by rewrite H1. }
  assert (Hgo : forall i s, pIndex s = Some index -> pLoading s = false ->
    pIndex (go i s) = Some index /\ pLoading (go i s) = false).
  { intros i s H1 H2. unfold go. by case_match. }
  destruct ev as [v|b e|i| | |res]; cbn; try done; auto.
  - unfold runSearch. by repeat case_match.
  - assert (Hk : pIndex (if b then inputKey e st else st) = Some index
                 /\ pLoading (if b then inputKey e st else st) = false).
    { destruct b; [|done]. unfold inputKey. repeat case_decide; auto. }
    destruct Hk. unfold documentKey. repeat case_match; auto.
  - unfold indexSettled. by rewrite Hl.
Qed.

Lemma hitStep_fold low terms acc :
  match fold_left (hitStep low) terms acc with
  | Some p =>
      (acc = Some p \/ exists t, t ∈ terms /\ indexOf t low 0 = Some p)
      /\ (forall a, acc = Some a -> (p <= a)%nat)
      /\ (forall t p', t ∈ terms -> indexOf t low 0 = Some p' -> (p <= p')%nat)
  | None => acc = None
  end.
Proof.
  revert acc. induction terms as [|t terms IH]; intros acc; cbn [fold_left].
  - destruct acc as [a|]; [|done]. split_and!; [by left|by intros ? [= ->]|].
    by intros ? ? ?%elem_of_nil.
  - specialize (IH (hitStep low acc t)).
    destruct (fold_left (hitStep low) terms (hitStep low acc t)) as [p|].
    + destruct IH as (Hor & Ha & Hm). unfold hitStep in Hor, Ha.
      destruct (indexOf t low 0) as [i|] eqn:Ei; [destruct acc as [a|]|];
        [destruct (Nat.ltb_spec i a)|..]; (split_and!;
        [destruct Hor as [Hor|(t' & ? & ?)]; [|by right; exists t'; split; [right|]];
         first [by left|right; exists t; split; [left|congruence]]
        |intros a' Ha'; simplify_eq; try specialize (Ha _ eq_refl); lia
        |intros t' p' [->|Hin]%elem_of_cons Hp'; [|by eapply Hm];
         rewrite Ei in Hp'; simplify_eq; specialize (Ha _ eq_refl); lia]).
    + unfold hitStep in IH. by repeat case_match.
Qed.

Lemma firstHit_spec low terms p :
  firstHit low terms = Some p ->
  (exists t, t ∈ terms /\ indexOf t low 0 = Some p)
  /\ (forall t p', t ∈ terms -> indexOf t low 0 = Some p' -> (p <= p')%nat).
Proof.
  intros Hp. pose proof (hitStep_fold low terms None) as Hf.
  unfold firstHit in Hp. rewrite Hp in Hf. destruct Hf as ([?|?] & _ & ?); [done|by split].
Qed.
End palette_lemmas.

(** ** Properties *)

Section palette_properties.
Context `{CaseMapping}.

(** Ranking means what it says.  For the terms of any query, a record scores
    above zero exactly when there is a term and every term occurs in its
    heading, document title or text (AND semantics); its score is then the sum
    over the terms of 10 for the heading, 4 for the title and 2 per
    non-overlapping hit in the text up to five, hence at most 24 per term. *)
Theorem score_meaning (rec : SearchRec) (q : jstr) :
  ((0 < score rec (queryTerms q))%nat
   <-> queryTerms q <> [] /\ Forall (matchesTerm rec) (queryTerms q))
  /\ (score rec (queryTerms q)
      = if decide (Forall (fun t => 0 < refPoints rec t)%nat (queryTerms q))
        then sum_list_with (refPoints rec) (queryTerms q) else 0%nat)
  /\ (score rec (queryTerms q) <= 24 * length (queryTerms q))%nat.
Proof.
  pose proof (queryTerms_ne q) as Hne. pose proof (score_sum rec _ Hne) as Hs.
  split_and!; [by apply score_pos|done|].
  rewrite Hs. pose proof (refPoints_sum_le rec (queryTerms q)). case_decide; lia.
Qed.

(** The result list is the best of the matching records: together with the
    records it leaves out it is a permutation of all matches in descending
    score, it has the first thirty of them, and records of equal score keep
    the order of the index. *)
Theorem rankedHits_best (index : list SearchRec) (terms : list jstr) :
  exists rest,
    Permutation (rankedHits index terms ++ rest) (scoredHits index terms)
    /\ StronglySorted hitGe (rankedHits index terms ++ rest)
    /\ length (rankedHits index terms) = Nat.min 30 (length (scoredHits index terms))
    /\ (forall k, List.filter (fun h => Nat.eqb (hScore h) k) (rankedHits index terms ++ rest)
                  = List.filter (fun h => Nat.eqb (hScore h) k) (scoredHits index terms))
    /\ (forall h, h ∈ rankedHits index terms ++ rest
          <-> hRec h ∈ index /\ hTerms h = terms /\ hScore h = score (hRec h) terms
              /\ (0 < hScore h)%nat).
Proof.
  exists (drop 30 (sortHits (scoredHits index terms))). unfold rankedHits.
  rewrite take_drop. split_and!.
  - symmetry. apply sortHits_perm.
  - apply sortHits_sorted.
  - by rewrite length_take, <- (Permutation_length (sortHits_perm _)).
  - intros k. apply sortHits_stable.
  - intros h. rewrite <- scoredHits_spec, <- sortHits_perm. done.
Qed.

(** The pattern of the highlighter means the search terms literally: reading
    the regular expression built from any non-empty list of terms gives the
    terms back, whatever metacharacters they contain. *)
Theorem highlightPattern_literal (t : jstr) (ts : list jstr) :
  readPattern (highlightPattern (t :: ts)) = Some (t :: ts).
Proof. apply readPattern_highlightPattern. Qed.

(** C35: a snippet cannot inject markup.  It is the escaped text window cut into
    pieces, some of them wrapped in a mark element; no piece contains an angle
    bracket, the pieces concatenate to the escaped window, and every marked
    piece equals a search term up to case. *)
Theorem snippet_safe (rec : SearchRec) (terms : list jstr) :
  Forall (fun t => t <> []) terms ->
  exists segs,
    snippet rec terms = flat_map renderSegment segs
    /\ concat (map snd segs) = escapeHtml (fragment rec terms)
    /\ Forall (fun p => (60 ∉ p.2) /\ (62 ∉ p.2)) segs
    /\ Forall (fun p => p.1 = true -> exists t, t ∈ terms /\ ciEq t p.2) segs.
Proof.
  intros Hne. set (frag := escapeHtml (fragment rec terms)).
  assert (Hsafe : forall segs, concat (map snd segs) = frag ->
    Forall (fun p : bool * jstr => (60 ∉ p.2) /\ (62 ∉ p.2)) segs).
  { intros segs Hc. rewrite Forall_forall. intros p Hp.
    assert (Hin : forall c, c ∈ p.2 -> c ∈ frag).
    { intros c Hcp. rewrite <- Hc. rewrite list_elem_of_In, in_concat.
      exists p.2. rewrite <- !list_elem_of_In. split; [|done].
      apply list_elem_of_fmap. eauto. }
    split; intros Hbad%Hin; eapply allb_elem in Hbad; try apply escapeHtml_safe; done. }
  unfold snippet. fold frag. destruct terms as [|t ts].
  - exists [(false, frag)]. cbn. rewrite !app_nil_r.
    split_and!; [done..|apply Hsafe; cbn; apply app_nil_r|by repeat constructor].
  - rewrite readPattern_highlightPattern.
    destruct (segments_spec (S (length frag)) (t :: ts) frag) as [H1 H2];
      [lia|done|].
    exists (segments (S (length frag)) (t :: ts) frag). by split_and!; auto.
Qed.

(** A snippet shows the earliest hit: when a term occurs in the text of a
    record (in ASCII, so that lower-casing keeps positions), the window cut
    out of the text contains the earliest occurrence in full, for terms of up
    to 110 characters. *)
Theorem fragment_shows_first_hit (rec : SearchRec) (terms : list jstr) (p : nat) :
  allb isAscii (rText rec) = true ->
  firstHit (toLowerCase (rText rec)) terms = Some p ->
  Forall (fun t => t <> [] /\ (length t <= 110)%nat) terms ->
  exists t, t ∈ terms
    /\ map asciiLower (slice p (p + length t) (rText rec)) = t
    /\ occurs (slice p (p + length t) (rText rec)) (fragment rec terms).
Proof.
  intros Hasc Hp Hlen. destruct (firstHit_spec _ _ _ Hp) as [(t & Ht & Hi) _].
  rewrite Forall_forall in Hlen. destruct (Hlen t Ht) as [Hne Hl].
  exists t. split; [done|]. unfold fragment, windowStart. rewrite Hp. cbn [default from_option id].
  rewrite toLowerCase_ascii in Hi by done.
  apply indexOf_Some in Hi as (_ & Hs & Hlt & _); [|done].
  apply startsWith_spec in Hs as [r Hr]. rewrite length_map in Hlt.
  unfold slice. replace (p + length t - p)%nat with (length t) by lia. split.
  - change (map asciiLower) with (fmap (M:=list) asciiLower) in *.
    rewrite fmap_take, fmap_drop, Hr. apply take_app_length.
  - set (start := (p - 50)%nat).
    assert (Hocc : occurs (take (length t) (drop p (rText rec)))
                     (take (start + 160 - start) (drop start (rText rec)))).
    { exists (take (p - start) (drop start (rText rec))),
             (take (160 - (p - start) - length t) (drop (p + length t) (rText rec))).
      replace (start + 160 - start)%nat
        with ((p - start) + (length t + (160 - (p - start) - length t)))%nat by (unfold start; lia).
      rewrite <- take_take_drop, drop_drop.
      replace (start + (p - start))%nat with p by (unfold start; lia).
      by rewrite <- take_take_drop, drop_drop. }
    case_match; [|done]. destruct Hocc as (a & b & ->). by exists (8230 :: a), b.
Qed.

(** C14: whatever the user does, the palette's state is consistent: the results on
    display are the ranked hits of the loaded index for some query, [active]
    points at one of them as long as there is one, and an index load is in
    flight only while there is no index. *)
Theorem palette_invariant (evs : list PaletteEvent) :
  let st := runPalette evs in
  (pLoading st = true -> pIndex st = None)
  /\ (pResults st <> [] -> (0 <= pActive st < Z.of_nat (length (pResults st)))%Z)
  /\ (pResults st = []
      \/ exists index q, pIndex st = Some index /\ queryTerms q <> []
                         /\ pResults st = rankedHits index (queryTerms q)).
Proof. apply runPalette_inv. Qed.

(** Choosing a result leads to it.  In every reachable state, Enter or a click
    on a row either changes nothing (no such result) or closes the palette and
    assigns the hash of a record of the loaded index that matches the query. *)
Theorem palette_go_sound (evs : list PaletteEvent) (i : Z) :
  let st := runPalette evs in
  (resultAt st i = None /\ go i st = st)
  \/ exists index q h,
       pIndex st = Some index /\ resultAt st i = Some h /\ hRec h ∈ index
       /\ Forall (matchesTerm (hRec h)) (queryTerms q)
       /\ pOpen (go i st) = false /\ pHash (go i st) = Some (goHash (hRec h)).
Proof.
  set (st := runPalette evs). cbn. unfold go.
  destruct (resultAt st i) as [h|] eqn:Eh; [right|by left].
  destruct (runPalette_inv evs) as (_ & _ & [Hr|(index & q & Hi & Hq & Hr)]).
  - unfold resultAt in Eh. fold st in Hr. rewrite Hr, lookup_nil in Eh. by case_match.
  - fold st in Hi, Hr. exists index, q, h.
    assert (Hin : h ∈ pResults st).
    { unfold resultAt in Eh. case_match; [|done]. by eapply list_elem_of_lookup_2. }
    rewrite Hr in Hin. apply rankedHits_elem, scoredHits_spec in Hin as (Hin & _ & Hs & Hpos).
    rewrite Hs in Hpos.
    apply score_pos in Hpos as [_ Hpos]; [by split_and!|apply queryTerms_ne].
Qed.
End palette_properties.

(** A record and an index for the witnesses. *)
Definition sampleRec : SearchRec :=
  mkRec (lit "security/auth") (lit "Authentication") (lit "JWT & keys") (lit "jwt-keys")
    (lit "The gateway signs tokens & rotates <keys>.").

Lemma snippet_safe_witness :
  exists segs,
    snippet sampleRec [lit "KEYS"] = flat_map renderSegment segs
    /\ concat (map snd segs) = escapeHtml (fragment sampleRec [lit "KEYS"])
    /\ Forall (fun p => (60 ∉ p.2) /\ (62 ∉ p.2)) segs
    /\ Forall (fun p => p.1 = true -> exists t, t ∈ [lit "KEYS"] /\ ciEq t p.2) segs.
Proof. apply (snippet_safe sampleRec [lit "KEYS"]). by repeat constructor. Defined.

Lemma fragment_shows_first_hit_witness :
  exists t, t ∈ [lit "tokens"; lit "keys"]
    /\ map asciiLower (slice 18 (18 + length t) (rText sampleRec)) = t
    /\ occurs (slice 18 (18 + length t) (rText sampleRec))
         (fragment sampleRec [lit "tokens"; lit "keys"]).
Proof.
  apply (fragment_shows_first_hit sampleRec [lit "tokens"; lit "keys"] 18);
    [reflexivity|reflexivity|].
  repeat constructor; try done; cbn; lia.
Defined.

Section palette_properties2.
Context `{CaseMapping}.

(** Search and routing agree: the hash that choosing a record assigns parses,
    in the router, to the record's document and section (no section for the
    introductory record, whose heading id is empty). *)
Theorem goHash_routes (rec : SearchRec) :
  rFile rec <> [] -> cColon ∉ rFile rec -> cColon ∉ rHeadingId rec ->
  parseHash (cHash :: goHash rec) = HDocs (Some (rFile rec)) (orNull (Some (rHeadingId rec))).
Proof.
  intros Hf Hc Hh. unfold goHash.
  change (cHash :: lit "docs:" ++ ?x) with (lit "#docs:" ++ x). rewrite parseHash_docs.
  destruct (rHeadingId rec) as [|c id] eqn:E; cbn [orNull].
  - rewrite app_nil_r. by apply docsParts_one.
  - by apply docsParts_two.
Qed.

(** The index is fetched until it settles once.  Once [INDEX] is set, no event
    changes it or starts another load; this includes the empty index that a
    failed fetch leaves behind, which is truthy and so never fetched again. *)
Theorem index_settles_once (evs evs' : list PaletteEvent) (index : list SearchRec) :
  pIndex (runPalette evs) = Some index ->
  pIndex (runPalette (evs ++ evs')) = Some index
  /\ pLoading (runPalette (evs ++ evs')) = false.
Proof.
  intros Hi. induction evs' as [|ev evs' IH] using rev_ind.
  - rewrite app_nil_r. split; [done|].
    destruct (runPalette_inv evs) as (Hl & _ & _).
    destruct (pLoading (runPalette evs)); [|done]. rewrite Hl in Hi by done. done.
  - rewrite app_assoc, runPalette_snoc. destruct IH. by apply paletteStep_index.
Qed.

(** Reopening the palette clears the input and the list on screen but not the
    results behind them: if a result was selected when the palette was closed,
    then after reopening it, with nothing typed and nothing listed, Enter
    navigates to that old result. *)
Theorem reopened_palette_keeps_results (st : Palette) (h : Hit) (e : KeyEvent) :
  resultAt st (pActive st) = Some h -> eKey e = lit "Enter" ->
  let st' := open (close st) in
  pInput st' = [] /\ pList st' = [] /\ pOpen st' = true
  /\ pHash (inputKey e st') = Some (goHash (hRec h)).
Proof.
  intros Hr He st'.
  assert (Hsame : pResults st' = pResults st /\ pActive st' = pActive st
                  /\ pInput st' = [] /\ pList st' = [] /\ pOpen st' = true).
  { unfold st', open, ensureIndex. by case_match. }
  destruct Hsame as (Hrs & Ha & Hin & Hli & Hop). split_and!; [done..|].
  unfold inputKey. rewrite He.
  do 2 rewrite decide_False by done. rewrite decide_True by done.
  unfold go, resultAt in *. by rewrite Hrs, Ha, Hr.
Qed.
End palette_properties2.

Lemma goHash_routes_witness :
  parseHash (cHash :: goHash sampleRec)
  = HDocs (Some (lit "security/auth")) (Some (lit "jwt-keys")).
Proof.
  apply (goHash_routes sampleRec); [done|..].
  - by apply (bool_decide_eq_true_1 (cColon ∉ rFile sampleRec)).
  - by apply (bool_decide_eq_true_1 (cColon ∉ rHeadingId sampleRec)).
Defined.

Lemma index_settles_once_witness :
  pIndex (runPalette ([ETrigger; EIndex None] ++ [EBackdrop; ETrigger])) = Some []
  /\ pLoading (runPalette ([ETrigger; EIndex None] ++ [EBackdrop; ETrigger])) = false.
Proof. apply (index_settles_once [ETrigger; EIndex None] [EBackdrop; ETrigger] []). reflexivity. Defined.

Lemma reopened_palette_keeps_results_witness :
  let st := runPalette [ETrigger; EIndex (Some [sampleRec]); EInput (lit "tokens")] in
  let st' := open (close st) in
  pInput st' = [] /\ pList st' = [] /\ pOpen st' = true
  /\ pHash (inputKey (mkKey (lit "Enter") false false (lit "INPUT") false) st')
     = Some (lit "docs:security/auth:jwt-keys").
Proof.
  apply (reopened_palette_keeps_results
           (runPalette [ETrigger; EIndex (Some [sampleRec]); EInput (lit "tokens")])
           (mkHit sampleRec 2 [lit "tokens"])
           (mkKey (lit "Enter") false false (lit "INPUT") false)); reflexivity.
Defined.

(** The highlighter runs on the escaped text, so a term can match inside an
    entity: searching for [amp] in a text with an ampersand puts the mark inside
    the entity and the browser shows a literal [&] followed by [amp;]. *)
Theorem highlight_splits_entity :
  snippet (mkRec (lit "a") (lit "A") [] [] (lit "R&D")) (queryTerms (lit "amp"))
  = lit "R&<mark>amp</mark>;D".
Proof. reflexivity. Qed.
