(* ===== verification/Content.v ===== *)
(** * Rendered documents: heading anchors, table of contents, scroll spy

    The part of [docs/ui/assets/app.js] that works on a rendered document:
    [addHeadingAnchors], [buildTableOfContents] and the callback of its
    intersection observer.  The document is the list of its blocks in document
    order; how marked turns markdown into blocks is a parameter of the page
    ([Page.v]). *)

From stdpp Require Import strings numbers gmap list.
From S2P Require Import Prelude JsString Routing.
Open Scope N_scope.
#[local] Set Default Proof Using "Type".

(** The anchor [addHeadingAnchors] appends to a heading: its href, and whether the
    element still has the click listener attached to it. *)
Record Anchor := mkAnchor { aHref : jstr; aListener : bool }.

(** A heading element: its level, its [textContent], its [id] (empty when there is
    none) and its anchor child. *)
Record Heading := mkHeading {
  hLevel : nat;
  hText : jstr;
  hId : jstr;
  hAnchor : option Anchor;
}.

Inductive Block :=
| BHeading (h : Heading)
| BCode (lang text : jstr)
| BOther (html : jstr).

Section content.
Context `{CaseMapping}.

(** ** addHeadingAnchors *)

(** The body of the loop over [h1, h2]: the anchor's text ["#"] becomes part of
    the heading's [textContent]. *)
Definition anchorHeading (docName : jstr) (h : Heading) : Heading :=
  let text := hText h in
  let slug := generateSlug text in
  mkHeading (hLevel h) (text ++ [cHash]) slug
    (Some (mkAnchor (buildHash viewDocs (Some docName) (Some slug)) true)).

Definition isH12 (h : Heading) : bool := Nat.eqb (hLevel h) 1 || Nat.eqb (hLevel h) 2.

Definition anchorBlock (docName : jstr) (b : Block) : Block :=
  match b with
  | BHeading h => if isH12 h then BHeading (anchorHeading docName h) else b
  | _ => b
  end.

(** [tempDiv.innerHTML] as the new content: markup survives the serialisation,
    listeners do not. *)
Definition serializeBlock (b : Block) : Block :=
  match b with
  | BHeading h =>
      BHeading (mkHeading (hLevel h) (hText h) (hId h)
                  ((fun a => mkAnchor (aHref a) false) <$> hAnchor h))
  | _ => b
  end.

Definition addHeadingAnchors (html : list Block) (docName : jstr) : list Block :=
  map serializeBlock (map (anchorBlock docName) html).

(** ** buildTableOfContents *)

(** [s.replace(/#\s*$/, '')] *)
Fixpoint stripHash (s : jstr) : jstr :=
  match s with
  | [] => []
  | c :: r => if (c =? cHash) && allb isSpace r then [] else c :: stripHash r
  end.

Record TocItem := mkItem { itId : jstr; itText : jstr; itLevel : nat }.

Definition isH23 (h : Heading) : bool := Nat.eqb (hLevel h) 2 || Nat.eqb (hLevel h) 3.

(** The body of the loop over [h2, h3]: the heading with its id assigned, and the
    item pushed, if any. *)
Definition tocHeading (h : Heading) : Heading * option TocItem :=
  let text := trim (stripHash (hText h)) in
  match text with
  | [] => (h, None)
  | _ =>
      let id := match hId h with [] => generateSlug text | id => id end in
      (mkHeading (hLevel h) (hText h) id (hAnchor h),
       Some (mkItem id text (if Nat.eqb (hLevel h) 3 then 3 else 2)%nat))
  end.

Fixpoint tocItems (bs : list Block) : list Block * list TocItem :=
  match bs with
  | [] => ([], [])
  | b :: r =>
      let '(r', items) := tocItems r in
      match b with
      | BHeading h =>
          if isH23 h then
            let '(h', it) := tocHeading h in
            (BHeading h' :: r', match it with Some i => i :: items | None => items end)
          else (b :: r', items)
      | _ => (b :: r', items)
      end
  end.

Record TocLink := mkLink {
  tlHref : jstr;
  tlText : jstr;
  tlId : jstr;
  tlLevel3 : bool;
  tlActive : bool;
}.

Definition tocLink (docName : jstr) (it : TocItem) : TocLink :=
  mkLink (buildHash viewDocs (Some docName) (Some (itId it))) (itText it) (itId it)
    (Nat.eqb (itLevel it) 3) false.

(** The table of contents on the page: the links in the rail, whether the layout
    has the class [has-toc], and the ids the observer holds as visible ([None]
    without an observer). *)
Record Toc := mkToc {
  tcLinks : list TocLink;
  tcHasToc : bool;
  tcVisible : option (gset jstr);
}.

Definition emptyToc : Toc := mkToc [] false None.

Definition buildTableOfContents (content : list Block) (docName : jstr)
    : list Block * Toc :=
  let '(content', items) := tocItems content in
  if Nat.ltb (length items) 2 then (content', emptyToc)
  else (content', mkToc (map (tocLink docName) items) true (Some ∅)).

(** ** The scroll spy *)

(** One intersection entry: the id of its target and [isIntersecting]. *)
Definition spyVisible (entries : list (jstr * bool)) (visible : gset jstr) : gset jstr :=
  fold_left (fun vis (en : jstr * bool) =>
    if en.2 then {[en.1]} ∪ vis else vis ∖ {[en.1]}) entries visible.

(** The id of the first item, in document order, that is visible. *)
Fixpoint firstVisible (links : list TocLink) (visible : gset jstr) : option jstr :=
  match links with
  | [] => None
  | l :: r => if decide (tlId l ∈ visible) then Some (tlId l) else firstVisible r visible
  end.

(** [links] maps an id to the last link made for it; only those are toggled. *)
Fixpoint toggleLinks (activeId : jstr) (links : list TocLink) : list TocLink :=
  match links with
  | [] => []
  | l :: r =>
      (if decide (tlId l ∈ map tlId r) then l
       else mkLink (tlHref l) (tlText l) (tlId l) (tlLevel3 l)
              (bool_decide (tlId l = activeId)))
      :: toggleLinks activeId r
  end.

Definition spyCallback (entries : list (jstr * bool)) (t : Toc) : Toc :=
  match tcVisible t with
  | None => t
  | Some visible =>
      let visible' := spyVisible entries visible in
      let links :=
        match orNull (firstVisible (tcLinks t) visible') with
        | None => tcLinks t
        | Some activeId => toggleLinks activeId (tcLinks t)
        end in
      mkToc links (tcHasToc t) (Some visible')
  end.

(** ** Lemmas *)

Lemma stripHash_last s : stripHash (s ++ [cHash]) = s.
Proof.
  induction s as [|c s IH]; cbn [app stripHash].
  - by rewrite N.eqb_refl.
  - replace (allb isSpace (s ++ [cHash])) with false.
    + by rewrite andb_false_r, IH.
    + rewrite allb_app. cbn. by rewrite andb_false_r.
Qed.

Lemma stripHash_id s : cHash ∉ s -> stripHash s = s.
Proof.
  induction s as [|c s IH]; [done|]. rewrite not_elem_of_cons. intros [Hne Hs].
  cbn [stripHash]. rewrite (proj2 (N.eqb_neq c cHash)) by done. cbn. by rewrite IH.
Qed.

Lemma tocItems_elem bs it :
  it ∈ (tocItems bs).2 <->
  exists h, BHeading h ∈ bs /\ isH23 h = true /\ (tocHeading h).2 = Some it.
Proof.
  induction bs as [|b bs IH]; cbn [tocItems].
  - rewrite elem_of_nil. split; [done|]. by intros (? & ?%elem_of_nil & _).
  - destruct (tocItems bs) as [bs' items]. cbn [snd] in IH.
    assert (Hskip : (forall h, b = BHeading h -> isH23 h = true -> (tocHeading h).2 <> Some it)
            -> (it ∈ items <-> exists h, BHeading h ∈ b :: bs /\ isH23 h = true
                                        /\ (tocHeading h).2 = Some it)).
    { intros Hb. rewrite IH. split; intros (h & Hin & H1 & H2).
      - exists h. split; [by right|done].
      - apply elem_of_cons in Hin as [Heq|Hin]; [|eauto].
        destruct (Hb h (eq_sym Heq) H1 H2). }
    destruct b as [h| |]; [|by apply Hskip..].
    destruct (isH23 h) eqn:Eh; [|cbn; apply Hskip; intros h' [= ->]; congruence].
    destruct (tocHeading h) as [h' [i|]] eqn:Et; cbn [snd].
    + rewrite elem_of_cons. split.
      * intros [->|Hin]; [exists h; rewrite Et; split; [left|done]|].
        apply IH in Hin as (h0 & ? & ?). exists h0. split; [by right|done].
      * intros (h0 & Hin & H1 & H2).
        apply elem_of_cons in Hin as [[= ->]|Hin]; [left; rewrite Et in H2; by inversion H2|].
        right. apply IH. eauto.
    + apply Hskip. intros h0 [= <-] _. by rewrite Et.
Qed.

Lemma tocHeading_Some h it :
  (tocHeading h).2 = Some it ->
  itText it = trim (stripHash (hText h)) /\ itText it <> []
  /\ itLevel it = (if Nat.eqb (hLevel h) 3 then 3 else 2)%nat
  /\ itId it = match hId h with [] => generateSlug (itText it) | id => id end.
Proof.
  unfold tocHeading. destruct (trim (stripHash (hText h))) as [|c r] eqn:Et; [done|].
  intros [= <-]. done.
Qed.

Lemma toggleLinks_ids a links : map tlId (toggleLinks a links) = map tlId links.
Proof. induction links as [|l r IH]; cbn; [done|]. rewrite IH. by case_decide. Qed.

Lemma firstVisible_spec links visible id :
  firstVisible links visible = Some id ->
  exists l1 l l2, links = l1 ++ l :: l2 /\ tlId l = id /\ id ∈ visible
                  /\ Forall (fun l' => tlId l' ∉ visible) l1.
Proof.
  induction links as [|l r IH]; cbn; [done|]. case_decide as Hd.
  - intros [= <-]. by exists [], l, r.
  - intros Hr. destruct (IH Hr) as (l1 & l' & l2 & -> & ? & ? & ?).
    exists (l :: l1), l', l2. split_and!; try done. by constructor.
Qed.

(** The links that can ever be active: the last ones of their id. *)
Fixpoint onlyLastActive (links : list TocLink) : Prop :=
  match links with
  | [] => True
  | l :: r => (tlActive l = true -> tlId l ∉ map tlId r) /\ onlyLastActive r
  end.

Definition activeIds (links : list TocLink) : list jstr :=
  map tlId (List.filter tlActive links).

Lemma toggleLinks_last a links :
  onlyLastActive links -> onlyLastActive (toggleLinks a links).
Proof.
  induction links as [|l r IH]; cbn; [done|]. intros [Hl Hr].
  rewrite toggleLinks_ids. split; [|auto]. case_decide; [done|]. by intros _.
Qed.

Lemma toggleLinks_active a links :
  onlyLastActive links ->
  activeIds (toggleLinks a links) = if decide (a ∈ map tlId links) then [a] else [].
Proof.
  unfold activeIds. induction links as [|l r IH]; cbn [map toggleLinks List.filter].
  - intros _. rewrite decide_False; [done|]. apply not_elem_of_nil.
  - intros [Hl Hr]. specialize (IH Hr). cbn [map] in IH.
    destruct (decide (tlId l ∈ map tlId r)) as [Hin|Hnin].
    + destruct (tlActive l) eqn:Ea; [by specialize (Hl eq_refl)|]. rewrite IH.
      destruct (decide (a ∈ map tlId r)) as [Ha|Ha].
      * rewrite decide_True; [done|]. by right.
      * rewrite decide_False; [done|]. intros [->|?]%elem_of_cons; done.
    + cbn [tlActive]. destruct (decide (tlId l = a)) as [<-|Hne].
      * rewrite bool_decide_eq_true_2 by done. cbn. rewrite IH, decide_False by done.
        rewrite decide_True; [done|by left].
      * rewrite bool_decide_eq_false_2 by done. rewrite IH.
        destruct (decide (a ∈ map tlId r)) as [Ha|Ha].
        -- rewrite decide_True; [done|by right].
        -- rewrite decide_False; [done|]. intros [->|?]%elem_of_cons; done.
Qed.

Lemma tocLinks_inactive docName items : onlyLastActive (map (tocLink docName) items).
Proof. by induction items as [|it r IH]. Qed.

Lemma tocLinks_noactive docName items : activeIds (map (tocLink docName) items) = [].
Proof. unfold activeIds. by induction items as [|it r IH]. Qed.

(** The state of a table of contents after any number of observer callbacks. *)
Definition spyRun (batches : list (list (jstr * bool))) (t : Toc) : Toc :=
  fold_left (fun t entries => spyCallback entries t) batches t.

Lemma spyCallback_last entries t :
  onlyLastActive (tcLinks t) -> onlyLastActive (tcLinks (spyCallback entries t)).
Proof.
  intros Hl. unfold spyCallback. case_match; [|done]. cbn.
  case_match; auto using toggleLinks_last.
Qed.

Lemma spyRun_last batches t :
  onlyLastActive (tcLinks t) -> onlyLastActive (tcLinks (spyRun batches t)).
Proof.
  unfold spyRun. revert t. induction batches as [|e r IH]; intros t; cbn; [done|].
  intros Ht. by apply IH, spyCallback_last.
Qed.
End content.

(** ** Properties *)

#[global] Arguments activeIds : simpl never.

Section content_properties.
Context `{CaseMapping}.

(** The table of contents lists the document's sections.  On a document whose
    anchors were just added, its items are exactly one per second- or
    third-level heading with a non-empty caption; a second-level item shows the
    heading's own text (the anchor's ["#"] is taken off again), its id is the
    heading's slug, and following its link routes to that section. *)
Theorem toc_entries (bs : list Block) (d : jstr) (it : TocItem) :
  d <> [] -> cColon ∉ d -> (forall h, BHeading h ∈ bs -> hId h = []) ->
  it ∈ (tocItems (addHeadingAnchors bs d)).2 ->
  exists h, BHeading h ∈ bs
    /\ ((hLevel h = 2%nat /\ itLevel it = 2%nat /\ itText it = trim (hText h)
         /\ (generateSlug (hText h) <> [] -> itId it = generateSlug (hText h)))
        \/ (hLevel h = 3%nat /\ itLevel it = 3%nat /\ itText it = trim (stripHash (hText h))
            /\ itId it = generateSlug (itText it)))
    /\ (itId it <> [] -> parseHash (tlHref (tocLink d it)) = HDocs (Some d) (Some (itId it))).
Proof.
  intros Hd Hc Hids Hin. apply tocItems_elem in Hin as (h' & Hin & H23 & Hit).
  unfold addHeadingAnchors in Hin. rewrite map_map in Hin.
  apply list_elem_of_fmap in Hin as (b & Hb & Hin).
  destruct b as [h| |]; [|done..]. exists h. split; [done|].
  specialize (Hids h Hin). cbn [anchorBlock] in Hb.
  assert (Hroute : cColon ∉ itId it -> itId it <> [] ->
    parseHash (tlHref (tocLink d it)) = HDocs (Some d) (Some (itId it))).
  { intros Hci Hne. unfold tocLink, tlHref, buildHash. rewrite decide_False by done.
    destruct (itId it) as [|c r] eqn:Ei; [done|]. cbn [orNull interp].
    rewrite parseHash_docs. by apply docsParts_two. }
  apply tocHeading_Some in Hit as (Htxt & Hne & Hlev & Hid).
  assert (Hslug : cColon ∉ itId it).
  { rewrite Hid. destruct (isH12 h); cbn in Hb; injection Hb as ->; cbn [hId].
    - destruct (generateSlug (hText h)) eqn:E; [|rewrite <- E]; apply slug_no_colon.
    - rewrite Hids. apply slug_no_colon. }
  split; [|by apply Hroute].
  unfold isH23 in H23. unfold isH12 in Hb.
  destruct (Nat.eqb_spec (hLevel h) 2) as [H2|H2].
  - rewrite orb_true_r in Hb. cbn in Hb. injection Hb as ->. left.
    cbn [hText hLevel hId] in *. rewrite stripHash_last in Htxt. rewrite H2 in *.
    split_and!; try done. intros Hs. rewrite Hid. by destruct (generateSlug (hText h)).
  - destruct (Nat.eqb_spec (hLevel h) 1) as [H1|H1]; cbn in Hb; injection Hb as ->;
      cbn [hText hLevel hId] in *; [by rewrite H1 in H23|].
    destruct (Nat.eqb_spec (hLevel h) 2) as [|_]; [done|].
    destruct (Nat.eqb_spec (hLevel h) 3) as [H3|]; [|done].
    right. rewrite Hids in Hid. done.
Qed.

(** The scroll spy highlights one section.  After any sequence of observer
    callbacks at most one link of the table of contents is active; and after a
    callback that leaves some section visible, it is the link of the topmost
    visible one. *)
Theorem spy_highlights_topmost (bs : list Block) (d : jstr)
    (batches : list (list (jstr * bool))) (entries : list (jstr * bool)) :
  let t := spyRun batches (buildTableOfContents bs d).2 in
  (length (activeIds (tcLinks t)) <= 1)%nat
  /\ (forall visible id, tcVisible t = Some visible ->
        firstVisible (tcLinks t) (spyVisible entries visible) = Some id -> id <> [] ->
        activeIds (tcLinks (spyCallback entries t)) = [id]
        /\ exists l1 l l2, tcLinks t = l1 ++ l :: l2 /\ tlId l = id
             /\ Forall (fun l' => tlId l' ∉ spyVisible entries visible) l1).
Proof.
  set (t := spyRun batches (buildTableOfContents bs d).2). cbn.
  assert (Hinit : onlyLastActive (tcLinks (buildTableOfContents bs d).2)).
  { unfold buildTableOfContents. destruct (tocItems bs) as [c items].
    case_match; cbn; [done|apply tocLinks_inactive]. }
  assert (Hl : onlyLastActive (tcLinks t)) by by apply spyRun_last.
  split.
  - subst t. clear Hl. unfold spyRun. induction batches as [|e r IH] using rev_ind; cbn [fold_left].
    + unfold buildTableOfContents. destruct (tocItems bs) as [c items].
      case_match; [unfold activeIds; cbn; lia|]. cbn [snd tcLinks]. rewrite tocLinks_noactive. cbn. lia.
    + rewrite fold_left_app. cbn. fold (spyRun r (buildTableOfContents bs d).2) in *.
      set (t := spyRun r _) in *. unfold spyCallback. case_match; [|done]. cbn.
      case_match; [|done]. rewrite toggleLinks_active by by apply spyRun_last.
      case_decide; cbn; lia.
  - intros visible id Hv Hf Hne. pose proof (firstVisible_spec _ _ _ Hf)
      as (l1 & l & l2 & Heq & Hid & _ & Hall).
    split; [|by exists l1, l, l2]. unfold spyCallback. rewrite Hv. cbn. rewrite Hf.
    destruct id as [|c r]; [done|]. cbn [orNull]. rewrite toggleLinks_active by done.
    rewrite decide_True; [done|]. rewrite Heq, map_app. apply elem_of_app. right.
    cbn. rewrite Hid. by left.
Qed.
End content_properties.

Definition sampleBlocks : list Block :=
  [BHeading (mkHeading 1 (lit "Intro") [] None);
   BHeading (mkHeading 2 (lit "How it works") [] None); BOther (lit "<p>...</p>");
   BHeading (mkHeading 3 (lit "Using C#") [] None)].

Lemma toc_entries_witness :
  exists h, BHeading h ∈ sampleBlocks
    /\ ((hLevel h = 2%nat /\ 2%nat = 2%nat /\ lit "How it works" = trim (hText h)
         /\ (generateSlug (hText h) <> [] -> lit "how-it-works" = generateSlug (hText h)))
        \/ (hLevel h = 3%nat /\ 2%nat = 3%nat /\ lit "How it works" = trim (stripHash (hText h))
            /\ lit "how-it-works" = generateSlug (lit "How it works")))
    /\ (lit "how-it-works" <> [] ->
        parseHash (lit "#docs:a/b:how-it-works") = HDocs (Some (lit "a/b")) (Some (lit "how-it-works"))).
Proof.
  apply (toc_entries sampleBlocks (lit "a/b") (mkItem (lit "how-it-works") (lit "How it works") 2)).
  - done.
  - by apply (bool_decide_eq_true_1 (cColon ∉ lit "a/b")).
  - intros h Hin. unfold sampleBlocks in Hin.
    repeat (apply elem_of_cons in Hin as [Hin|Hin]; [by inversion Hin|]).
    by apply elem_of_nil in Hin.
  - left.
Defined.

(** A third-level heading that itself ends in ["#"] loses it in the table of
    contents: third-level headings have no anchor to take off. *)
Example toc_drops_hash :
  map itText (tocItems (addHeadingAnchors sampleBlocks (lit "a/b"))).2
  = [lit "How it works"; lit "Using C"].
Proof. reflexivity. Qed.
