(* ===== verification/Page.v ===== *)
(** * The documentation page as a state machine ([docs/ui/assets/app.js])

    The module-level variables of [app.js] ([DOCS_CONFIG], [currentView],
    [currentDoc]) together with the part of the DOM, the address bar and the
    local storage that its handlers read and write, and one definition per
    handler.  [loadMarkdownDocs] is asynchronous: it is cut at its two [await]s,
    and the loads in flight settle in any order. *)

From stdpp Require Import strings numbers gmap list.
From S2P Require Import Prelude JsString Routing Content.
Open Scope N_scope.
#[local] Set Default Proof Using "Type".

#[local] Set Warnings "-clear-no-such-hyp".

(** ** Data *)

(** [assets/nav.json] *)
Record NavLink := mkNavLink { nlTitle : jstr; nlFile : jstr }.
Record NavSection := mkNavSection { nsTitle : jstr; nsLinks : list NavLink }.
Record DocsConfig := mkConfig { dcSections : list NavSection; dcDefaultDoc : jstr }.

(** The initial value of [DOCS_CONFIG]. *)
Definition noConfig : DocsConfig := mkConfig [] [].

(** The links of all sections, in order. *)
Definition configLinks (c : DocsConfig) : list NavLink := flat_map nsLinks (dcSections c).

(** The address bar: the fragment with its ["#"], and the entries pushed before. *)
Record Location := mkLocation { locHash : jstr; locHistory : list jstr }.

(** Views: [currentView], the classes of [body], the [.nav-tab]s by [data-view] and
    the [.content-view]s by id, with their class [active]. *)
Record Views := mkViews {
  vCurrent : jstr;
  vBody : gset jstr;
  vTabs : list (jstr * bool);
  vContents : list (jstr * bool);
}.

(** A [.sidebar-link]. *)
Record SLink := mkSLink { slHref : jstr; slDoc : jstr; slTitle : jstr; slActive : bool }.

(** The sidebar, its overlay and the scroll lock of the body it sets. *)
Record Sidebar := mkSidebar {
  sbNotice : bool;
  sbTitles : list jstr;
  sbLinks : list SLink;
  sbOpen : bool;
  sbOverlay : bool;
  sbOverflow : jstr;
}.

(** What [#markdown-content] shows: the spinner of [index.html], the spinner of a
    load, a document, or one of the two error messages. *)
Inductive Shown :=
| SInitialSpinner
| SSpinner
| SDoc (doc : jstr) (blocks : list Block)
| SError
| SNavError.

Inductive Scroll := ScrollTop | ScrollTo (id : jstr) | ScrollOther.

(** A call of [loadMarkdownDocs] in flight: waiting for the response, or for its
    text. *)
Record Load := mkLoad { ldDoc : jstr; ldReading : bool }.

Record Docs := mkDocs {
  dCurrentDoc : option jstr;
  dShown : Shown;
  dToc : Toc;
  dLoads : list Load;
  dTimers : list jstr;
  dScroll : Scroll;
}.

(** The [data-theme] attribute, the stored theme, and what the toggle shows: the
    sun icon (true) or the moon icon. *)
Record Theme := mkTheme { thAttr : option jstr; thStored : option jstr; thSun : bool }.

Record Page := mkPage {
  pgConfig : DocsConfig;
  pgWidth : Z;
  pgLoc : Location;
  pgViews : Views;
  pgSidebar : Sidebar;
  pgDocs : Docs;
  pgTheme : Theme;
}.

Definition withConfig c p := mkPage c (pgWidth p) (pgLoc p) (pgViews p) (pgSidebar p) (pgDocs p) (pgTheme p).
Definition withLoc l p := mkPage (pgConfig p) (pgWidth p) l (pgViews p) (pgSidebar p) (pgDocs p) (pgTheme p).
Definition withViews v p := mkPage (pgConfig p) (pgWidth p) (pgLoc p) v (pgSidebar p) (pgDocs p) (pgTheme p).
Definition withSidebar s p := mkPage (pgConfig p) (pgWidth p) (pgLoc p) (pgViews p) s (pgDocs p) (pgTheme p).
Definition withDocs d p := mkPage (pgConfig p) (pgWidth p) (pgLoc p) (pgViews p) (pgSidebar p) d (pgTheme p).
Definition withTheme t p := mkPage (pgConfig p) (pgWidth p) (pgLoc p) (pgViews p) (pgSidebar p) (pgDocs p) t.

(** ** The address bar *)

(** [history.pushState(null, '', url)] and [replaceState] for a fragment url; the
    empty url leaves the address as it is. *)
Definition pushState (url : jstr) (l : Location) : Location :=
  mkLocation (match url with [] => locHash l | _ => url end) (locHash l :: locHistory l).

Definition replaceState (url : jstr) (l : Location) : Location :=
  mkLocation (match url with [] => locHash l | _ => url end) (locHistory l).

(** ** Views *)

Definition viewId (viewName : jstr) : jstr := viewName ++ lit "-view".

Definition switchToView (viewName : jstr) (v : Views) : Views :=
  mkViews viewName
    ({[viewId viewName]} ∪ (vBody v ∖ {[lit "docs-view"; lit "api-view"]}))
    (map (fun t => (t.1, bool_decide (t.1 = viewName))) (vTabs v))
    (map (fun c => (c.1, bool_decide (c.1 = viewId viewName))) (vContents v)).

(** ** Sidebar *)

Definition sidebarLink (isFirst : bool) (l : NavLink) : SLink :=
  mkSLink (buildHash viewDocs (Some (nlFile l)) None) (nlFile l) (nlTitle l) isFirst.

(** The links of [generateSidebar]: the first link of the first section is active. *)
Definition generateLinks (c : DocsConfig) : list SLink :=
  concat (imap (fun i s => imap (fun j l =>
    sidebarLink (Nat.eqb i 0 && Nat.eqb j 0) l) (nsLinks s)) (dcSections c)).

Definition generateSidebar (hasApi : bool) (c : DocsConfig) (s : Sidebar) : Sidebar :=
  mkSidebar hasApi (map nsTitle (dcSections c)) (generateLinks c) (sbOpen s) (sbOverlay s)
    (sbOverflow s).

Definition withLinks (ls : list SLink) (s : Sidebar) : Sidebar :=
  mkSidebar (sbNotice s) (sbTitles s) ls (sbOpen s) (sbOverlay s) (sbOverflow s).

Definition setActive (b : bool) (l : SLink) : SLink :=
  mkSLink (slHref l) (slDoc l) (slTitle l) b.

(** Only the links of document [doc] become active. *)
Definition highlightDoc (doc : jstr) (s : Sidebar) : Sidebar :=
  withLinks (map (fun l => setActive (bool_decide (slDoc l = doc)) l) (sbLinks s)) s.

(** Only the clicked link becomes active. *)
Definition highlightLink (i : nat) (s : Sidebar) : Sidebar :=
  withLinks (imap (fun j l => setActive (Nat.eqb i j) l) (sbLinks s)) s.

Definition cHidden : jstr := lit "hidden".

(** [toggleSidebar] *)
Definition toggleSidebar (s : Sidebar) : Sidebar :=
  mkSidebar (sbNotice s) (sbTitles s) (sbLinks s) (negb (sbOpen s)) (negb (sbOverlay s))
    (if negb (sbOpen s) then cHidden else []).

Definition closeSidebar (s : Sidebar) : Sidebar :=
  mkSidebar (sbNotice s) (sbTitles s) (sbLinks s) false false [].

(** ** Theme *)

Definition currentTheme (t : Theme) : jstr :=
  if decide (thAttr t = Some (lit "light")) then lit "light" else lit "dark".

(** [paint] of [setupThemeToggle]. *)
Definition paint (t : Theme) : Theme :=
  mkTheme (thAttr t) (thStored t) (bool_decide (currentTheme t = lit "dark")).

(** The click handler up to the reload of the document; [storageOk] tells whether
    [localStorage.setItem] succeeds. *)
Definition toggleTheme (storageOk : bool) (t : Theme) : Theme :=
  let next := if decide (currentTheme t = lit "dark") then lit "light" else lit "dark" in
  paint (mkTheme (Some next) (if storageOk then Some next else thStored t) (thSun t)).

(** ** Loading documents *)

Section page.
Context `{CaseMapping}.

(** [marked.parse] and the HTML parser of the browser; [None] when it throws. *)
Variable renderMarkdown : jstr -> option (list Block).
(** [HAS_API]: the page has the API tab. *)
Variable hasApi : bool.

(** [loadMarkdownDocs] up to its first [await]. *)
Definition loadMarkdownDocs (docName : jstr) (d : Docs) : Docs :=
  mkDocs (Some docName) SSpinner (dToc d) (dLoads d ++ [mkLoad docName false]) (dTimers d)
    (dScroll d).

Definition withLoads (ls : list Load) (d : Docs) : Docs :=
  mkDocs (dCurrentDoc d) (dShown d) (dToc d) ls (dTimers d) (dScroll d).

(** The [catch] block. *)
Definition loadFailed (i : nat) (d : Docs) : Docs :=
  mkDocs (dCurrentDoc d) SError (dToc d) (delete i (dLoads d)) (dTimers d) (dScroll d).

(** The fetch of load [i] settles: rejected or not [ok], or a response. *)
Definition fetchSettled (i : nat) (ok : bool) (d : Docs) : Docs :=
  match dLoads d !! i with
  | Some (mkLoad doc false) =>
      if ok then withLoads (<[i := mkLoad doc true]> (dLoads d)) d else loadFailed i d
  | _ => d
  end.

(** The text of load [i] arrives ([None]: reading it fails): the rest of
    [loadMarkdownDocs].  The document is rendered from [docName] of this call,
    whatever [currentDoc] is by now. *)
Definition textSettled (i : nat) (text : option jstr) (loc : Location) (d : Docs) : Docs :=
  match dLoads d !! i with
  | Some (mkLoad doc true) =>
      match text ≫= renderMarkdown with
      | None => loadFailed i d
      | Some blocks =>
          let html := addHeadingAnchors blocks doc in
          let '(content, toc) := buildTableOfContents html doc in
          let d' := mkDocs (dCurrentDoc d) (SDoc doc content) toc (delete i (dLoads d)) in
          match hdSection (parseHash (locHash loc)) with
          | Some section => d' (dTimers d ++ [section]) (dScroll d)
          | None => d' (dTimers d) ScrollTop
          end
      end
  | _ => d
  end.

(** [document.getElementById(id)] among the headings on display. *)
Definition hasElement (id : jstr) (s : Shown) : bool :=
  match s with
  | SDoc _ blocks =>
      existsb (fun b => match b with
                        | BHeading h => bool_decide (hId h = id)
                        | _ => false end) blocks
  | _ => false
  end.

Definition scrollToId (id : jstr) (d : Docs) : Docs :=
  if hasElement id (dShown d)
  then mkDocs (dCurrentDoc d) (dShown d) (dToc d) (dLoads d) (dTimers d) (ScrollTo id)
  else d.

(** The [setTimeout] callback of a finished load. *)
Definition timerFired (i : nat) (d : Docs) : Docs :=
  match dTimers d !! i with
  | Some id =>
      scrollToId id
        (mkDocs (dCurrentDoc d) (dShown d) (dToc d) (dLoads d) (delete i (dTimers d))
           (dScroll d))
  | None => d
  end.

(** ** Handlers *)

Definition startLoad (doc : jstr) (p : Page) : Page :=
  withDocs (loadMarkdownDocs doc (pgDocs p)) p.

Definition switchView (v : jstr) (p : Page) : Page :=
  withViews (switchToView v (pgViews p)) p.

(** [handleSidebarClick] on the link [i]. *)
Definition handleSidebarClick (i : nat) (p : Page) : Page :=
  match sbLinks (pgSidebar p) !! i with
  | None => p
  | Some l =>
      let docName := slDoc l in
      let p := withSidebar (highlightLink i (pgSidebar p)) p in
      let p := withLoc (pushState (buildHash viewDocs (Some docName) None) (pgLoc p)) p in
      let p := if decide (vCurrent (pgViews p) = viewDocs) then p
               else switchView viewDocs p in
      let p := startLoad docName p in
      if (pgWidth p <=? 768)%Z && sbOpen (pgSidebar p)
      then withSidebar (closeSidebar (pgSidebar p)) p else p
  end.

(** The click handler of [setupViewTabs] on the tab [i]. *)
Definition handleTabClick (i : nat) (p : Page) : Page :=
  match vTabs (pgViews p) !! i with
  | None => p
  | Some (viewName, _) =>
      let url :=
        if decide (viewName = viewApi) then buildHash viewApi (Some []) None
        else
          let hashData := parseHash (locHash (pgLoc p)) in
          let currentDoc := match hdDoc hashData with
                            | Some d => d
                            | None => dcDefaultDoc (pgConfig p)
                            end in
          buildHash viewDocs (Some currentDoc) None in
      switchView viewName (withLoc (pushState url (pgLoc p)) p)
  end.

(** The click handler of [setupThemeToggle]. *)
Definition handleThemeClick (storageOk : bool) (p : Page) : Page :=
  let p := withTheme (toggleTheme storageOk (pgTheme p)) p in
  match orNull (dCurrentDoc (pgDocs p)) with
  | Some d => startLoad d p
  | None => p
  end.

(** The nested [forEach] of both routing handlers: for every link of the document,
    highlight it and do [onFound]. *)
Definition routeLinks (doc : jstr) (onFound : Page -> Page) (p : Page) : bool * Page :=
  fold_left (fun (acc : bool * Page) l =>
    if decide (nlFile l = doc)
    then (true, onFound (withSidebar (highlightDoc doc (pgSidebar acc.2)) acc.2))
    else acc) (configLinks (pgConfig p)) (false, p).

(** The [hashchange] listener, after the address changed. *)
Definition handleHashChange (p : Page) : Page :=
  let hashData := parseHash (locHash (pgLoc p)) in
  if (pgWidth p <=? 768)%Z && bool_decide (hdView hashData = viewApi) then
    withLoc (replaceState (buildHash viewDocs (Some (dcDefaultDoc (pgConfig p))) None)
               (pgLoc p)) p
  else
    let p := if decide (hdView hashData = vCurrent (pgViews p)) then p
             else switchView (hdView hashData) p in
    if decide (hdView hashData = viewDocs) then
      match hdDoc hashData with
      | None => p
      | Some doc =>
          let '(isDocumentHash, p) := routeLinks doc (startLoad doc) p in
          match hdSection hashData with
          | Some section =>
              if isDocumentHash then p
              else withDocs (scrollToId section (pgDocs p)) p
          | None => p
          end
      end
    else p.

(** The user follows a link or edits the address: the fragment changes (an entry
    is pushed) and the event fires; nothing happens for an unchanged fragment. *)
Definition navigate (hash : jstr) (p : Page) : Page :=
  if decide (locHash (pgLoc p) = hash) then p
  else handleHashChange
         (withLoc (mkLocation hash (locHash (pgLoc p) :: locHistory (pgLoc p))) p).

(** A click on the anchor of the heading [i] of the document on display: the
    listener, if it is there, pushes the address and scrolls; otherwise the
    browser follows the href. *)
Definition handleAnchorClick (i : nat) (p : Page) : Page :=
  match dShown (pgDocs p) with
  | SDoc _ blocks =>
      match blocks !! i with
      | Some (BHeading (mkHeading _ _ id (Some a))) =>
          if aListener a
          then withDocs (scrollToId id (pgDocs p))
                 (withLoc (pushState (aHref a) (pgLoc p)) p)
          else navigate (aHref a) p
      | _ => p
      end
  | _ => p
  end.

(** A click on the link [i] of the table of contents. *)
Definition handleTocClick (i : nat) (p : Page) : Page :=
  match tcLinks (dToc (pgDocs p)) !! i with
  | None => p
  | Some l =>
      let d := pgDocs p in
      withDocs (mkDocs (dCurrentDoc d) (dShown d) (dToc d) (dLoads d) (dTimers d)
                  (ScrollTo (tlId l)))
        (withLoc (pushState (tlHref l) (pgLoc p)) p)
  end.

(** The [DOMContentLoaded] listener after [loadNavConfig]: the configuration
    arrived, or not. *)
Definition initLoaded (config : option DocsConfig) (p : Page) : Page :=
  match config with
  | None =>
      let d := pgDocs p in
      withDocs (mkDocs (dCurrentDoc d) SNavError (dToc d) (dLoads d) (dTimers d) (dScroll d)) p
  | Some cfg =>
      let p := withConfig cfg p in
      let p := withSidebar (generateSidebar hasApi cfg (pgSidebar p)) p in
      let hashData := parseHash (locHash (pgLoc p)) in
      let redirect := (pgWidth p <=? 768)%Z && bool_decide (hdView hashData = viewApi) in
      let p := if redirect
               then withLoc (replaceState (buildHash viewDocs (Some (dcDefaultDoc cfg)) None)
                               (pgLoc p)) p
               else p in
      let initialView := if redirect then viewDocs else hdView hashData in
      let p := if decide (initialView = viewDocs) then
                 match hdDoc hashData with
                 | Some doc =>
                     let '(docFound, p) := routeLinks doc id p in
                     startLoad (if docFound then doc else dcDefaultDoc cfg) p
                 | None => startLoad (dcDefaultDoc cfg) p
                 end
               else p in
      switchView initialView p
  end.

(** The page as [index.html] delivers it, with the address [hash] and the theme
    its inline script chose, after the synchronous part of [DOMContentLoaded]. *)
Definition initPage (width : Z) (hash : jstr) (attr stored : option jstr) : Page :=
  mkPage noConfig width (mkLocation hash [])
    (mkViews viewDocs ∅
       ((viewDocs, true) :: (if hasApi then [(viewApi, false)] else []))
       ((viewId viewDocs, true) :: (if hasApi then [(viewId viewApi, false)] else [])))
    (mkSidebar false [] [] false false [])
    (mkDocs None SInitialSpinner emptyToc [] [] ScrollOther)
    (paint (mkTheme attr stored false)).

Inductive PageEvent :=
| PSidebarClick (i : nat)
| PTabClick (i : nat)
| PThemeClick (storageOk : bool)
| PMenuToggle
| PNavigate (hash : jstr)
| PAnchorClick (i : nat)
| PTocClick (i : nat)
| PFetch (i : nat) (ok : bool)
| PText (i : nat) (text : option jstr)
| PTimer (i : nat)
| PSpy (entries : list (jstr * bool))
| PResize (width : Z).

Definition pageStep (ev : PageEvent) (p : Page) : Page :=
  match ev with
  | PSidebarClick i => handleSidebarClick i p
  | PTabClick i => handleTabClick i p
  | PThemeClick ok => handleThemeClick ok p
  | PMenuToggle => withSidebar (toggleSidebar (pgSidebar p)) p
  | PNavigate hash => navigate hash p
  | PAnchorClick i => handleAnchorClick i p
  | PTocClick i => handleTocClick i p
  | PFetch i ok => withDocs (fetchSettled i ok (pgDocs p)) p
  | PText i text => withDocs (textSettled i text (pgLoc p) (pgDocs p)) p
  | PTimer i => withDocs (timerFired i (pgDocs p)) p
  | PSpy entries =>
      let d := pgDocs p in
      withDocs (mkDocs (dCurrentDoc d) (dShown d) (spyCallback entries (dToc d)) (dLoads d)
                  (dTimers d) (dScroll d)) p
  | PResize w =>
      mkPage (pgConfig p) w (pgLoc p) (pgViews p) (pgSidebar p) (pgDocs p) (pgTheme p)
  end.

Definition pageRun (evs : list PageEvent) (p : Page) : Page :=
  fold_left (fun p ev => pageStep ev p) evs p.
End page.

(** ** Invariants *)

Section page_lemmas.
Context `{CaseMapping}.
Variable renderMarkdown : jstr -> option (list Block).
Variable hasApi : bool.

(** Induction over the nested loops of the routing handlers. *)
Lemma routeLinks_ind (P : Page -> Prop) doc onFound p :
  (forall q, P q -> P (onFound (withSidebar (highlightDoc doc (pgSidebar q)) q))) ->
  P p -> P (routeLinks doc onFound p).2.
Proof.
  intros Hstep. unfold routeLinks. generalize (configLinks (pgConfig p)). intros ls.
  assert (Hfold : forall b q, P q ->
    P (fold_left (fun (acc : bool * Page) l =>
         if decide (nlFile l = doc)
         then (true, onFound (withSidebar (highlightDoc doc (pgSidebar acc.2)) acc.2))
         else acc) ls (b, q)).2).
  { induction ls as [|l ls IH]; intros b q Hq; cbn [fold_left]; [done|].
    case_decide; apply IH; cbn [snd]; auto. }
  apply Hfold.
Qed.

(** A property of single page components that every handler preserves. *)
Record pageStable (P : Page -> Prop) : Prop := {
  st_switch : forall v p, P p -> P (switchView v p);
  st_links : forall ls p, P p -> P (withSidebar (withLinks ls (pgSidebar p)) p);
  st_toggle : forall p, P p -> P (withSidebar (toggleSidebar (pgSidebar p)) p);
  st_close : forall p, P p -> P (withSidebar (closeSidebar (pgSidebar p)) p);
  st_loc : forall l p, P p -> P (withLoc l p);
  st_docs : forall d p, P p -> P (withDocs d p);
  st_theme : forall t p, P p -> P (withTheme t p);
  st_width : forall w p, P p ->
    P (mkPage (pgConfig p) w (pgLoc p) (pgViews p) (pgSidebar p) (pgDocs p) (pgTheme p));
}.

Lemma handleHashChange_stable P p : pageStable P -> P p -> P (handleHashChange p).
Proof.
  intros HS Hp. destruct HS. unfold handleHashChange.
  case_match; [auto|]. set (q := if decide _ then p else _).
  assert (Hq : P q) by (unfold q; case_match; auto). clearbody q.
  cbv zeta. goal_decide; [|exact Hq].
  destruct (hdDoc _) as [doc|]; [|exact Hq].
  pose proof (routeLinks_ind P doc (startLoad doc) q) as Hr.
  destruct (routeLinks _ _ q) as [b q'].
  assert (Hq' : P q').
  { apply Hr; [|done]. intros r Hpr. unfold startLoad, highlightDoc. auto. }
  repeat case_match; auto.
Qed.

Lemma navigate_stable P hash p : pageStable P -> P p -> P (navigate hash p).
Proof.
  intros HS Hp. unfold navigate. case_decide; [done|].
  apply handleHashChange_stable; [done|]. by apply st_loc.
Qed.

Lemma pageStep_stable P ev p :
  pageStable P -> P p -> P (pageStep renderMarkdown ev p).
Proof.
  intros HS Hp. pose proof HS as HS'. destruct HS'.
  destruct ev; cbn [pageStep]; try (by apply navigate_stable);
    try (by apply st_docs0); try (by apply st_toggle0); try (by apply st_width0).
  - unfold handleSidebarClick, startLoad, highlightLink.
    destruct (_ !! i) as [l|]; [|done]. cbv zeta.
    set (q := withLoc _ _). assert (Hq : P q) by (unfold q; auto). clearbody q.
    set (r := withDocs _ _). assert (Hr : P r) by (unfold r; goal_decide; auto).
    clearbody r. case_match; auto.
  - unfold handleTabClick. repeat case_match; auto.
  - unfold handleThemeClick, startLoad. repeat case_match; auto.
  - unfold handleAnchorClick.
    repeat case_match; try done; [by apply st_docs0, st_loc0|by apply navigate_stable].
  - unfold handleTocClick. repeat case_match; auto.
Qed.

Lemma pageRun_snoc evs ev p :
  pageRun renderMarkdown (evs ++ [ev]) p
  = pageStep renderMarkdown ev (pageRun renderMarkdown evs p).
Proof. unfold pageRun. by rewrite fold_left_app. Qed.

Lemma pageRun_stable P evs p :
  pageStable P -> P p -> P (pageRun renderMarkdown evs p).
Proof.
  intros HS Hp. induction evs as [|ev evs IH] using rev_ind; [done|].
  rewrite pageRun_snoc. by apply pageStep_stable.
Qed.

Lemma initLoaded_stable P c p :
  pageStable P ->
  (forall c p, P p -> P (withConfig c p)) ->
  (forall c p, P p -> P (withSidebar (generateSidebar hasApi c (pgSidebar p)) p)) ->
  P p -> P (initLoaded hasApi c p).
Proof.
  intros HS Hcfg Hgen Hp. pose proof HS as HS'. destruct HS'.
  unfold initLoaded. destruct c as [cfg|]; [|auto].
  apply st_switch0.
  set (q0 := withSidebar _ (withConfig cfg p)).
  assert (Hq0 : P q0) by (unfold q0; auto). clearbody q0.
  set (q := if (_ && _) then _ else q0).
  assert (Hq : P q) by (unfold q; case_match; auto). clearbody q.
  cbv zeta. goal_decide; [|exact Hq]. destruct (hdDoc _) as [doc|]; [|unfold startLoad; auto].
  pose proof (routeLinks_ind P doc id q) as Hr.
  destruct (routeLinks _ _ q) as [b q']. unfold startLoad.
  apply st_docs0, Hr; [|done]. intros r Hpr. unfold highlightDoc, id. auto.
Qed.

(** *** Views and the sidebar *)

Definition viewsInv (v : Views) : Prop :=
  Forall (fun t => t.2 = bool_decide (t.1 = vCurrent v)) (vTabs v)
  /\ Forall (fun c => c.2 = bool_decide (c.1 = viewId (vCurrent v))) (vContents v)
  /\ vBody v ∩ {[lit "docs-view"; lit "api-view"]} ⊆ {[viewId (vCurrent v)]}.

Lemma switchToView_inv name v : viewsInv (switchToView name v).
Proof.
  unfold viewsInv, switchToView. cbn [vTabs vContents vBody vCurrent]. split_and!.
  - rewrite List.Forall_map, Forall_forall. done.
  - rewrite List.Forall_map, Forall_forall. done.
  - clear. set_solver.
Qed.

Definition sidebarInv (s : Sidebar) : Prop :=
  sbOverlay s = sbOpen s /\ sbOverflow s = if sbOpen s then cHidden else [].

Definition pageInv (p : Page) : Prop := viewsInv (pgViews p) /\ sidebarInv (pgSidebar p).

Lemma pageInv_stable : pageStable pageInv.
Proof.
  split; unfold pageInv; cbn; intros; try done; conj_hyps; split; try done.
  - apply switchToView_inv.
  - unfold sidebarInv in *. cbn. conj_hyps. split; [congruence|done].
Qed.

Lemma initPage_inv w hash attr stored : pageInv (initPage hasApi w hash attr stored).
Proof.
  split; [|done]. unfold viewsInv. cbn. split_and!; [..|clear; set_solver];
    destruct hasApi; repeat constructor.
Qed.

(** The page after [DOMContentLoaded] with configuration [c] and then [evs]. *)
Definition session (c : option DocsConfig) (width : Z) (hash : jstr)
    (attr stored : option jstr) (evs : list PageEvent) : Page :=
  pageRun renderMarkdown evs (initLoaded hasApi c (initPage hasApi width hash attr stored)).

Lemma session_stable P c w hash attr stored evs :
  pageStable P ->
  (forall c p, P p -> P (withConfig c p)) ->
  (forall c p, P p -> P (withSidebar (generateSidebar hasApi c (pgSidebar p)) p)) ->
  P (initPage hasApi w hash attr stored) -> P (session c w hash attr stored evs).
Proof. intros. unfold session. apply (pageRun_stable P); [done|]. by apply initLoaded_stable. Qed.

(** *** Documents *)

(** A property of the documents' state that starting a load and everything around
    loads preserves; settling loads is left to each property. *)
Record docsStable (D : Docs -> Prop) : Prop := {
  ds_load : forall doc d, D d -> D (loadMarkdownDocs doc d);
  ds_scroll : forall s d, D d ->
    D (mkDocs (dCurrentDoc d) (dShown d) (dToc d) (dLoads d) (dTimers d) s);
  ds_timers : forall ts d, D d ->
    D (mkDocs (dCurrentDoc d) (dShown d) (dToc d) (dLoads d) ts (dScroll d));
  ds_spy : forall es d, D d ->
    D (mkDocs (dCurrentDoc d) (dShown d) (spyCallback es (dToc d)) (dLoads d) (dTimers d)
         (dScroll d));
}.

Definition onDocs (D : Docs -> Prop) (p : Page) : Prop := D (pgDocs p).

Lemma scrollToId_stable D id d : docsStable D -> D d -> D (scrollToId id d).
Proof. intros [] Hd. unfold scrollToId. case_match; auto. Qed.

Lemma handleHashChange_docs D p :
  docsStable D -> onDocs D p -> onDocs D (handleHashChange p).
Proof.
  intros HD Hp. unfold handleHashChange. case_match; [done|].
  set (q := if decide _ then p else _).
  assert (Hq : onDocs D q) by (unfold q; by case_match). clearbody q.
  cbv zeta. goal_decide; [|exact Hq]. destruct (hdDoc _) as [doc|]; [|exact Hq].
  pose proof (routeLinks_ind (onDocs D) doc (startLoad doc) q) as Hr.
  destruct (routeLinks _ _ q) as [b q'].
  assert (Hq' : onDocs D q').
  { apply Hr; [|done]. intros r Hpr. by apply (ds_load _ HD). }
  repeat case_match; try done. by apply scrollToId_stable.
Qed.

Lemma navigate_docs D hash p : docsStable D -> onDocs D p -> onDocs D (navigate hash p).
Proof. intros HD Hp. unfold navigate. case_match; [done|]. by apply handleHashChange_docs. Qed.

Lemma handleSidebarClick_docs D i p :
  docsStable D -> onDocs D p -> onDocs D (handleSidebarClick i p).
Proof.
  intros HD Hp. unfold handleSidebarClick. destruct (_ !! i) as [l|]; [|done]. cbv zeta.
  set (q := if decide _ then _ else _).
  assert (Hq : onDocs D q) by (unfold q; by goal_decide). clearbody q.
  case_match; by apply (ds_load _ HD).
Qed.

(** Every event but the settling of a load preserves a stable property. *)
Lemma pageStep_docs D ev p :
  docsStable D -> onDocs D p ->
  match ev with PFetch _ _ | PText _ _ => True | _ => onDocs D (pageStep renderMarkdown ev p) end.
Proof.
  intros HD Hp.
  destruct ev; cbn [pageStep]; try done; try (by apply navigate_docs).
  - by apply handleSidebarClick_docs.
  - unfold handleTabClick. by repeat case_match.
  - unfold handleThemeClick. cbv zeta. case_match; [by apply (ds_load _ HD)|done].
  - unfold handleAnchorClick. repeat case_match; try done;
      [by apply scrollToId_stable|by apply navigate_docs].
  - unfold handleTocClick. case_match; [by apply (ds_scroll _ HD)|done].
  - unfold timerFired. case_match; [|done].
    apply scrollToId_stable; [done|]. by apply (ds_timers _ HD).
  - by apply (ds_spy _ HD).
Qed.

Lemma initLoaded_docs D c p :
  docsStable D -> (forall d, D d ->
    D (mkDocs (dCurrentDoc d) SNavError (dToc d) (dLoads d) (dTimers d) (dScroll d))) ->
  onDocs D p -> onDocs D (initLoaded hasApi c p).
Proof.
  intros HD Hnav Hp. unfold initLoaded. destruct c as [cfg|]; [|by apply Hnav].
  unfold onDocs. cbv zeta. cbn [switchView withViews pgDocs].
  set (q := if (_ && _) then withLoc _ _ else _).
  assert (Hq : onDocs D q) by (unfold q; by case_match). clearbody q.
  goal_decide; [|exact Hq]. destruct (hdDoc _) as [doc|]; [|by apply (ds_load _ HD)].
  pose proof (routeLinks_ind (onDocs D) doc id q) as Hr.
  destruct (routeLinks _ _ q) as [b q']. apply (ds_load _ HD). by apply Hr.
Qed.

(** The documents when loads settle in the order they were started: the last load
    in flight is the current document, and without loads what is shown is. *)
Definition shownCurrent (d : Docs) : Prop :=
  match dShown d with
  | SDoc doc _ => dCurrentDoc d = Some doc
  | SSpinner => False
  | _ => True
  end.

Definition fifoInv (d : Docs) : Prop :=
  match last (dLoads d) with
  | Some l => dCurrentDoc d = Some (ldDoc l)
  | None => shownCurrent d
  end.

Lemma fifoInv_stable : docsStable fifoInv.
Proof.
  split; unfold fifoInv, shownCurrent; cbn; try done. intros doc d _.
  by rewrite last_snoc.
Qed.

(** The settlements that respect the order: only the oldest load finishes. *)
Definition inOrder (ev : PageEvent) : Prop :=
  match ev with
  | PFetch i ok => ok = true \/ i = 0%nat
  | PText i _ => i = 0%nat
  | _ => True
  end.

Lemma last_insert_doc ls i doc b b' :
  ls !! i = Some (mkLoad doc b) ->
  ldDoc <$> last (<[i := mkLoad doc b']> ls) = ldDoc <$> last ls.
Proof.
  revert i. induction ls as [|l ls IH]; intros [|i] Hi; cbn in *; simplify_eq.
  - by destruct ls.
  - specialize (IH _ Hi). destruct ls as [|l' ls]; [done|]. by destruct i.
Qed.

Lemma fetchSettled_fifo i ok d :
  (ok = true \/ i = 0%nat) -> fifoInv d -> fifoInv (fetchSettled i ok d).
Proof.
  intros Hor Hd. unfold fetchSettled.
  destruct (dLoads d !! i) as [[doc b]|] eqn:Ei; try done. destruct b; try done. destruct ok.
  - unfold fifoInv in *. cbn. pose proof (last_insert_doc _ _ _ _ true Ei) as Hl.
    destruct (last (<[_ := _]> _)), (last (dLoads d)); cbn in *; try done. congruence.
  - destruct Hor as [? | ->]; [done|]. unfold fifoInv, loadFailed in *. cbn.
    destruct (dLoads d) as [|l ls]; [done|]. rewrite last_cons in Hd.
    change (delete 0%nat (l :: ls)) with ls. by destruct (last ls).
Qed.

Lemma textSettled_fifo text loc d :
  fifoInv d -> fifoInv (textSettled renderMarkdown 0 text loc d).
Proof.
  intros Hd. unfold textSettled.
  destruct (dLoads d !! 0%nat) as [[doc b]|] eqn:Ei; try done. destruct b; try done.
  destruct (dLoads d) as [|l ls] eqn:El; cbn in Ei; [done|]. simplify_eq.
  assert (Hlast : match last ls with
                  | Some l => dCurrentDoc d = Some (ldDoc l)
                  | None => dCurrentDoc d = Some doc end).
  { unfold fifoInv in Hd. rewrite El, last_cons in Hd. by destruct (last ls). }
  destruct (text ≫= renderMarkdown) as [blocks|].
  - destruct (buildTableOfContents _ _) as [c t].
    destruct (hdSection _); unfold fifoInv, shownCurrent; cbn;
      by destruct (last ls).
  - unfold fifoInv, loadFailed, shownCurrent. rewrite El. cbn. by destruct (last ls).
Qed.

Lemma session_fifo c w hash attr stored evs :
  Forall inOrder evs -> onDocs fifoInv (session c w hash attr stored evs).
Proof.
  unfold session. induction evs as [|ev evs IH] using rev_ind; intros Hord.
  - apply (initLoaded_docs fifoInv); [apply fifoInv_stable| |done].
    intros d. unfold fifoInv, shownCurrent. cbn. by destruct (last (dLoads d)).
  - apply Forall_app in Hord as [Hord Hev]. rewrite Forall_singleton in Hev.
    rewrite pageRun_snoc.
    specialize (IH Hord).
    pose proof (pageStep_docs fifoInv ev _ fifoInv_stable IH) as Hs.
    destruct ev; try done; cbn [pageStep inOrder] in *.
    + apply (fetchSettled_fifo i ok _ Hev IH).
    + subst i. apply (textSettled_fifo _ _ _ IH).
Qed.
End page_lemmas.

Lemma buildHash_section_doc doc s :
  doc <> [] -> cColon ∉ doc -> cColon ∉ s ->
  exists sec, parseHash (buildHash viewDocs (Some doc) (Some s)) = HDocs (Some doc) sec.
Proof.
  intros Hd Hc Hs. unfold buildHash. rewrite decide_False by done.
  destruct s as [|c s]; cbn [orNull interp].
  - destruct doc as [|x doc]; [done|]. cbn [orNull]. rewrite parseHash_docs.
    eexists. by apply docsParts_one.
  - rewrite parseHash_docs. eexists. by apply docsParts_two.
Qed.

(** ** What the routing handlers do *)

(** The number of links of document [doc] in the configuration. *)
Definition docLinks (doc : jstr) (c : DocsConfig) : nat :=
  length (List.filter (fun l => bool_decide (nlFile l = doc)) (configLinks c)).

(** [n] loads of [doc] started, with its links highlighted. *)
Definition loadsStarted (doc : jstr) (n : nat) (p : Page) : Page :=
  match n with
  | O => p
  | _ =>
      let d := pgDocs p in
      withSidebar (highlightDoc doc (pgSidebar p))
        (withDocs (mkDocs (Some doc) SSpinner (dToc d)
                     (dLoads d ++ replicate n (mkLoad doc false)) (dTimers d) (dScroll d)) p)
  end.

Lemma highlightDoc_idem doc s : highlightDoc doc (highlightDoc doc s) = highlightDoc doc s.
Proof. unfold highlightDoc, withLinks. cbn. by rewrite map_map. Qed.

Lemma loadsStarted_S doc n p :
  loadsStarted doc n
    (startLoad doc (withSidebar (highlightDoc doc (pgSidebar p)) p))
  = loadsStarted doc (S n) p.
Proof.
  destruct n as [|n]; [done|]. unfold loadsStarted, startLoad, loadMarkdownDocs,
    withSidebar, withDocs. cbn. by rewrite highlightDoc_idem, <- app_assoc.
Qed.

Lemma routeLinks_load doc p :
  routeLinks doc (startLoad doc) p
  = (bool_decide (docLinks doc (pgConfig p) <> 0%nat),
     loadsStarted doc (docLinks doc (pgConfig p)) p).
Proof.
  unfold routeLinks, docLinks. generalize (configLinks (pgConfig p)). intros ls.
  set (f := fun _ _ => _).
  assert (Hfold : forall b q, fold_left f ls (b, q)
    = (b || bool_decide (length (List.filter (fun l => bool_decide (nlFile l = doc)) ls) <> 0%nat),
       loadsStarted doc (length (List.filter (fun l => bool_decide (nlFile l = doc)) ls)) q)).
  { induction ls as [|l ls IH]; intros b q; cbn [fold_left List.filter].
    - by rewrite orb_false_r.
    - destruct (decide (nlFile l = doc)) as [Heq|Hne].
      + unfold f at 2. rewrite decide_True by done. cbn [snd]. rewrite IH, loadsStarted_S.
        rewrite (bool_decide_eq_true_2 (nlFile l = doc)) by done. cbn [length].
        rewrite (bool_decide_eq_true_2 (S _ <> 0%nat)) by done. by rewrite orb_true_r.
      + unfold f at 2. rewrite decide_False by done. rewrite IH.
        by rewrite (bool_decide_eq_false_2 (nlFile l = doc)) by done. }
  rewrite Hfold. done.
Qed.

(** A change of the address to a known document. *)
Lemma handleHashChange_known doc sec p :
  parseHash (locHash (pgLoc p)) = HDocs (Some doc) sec ->
  docLinks doc (pgConfig p) <> 0%nat ->
  handleHashChange p
  = loadsStarted doc (docLinks doc (pgConfig p))
      (if decide (viewDocs = vCurrent (pgViews p)) then p else switchView viewDocs p).
Proof.
  intros Hh Hn. unfold handleHashChange. rewrite Hh. cbn [hdView hdDoc hdSection].
  rewrite (bool_decide_eq_false_2 (viewDocs = viewApi)) by done. rewrite andb_false_r.
  cbv zeta. rewrite (decide_True (P := viewDocs = viewDocs)) by done.
  rewrite routeLinks_load.
  assert (Hc : pgConfig (if decide (viewDocs = vCurrent (pgViews p)) then p
                         else switchView viewDocs p) = pgConfig p) by by goal_decide.
  rewrite Hc, bool_decide_eq_true_2 by done. by destruct sec.
Qed.

(** A change of the address that names no known document starts no load. *)
Lemma handleHashChange_unknown p d :
  hdDoc (parseHash (locHash (pgLoc p))) = Some d -> docLinks d (pgConfig p) = 0%nat ->
  dLoads (pgDocs (handleHashChange p)) = dLoads (pgDocs p)
  /\ dCurrentDoc (pgDocs (handleHashChange p)) = dCurrentDoc (pgDocs p)
  /\ dShown (pgDocs (handleHashChange p)) = dShown (pgDocs p).
Proof.
  intros Hd Hn. unfold handleHashChange. case_match; [done|]. cbv zeta.
  set (q := if decide (hdView _ = vCurrent _) then p else _).
  assert (Hq : pgDocs q = pgDocs p /\ pgConfig q = pgConfig p).
  { unfold q. by goal_decide. }
  destruct Hq as [Hqd Hqc]. clearbody q. rewrite <- Hqd, <- Hqc in *.
  goal_decide; [|done]. rewrite Hd, routeLinks_load, Hn. cbn [loadsStarted].
  rewrite bool_decide_eq_false_2 by lia. destruct (hdSection _); [|done].
  unfold scrollToId. cbn. by destruct (hasElement _ _).
Qed.

Section page_lemmas2.
Context `{CaseMapping}.
Variable renderMarkdown : jstr -> option (list Block).
Variable hasApi : bool.

(** *** The configuration is fixed once the page is initialised *)

Lemma config_stable cfg : pageStable (fun p => pgConfig p = cfg).
Proof. by split. Qed.

Lemma initLoaded_config cfg w hash attr stored :
  pgConfig (initLoaded hasApi (Some cfg) (initPage hasApi w hash attr stored)) = cfg.
Proof.
  unfold initLoaded. cbn [switchView withViews pgConfig].
  set (q := if (_ && _) then withLoc _ _ else _).
  assert (Hq : pgConfig q = cfg) by (unfold q; by case_match). clearbody q.
  cbv zeta. goal_decide; [|exact Hq]. destruct (hdDoc _) as [doc|]; [|exact Hq].
  pose proof (routeLinks_ind (fun p => pgConfig p = cfg) doc id q) as Hr.
  destruct (routeLinks _ _ q) as [b q']. by apply Hr.
Qed.

Lemma session_config cfg w hash attr stored evs :
  pgConfig (session renderMarkdown hasApi (Some cfg) w hash attr stored evs) = cfg.
Proof.
  unfold session. apply (pageRun_stable renderMarkdown (fun p => pgConfig p = cfg)).
  - apply config_stable.
  - apply initLoaded_config.
Qed.

(** *** Heading anchors *)

(** An anchor of the document [doc]: without listener, leading to a section. *)
Definition anchorOk (doc : jstr) (b : Block) : Prop :=
  match b with
  | BHeading h =>
      match hAnchor h with
      | Some a => aListener a = false
                  /\ exists s, aHref a = buildHash viewDocs (Some doc) (Some s) /\ cColon ∉ s
      | None => True
      end
  | _ => True
  end.

Lemma anchors_added bs doc :
  (forall h, BHeading h ∈ bs -> hAnchor h = None) ->
  Forall (anchorOk doc) (addHeadingAnchors bs doc).
Proof.
  intros Hbs. unfold addHeadingAnchors. rewrite map_map, List.Forall_map, Forall_forall.
  intros b Hb. destruct b as [h| |]; try done. specialize (Hbs h Hb).
  cbn [anchorBlock]. destruct (isH12 h); cbn; [|by rewrite Hbs].
  split; [done|]. eexists. split; [done|]. apply slug_no_colon.
Qed.

Lemma tocItems_anchors doc bs :
  Forall (anchorOk doc) bs -> Forall (anchorOk doc) (tocItems bs).1.
Proof.
  induction bs as [|b bs IH]; [done|]. intros [Hb Hbs]%Forall_cons.
  specialize (IH Hbs). cbn [tocItems]. destruct (tocItems bs) as [bs' items].
  cbn [fst] in IH. destruct b as [h| |]; [|by constructor..].
  destruct (isH23 h); [|by constructor].
  assert (Ha : hAnchor (tocHeading h).1 = hAnchor h).
  { unfold tocHeading. by case_match. }
  destruct (tocHeading h) as [h' it]. cbn in *. constructor; [|done].
  cbn in *. by rewrite Ha.
Qed.

Definition anchorsInv (d : Docs) : Prop :=
  match dShown d with SDoc doc blocks => Forall (anchorOk doc) blocks | _ => True end.

Lemma anchorsInv_stable : docsStable anchorsInv.
Proof. by split. Qed.

Lemma session_anchors c w hash attr stored evs :
  (forall md bs h, renderMarkdown md = Some bs -> BHeading h ∈ bs -> hAnchor h = None) ->
  onDocs anchorsInv (session renderMarkdown hasApi c w hash attr stored evs).
Proof.
  intros Hr. unfold session. induction evs as [|ev evs IH] using rev_ind.
  - by apply (initLoaded_docs hasApi anchorsInv); [apply anchorsInv_stable|..].
  - rewrite pageRun_snoc.
    pose proof (pageStep_docs renderMarkdown anchorsInv ev _ anchorsInv_stable IH) as Hs.
    destruct ev; try done; cbn [pageStep]; unfold onDocs; cbn [withDocs pgDocs].
    + unfold fetchSettled. repeat case_match; done.
    + unfold textSettled. destruct (_ !! i) as [[doc b]|]; [|done]. destruct b; [|done].
      destruct text as [md|]; cbn; [|done].
      destruct (renderMarkdown md) as [bs|] eqn:Em; [|done].
      pose proof (tocItems_anchors doc _ (anchors_added bs doc (fun h => Hr md bs h Em))) as Ha.
      unfold buildTableOfContents. destruct (tocItems _) as [content items].
      destruct (Nat.ltb _ 2); destruct (hdSection _); exact Ha.
Qed.

(** *** The highlighted link *)

(** The active sidebar links are links of the current document. *)
Definition highlightInv (p : Page) : Prop :=
  match dCurrentDoc (pgDocs p) with
  | None => True
  | Some d => Forall (fun l => slActive l = true -> slDoc l = d) (sbLinks (pgSidebar p))
  end.

Lemma highlightDoc_spec doc s :
  Forall (fun l => slActive l = true -> slDoc l = doc) (sbLinks (highlightDoc doc s)).
Proof.
  unfold highlightDoc. cbn. rewrite List.Forall_map, Forall_forall. intros l _. cbn.
  by rewrite bool_decide_eq_true.
Qed.

Lemma highlightLink_spec i s l :
  sbLinks s !! i = Some l ->
  Forall (fun l' => slActive l' = true -> slDoc l' = slDoc l) (sbLinks (highlightLink i s)).
Proof.
  intros Hl. unfold highlightLink. cbn. rewrite Forall_lookup. intros j l' Hj Ha.
  rewrite list_lookup_imap in Hj. destruct (sbLinks s !! j) as [l0|] eqn:E; [|done].
  cbn in Hj. injection Hj as <-. cbn in *. apply Nat.eqb_eq in Ha as ->.
  rewrite E in Hl. by injection Hl as ->.
Qed.

Lemma generateLinks_active cfg l :
  l ∈ generateLinks cfg -> slActive l = true ->
  exists s ss l0 ls, dcSections cfg = s :: ss /\ nsLinks s = l0 :: ls /\ slDoc l = nlFile l0.
Proof.
  unfold generateLinks. intros Hin Ha.
  rewrite list_elem_of_In, in_concat in Hin. destruct Hin as (xs & Hxs & Hx).
  apply list_elem_of_In in Hxs, Hx.
  apply list_elem_of_lookup in Hxs as [i Hi]. rewrite list_lookup_imap in Hi.
  destruct (dcSections cfg !! i) as [s|] eqn:Es; [|done]. injection Hi as <-.
  apply list_elem_of_lookup in Hx as [j Hj]. rewrite list_lookup_imap in Hj.
  destruct (nsLinks s !! j) as [l0|] eqn:El; [|done]. injection Hj as <-.
  cbn in Ha. apply andb_true_iff in Ha as [->%Nat.eqb_eq ->%Nat.eqb_eq].
  destruct (dcSections cfg) as [|s' ss]; [done|]. injection Es as ->.
  destruct (nsLinks s) as [|l1 ls] eqn:En; [done|]. injection El as ->.
  by exists s, ss, l0, ls.
Qed.

Lemma loadsStarted_highlight doc n p :
  highlightInv p -> highlightInv (loadsStarted doc n p).
Proof. destruct n; [done|]. intros _. apply highlightDoc_spec. Qed.

Lemma same_highlight p q :
  pgSidebar q = pgSidebar p -> dCurrentDoc (pgDocs q) = dCurrentDoc (pgDocs p) ->
  highlightInv p -> highlightInv q.
Proof. unfold highlightInv. by intros -> ->. Qed.

Lemma scrollToId_current id d : dCurrentDoc (scrollToId id d) = dCurrentDoc d.
Proof. unfold scrollToId. by case_match. Qed.

Lemma handleHashChange_highlight p : highlightInv p -> highlightInv (handleHashChange p).
Proof.
  intros Hp. unfold handleHashChange. case_match; [done|].
  set (q := if decide _ then p else _).
  assert (Hq : highlightInv q) by (unfold q; by goal_decide). clearbody q.
  cbv zeta. goal_decide; [|exact Hq]. destruct (hdDoc _) as [doc|]; [|exact Hq].
  rewrite routeLinks_load.
  pose proof (loadsStarted_highlight doc (docLinks doc (pgConfig q)) q Hq) as Hl.
  repeat case_match; try done.
  eapply same_highlight; [..|exact Hl]; [done|]. apply scrollToId_current.
Qed.

Lemma navigate_highlight hash p : highlightInv p -> highlightInv (navigate hash p).
Proof.
  intros Hp. unfold navigate. case_match; [done|]. by apply handleHashChange_highlight.
Qed.

Lemma handleSidebarClick_highlight i p :
  highlightInv p -> highlightInv (handleSidebarClick i p).
Proof.
  intros Hp. unfold handleSidebarClick.
  destruct (sbLinks (pgSidebar p) !! i) as [l|] eqn:El; [|done]. cbv zeta.
  pose proof (highlightLink_spec _ _ _ El) as Hl.
  set (q := if decide _ then _ else _).
  assert (Hq : pgSidebar q = highlightLink i (pgSidebar p)) by (unfold q; by goal_decide).
  clearbody q. destruct (_ && _); unfold highlightInv; cbn; rewrite Hq; exact Hl.
Qed.

Lemma settle_current i ok text loc d :
  dCurrentDoc (fetchSettled i ok d) = dCurrentDoc d
  /\ dCurrentDoc (textSettled renderMarkdown i text loc d) = dCurrentDoc d.
Proof.
  unfold fetchSettled, textSettled. split; repeat case_match; try done.
Qed.

Lemma pageStep_highlight ev p :
  highlightInv p -> highlightInv (pageStep renderMarkdown ev p).
Proof.
  intros Hp. destruct ev; cbn [pageStep]; try done.
  - by apply handleSidebarClick_highlight.
  - unfold handleTabClick. by repeat case_match.
  - unfold handleThemeClick. cbv zeta. destruct (orNull _) as [d|] eqn:Eo; [|done].
    apply orNull_Some in Eo as [Eo _]. unfold highlightInv in *. cbn in *.
    by rewrite Eo in Hp.
  - by apply navigate_highlight.
  - unfold handleAnchorClick. repeat case_match; try done; [|by apply navigate_highlight].
    eapply same_highlight; [..|exact Hp]; [done|]. apply scrollToId_current.
  - unfold handleTocClick. by case_match.
  - eapply same_highlight; [..|exact Hp]; [done|]. by apply (settle_current i ok None (pgLoc p)).
  - eapply same_highlight; [..|exact Hp]; [done|]. by apply (settle_current i true).
  - eapply same_highlight; [..|exact Hp]; [done|]. cbn. unfold timerFired.
    case_match; [|done]. by rewrite scrollToId_current.
Qed.

(** The default document is the first link of the sidebar. *)
Definition defaultIsFirst (cfg : DocsConfig) : Prop :=
  forall s ss l ls, dcSections cfg = s :: ss -> nsLinks s = l :: ls ->
    nlFile l = dcDefaultDoc cfg.

(** [routeLinks] without loads only highlights. *)
Lemma routeLinks_id doc p :
  (routeLinks doc id p).1 = bool_decide (docLinks doc (pgConfig p) <> 0%nat)
  /\ sbLinks (pgSidebar (routeLinks doc id p).2)
     = if decide (docLinks doc (pgConfig p) = 0%nat) then sbLinks (pgSidebar p)
       else sbLinks (highlightDoc doc (pgSidebar p)).
Proof.
  unfold routeLinks, docLinks. generalize (configLinks (pgConfig p)). intros ls.
  set (f := fun _ _ => _).
  set (cnt := fun ls => length (List.filter (fun l => bool_decide (nlFile l = doc)) ls)).
  change (length _) with (cnt ls).
  assert (Hfold : forall ls b q,
    (fold_left f ls (b, q)).1 = b || bool_decide (cnt ls <> 0%nat)
    /\ sbLinks (pgSidebar (fold_left f ls (b, q)).2)
       = if decide (cnt ls = 0%nat) then sbLinks (pgSidebar q)
         else sbLinks (highlightDoc doc (pgSidebar q))).
  { clear. intros ls. induction ls as [|l ls IH]; intros b q; cbn [fold_left].
    - by rewrite orb_false_r.
    - assert (Hstep : f (b, q) l
        = if decide (nlFile l = doc)
          then (true, id (withSidebar (highlightDoc doc (pgSidebar q)) q)) else (b, q)) by done.
      rewrite Hstep. unfold cnt in *. cbn [List.filter]. destruct (decide (nlFile l = doc)) as [Heq|Hne].
      + rewrite (bool_decide_eq_true_2 (nlFile l = doc)) by done. cbn [length].
        destruct (IH true (id (withSidebar (highlightDoc doc (pgSidebar q)) q))) as [H1 H2].
        rewrite H1, H2. split; [by rewrite orb_true_r|].
        unfold id. cbn [withSidebar pgSidebar]. rewrite highlightDoc_idem. by goal_decide.
      + rewrite (bool_decide_eq_false_2 (nlFile l = doc)) by done. apply IH. }
  destruct (Hfold ls false p) as [H1 H2]. by rewrite H1, H2.
Qed.

Lemma initLoaded_highlight c w hash attr stored :
  (forall cfg, c = Some cfg -> defaultIsFirst cfg) ->
  highlightInv (initLoaded hasApi c (initPage hasApi w hash attr stored)).
Proof.
  clear renderMarkdown. intros Hdef. unfold initLoaded. destruct c as [cfg|]; [|done].
  specialize (Hdef cfg eq_refl). unfold highlightInv. cbv zeta.
  cbn [switchView withViews pgDocs pgSidebar].
  set (q := if (_ && _) then withLoc _ _ else _).
  assert (Hq : sbLinks (pgSidebar q) = generateLinks cfg /\ pgConfig q = cfg
               /\ dCurrentDoc (pgDocs q) = None).
  { unfold q. by case_match. }
  clearbody q. destruct Hq as (Hlinks & Hcfg & Hcur).
  assert (Hfirst : Forall (fun l => slActive l = true -> slDoc l = dcDefaultDoc cfg)
                     (generateLinks cfg)).
  { rewrite Forall_forall. intros l Hl Ha.
    destruct (generateLinks_active cfg l Hl Ha) as (s & ss & l0 & ls & E1 & E2 & ->).
    by eapply Hdef. }
  goal_decide; [|by rewrite Hcur].
  destruct (hdDoc _) as [doc|]; [|cbn; by rewrite Hlinks].
  pose proof (routeLinks_id doc q) as [H1 H2].
  destruct (routeLinks doc id q) as [b q']. cbn in *. subst b. rewrite H2.
  destruct (decide (docLinks doc (pgConfig q) = 0%nat)) as [Hz|Hz].
  - rewrite bool_decide_eq_false_2 by tauto. by rewrite Hlinks.
  - rewrite bool_decide_eq_true_2 by done. apply highlightDoc_spec.
Qed.
End page_lemmas2.

Section handler_effects.
Context `{CaseMapping}.
Variable renderMarkdown : jstr -> option (list Block).

(** What a click on a sidebar link does. *)
Lemma handleSidebarClick_effect i l p :
  sbLinks (pgSidebar p) !! i = Some l ->
  let q := handleSidebarClick i p in
  pgDocs q = loadMarkdownDocs (slDoc l) (pgDocs p)
  /\ sbLinks (pgSidebar q) = sbLinks (highlightLink i (pgSidebar p))
  /\ pgLoc q = pushState (buildHash viewDocs (Some (slDoc l)) None) (pgLoc p)
  /\ vCurrent (pgViews q) = viewDocs.
Proof.
  intros Hl. unfold handleSidebarClick. rewrite Hl. cbv zeta.
  set (q := if decide _ then _ else _).
  assert (Hq : pgDocs q = pgDocs p /\ pgSidebar q = highlightLink i (pgSidebar p)
               /\ pgLoc q = pushState (buildHash viewDocs (Some (slDoc l)) None) (pgLoc p)
               /\ vCurrent (pgViews q) = viewDocs).
  { unfold q. by goal_decide. }
  destruct Hq as (H1 & H2 & H3 & H4). clearbody q.
  destruct (_ && _); cbn; by rewrite H1, ?H2, H3, H4.
Qed.

(** What the arrival of a document's text does. *)
Lemma textSettled_effect i doc t bs loc d :
  dLoads d !! i = Some (mkLoad doc true) -> renderMarkdown t = Some bs ->
  exists blocks toc timers scroll,
    textSettled renderMarkdown i (Some t) loc d
    = mkDocs (dCurrentDoc d) (SDoc doc blocks) toc (delete i (dLoads d)) timers scroll.
Proof.
  intros Hi Hr. unfold textSettled. rewrite Hi. cbn. rewrite Hr.
  destruct (buildTableOfContents _ _) as [c toc]. destruct (hdSection _); eauto.
Qed.
End handler_effects.

(** ** Properties *)

Section page_properties.
Context `{CaseMapping}.
Variable renderMarkdown : jstr -> option (list Block).
Variable hasApi : bool.



(** Loads that overtake each other leave a stale document on display.  From any
    state without loads in flight, click document [A], then document [B]; if
    the text of [A] arrives after that of [B], the page shows [A] while [B] is
    the current document and the highlighted link. *)
Theorem overtaken_load_shows_stale (p : Page) (i j : nat) (la lb : SLink)
    (ta tb : jstr) (ba bb : list Block) :
  dLoads (pgDocs p) = [] ->
  sbLinks (pgSidebar p) !! i = Some la -> sbLinks (pgSidebar p) !! j = Some lb ->
  renderMarkdown ta = Some ba -> renderMarkdown tb = Some bb ->
  let q := pageRun renderMarkdown
             [PSidebarClick i; PSidebarClick j; PFetch 0 true; PFetch 1 true;
              PText 1 (Some tb); PText 0 (Some ta)] p in
  dCurrentDoc (pgDocs q) = Some (slDoc lb)
  /\ dLoads (pgDocs q) = []
  /\ exists blocks, dShown (pgDocs q) = SDoc (slDoc la) blocks.
Proof.
  intros Hl Ha Hb Hra Hrb q. unfold q, pageRun. cbn [fold_left pageStep].
  destruct (handleSidebarClick_effect i la p Ha) as (Hd1 & Hs1 & _).
  set (p1 := handleSidebarClick i p) in *.
  assert (Hb' : exists lb', sbLinks (pgSidebar p1) !! j = Some lb' /\ slDoc lb' = slDoc lb).
  { rewrite Hs1. cbn. rewrite list_lookup_imap, Hb. by eexists. }
  destruct Hb' as (lb' & Hb' & Heq).
  destruct (handleSidebarClick_effect j lb' p1 Hb') as (Hd2 & _).
  set (p2 := handleSidebarClick j p1) in *. clearbody p2.
  rewrite Hd1, Heq in Hd2. cbn [withDocs pgDocs pgLoc].
  set (d := fetchSettled 1 true _).
  assert (Hd : dCurrentDoc d = Some (slDoc lb)
               /\ dLoads d = [mkLoad (slDoc la) true; mkLoad (slDoc lb) true]).
  { unfold d. rewrite Hd2. unfold loadMarkdownDocs. rewrite Hl. done. }
  destruct Hd as [Hcur Hloads]. clearbody d.
  destruct (textSettled_effect renderMarkdown 1 (slDoc lb) tb bb (pgLoc p2) d)
    as (cb & tcb & tmb & scb & ->); [by rewrite Hloads|done|].
  set (d' := mkDocs _ (SDoc (slDoc lb) cb) _ _ _ _).
  destruct (textSettled_effect renderMarkdown 0 (slDoc la) ta ba (pgLoc p2) d')
    as (ca & tca & tma & sca & ->); [cbn; by rewrite Hloads|done|].
  cbn. rewrite Hloads. eauto.
Qed.

(** Following a hash works: when the address changes to a document of the
    configuration, the docs view is shown, that document becomes the current
    one with a load of it in flight for each of its links (one, in a
    configuration without duplicates), and exactly its links are active. *)
Theorem hash_navigation_loads (p : Page) (doc : jstr) (sec : option jstr) (hash : jstr) :
  locHash (pgLoc p) <> hash -> parseHash hash = HDocs (Some doc) sec ->
  docLinks doc (pgConfig p) <> 0%nat ->
  let q := navigate hash p in
  locHash (pgLoc q) = hash
  /\ vCurrent (pgViews q) = viewDocs
  /\ dCurrentDoc (pgDocs q) = Some doc /\ dShown (pgDocs q) = SSpinner
  /\ dLoads (pgDocs q)
     = dLoads (pgDocs p) ++ replicate (docLinks doc (pgConfig p)) (mkLoad doc false)
  /\ map slActive (sbLinks (pgSidebar q))
     = map (fun l => bool_decide (slDoc l = doc)) (sbLinks (pgSidebar p)).
Proof.
  intros Hne Hh Hn q. unfold q, navigate. rewrite decide_False by done.
  rewrite (handleHashChange_known doc sec) by done.
  cbn [withLoc pgConfig pgViews]. destruct (docLinks doc (pgConfig p)) as [|n]; [done|].
  goal_decide; cbn; rewrite ?map_map; by split_and!.
Qed.

(** Opening the site on the API view and then choosing the Docs tab never loads
    a document: on a wide page, with any document settings, the content is left
    on its initial spinner with nothing in flight. *)
Theorem docs_tab_after_api_start (cfg : DocsConfig) (w : Z) (target : jstr)
    (attr stored : option jstr) :
  (768 < w)%Z ->
  let p := session renderMarkdown hasApi (Some cfg) w (lit "#api:" ++ target) attr stored
             [PTabClick 0] in
  vCurrent (pgViews p) = viewDocs
  /\ dShown (pgDocs p) = SInitialSpinner
  /\ dLoads (pgDocs p) = [] /\ dCurrentDoc (pgDocs p) = None.
Proof.
  intros Hw p. unfold p, session, initLoaded. cbn [initPage withConfig withSidebar pgLoc locHash pgWidth].
  replace (parseHash (lit "#api:" ++ target)) with (HApi (orNull (Some target))) by by destruct target.
  replace (w <=? 768)%Z with false by lia. cbn [hdView andb].
  done.
Qed.

(** Switching to the API tab and back keeps the document on display but points
    the address at the default document: the tab handler looks for the current
    document in the hash, which the API view has replaced. *)
Theorem api_and_back_changes_address (p : Page) (i j : nat) (ba bd : bool) :
  vTabs (pgViews p) !! i = Some (viewApi, ba) ->
  vTabs (pgViews p) !! j = Some (viewDocs, bd) ->
  dcDefaultDoc (pgConfig p) <> [] ->
  let q := pageRun renderMarkdown [PTabClick i; PTabClick j] p in
  pgDocs q = pgDocs p /\ vCurrent (pgViews q) = viewDocs
  /\ locHash (pgLoc q) = lit "#docs:" ++ dcDefaultDoc (pgConfig p).
Proof.
  intros Hi Hj Hdef q. unfold q, pageRun. cbn [fold_left pageStep].
  set (p1 := handleTabClick i p).
  assert (H1 : pgDocs p1 = pgDocs p /\ pgConfig p1 = pgConfig p
               /\ locHash (pgLoc p1) = lit "#api:"
               /\ exists b, vTabs (pgViews p1) !! j = Some (viewDocs, b)).
  { unfold p1, handleTabClick. rewrite Hi. split_and!; [done..|].
    cbn [switchView withViews pgViews switchToView withLoc vTabs].
    change (map ?f ?l) with (f <$> l). rewrite list_lookup_fmap, Hj. by eexists. }
  destruct H1 as (Hd & Hc & Hh & b & Hj'). clearbody p1.
  unfold handleTabClick. rewrite Hj', decide_False by done. cbv zeta. rewrite Hh, Hc.
  split_and!; [done..|]. cbn. by destruct (dcDefaultDoc (pgConfig p)).
Qed.

(** Clicking the anchor of a heading reloads the document.  In every session,
    the anchors on display have lost the listener that was to update the
    address in place, so the browser follows their href, and the hash change
    loads the document again. *)
Theorem anchor_click_reloads (cfg : DocsConfig) (w : Z) (hash : jstr)
    (attr stored : option jstr) (evs : list PageEvent)
    (doc : jstr) (blocks : list Block) (i : nat) (h : Heading) (a : Anchor) :
  (forall md bs h, renderMarkdown md = Some bs -> BHeading h ∈ bs -> hAnchor h = None) ->
  let p := session renderMarkdown hasApi (Some cfg) w hash attr stored evs in
  dShown (pgDocs p) = SDoc doc blocks -> blocks !! i = Some (BHeading h) ->
  hAnchor h = Some a ->
  doc <> [] -> cColon ∉ doc -> docLinks doc cfg <> 0%nat -> locHash (pgLoc p) <> aHref a ->
  aListener a = false
  /\ dShown (pgDocs (handleAnchorClick i p)) = SSpinner
  /\ dLoads (pgDocs (handleAnchorClick i p))
     = dLoads (pgDocs p) ++ replicate (docLinks doc cfg) (mkLoad doc false).
Proof.
  intros Hr p Hs Hi Ha Hd Hc Hn Hne.
  pose proof (session_anchors renderMarkdown hasApi (Some cfg) w hash attr stored evs Hr) as Hinv.
  unfold onDocs, anchorsInv in Hinv. fold p in Hinv. rewrite Hs in Hinv.
  rewrite Forall_lookup in Hinv. specialize (Hinv i _ Hi). cbn in Hinv. rewrite Ha in Hinv.
  destruct Hinv as (Hlst & s & Hhref & Hsc). split; [done|].
  destruct h as [lv tx id an]. cbn in Ha. subst an.
  unfold handleAnchorClick. rewrite Hs, Hi, Hlst. unfold navigate. rewrite decide_False by done.
  assert (Hparse : exists sec, parseHash (aHref a) = HDocs (Some doc) sec).
  { rewrite Hhref. apply buildHash_section_doc; done. }
  destruct Hparse as [sec Hparse].
  assert (Hcfg : pgConfig p = cfg) by apply session_config.
  rewrite (handleHashChange_known doc sec); [|done|cbn; by rewrite Hcfg].
  cbn [withLoc pgConfig pgViews]. rewrite Hcfg.
  destruct (docLinks doc cfg) as [|n]; [done|]. by goal_decide.
Qed.

(** The sidebar highlights the current document: in a configuration whose
    default document is its first link, in every session every active sidebar
    link is a link of the current document (once there is one). *)
Theorem highlight_follows_current (cfg : DocsConfig) (w : Z) (hash : jstr)
    (attr stored : option jstr) (evs : list PageEvent) :
  defaultIsFirst cfg ->
  let p := session renderMarkdown hasApi (Some cfg) w hash attr stored evs in
  match dCurrentDoc (pgDocs p) with
  | None => True
  | Some d => Forall (fun l => slActive l = true -> slDoc l = d) (sbLinks (pgSidebar p))
  end.
Proof.
  intros Hdef. cbn zeta. unfold session. induction evs as [|ev evs IH] using rev_ind.
  - apply (initLoaded_highlight hasApi (Some cfg)). by intros ? [= <-].
  - rewrite pageRun_snoc. by apply (pageStep_highlight renderMarkdown ev).
Qed.
End page_properties.

(** ** Witnesses *)

(** The first entries of [assets/nav.json]. *)
Definition sampleConfig : DocsConfig :=
  mkConfig
    [mkNavSection (lit "Getting Started")
       [mkNavLink (lit "Introduction") (lit "getting-started/introduction");
        mkNavLink (lit "System Boundary") (lit "getting-started/system-boundary")]]
    (lit "getting-started/introduction").

(** A renderer for the witnesses: the text is one second-level heading. *)
Definition sampleRender (md : jstr) : option (list Block) :=
  Some [BHeading (mkHeading 2 md [] None)].

Definition sampleSession (evs : list PageEvent) : Page :=
  session sampleRender true (Some sampleConfig) 1200 [] None None evs.


Lemma overtaken_load_shows_stale_witness :
  let p := sampleSession [PFetch 0 true; PText 0 (Some (lit "Intro"))] in
  let q := pageRun sampleRender
             [PSidebarClick 0; PSidebarClick 1; PFetch 0 true; PFetch 1 true;
              PText 1 (Some (lit "B")); PText 0 (Some (lit "A"))] p in
  dCurrentDoc (pgDocs q) = Some (lit "getting-started/system-boundary")
  /\ dLoads (pgDocs q) = []
  /\ exists blocks, dShown (pgDocs q) = SDoc (lit "getting-started/introduction") blocks.
Proof.
  set (p := sampleSession [PFetch 0 true; PText 0 (Some (lit "Intro"))]).
  apply (overtaken_load_shows_stale sampleRender p 0 1
           (mkSLink (lit "#docs:getting-started/introduction") (lit "getting-started/introduction")
              (lit "Introduction") true)
           (mkSLink (lit "#docs:getting-started/system-boundary")
              (lit "getting-started/system-boundary") (lit "System Boundary") false)
           (lit "A") (lit "B") [BHeading (mkHeading 2 (lit "A") [] None)]
           [BHeading (mkHeading 2 (lit "B") [] None)]); vm_compute; reflexivity.
Defined.

Lemma hash_navigation_loads_witness :
  let p := sampleSession [] in
  let q := navigate (lit "#docs:getting-started/system-boundary:scope") p in
  locHash (pgLoc q) = lit "#docs:getting-started/system-boundary:scope"
  /\ vCurrent (pgViews q) = viewDocs
  /\ dCurrentDoc (pgDocs q) = Some (lit "getting-started/system-boundary")
  /\ dShown (pgDocs q) = SSpinner
  /\ dLoads (pgDocs q)
     = dLoads (pgDocs p)
       ++ replicate (docLinks (lit "getting-started/system-boundary") (pgConfig p))
            (mkLoad (lit "getting-started/system-boundary") false)
  /\ map slActive (sbLinks (pgSidebar q))
     = map (fun l => bool_decide (slDoc l = lit "getting-started/system-boundary"))
         (sbLinks (pgSidebar p)).
Proof.
  apply (hash_navigation_loads (sampleSession []) (lit "getting-started/system-boundary")
           (Some (lit "scope")) (lit "#docs:getting-started/system-boundary:scope"));
    vm_compute; congruence.
Defined.

Lemma docs_tab_after_api_start_witness :
  let p := session sampleRender true (Some sampleConfig) 1200 (lit "#api:" ++ []) None None
             [PTabClick 0] in
  vCurrent (pgViews p) = viewDocs /\ dShown (pgDocs p) = SInitialSpinner
  /\ dLoads (pgDocs p) = [] /\ dCurrentDoc (pgDocs p) = None.
Proof. apply (docs_tab_after_api_start sampleRender true sampleConfig 1200 [] None None). lia. Defined.

Lemma api_and_back_changes_address_witness :
  let p := sampleSession [PSidebarClick 1] in
  let q := pageRun sampleRender [PTabClick 1; PTabClick 0] p in
  pgDocs q = pgDocs p /\ vCurrent (pgViews q) = viewDocs
  /\ locHash (pgLoc q) = lit "#docs:" ++ dcDefaultDoc (pgConfig p).
Proof.
  apply (api_and_back_changes_address sampleRender (sampleSession [PSidebarClick 1]) 1 0 false true);
    vm_compute; congruence.
Defined.

Lemma anchor_click_reloads_witness :
  let p := sampleSession [PFetch 0 true; PText 0 (Some (lit "Title"))] in
  aListener (mkAnchor (lit "#docs:getting-started/introduction:title") false) = false
  /\ dShown (pgDocs (handleAnchorClick 0 p)) = SSpinner
  /\ dLoads (pgDocs (handleAnchorClick 0 p))
     = dLoads (pgDocs p) ++ replicate (docLinks (lit "getting-started/introduction") sampleConfig)
         (mkLoad (lit "getting-started/introduction") false).
Proof.
  apply (anchor_click_reloads sampleRender true sampleConfig 1200 [] None None
           [PFetch 0 true; PText 0 (Some (lit "Title"))] (lit "getting-started/introduction")
           [BHeading (mkHeading 2 (lit "Title#") (lit "title")
              (Some (mkAnchor (lit "#docs:getting-started/introduction:title") false)))] 0
           (mkHeading 2 (lit "Title#") (lit "title")
              (Some (mkAnchor (lit "#docs:getting-started/introduction:title") false)))
           (mkAnchor (lit "#docs:getting-started/introduction:title") false)).
  - intros md bs h [= <-]. by intros [[= ->]|[]%elem_of_nil]%elem_of_cons.
  - vm_compute. reflexivity.
  - reflexivity.
  - reflexivity.
  - done.
  - by apply (bool_decide_eq_true_1 (cColon ∉ lit "getting-started/introduction")).
  - vm_compute. congruence.
  - vm_compute. congruence.
Defined.

Lemma highlight_follows_current_witness :
  defaultIsFirst sampleConfig
  /\ let p := sampleSession [PSidebarClick 1; PNavigate (lit "#docs:nowhere")] in
     match dCurrentDoc (pgDocs p) with
     | None => True
     | Some d => Forall (fun l => slActive l = true -> slDoc l = d) (sbLinks (pgSidebar p))
     end.
Proof.
  assert (Hd : defaultIsFirst sampleConfig).
  { intros s ss l ls [= <- <-] [= <- <-]. reflexivity. }
  split; [exact Hd|].
  exact (highlight_follows_current sampleRender true sampleConfig 1200 [] None None
           [PSidebarClick 1; PNavigate (lit "#docs:nowhere")] Hd).
Defined.
