(* ===== verification/Scripts.v ===== *)
(** * Lazily loaded scripts and what they decorate ([docs/ui/assets/app.js])

    [ensureMermaid] and [ensureHljs] are the same loader over two globals; a
    loader is a state machine over calls and over the settling of the script
    elements it inserted.  [renderMermaidDiagrams], [attachDiagramControls],
    [addCopyButton] and [enhanceCodeBlocks] decorate the blocks of a document. *)

From stdpp Require Import strings numbers list.
From S2P Require Import Prelude JsString.
#[local] Set Default Proof Using "Type".

Module Loader.
(** The outcome of a promise of the loader: resolved with the global (present or
    not), or rejected. *)
Inductive Outcome := Resolved (present : bool) | Rejected.

#[export] Instance Outcome_eq_dec : EqDecision Outcome.
Proof. solve_decision. Defined.

(** [window.mermaid] or [window.hljs] is set; the promise variable ([null] or the
    promise of the script number [n]); the scripts inserted, in order, each
    pending or settled. *)
Record State := mkState {
  stGlobal : bool;
  stPromise : option nat;
  stScripts : list (option Outcome);
}.

Definition init : State := mkState false None [].

(** What a call returns: a promise already resolved with the global, or the
    promise of a script. *)
Inductive Returned := Now | Promise (n : nat).

Definition ensure (s : State) : Returned * State :=
  if stGlobal s then (Now, s)
  else match stPromise s with
       | Some n => (Promise n, s)
       | None =>
           let n := length (stScripts s) in
           (Promise n, mkState (stGlobal s) (Some n) (stScripts s ++ [None]))
       end.

(** The script [n] finishes: it ran and set the global or not, then [onload]; or it
    failed and [onerror] clears the promise variable. *)
Definition onload (n : nat) (setsGlobal : bool) (s : State) : State :=
  match stScripts s !! n with
  | Some None =>
      let g := stGlobal s || setsGlobal in
      mkState g (stPromise s) (<[n := Some (Resolved g)]> (stScripts s))
  | _ => s
  end.

Definition onerror (n : nat) (s : State) : State :=
  match stScripts s !! n with
  | Some None => mkState (stGlobal s) None (<[n := Some Rejected]> (stScripts s))
  | _ => s
  end.

Inductive Event := ECall | ELoad (n : nat) (setsGlobal : bool) | EError (n : nat).

Definition step (ev : Event) (s : State) : State :=
  match ev with
  | ECall => (ensure s).2
  | ELoad n g => onload n g s
  | EError n => onerror n s
  end.

Definition run (evs : list Event) : State := fold_left (fun s ev => step ev s) evs init.

(** A promise is settled: [Now] always, a script's promise with its script. *)
Definition settled (r : Returned) (s : State) : option Outcome :=
  match r with
  | Now => Some (Resolved (stGlobal s))
  | Promise n => match stScripts s !! n with Some o => o | None => None end
  end.

Definition pending (s : State) : nat := length (List.filter (fun o => bool_decide (o = None)) (stScripts s)).
Definition failed (s : State) : nat := length (List.filter (fun o => bool_decide (o = Some Rejected)) (stScripts s)).


(** Every script that did not fail is the one the promise variable holds, and the
    global is set only by a script that ran. *)
Record inv (s : State) : Prop := {
  inv_live n o : stScripts s !! n = Some o -> o <> Some Rejected -> stPromise s = Some n;
  inv_promise n : stPromise s = Some n ->
    exists o, stScripts s !! n = Some o /\ o <> Some Rejected;
  inv_global : stGlobal s = true ->
    exists n, stScripts s !! n = Some (Some (Resolved true));
}.

Lemma init_inv : inv init.
Proof. split; try done. Qed.

Lemma lookup_insert_cases {A} (l : list A) i j x y :
  <[i := x]> l !! j = Some y -> (j = i /\ y = x) \/ (j <> i /\ l !! j = Some y).
Proof.
  destruct (decide (i = j)) as [->|Hne].
  - destruct (l !! j) eqn:E.
    + rewrite list_lookup_insert_eq by (by eapply lookup_lt_Some). intros [= ->]. auto.
    + rewrite list_insert_ge by (by apply lookup_ge_None). by rewrite E.
  - rewrite list_lookup_insert_ne by done. auto.
Qed.

Lemma lookup_snoc_cases {A} (l : list A) i x y :
  (l ++ [x]) !! i = Some y -> l !! i = Some y \/ (i = length l /\ y = x).
Proof.
  intros [Hi|[Hge Hi]]%lookup_app_Some; [by left|]. right.
  apply list_lookup_singleton_Some in Hi as [H0 ->]. split; [lia|done].
Qed.

Lemma ensure_inv s : inv s -> inv (ensure s).2.
Proof.
  intros Hinv. unfold ensure. destruct (stGlobal s) eqn:Eg; [exact Hinv|].
  destruct (stPromise s) as [m|] eqn:Ep; [exact Hinv|].
  destruct Hinv as [H1 H2 H3]. split; cbn.
  - intros n o [Hn|[-> _]]%lookup_snoc_cases Ho; [|done]. by rewrite (H1 n o) in Ep.
  - intros n [= <-]. exists None. split; [|done]. by apply list_lookup_middle.
  - done.
Qed.

Lemma onload_inv n g s : inv s -> inv (onload n g s).
Proof.
  intros Hinv. unfold onload.
  destruct (stScripts s !! n) as [[o|]|] eqn:En; [exact Hinv| |exact Hinv].
  destruct Hinv as [H1 H2 H3]. pose proof (H1 n None En ltac:(done)) as Hp.
  assert (Hlt : (n < length (stScripts s))%nat) by by eapply lookup_lt_Some.
  split; cbn.
  - intros m o [[-> ->]|[Hne Hm]]%lookup_insert_cases Ho; [done|]. by eapply H1.
  - intros m Hm. rewrite Hp in Hm. injection Hm as <-. eexists.
    split; [by apply list_lookup_insert_eq|done].
  - intros Hg. apply orb_true_iff in Hg as [Hg|Hg].
    + destruct (H3 Hg) as [m Hm]. exists m. rewrite list_lookup_insert_ne; [done|]. congruence.
    + exists n. rewrite Hg, orb_true_r. by apply list_lookup_insert_eq.
Qed.

Lemma onerror_inv n s : inv s -> inv (onerror n s).
Proof.
  intros Hinv. unfold onerror.
  destruct (stScripts s !! n) as [[o|]|] eqn:En; [exact Hinv| |exact Hinv].
  destruct Hinv as [H1 H2 H3]. pose proof (H1 n None En ltac:(done)) as Hp. split; cbn.
  - intros m o [[-> ->]|[Hne Hm]]%lookup_insert_cases Ho; [done|].
    pose proof (H1 m o Hm Ho). congruence.
  - done.
  - intros Hg. destruct (H3 Hg) as [m Hm]. exists m.
    rewrite list_lookup_insert_ne; [done|]. congruence.
Qed.

Lemma run_snoc evs ev : run (evs ++ [ev]) = step ev (run evs).
Proof. unfold run. by rewrite fold_left_app. Qed.

Lemma run_inv evs : inv (run evs).
Proof.
  induction evs as [|ev evs IH] using rev_ind; [apply init_inv|]. rewrite run_snoc.
  destruct ev; [by apply ensure_inv|by apply onload_inv|by apply onerror_inv].
Qed.

Lemma filter_none {A} (f : A -> bool) l :
  (forall i x, l !! i = Some x -> f x = false) -> List.filter f l = [].
Proof.
  induction l as [|x l IH]; intros Hf; [done|]. cbn.
  rewrite (Hf 0%nat x eq_refl). apply IH. intros i y Hy. by apply (Hf (S i)).
Qed.

Lemma filter_unique {A} (f : A -> bool) l :
  (forall i j x y, l !! i = Some x -> l !! j = Some y -> f x = true -> f y = true -> i = j) ->
  (length (List.filter f l) <= 1)%nat.
Proof.
  induction l as [|x l IH]; intros Hf; [cbn; lia|]. cbn. destruct (f x) eqn:Ex.
  - rewrite filter_none; [done|]. intros i y Hy. apply not_true_iff_false. intros Hfy.
    pose proof (Hf 0%nat (S i) x y eq_refl Hy Ex Hfy). lia.
  - apply IH. intros i j y z Hy Hz H1 H2.
    pose proof (Hf (S i) (S j) y z Hy Hz H1 H2). lia.
Qed.

Lemma live_unique s i j o o' :
  inv s -> stScripts s !! i = Some o -> stScripts s !! j = Some o' ->
  o <> Some Rejected -> o' <> Some Rejected -> i = j.
Proof. intros [H1 _ _] Hi Hj Ho Ho'. pose proof (H1 _ _ Hi Ho). pose proof (H1 _ _ Hj Ho'). congruence. Qed.

Lemma loading_no_global s n :
  inv s -> stScripts s !! n = Some None -> stGlobal s = false.
Proof.
  intros Hinv Hn. apply not_true_iff_false. intros Hg.
  destruct (inv_global s Hinv Hg) as [m Hm].
  pose proof (live_unique s m n _ _ Hinv Hm Hn ltac:(done) ltac:(done)). congruence.
Qed.

Lemma length_split {A} (f : A -> bool) l :
  length l = (length (List.filter f l) + length (List.filter (fun x => negb (f x)) l))%nat.
Proof. induction l as [|x l IH]; cbn; [done|]. destruct (f x); cbn; lia. Qed.

(** The loader is single-flight.  Whatever the calls and whatever happens to the
    scripts, at most one script element is loading; beyond one element, an
    element is only ever inserted to replace one that failed; and a call made
    while a script is loading gets the promise of that script. *)
Theorem loader_single_flight (evs : list Event) :
  let s := run evs in
  (pending s <= 1)%nat
  /\ (length (stScripts s) <= 1 + failed s)%nat
  /\ (forall n, stScripts s !! n = Some None -> ensure s = (Promise n, s)).
Proof.
  set (s := run evs). pose proof (run_inv evs) as Hinv. fold s in Hinv. cbn zeta. split_and!.
  - apply filter_unique. intros i j x y Hi Hj Hx Hy. bool_simpl. subst.
    by apply (live_unique s i j None None Hinv Hi Hj).
  - rewrite (length_split (fun o => bool_decide (o = Some Rejected)) (stScripts s)).
    fold (failed s).
    assert (Hle : (length (List.filter (fun o => negb (bool_decide (o = Some Rejected)))
                     (stScripts s)) <= 1)%nat).
    { apply filter_unique. intros i j x y Hi Hj Hx Hy. bool_simpl.
      by apply (live_unique s i j x y Hinv Hi Hj). }
    lia.
  - intros n Hn. unfold ensure. rewrite (loading_no_global s n Hinv Hn).
    by rewrite (inv_live s Hinv n None Hn).
Qed.

(** The loader recovers from a failure: in every reachable state, when the
    loading script fails, its promise is rejected and the next call inserts a
    new script and returns its promise; when it loads and sets the global, all
    later calls resolve at once. *)
Theorem loader_recovers (evs : list Event) (n : nat) :
  let s := run evs in
  stScripts s !! n = Some None ->
  (let s1 := onerror n s in
   settled (Promise n) s1 = Some Rejected
   /\ ensure s1 = (Promise (length (stScripts s)),
                   mkState false (Some (length (stScripts s))) (stScripts s1 ++ [None])))
  /\ (let s2 := onload n true s in
      settled (Promise n) s2 = Some (Resolved true) /\ ensure s2 = (Now, s2)).
Proof.
  set (s := run evs). pose proof (run_inv evs) as Hinv. fold s in Hinv. cbn zeta.
  intros Hn. assert (Hlt : (n < length (stScripts s))%nat) by by eapply lookup_lt_Some.
  pose proof (loading_no_global s n Hinv Hn) as Hg.
  unfold onerror, onload. rewrite Hn. split.
  - unfold settled, ensure. cbn. rewrite list_lookup_insert_eq, Hg, length_insert by done. done.
  - unfold settled, ensure. cbn. rewrite orb_true_r, list_lookup_insert_eq by done. done.
Qed.

Lemma loader_recovers_witness :
  let s := run [ECall; ECall] in
  (let s1 := onerror 0 s in
   settled (Promise 0) s1 = Some Rejected
   /\ ensure s1 = (Promise 1, mkState false (Some 1%nat) (stScripts s1 ++ [None])))
  /\ (let s2 := onload 0 true s in
      settled (Promise 0) s2 = Some (Resolved true) /\ ensure s2 = (Now, s2)).
Proof. apply (loader_recovers [ECall; ECall] 0). reflexivity. Defined.
End Loader.

(** The copy button of a code block. *)
Module CopyButton.
Inductive Label := Copy | Copied | ErrorLabel.

#[export] Instance Label_eq_dec : EqDecision Label.
Proof. solve_decision. Defined.

(** The label, the clipboard writes in flight and the timers armed. *)
Record State := mkState { cbLabel : Label; cbWrites : nat; cbTimers : nat }.

Definition init : State := mkState Copy 0 0.

Inductive Event := Click | WriteSettled (ok : bool) | TimerFired.

Definition step (ev : Event) (s : State) : State :=
  match ev with
  | Click => mkState (cbLabel s) (S (cbWrites s)) (cbTimers s)
  | WriteSettled ok =>
      match cbWrites s with
      | O => s
      | S n => mkState (if ok then Copied else ErrorLabel) n (S (cbTimers s))
      end
  | TimerFired =>
      match cbTimers s with
      | O => s
      | S n => mkState Copy (cbWrites s) n
      end
  end.

Definition run (evs : list Event) : State := fold_left (fun s ev => step ev s) evs init.

Lemma step_quiet ev s :
  (cbTimers s = 0%nat -> cbLabel s = Copy) ->
  cbTimers (step ev s) = 0%nat -> cbLabel (step ev s) = Copy.
Proof. destruct s as [l [|w] [|t]], ev; cbn; intros; first [done|lia|auto]. Qed.

(** Whatever the clicks and the writes, a button with no timer armed reads Copy. *)
Lemma run_quiet evs : cbTimers (run evs) = 0%nat -> cbLabel (run evs) = Copy.
Proof.
  unfold run. induction evs as [|ev evs IH] using rev_ind; [done|].
  rewrite fold_left_app. cbn [fold_left]. apply step_quiet, IH.
Qed.
End CopyButton.

(** The blocks of a rendered document that the two passes decorate. *)
Module Blocks.
(** What [marked] makes of a code fence, a [pre] holding one [code] ([fCode]: the
    language and the source), with the copy buttons added to the [pre] and
    whether [hljs] highlighted it; the [div.mermaid] that replaces a mermaid
    block, with the [svg] that mermaid put in it and the fullscreen buttons; any
    other node. *)
Inductive Block :=
  | Pre (mermaid : bool) (source : jstr) (copyButtons : nat) (highlighted : bool)
  | Diagram (source : jstr) (svg : bool) (zoomButtons : nat)
  | Other.

Definition isMermaidCode (b : Block) : bool :=
  match b with Pre m _ _ _ => m | _ => false end.

Definition isPlainCode (b : Block) : bool :=
  match b with Pre m _ _ _ => negb m | _ => false end.

(** The [div] that replaces the [pre]: the text of the code, nothing else. *)
Definition toDiagram (b : Block) : Block :=
  match b with Pre true src _ _ => Diagram src false 0 | _ => b end.

(** [attachDiagramControls(container)]: a [div] that has its button, or has no
    [svg], is left alone. *)
Definition attachDiagramControls (b : Block) : Block :=
  match b with
  | Diagram src svg zs =>
      if (0 <? zs)%nat then b else if negb svg then b else Diagram src svg (S zs)
  | _ => b
  end.

(** What [ensureMermaid()] came to: rejected, or resolved with [window.mermaid],
    which is undefined when the script did not set it ([initialize] then throws
    out of the function); and what [mermaid.run] did: [draws] says of which
    sources it made an [svg], [throws] whether it threw. *)
Inductive Library := LoadFailed | Undefined | Loaded.
Record MermaidRun := mkMermaidRun { mrDraws : jstr -> bool; mrThrows : bool }.

Definition draw (r : MermaidRun) (b : Block) : Block :=
  match b with Diagram src _ zs => Diagram src (mrDraws r src) zs | _ => b end.

(** [renderMermaidDiagrams(container)]: only the blocks found by this call are
    replaced, drawn and given controls ([nodes]). *)
Definition renderBlock (r : MermaidRun) (b : Block) : Block :=
  if isMermaidCode b then
    let d := draw r (toDiagram b) in
    if mrThrows r then d else attachDiagramControls d
  else b.

Definition renderMermaidDiagrams (lib : Library) (r : MermaidRun) (bs : list Block) : list Block :=
  if negb (existsb isMermaidCode bs) then bs
  else match lib with
       | LoadFailed | Undefined => bs
       | Loaded => map (renderBlock r) bs
       end.

(** [addCopyButton(code)]. *)
Definition addCopyButton (b : Block) : Block :=
  match b with
  | Pre m src cs hl => if (0 <? cs)%nat then b else Pre m src (S cs) hl
  | _ => b
  end.

(** [hljs.highlightElement(code)], its exceptions swallowed: [accepts] says of which
    sources it returns. *)
Definition highlightElement (accepts : jstr -> bool) (b : Block) : Block :=
  match b with
  | Pre m src cs hl => Pre m src cs (hl || accepts src)
  | _ => b
  end.

Definition onPlain (f : Block -> Block) (b : Block) : Block :=
  if isPlainCode b then f b else b.

(** [enhanceCodeBlocks(container)]: the buttons at once, the highlighting when the
    library is there. *)
Definition enhanceCodeBlocks (lib : Library) (accepts : jstr -> bool) (bs : list Block) : list Block :=
  if negb (existsb isPlainCode bs) then bs
  else let bs1 := map (onPlain addCopyButton) bs in
       match lib with
       | LoadFailed | Undefined => bs1
       | Loaded => map (onPlain (highlightElement accepts)) bs1
       end.

(** A fresh document: what [innerHTML] of the rendered markdown holds. *)
Definition fresh (b : Block) : bool :=
  match b with Pre _ _ cs hl => (cs =? 0)%nat && negb hl | Diagram _ _ _ => false | Other => true end.

Definition enhanceBlock (lib : Library) (accepts : jstr -> bool) (b : Block) : Block :=
  let b1 := onPlain addCopyButton b in
  match lib with Loaded => onPlain (highlightElement accepts) b1 | _ => b1 end.

Definition mermaidBlock (lib : Library) (r : MermaidRun) (b : Block) : Block :=
  match lib with Loaded => renderBlock r b | _ => b end.

Lemma map_skip {A} (f : A -> A) (p : A -> bool) bs :
  existsb p bs = false -> (forall b, p b = false -> f b = b) -> map f bs = bs.
Proof.
  intros He Hf. induction bs as [|b bs IH]; [done|].
  cbn in *. apply orb_false_iff in He as [Hb He]. by rewrite Hf, IH.
Qed.

Lemma enhance_map lib accepts bs :
  enhanceCodeBlocks lib accepts bs = map (enhanceBlock lib accepts) bs.
Proof.
  unfold enhanceCodeBlocks. destruct (existsb isPlainCode bs) eqn:E; cbn [negb].
  - destruct lib; try done. cbv zeta. by rewrite map_map.
  - symmetry. apply (map_skip _ _ _ E). intros b Hb. unfold enhanceBlock, onPlain.
    rewrite Hb. destruct lib; by rewrite ?Hb.
Qed.

Lemma render_map lib r bs : renderMermaidDiagrams lib r bs = map (mermaidBlock lib r) bs.
Proof.
  unfold renderMermaidDiagrams. destruct (existsb isMermaidCode bs) eqn:E; cbn [negb].
  - destruct lib; [| |done]; by rewrite map_id.
  - symmetry. apply (map_skip _ _ _ E). intros b Hb. unfold mermaidBlock, renderBlock.
    rewrite Hb. by destruct lib.
Qed.

Lemma passes_block_commute libM libH r accepts b :
  enhanceBlock libH accepts (mermaidBlock libM r b) = mermaidBlock libM r (enhanceBlock libH accepts b).
Proof.
  destruct b as [[] src cs hl|src svg zs|]; [| |by destruct libM, libH..].
  - destruct libM, libH; try done; cbn;
      destruct (mrThrows r), (mrDraws r src); done.
  - destruct libM, libH; try done; destruct cs; done.
Qed.

(** The two decorations of a rendered document are independent and repeatable.
    Whatever the libraries do, they give the same blocks in either order; doing
    either twice is doing it once; and from the fresh document each fenced code
    block ends with exactly one copy button, each drawn diagram with exactly one
    fullscreen button, and a mermaid block whose library failed is still the
    original code block. *)
Theorem decorations_commute (libM libH : Library) (r : MermaidRun) (accepts : jstr -> bool)
    (bs : list Block) :
  let render := renderMermaidDiagrams libM r in
  let enhance := enhanceCodeBlocks libH accepts in
  enhance (render bs) = render (enhance bs)
  /\ render (render bs) = render bs
  /\ enhance (enhance bs) = enhance bs
  /\ (forall i b, bs !! i = Some b -> fresh b = true ->
      exists b', enhance (render bs) !! i = Some b' /\
      match b with
      | Pre false src _ _ =>
          b' = Pre false src 1 (match libH with Loaded => accepts src | _ => false end)
      | Pre true src _ _ =>
          match libM with
          | Loaded => b' = Diagram src (mrDraws r src)
                             (if negb (mrThrows r) && mrDraws r src then 1 else 0)
          | _ => b' = b
          end
      | _ => b' = b
      end).
Proof.
  cbv zeta. rewrite !enhance_map, !render_map, !map_map.
  split_and!.
  - apply map_ext. intros b. apply passes_block_commute.
  - apply map_ext. intros [[] src cs hl|src svg zs|]; destruct libM; try done;
      cbn; destruct (mrThrows r), (mrDraws r src); done.
  - apply map_ext. intros [[] src cs hl|src svg zs|]; destruct libH; try done;
      destruct cs; cbn; rewrite ?orb_true_r; try done; destruct hl, (accepts src); done.
  - intros i b Hi Hf. exists (enhanceBlock libH accepts (mermaidBlock libM r b)). split.
    + change (map ?f bs !! i) with ((f <$> bs) !! i). by rewrite list_lookup_fmap, Hi.
    + destruct b as [[] src cs hl|src svg zs|]; cbn in Hf; try done.
      * destruct libM; try (by destruct libH). cbn.
        destruct (mrThrows r), (mrDraws r src), libH; done.
      * bool_simpl. subst. assert (cs = 0%nat) as -> by lia. by destruct libM, libH.
      * by destruct libM, libH.
Qed.
End Blocks.
