(* ===== verification/Float64.v ===== *)
(** * IEEE double arithmetic: what the components need of it

    Numbers of JavaScript and [float64] of Go are the kernel's primitive floats; the
    lemmas go through the library's specification of them ([Prim2SF]). *)

From Stdlib Require Import ZArith Floats.
From stdpp Require Import numbers list.
From S2P Require Import Prelude.
#[local] Open Scope Z_scope.

Abbreviation number := PrimFloat.float.

(** [Math.max] and [Math.min]: NaN when either is; of two equal zeros the
    positive one for [max], the negative one for [min]. *)
Definition mathMax (a b : number) : number :=
  if PrimFloat.is_nan a || PrimFloat.is_nan b then PrimFloat.nan
  else if PrimFloat.ltb a b then b
  else if PrimFloat.ltb b a then a
  else if PrimFloat.get_sign a then b else a.

Definition mathMin (a b : number) : number :=
  if PrimFloat.is_nan a || PrimFloat.is_nan b then PrimFloat.nan
  else if PrimFloat.ltb a b then a
  else if PrimFloat.ltb b a then b
  else if PrimFloat.get_sign a then a else b.

(** Neither NaN nor negative: zero, positive or plus infinity. *)
Definition sfNonneg (f : spec_float) : Prop :=
  match f with
  | S754_zero _ | S754_infinity false | S754_finite false _ _ => True
  | _ => False
  end.

Definition sfPositive (f : spec_float) : Prop :=
  match f with S754_finite false _ _ => True | _ => False end.

Lemma shr_1_nonneg r : 0 <= shr_m r -> 0 <= shr_m (shr_1 r).
Proof. destruct r as [[|[p|p|]|p] r s]; cbn; lia. Qed.

Lemma iter_shr_nonneg p r : 0 <= shr_m r -> 0 <= shr_m (SpecFloat.iter_pos shr_1 p r).
Proof.
  revert r. induction p as [p IH|p IH|]; intros r H; cbn; auto using shr_1_nonneg.
Qed.

Lemma shr_record_of_loc_m m l : shr_m (shr_record_of_loc m l) = m.
Proof. by destruct l as [|[]]. Qed.

Lemma shr_fexp_nonneg m e l : 0 <= m -> 0 <= shr_m (shr_fexp prec emax m e l).1.
Proof.
  intros H. unfold shr_fexp, shr.
  destruct (fexp prec emax (Zdigits2 m + e) - e) as [|p|p]; cbn [fst];
    try apply iter_shr_nonneg; by rewrite shr_record_of_loc_m.
Qed.

Lemma round_nearest_even_nonneg m l : 0 <= m -> 0 <= round_nearest_even m l.
Proof. intros H. destruct l as [|[]]; cbn; [done| |lia|lia]. destruct (Z.even m); lia. Qed.

Lemma round_aux_nonneg m e l : 0 <= m -> sfNonneg (binary_round_aux prec emax false m e l).
Proof.
  intros H. unfold binary_round_aux.
  pose proof (shr_fexp_nonneg m e l H) as H1.
  destruct (shr_fexp prec emax m e l) as [r1 e1]. cbn [fst] in H1.
  pose proof (shr_fexp_nonneg _ e1 loc_Exact
                (round_nearest_even_nonneg _ (loc_of_shr_record r1) H1)) as H2.
  destruct (shr_fexp prec emax (round_nearest_even _ _) e1 loc_Exact) as [r2 e2].
  cbn [fst] in H2. destruct (shr_m r2) as [|p|p]; cbn; [done| |lia].
  by destruct (e2 <=? emax - prec).
Qed.

(** The product of two positive finite numbers is not NaN and not negative. *)
Lemma mul_nonneg (a b : number) :
  sfPositive (Prim2SF a) -> sfPositive (Prim2SF b) -> sfNonneg (Prim2SF (PrimFloat.mul a b)).
Proof.
  intros Ha Hb. rewrite mul_spec. unfold SF64mul, SFmul.
  destruct (Prim2SF a) as [| | |[] ma ea]; try done.
  destruct (Prim2SF b) as [| | |[] mb eb]; try done.
  by apply round_aux_nonneg.
Qed.

Lemma sfNonneg_not_nan (a : number) : sfNonneg (Prim2SF a) -> PrimFloat.is_nan a = false.
Proof.
  unfold PrimFloat.is_nan. rewrite FloatAxioms.eqb_spec. unfold SFeqb, SFcompare.
  destruct (Prim2SF a) as [| []| |[] m e]; try done.
  intros _. rewrite Z.compare_refl. change (Pos.compare_cont Eq m m) with (Pos.compare m m).
  by rewrite Pos.compare_refl.
Qed.

Lemma not_nan_spec (a : number) :
  PrimFloat.is_nan a = false -> Prim2SF a <> S754_nan.
Proof.
  unfold PrimFloat.is_nan. rewrite FloatAxioms.eqb_spec. intros H E. rewrite E in H. done.
Qed.

Lemma SFcompare_opp x y :
  SFcompare y x = match SFcompare x y with Some c => Some (CompOpp c) | None => None end.
Proof.
  assert (HP : forall m m', Pos.compare_cont Eq m' m = CompOpp (Pos.compare_cont Eq m m')).
  { intros m m'. apply (Pos.compare_antisym m m'). }
  destruct x as [[]|[]| |[] m e], y as [[]|[]| |[] m' e']; cbn; try done;
    rewrite (Z.compare_antisym e e'), (HP m m'); destruct (e ?= e'); cbn; done.
Qed.

(** Comparisons of two numbers of which neither is NaN. *)
Lemma leb_not_ltb (a b : number) :
  PrimFloat.is_nan a = false -> PrimFloat.is_nan b = false ->
  PrimFloat.leb a b = negb (PrimFloat.ltb b a).
Proof.
  intros Ha%not_nan_spec Hb%not_nan_spec. rewrite leb_spec, ltb_spec. unfold SFleb, SFltb.
  rewrite (SFcompare_opp (Prim2SF a) (Prim2SF b)).
  assert (Hc : SFcompare (Prim2SF a) (Prim2SF b) <> None).
  { destruct (Prim2SF a) as [[]|[]| |[] m e], (Prim2SF b) as [[]|[]| |[] m' e']; done. }
  destruct (SFcompare _ _) as [[]|]; done.
Qed.

Lemma ltb_leb (a b : number) : PrimFloat.ltb a b = true -> PrimFloat.leb a b = true.
Proof. rewrite leb_spec, ltb_spec. unfold SFleb, SFltb. by destruct (SFcompare _ _) as [[]|]. Qed.

Lemma leb_refl_not_nan (a : number) : PrimFloat.is_nan a = false -> PrimFloat.leb a a = true.
Proof.
  unfold PrimFloat.is_nan. rewrite FloatAxioms.eqb_spec, leb_spec. unfold SFeqb, SFleb.
  destruct (SFcompare _ _) as [[]|]; done.
Qed.

Lemma leb_not_nan (a b : number) :
  PrimFloat.leb a b = true -> PrimFloat.is_nan a = false /\ PrimFloat.is_nan b = false.
Proof.
  rewrite leb_spec. unfold PrimFloat.is_nan. rewrite !FloatAxioms.eqb_spec. unfold SFeqb, SFleb. intros H.
  assert (HP : forall m, Pos.compare_cont Eq m m = Eq) by (intros m; apply (Pos.compare_refl m)).
  destruct (Prim2SF a) as [[]|[]| |[] m e], (Prim2SF b) as [[]|[]| |[] m' e']; try done;
    cbn; rewrite ?Z.compare_refl, ?HP; done.
Qed.

(** Clamping: [Math.min(Math.max(x, lo), hi)] of a number that is not NaN lies between
    the bounds. *)
Lemma clamp_range (x lo hi : number) :
  PrimFloat.is_nan x = false -> PrimFloat.ltb lo hi = true ->
  PrimFloat.leb lo (mathMin (mathMax x lo) hi) = true
  /\ PrimFloat.leb (mathMin (mathMax x lo) hi) hi = true.
Proof.
  intros Hx Hlt. destruct (leb_not_nan lo hi (ltb_leb _ _ Hlt)) as [Hlo Hhi].
  assert (Hm : exists m, mathMax x lo = m /\ PrimFloat.is_nan m = false /\ PrimFloat.leb lo m = true).
  { unfold mathMax. rewrite Hx, Hlo. cbn [orb].
    destruct (PrimFloat.ltb x lo) eqn:E1; [eexists; eauto using leb_refl_not_nan|].
    assert (PrimFloat.leb lo x = true) by (rewrite leb_not_ltb by done; by rewrite E1).
    destruct (PrimFloat.ltb lo x); [by exists x|].
    destruct (PrimFloat.get_sign x); eexists; eauto using leb_refl_not_nan. }
  destruct Hm as (m & -> & Hn & Hl). unfold mathMin. rewrite Hn, Hhi. cbn [orb].
  destruct (PrimFloat.ltb m hi) eqn:E1; [by auto using ltb_leb|].
  destruct (PrimFloat.ltb hi m) eqn:E2; [by auto using ltb_leb, leb_refl_not_nan|].
  assert (PrimFloat.leb m hi = true) by (rewrite leb_not_ltb by done; by rewrite E2).
  destruct (PrimFloat.get_sign m); auto using ltb_leb, leb_refl_not_nan.
Qed.

(** A number not below a positive one, and not infinite, is positive. *)
Lemma between_positive (lo x hi : number) :
  sfPositive (Prim2SF lo) -> sfPositive (Prim2SF hi) ->
  PrimFloat.leb lo x = true -> PrimFloat.leb x hi = true -> sfPositive (Prim2SF x).
Proof.
  rewrite !leb_spec. unfold SFleb.
  destruct (Prim2SF lo) as [| | |[] ml el]; try done.
  destruct (Prim2SF hi) as [| | |[] mh eh]; try done.
  by destruct (Prim2SF x) as [[]|[]| |[] m e].
Qed.
