(* ===== verification/DiagramViewer.v ===== *)
(** * The fullscreen diagram viewer ([docs/ui/assets/app.js], [ensureDiagramOverlay])

    One overlay, built once, holding the clone of the diagram being viewed, the pan
    and zoom of its canvas and the state of a drag.  Scale and offsets are doubles. *)

From Stdlib Require Import ZArith Floats.
From stdpp Require Import strings numbers gmap list.
From S2P Require Import Prelude JsString Float64.
#[local] Set Warnings "-inexact-float -clear-no-such-hyp".

(** The closure variables of [ensureDiagramOverlay], the transform last painted on
    the canvas ([None] before the first [apply]), the class [grabbing] of the
    stage, the class [open] of the overlay, [document.body.style.overflow] being
    [hidden], and the source of the clone in the canvas. *)
Record Overlay := mkOverlay {
  ovScale : number;
  ovTx : number;
  ovTy : number;
  ovDragging : bool;
  ovLastX : number;
  ovLastY : number;
  ovTransform : option (number * number * number);
  ovGrabbing : bool;
  ovOpen : bool;
  ovBodyHidden : bool;
  ovCanvas : option nat;
}.

(** [diagramOverlay]: [null] until the first diagram is opened. *)
Abbreviation Viewer := (option Overlay).

Definition freshOverlay : Overlay :=
  mkOverlay 1 0 0 false 0 0 None false false false None.

Definition setView (scale tx ty : number) (o : Overlay) : Overlay :=
  mkOverlay scale tx ty (ovDragging o) (ovLastX o) (ovLastY o) (ovTransform o)
    (ovGrabbing o) (ovOpen o) (ovBodyHidden o) (ovCanvas o).

Definition setDrag (dragging : bool) (x y : number) (grabbing : bool) (o : Overlay) : Overlay :=
  mkOverlay (ovScale o) (ovTx o) (ovTy o) dragging x y (ovTransform o)
    grabbing (ovOpen o) (ovBodyHidden o) (ovCanvas o).

(** [apply()] writes the transform of the canvas. *)
Definition applyView (o : Overlay) : Overlay :=
  mkOverlay (ovScale o) (ovTx o) (ovTy o) (ovDragging o) (ovLastX o) (ovLastY o)
    (Some (ovTx o, ovTy o, ovScale o)) (ovGrabbing o) (ovOpen o) (ovBodyHidden o) (ovCanvas o).

Definition resetView (o : Overlay) : Overlay := applyView (setView 1 0 0 o).

(** [zoom(factor)]. *)
Definition minScale : number := 0.2.
Definition maxScale : number := 8.

Definition zoom (factor : number) (o : Overlay) : Overlay :=
  applyView
    (setView (mathMin (mathMax (PrimFloat.mul (ovScale o) factor) minScale) maxScale)
       (ovTx o) (ovTy o) o).

Definition closeOverlay (o : Overlay) : Overlay :=
  mkOverlay (ovScale o) (ovTx o) (ovTy o) (ovDragging o) (ovLastX o) (ovLastY o) (ovTransform o)
    (ovGrabbing o) false false (ovCanvas o).

(** [ov._show(svg)]. *)
Definition show (svg : nat) (o : Overlay) : Overlay :=
  let o := resetView o in
  mkOverlay (ovScale o) (ovTx o) (ovTy o) (ovDragging o) (ovLastX o) (ovLastY o) (ovTransform o)
    (ovGrabbing o) true true (Some svg).

(** The toolbar's buttons ([data-act]). *)
Inductive Act := ActIn | ActOut | ActReset | ActClose.

Definition inFactor : number := 1.2.
Definition outFactor : number := 1 / 1.2.
Definition wheelUp : number := 1.12.
Definition wheelDown : number := 0.89.

Definition runAct (a : Act) (o : Overlay) : Overlay :=
  match a with
  | ActIn => zoom inFactor o
  | ActOut => zoom outFactor o
  | ActReset => resetView o
  | ActClose => closeOverlay o
  end.

(** A click in the toolbar hits a button or its gaps; a click of the overlay hits the
    backdrop ([e.target === ov]) or something above it. *)
Inductive ViewerEvent :=
  | VWheel (deltaY : number)
  | VPointerDown (x y : number)
  | VPointerMove (x y : number)
  | VPointerUp
  | VDblClick
  | VToolbar (button : option Act)
  | VOverlayClick (onBackdrop : bool)
  | VKeydown (key : string).

Definition overlayStep (ev : ViewerEvent) (o : Overlay) : Overlay :=
  match ev with
  | VWheel dy => zoom (if PrimFloat.ltb dy 0 then wheelUp else wheelDown) o
  | VPointerDown x y => setDrag true x y true o
  | VPointerMove x y =>
      if negb (ovDragging o) then o
      else
        let tx := PrimFloat.add (ovTx o) (PrimFloat.sub x (ovLastX o)) in
        let ty := PrimFloat.add (ovTy o) (PrimFloat.sub y (ovLastY o)) in
        applyView (setDrag true x y (ovGrabbing o) (setView (ovScale o) tx ty o))
  | VPointerUp => setDrag false (ovLastX o) (ovLastY o) false o
  | VDblClick => resetView o
  | VToolbar (Some a) => runAct a o
  | VToolbar None => o
  | VOverlayClick onBackdrop => if onBackdrop then closeOverlay o else o
  | VKeydown key =>
      if bool_decide (key = "Escape"%string) && ovOpen o then closeOverlay o else o
  end.

(** [ensureDiagramOverlay] and [openDiagramViewer(svg)]: nothing for a missing [svg];
    the overlay is built by the first call. *)
Definition ensureDiagramOverlay (v : Viewer) : Overlay :=
  match v with Some o => o | None => freshOverlay end.

Definition openDiagramViewer (svg : option nat) (v : Viewer) : Viewer :=
  match svg with
  | Some n => Some (show n (ensureDiagramOverlay v))
  | None => v
  end.

(** A run of the page: fullscreen buttons clicked, and events of the overlay once it
    exists. *)
Inductive ViewerInput := Open (svg : option nat) | Input (ev : ViewerEvent).

Definition viewerStep (v : Viewer) (i : ViewerInput) : Viewer :=
  match i with
  | Open svg => openDiagramViewer svg v
  | Input ev => overlayStep ev <$> v
  end.

Definition viewerRun (ins : list ViewerInput) : Viewer := fold_left viewerStep ins None.

(** The scale is between the bounds, what is painted is the current view, the page is
    kept from scrolling exactly while the overlay is open, and the grabbing cursor
    is shown exactly while dragging. *)
Record overlayInv (o : Overlay) : Prop := {
  oi_min : PrimFloat.leb minScale (ovScale o) = true;
  oi_max : PrimFloat.leb (ovScale o) maxScale = true;
  oi_painted : ovCanvas o <> None -> ovTransform o = Some (ovTx o, ovTy o, ovScale o);
  oi_hidden : ovBodyHidden o = ovOpen o;
  oi_open : ovOpen o = true -> ovCanvas o <> None;
  oi_grab : ovGrabbing o = ovDragging o;
}.

Lemma zoom_scale_range factor o :
  sfPositive (Prim2SF factor) -> overlayInv o ->
  PrimFloat.leb minScale (ovScale (zoom factor o)) = true
  /\ PrimFloat.leb (ovScale (zoom factor o)) maxScale = true.
Proof.
  intros Hf [Hmin Hmax _ _ _ _]. unfold zoom, applyView, setView. cbn [ovScale].
  apply clamp_range; [|vm_compute; done]. apply sfNonneg_not_nan, mul_nonneg; [|done].
  by apply (between_positive minScale _ maxScale); [vm_compute..| |].
Qed.

Lemma zoom_inv factor o : sfPositive (Prim2SF factor) -> overlayInv o -> overlayInv (zoom factor o).
Proof.
  intros Hf Ho. destruct (zoom_scale_range factor o Hf Ho) as [H1 H2].
  destruct Ho as [_ _ _ Hh Hop Hg]. by split.
Qed.

Lemma resetView_inv o : overlayInv o -> overlayInv (resetView o).
Proof. intros [_ _ _ Hh Hop Hg]. by split. Qed.

Lemma closeOverlay_inv o : overlayInv o -> overlayInv (closeOverlay o).
Proof. intros [H1 H2 Hp _ _ Hg]. by split. Qed.

Lemma show_inv svg o : overlayInv o -> overlayInv (show svg o).
Proof. intros [H1 H2 Hp _ _ Hg]. by split. Qed.

Lemma runAct_inv a o : overlayInv o -> overlayInv (runAct a o).
Proof.
  destruct a; cbn [runAct]; auto using resetView_inv, closeOverlay_inv;
    apply zoom_inv; vm_compute; done.
Qed.

Lemma overlayStep_inv ev o : overlayInv o -> overlayInv (overlayStep ev o).
Proof.
  intros Ho. destruct ev as [dy|x y|x y| | |[a|]|b|key]; cbn [overlayStep];
    auto using resetView_inv, runAct_inv.
  - apply zoom_inv; [|done]. by destruct (PrimFloat.ltb dy 0); vm_compute.
  - by destruct Ho.
  - destruct (ovDragging o) eqn:E; [|done]. destruct Ho as [H1 H2 _ Hh Hop Hg].
    split; cbn; try done. by rewrite Hg.
  - by destruct Ho.
  - destruct b; [by apply closeOverlay_inv|done].
  - destruct (bool_decide _ && ovOpen o); [by apply closeOverlay_inv|done].
Qed.

Lemma viewerRun_inv ins o : viewerRun ins = Some o -> overlayInv o.
Proof.
  unfold viewerRun. revert o. induction ins as [|i ins IH] using rev_ind; intros o; [done|].
  rewrite fold_left_app. cbn [fold_left].
  destruct (fold_left viewerStep ins None) as [o'|] eqn:E; destruct i as [[n|]|ev]; cbn; intros [= <-].
  - apply show_inv, (IH _ eq_refl).
  - apply (IH _ eq_refl).
  - apply overlayStep_inv, (IH _ eq_refl).
  - apply show_inv. by split.
Qed.

(** After any sequence of openings, wheel turns, drags, clicks and keys, the zoom is
    a number between 0.2 and 8 (never NaN, whatever the double rounding of the
    repeated products), what the canvas shows is the current pan and zoom, and the
    page under the overlay is kept from scrolling exactly while the overlay is
    open. *)
Theorem viewer_zoom_bounded (ins : list ViewerInput) :
  match viewerRun ins with
  | None => forall svg, Open (Some svg) ∉ ins
  | Some o =>
      PrimFloat.leb 0.2 (ovScale o) = true /\ PrimFloat.leb (ovScale o) 8 = true
      /\ ovTransform o = Some (ovTx o, ovTy o, ovScale o)
      /\ ovBodyHidden o = ovOpen o
  end.
Proof.
  assert (Hshown : forall o, viewerRun ins = Some o -> ovCanvas o <> None).
  { unfold viewerRun. clear. induction ins as [|i ins IH] using rev_ind; intros o; [done|].
    rewrite fold_left_app. cbn [fold_left].
    destruct (fold_left viewerStep ins None) as [o'|] eqn:E; destruct i as [[n|]|ev]; cbn; intros [= <-].
    - done.
    - by apply IH.
    - specialize (IH _ eq_refl).
      destruct ev as [dy|x y|x y| | |[[]|]|[]|key]; cbn; try done;
        [by destruct (ovDragging o')|by destruct (bool_decide _ && ovOpen o')].
    - done. }
  destruct (viewerRun ins) as [o|] eqn:E.
  - destruct (viewerRun_inv ins o E) as [H1 H2 Hp Hh _ _].
    split_and!; [exact H1|exact H2|by apply Hp, Hshown|exact Hh].
  - clear Hshown. intros svg. revert E. unfold viewerRun.
    induction ins as [|i ins IH] using rev_ind; [set_solver|].
    rewrite fold_left_app. cbn [fold_left].
    destruct (fold_left viewerStep ins None) as [o'|]; destruct i as [[n|]|ev]; cbn; try done;
      intros _; specialize (IH eq_refl); set_solver.
Qed.

(** Opening a diagram, whatever was viewed and however it was left, shows that
    diagram, open, centred and unzoomed; from there Escape, the backdrop and the
    close button each close it, and a pointer that is not pressed moves nothing. *)
Theorem viewer_opens_centred (ins : list ViewerInput) (svg : nat) :
  exists o, openDiagramViewer (Some svg) (viewerRun ins) = Some o
  /\ ovOpen o = true /\ ovBodyHidden o = true /\ ovCanvas o = Some svg
  /\ ovTransform o = Some (0%float, 0%float, 1%float)
  /\ (forall ev, In ev [VKeydown "Escape"; VOverlayClick true; VToolbar (Some ActClose)] ->
        ovOpen (overlayStep ev o) = false /\ ovBodyHidden (overlayStep ev o) = false)
  /\ (forall x y, ovDragging o = false -> overlayStep (VPointerMove x y) o = o).
Proof.
  eexists. split; [reflexivity|]. split_and!; try done.
  - intros ev [<-|[<-|[<-|[]]]]; done.
  - intros x y Hd. cbn [overlayStep]. by rewrite Hd.
Qed.
