(* ===== verification/GoLang.v ===== *)
(** * What the Go components share

    Machine integers, durations and instants, results that may panic, and the
    functions of package [strings] the components call.  A Go string is the
    [string] of its bytes. *)

From Stdlib Require Import ZArith Ascii String.
From stdpp Require Import strings numbers gmap list.
From S2P Require Import Prelude.
#[local] Set Default Proof Using "Type".

(** ** Integers, durations, instants *)

(** [int64] and [int] arithmetic wraps around. *)
Definition wrap64 (z : Z) : Z := (z + 2 ^ 63) `mod` 2 ^ 64 - 2 ^ 63.

Lemma wrap64_id z : (- 2 ^ 63 <= z < 2 ^ 63)%Z -> wrap64 z = z.
Proof. intros H. unfold wrap64. rewrite Z.mod_small; lia. Qed.

Lemma wrap64_range z : (- 2 ^ 63 <= wrap64 z < 2 ^ 63)%Z.
Proof. unfold wrap64. pose proof (Z.mod_pos_bound (z + 2 ^ 63) (2 ^ 64)). lia. Qed.

(** Durations and instants are counted in nanoseconds. *)
Abbreviation duration := Z (only parsing).
Abbreviation instant := Z (only parsing).
Definition millisecond : Z := 10 ^ 6.
Definition second : Z := 10 ^ 9.

(** [Duration.Milliseconds()]: truncated towards zero. *)
Definition milliseconds (d : duration) : Z := Z.quot d millisecond.

Lemma milliseconds_floor d :
  (0 <= d -> milliseconds d * millisecond <= d < (milliseconds d + 1) * millisecond)%Z.
Proof.
  intros Hd. unfold milliseconds. rewrite Z.quot_div_nonneg by (unfold millisecond; lia).
  pose proof (Z.div_mod d millisecond ltac:(unfold millisecond; lia)).
  pose proof (Z.mod_pos_bound d millisecond ltac:(unfold millisecond; lia)). nia.
Qed.

(** ** Results *)

(** A computation returns or panics. *)
Inductive go (A : Type) : Type := Ret (a : A) | Panic.
Arguments Ret {A} _.
Arguments Panic {A}.

Definition goBind {A B} (m : go A) (k : A -> go B) : go B :=
  match m with Ret a => k a | Panic => Panic end.

(** ** Strings *)

(** [strings.Split(s, c)] for a one-byte separator. *)
Fixpoint splitChar (c : ascii) (s : string) : list string :=
  match s with
  | EmptyString => [""%string]
  | String a r =>
      if Ascii.eqb a c then ""%string :: splitChar c r
      else match splitChar c r with
           | [] => [String a ""]
           | h :: t => String a h :: t
           end
  end.

(** [strings.Join(l, sep)]. *)
Fixpoint joinWith (sep : string) (l : list string) : string :=
  match l with
  | [] => ""
  | [x] => x
  | x :: r => x +:+ sep +:+ joinWith sep r
  end.

Fixpoint stringAll (p : ascii -> bool) (s : string) : bool :=
  match s with EmptyString => true | String a r => p a && stringAll p r end.

Definition hasChar (c : ascii) (s : string) : bool :=
  negb (stringAll (fun a => negb (Ascii.eqb a c)) s).

(** [strings.HasPrefix(s, p)] and [strings.HasSuffix(s, p)]. *)
Definition hasPrefix (p s : string) : bool := String.prefix p s.

Fixpoint hasSuffix (p s : string) : bool :=
  bool_decide (s = p) || match s with EmptyString => false | String _ r => hasSuffix p r end.

(** [unicode.IsSpace] of the runes of one, two and three bytes. *)
Definition space1 (a : ascii) : bool :=
  let n := N_of_ascii a in ((9 <=? n) && (n <=? 13) || (n =? 32))%N.

Definition space2 (a b : ascii) : bool :=
  let n := N_of_ascii b in
  (N_of_ascii a =? 194)%N && ((n =? 133) || (n =? 160))%N.

Definition space3 (a b c : ascii) : bool :=
  let x := N_of_ascii a in let y := N_of_ascii b in let z := N_of_ascii c in
  ((x =? 225) && (y =? 154) && (z =? 128)
   || (x =? 226) && (y =? 128) && ((128 <=? z) && (z <=? 138) || (z =? 168) || (z =? 169) || (z =? 175))
   || (x =? 226) && (y =? 129) && (z =? 159)
   || (x =? 227) && (y =? 128) && (z =? 128))%N.

Fixpoint trimLeftSpace (s : list ascii) : list ascii :=
  match s with
  | [] => []
  | a :: r =>
      if space1 a then trimLeftSpace r
      else match r with
           | b :: r2 =>
               if space2 a b then trimLeftSpace r2
               else match r2 with
                    | c :: r3 => if space3 a b c then trimLeftSpace r3 else s
                    | [] => s
                    end
           | [] => s
           end
  end.

(** The same from the right, on the reversed bytes. *)
Fixpoint trimRightSpace (s : list ascii) : list ascii :=
  match s with
  | [] => []
  | a :: r =>
      if space1 a then trimRightSpace r
      else match r with
           | b :: r2 =>
               if space2 b a then trimRightSpace r2
               else match r2 with
                    | c :: r3 => if space3 c b a then trimRightSpace r3 else s
                    | [] => s
                    end
           | [] => s
           end
  end.

(** [strings.TrimSpace(s)]. *)
Definition trimSpace (s : string) : string :=
  string_of_list_ascii
    (reverse (trimRightSpace (reverse (trimLeftSpace (list_ascii_of_string s))))).

(** Printable ASCII without the space. *)
Definition graphic (a : ascii) : bool :=
  let n := N_of_ascii a in ((33 <=? n) && (n <=? 126))%N.

Lemma graphic_not_space1 a : graphic a = true -> space1 a = false.
Proof. unfold graphic, space1. lia. Qed.

Lemma graphic_not_space2 a b : graphic a = true -> space2 a b = false.
Proof. unfold graphic, space2. lia. Qed.

Lemma graphic_not_space2_r a b : graphic b = true -> space2 a b = false.
Proof. unfold graphic, space2. lia. Qed.

Lemma graphic_not_space3 a b c : graphic a = true -> space3 a b c = false.
Proof. unfold graphic, space3. lia. Qed.

Lemma graphic_not_space3_r a b c : graphic c = true -> space3 a b c = false.
Proof. unfold graphic, space3. lia. Qed.

Lemma trimLeftSpace_graphic a r : graphic a = true -> trimLeftSpace (a :: r) = a :: r.
Proof.
  intros H. cbn [trimLeftSpace]. rewrite graphic_not_space1 by done.
  destruct r as [|b [|c r]]; [done| |]; rewrite graphic_not_space2 by done; [done|].
  by rewrite graphic_not_space3.
Qed.

Lemma trimRightSpace_graphic a r : graphic a = true -> trimRightSpace (a :: r) = a :: r.
Proof.
  intros H. cbn [trimRightSpace]. rewrite graphic_not_space1 by done.
  destruct r as [|b [|c r]]; [done| |]; rewrite graphic_not_space2_r by done; [done|].
  by rewrite graphic_not_space3_r.
Qed.

(** A string whose first and last characters are graphic has nothing to trim. *)
Lemma trimSpace_graphic_ends s a m b :
  list_ascii_of_string s = a :: m -> last (a :: m) = Some b ->
  graphic a = true -> graphic b = true -> trimSpace s = s.
Proof.
  intros Hs Hl Ha Hb. unfold trimSpace. rewrite Hs, trimLeftSpace_graphic by done.
  apply last_Some in Hl as [k Hk]. rewrite Hk, reverse_snoc, trimRightSpace_graphic by done.
  rewrite <- reverse_snoc, <- Hk, reverse_involutive, <- Hs.
  apply string_of_list_ascii_of_string.
Qed.

Lemma stringAll_Forall p s :
  stringAll p s = true <-> Forall (fun a => p a = true) (list_ascii_of_string s).
Proof.
  induction s as [|a s IH]; cbn; [done|].
  rewrite andb_true_iff, IH, Forall_cons. done.
Qed.

Lemma trimSpace_graphic s : stringAll graphic s = true -> trimSpace s = s.
Proof.
  rewrite stringAll_Forall. intros H.
  destruct (list_ascii_of_string s) as [|a m] eqn:E.
  - destruct s; [done|discriminate].
  - destruct (last (a :: m)) as [b|] eqn:Hl; [|by apply last_None in Hl].
    rewrite Forall_forall in H.
    eapply trimSpace_graphic_ends; [done|done|apply H; by left|].
    apply H, last_Some_elem_of, Hl.
Qed.

Lemma splitChar_not_nil c s : splitChar c s <> [].
Proof. destruct s as [|a s]; cbn; [done|]. destruct (Ascii.eqb a c); [done|]. by destruct (splitChar c s). Qed.

Lemma splitChar_none c s : hasChar c s = false -> splitChar c s = [s].
Proof.
  unfold hasChar. rewrite negb_false_iff. induction s as [|a s IH]; cbn; [done|].
  intros [Ha Hs]%andb_true_iff. apply negb_true_iff in Ha. by rewrite Ha, IH.
Qed.

Lemma splitChar_app c s r :
  hasChar c s = false -> splitChar c (s +:+ String c r) = s :: splitChar c r.
Proof.
  unfold hasChar. rewrite negb_false_iff. induction s as [|a s IH]; cbn [stringAll].
  - intros _. change (EmptyString +:+ String c r) with (String c r). cbn [splitChar].
    by rewrite Ascii.eqb_refl.
  - intros [Ha Hs]%andb_true_iff. apply negb_true_iff in Ha.
    change (String a s +:+ String c r) with (String a (s +:+ String c r)). cbn [splitChar].
    by rewrite Ha, IH.
Qed.

(** Splitting what was joined gives the parts back, when there is one and none holds the
    separator. *)
Lemma splitChar_joinWith c l :
  l <> [] -> Forall (fun s => hasChar c s = false) l ->
  splitChar c (joinWith (String c "") l) = l.
Proof.
  induction l as [|x l IH]; intros Hne Hall; [done|].
  apply Forall_cons in Hall as [Hx Hall].
  destruct l as [|y l]; [by apply splitChar_none|].
  change (joinWith (String c "") (x :: y :: l))
    with (x +:+ String c (joinWith (String c "") (y :: l))).
  rewrite splitChar_app by done. f_equal. by apply IH.
Qed.

(** Trimming keeps every graphic character. *)
Lemma trimLeftSpace_keeps c s :
  graphic c = true -> c ∈ s -> c ∈ trimLeftSpace s.
Proof.
  intros Hc. remember (length s) as n eqn:Hn.
  revert s Hn. induction (lt_wf n) as [n _ IH]. intros s -> Hin.
  destruct s as [|a r]; [done|]. cbn [trimLeftSpace].
  destruct (space1 a) eqn:E1.
  { apply elem_of_cons in Hin as [->|Hin]; [by rewrite graphic_not_space1 in E1|].
    by apply (IH (length r)); [cbn; lia| |]. }
  destruct r as [|b r2]; [done|]. destruct (space2 a b) eqn:E2.
  { rewrite !elem_of_cons in Hin. destruct Hin as [->|[->|Hin]];
      [by rewrite graphic_not_space2 in E2|by rewrite graphic_not_space2_r in E2|].
    by apply (IH (length r2)); [cbn; lia| |]. }
  destruct r2 as [|d r3]; [done|]. destruct (space3 a b d) eqn:E3; [|done].
  assert (Hb : c <> b).
  { intros ->. revert E3 Hc. unfold space3, graphic. lia. }
  rewrite !elem_of_cons in Hin. destruct Hin as [->|[->|[->|Hin]]];
    [by rewrite graphic_not_space3 in E3|done|by rewrite graphic_not_space3_r in E3|].
  by apply (IH (length r3)); [cbn; lia| |].
Qed.

Lemma trimRightSpace_keeps c s :
  graphic c = true -> c ∈ s -> c ∈ trimRightSpace s.
Proof.
  intros Hc. remember (length s) as n eqn:Hn.
  revert s Hn. induction (lt_wf n) as [n _ IH]. intros s -> Hin.
  destruct s as [|a r]; [done|]. cbn [trimRightSpace].
  destruct (space1 a) eqn:E1.
  { apply elem_of_cons in Hin as [->|Hin]; [by rewrite graphic_not_space1 in E1|].
    by apply (IH (length r)); [cbn; lia| |]. }
  destruct r as [|b r2]; [done|]. destruct (space2 b a) eqn:E2.
  { rewrite !elem_of_cons in Hin. destruct Hin as [->|[->|Hin]];
      [by rewrite graphic_not_space2_r in E2|by rewrite graphic_not_space2 in E2|].
    by apply (IH (length r2)); [cbn; lia| |]. }
  destruct r2 as [|d r3]; [done|]. destruct (space3 d b a) eqn:E3; [|done].
  assert (Hb : c <> b).
  { intros ->. revert E3 Hc. unfold space3, graphic. lia. }
  rewrite !elem_of_cons in Hin. destruct Hin as [->|[->|[->|Hin]]];
    [by rewrite graphic_not_space3_r in E3|done|by rewrite graphic_not_space3 in E3|].
  by apply (IH (length r3)); [cbn; lia| |].
Qed.

Lemma hasChar_elem c s : hasChar c s = true <-> c ∈ list_ascii_of_string s.
Proof.
  unfold hasChar. rewrite negb_true_iff. induction s as [|a s IH]; cbn.
  - split; [done|]. intros []%elem_of_nil.
  - rewrite elem_of_cons, <- IH. destruct (Ascii.eqb_spec a c) as [->|Hne]; cbn.
    + split; auto.
    + split; [by right|]. intros [->|H]; done.
Qed.

Lemma trimSpace_keeps c s : graphic c = true -> hasChar c s = true -> hasChar c (trimSpace s) = true.
Proof.
  rewrite !hasChar_elem. intros Hc Hin. unfold trimSpace.
  rewrite list_ascii_of_string_of_list_ascii.
  apply elem_of_reverse, trimRightSpace_keeps, elem_of_reverse, trimLeftSpace_keeps; done.
Qed.

Lemma hasChar_app c s t : hasChar c (s +:+ t) = hasChar c s || hasChar c t.
Proof.
  induction s as [|a s IH]; [done|].
  change (String a s +:+ t) with (String a (s +:+ t)).
  unfold hasChar in *. cbn [stringAll]. rewrite !negb_andb, IH. by rewrite orb_assoc.
Qed.
