(* ===== verification/GoStrings.v ===== *)
(** * More of package [strings]: maps, runs, trimming and case

    Continues [GoLang]: what the docs generator, the media store and the read use cases use of
    [strings] and [regexp], and how the bytes of an ASCII string relate to the code units
    that the page's scripts work on ([lit]). *)

From Stdlib Require Import ZArith Ascii String.
From stdpp Require Import strings numbers list.
From S2P Require Import Prelude JsString GoLang.
#[local] Set Default Proof Using "Type".

Open Scope string_scope.

(** ** Operations *)

Definition byteOf (a : ascii) : N := N_of_ascii a.
Definition asciiByte (a : ascii) : bool := (byteOf a <? 128)%N.

Fixpoint stringMap (f : ascii -> ascii) (s : string) : string :=
  match s with EmptyString => "" | String a r => String (f a) (stringMap f r) end.

(** [strings.ReplaceAll] of one byte by nothing, and of what a pattern for one byte matches;
    [strings.Map] of a function that drops some bytes and keeps the others. *)
Fixpoint dropBytes (p : ascii -> bool) (s : string) : string :=
  match s with
  | EmptyString => ""
  | String a r => if p a then dropBytes p r else String a (dropBytes p r)
  end.

(** Every run of [p] becomes one [rep]. *)
Fixpoint squeeze (p : ascii -> bool) (rep : ascii) (inRun : bool) (s : string) : string :=
  match s with
  | EmptyString => ""
  | String a r =>
      if p a then (if inRun then squeeze p rep true r else String rep (squeeze p rep true r))
      else String a (squeeze p rep false r)
  end.

Fixpoint trimLeft (p : ascii -> bool) (s : string) : string :=
  match s with String a r => if p a then trimLeft p r else s | EmptyString => "" end.

Definition reverseString (s : string) : string :=
  string_of_list_ascii (reverse (list_ascii_of_string s)).

(** [strings.Trim(s, cutset)]. *)
Definition trimBoth (p : ascii -> bool) (s : string) : string :=
  reverseString (trimLeft p (reverseString (trimLeft p s))).

Definition anyOf (set : string) (a : ascii) : bool := hasChar a set.

(** The classes [\w], [\s] and [\d] of package [regexp], which are ASCII's. *)
Definition wordByte (a : ascii) : bool := isWord (byteOf a).
Definition spaceByte (a : ascii) : bool :=
  ((byteOf a =? 9) || (byteOf a =? 10) || (byteOf a =? 12) || (byteOf a =? 13) || (byteOf a =? 32))%N.
Definition digitByte (a : ascii) : bool := isDigit (byteOf a).

Definition lowerByte (a : ascii) : ascii := ascii_of_N (asciiLower (byteOf a)).

(** The case tables for strings that are not ASCII. *)
Class UnicodeLower := { unicodeLower : string -> string }.

Definition ToLower `{UnicodeLower} (s : string) : string :=
  if stringAll asciiByte s then stringMap lowerByte s else unicodeLower s.

#[local] Open Scope list_scope.

(** ** Lemmas *)

Lemma append_assoc (a b c : string) : (a +:+ b) +:+ c = a +:+ (b +:+ c).
Proof.
  induction a as [|x a IH]; [done|].
  change (String x a +:+ b) with (String x (a +:+ b)).
  change (String x (a +:+ b) +:+ c) with (String x ((a +:+ b) +:+ c)). by rewrite IH.
Qed.

Lemma append_empty (a : string) : a +:+ "" = a.
Proof. induction a as [|x a IH]; [done|]. change (String x (a +:+ "") = String x a). by rewrite IH. Qed.

Lemma stringAll_impl (p q : ascii -> bool) s :
  (forall a, p a = true -> q a = true) -> stringAll p s = true -> stringAll q s = true.
Proof. intros Hpq. rewrite !stringAll_Forall. intros Hs. eapply Forall_impl; eauto. Qed.

Lemma lit_stringMap good f g s :
  (forall a, good a = true -> byteOf (f a) = g (byteOf a)) ->
  stringAll good s = true -> lit (stringMap f s) = map g (lit s).
Proof.
  intros Hf. induction s as [|a s IH]; [done|]. cbn. intros [Ha Hs]%andb_true_iff.
  by rewrite IH, <- Hf.
Qed.

Lemma lit_dropBytes good p q s :
  (forall a, good a = true -> p a = q (byteOf a)) ->
  stringAll good s = true -> lit (dropBytes p s) = removeAll q (lit s).
Proof.
  intros Hp. unfold removeAll. induction s as [|a s IH]; [done|]. cbn. intros [Ha Hs]%andb_true_iff.
  unfold byteOf in Hp. rewrite <- Hp by done. destruct (p a); cbn; by rewrite IH.
Qed.

Lemma lit_squeeze good p q rep b s :
  (forall a, good a = true -> p a = q (byteOf a)) ->
  stringAll good s = true -> lit (squeeze p rep b s) = collapseRuns q [byteOf rep] b (lit s).
Proof.
  intros Hp. revert b. induction s as [|a s IH]; intros b; [done|]. cbn.
  intros [Ha Hs]%andb_true_iff. unfold byteOf in Hp. rewrite <- Hp by done.
  destruct (p a); [destruct b|]; cbn; by rewrite IH.
Qed.

Lemma dropBytes_all good p s : stringAll good s = true -> stringAll good (dropBytes p s) = true.
Proof.
  induction s as [|a s IH]; [done|]. cbn. intros [Ha Hs]%andb_true_iff.
  destruct (p a); cbn; [auto|]. rewrite Ha. cbn. auto.
Qed.

Lemma squeeze_all good p rep b s :
  good rep = true -> stringAll good s = true -> stringAll good (squeeze p rep b s) = true.
Proof.
  intros Hr. revert b. induction s as [|a s IH]; intros b; [done|]. cbn. intros [Ha Hs]%andb_true_iff.
  destruct (p a); [destruct b|]; cbn; rewrite ?Hr, ?Ha; cbn; auto.
Qed.

Lemma trimLeft_none p s : stringAll (fun a => negb (p a)) s = true -> trimLeft p s = s.
Proof. destruct s as [|a s]; [done|]. cbn. by destruct (p a). Qed.

Lemma trimBoth_none p s : stringAll (fun a => negb (p a)) s = true -> trimBoth p s = s.
Proof.
  intros Hs. unfold trimBoth. rewrite (trimLeft_none p s) by done. rewrite trimLeft_none.
  - unfold reverseString.
    by rewrite list_ascii_of_string_of_list_ascii, reverse_involutive, string_of_list_ascii_of_string.
  - revert Hs. rewrite !stringAll_Forall. unfold reverseString.
    by rewrite list_ascii_of_string_of_list_ascii, Forall_reverse.
Qed.

Lemma splitChar_cut c a b :
  splitChar c (a +:+ String c b) = splitChar c a ++ splitChar c b.
Proof.
  induction a as [|x a IH].
  - change (EmptyString +:+ String c b) with (String c b). cbn [splitChar].
    by rewrite Ascii.eqb_refl.
  - change (String x a +:+ String c b) with (String x (a +:+ String c b)). cbn [splitChar].
    rewrite IH. destruct (Ascii.eqb x c); [done|].
    pose proof (splitChar_not_nil c a). by destruct (splitChar c a).
Qed.

Lemma join_split c s : joinWith (String c "") (splitChar c s) = s.
Proof.
  induction s as [|a s IH]; [done|]. cbn [splitChar].
  pose proof (splitChar_not_nil c s) as Hn.
  destruct (Ascii.eqb_spec a c) as [->|Ha].
  - destruct (splitChar c s) as [|h t]; [done|].
    change (joinWith (String c "") ("" :: h :: t)) with (String c (joinWith (String c "") (h :: t))).
    by rewrite IH.
  - destruct (splitChar c s) as [|h t]; [done|]. destruct t as [|h' t]; cbn in IH |- *.
    + by rewrite <- IH.
    + change (String a (h +:+ String c "" +:+ joinWith (String c "") (h' :: t)) = String a s).
      by rewrite <- IH.
Qed.

Lemma splitChar_inj c s t : splitChar c s = splitChar c t -> s = t.
Proof. intros H. by rewrite <- (join_split c s), <- (join_split c t), H. Qed.
