(* ===== verification/Paths.v ===== *)
(** * File paths, as [path/filepath] treats them on Unix

    A path is a string; its meaning is lexical: whether it is rooted, and its cleaned
    elements.  [Join] and [Base] are used by the media store and the docs generator. *)

From Stdlib Require Import ZArith Ascii String.
From stdpp Require Import strings numbers gmap list.
From S2P Require Import Prelude GoLang GoStrings.
#[local] Set Default Proof Using "Type".

Open Scope string_scope.

(** ** Operations *)

Definition slash : ascii := "/".

(** The cleaned elements of a path, the last one first. *)
Definition cleanStep (rooted : bool) (out : list string) (e : string) : list string :=
  if bool_decide (e = "") || bool_decide (e = ".") then out
  else if bool_decide (e = "..") then
    match out with
    | x :: r => if bool_decide (x = "..") then e :: out else r
    | [] => if rooted then [] else [e]
    end
  else e :: out.

Definition isRooted (p : string) : bool := hasPrefix "/" p.

Definition elements (p : string) : list string :=
  reverse (foldl (cleanStep (isRooted p)) [] (splitChar slash p)).

Definition pathOf (rooted : bool) (l : list string) : string :=
  if rooted then "/" +:+ joinWith "/" l
  else match l with [] => "." | _ => joinWith "/" l end.

Definition Clean (p : string) : string := pathOf (isRooted p) (elements p).

(** [filepath.Join]: the first element that is not empty, and all that follow it. *)
Fixpoint Join (l : list string) : string :=
  match l with
  | [] => ""
  | "" :: r => Join r
  | _ => Clean (joinWith "/" l)
  end.

(** [filepath.Base] and [filepath.Ext] of a cleaned path. *)
Definition Base (p : string) : string := List.last (elements p) ".".

Fixpoint extGo (s : string) (found : string) : string :=
  match s with
  | EmptyString => found
  | String a r => extGo r (if Ascii.eqb a "." then s else if Ascii.eqb a slash then "" else found)
  end.
Definition Ext (p : string) : string := extGo p "".

(** ** Lemmas *)

#[local] Open Scope list_scope.

(** An element that cleaning keeps where it is. *)
Definition real (e : string) : bool := negb (String.eqb e "") && negb (String.eqb e ".").

Lemma cleanStep_plain rooted out e :
  e <> ".." -> cleanStep rooted out e = if real e then e :: out else out.
Proof.
  intros He. unfold cleanStep, real.
  destruct (String.eqb_spec e "") as [->|H0]; [done|].
  destruct (String.eqb_spec e ".") as [->|H1]; [done|].
  by rewrite !bool_decide_false by done.
Qed.

Lemma cleanStep_parent rooted out :
  cleanStep rooted out ".." =
  match out with
  | x :: r => if bool_decide (x = "..") then ".." :: out else r
  | [] => if rooted then [] else [".."]
  end.
Proof. done. Qed.

Lemma clean_plain rooted l out :
  ".." ∉ l -> foldl (cleanStep rooted) out l = reverse (List.filter real l) ++ out.
Proof.
  revert out. induction l as [|e l IH]; intros out Hl; [done|].
  apply not_elem_of_cons in Hl as [He Hl]. cbn [foldl List.filter].
  rewrite cleanStep_plain, IH by done. destruct (real e); [|done].
  by rewrite reverse_cons, <- (assoc_L (++)).
Qed.

Lemma splitChar_parts c s : Forall (fun e => hasChar c e = false) (splitChar c s).
Proof.
  induction s as [|a s IH]; cbn [splitChar]; [by repeat constructor|].
  destruct (Ascii.eqb_spec a c) as [->|Ha]; [by constructor|].
  pose proof (splitChar_not_nil c s). destruct (splitChar c s) as [|h t]; [done|].
  apply Forall_cons in IH as [Hh Ht]. constructor; [|done].
  revert Hh. unfold hasChar. rewrite !negb_false_iff. cbn. intros ->.
  by destruct (Ascii.eqb_spec a c).
Qed.

(** Cleaned elements: none is empty, a dot, or has a slash. *)
Definition sound (e : string) : bool := real e && negb (hasChar slash e).

Lemma cleanStep_sound rooted out e :
  hasChar slash e = false -> Forall (fun e => sound e = true) out ->
  Forall (fun e => sound e = true) (cleanStep rooted out e).
Proof.
  intros He Hout. destruct (decide (e = "..")) as [->|Hd].
  - rewrite cleanStep_parent. destruct out as [|x r]; [by destruct rooted; repeat constructor|].
    destruct (bool_decide_reflect (x = "..")); [by constructor|].
    by apply Forall_cons in Hout as [_ ?].
  - rewrite cleanStep_plain by done. destruct (real e) eqn:Er; [|done].
    constructor; [|done]. unfold sound. by rewrite Er, He.
Qed.

Lemma elements_sound p : Forall (fun e => sound e = true) (elements p).
Proof.
  unfold elements. apply Forall_reverse.
  assert (Hgo : forall l out, Forall (fun e => hasChar slash e = false) l ->
    Forall (fun e => sound e = true) out ->
    Forall (fun e => sound e = true) (foldl (cleanStep (isRooted p)) out l)).
  { induction l as [|e l IH]; intros out Hl Hout; [done|]. cbn.
    apply Forall_cons in Hl as [He Hl]. apply IH; [done|]. by apply cleanStep_sound. }
  apply Hgo; [apply splitChar_parts|constructor].
Qed.

(** A rooted path has no parent elements left when it is clean. *)
Lemma rooted_no_parent l out : ".." ∉ out -> ".." ∉ foldl (cleanStep true) out l.
Proof.
  revert out. induction l as [|e l IH]; intros out Hout; [done|]. cbn [foldl]. apply IH.
  destruct (decide (e = "..")) as [->|He].
  - rewrite cleanStep_parent. destruct out as [|x r]; [done|].
    apply not_elem_of_cons in Hout as [Hx Hr]. by rewrite bool_decide_false.
  - rewrite cleanStep_plain by done. destruct (real e); [|done].
    by apply not_elem_of_cons.
Qed.

Lemma joinWith_slash x y l :
  joinWith "/" (x :: y :: l) = x +:+ String slash (joinWith "/" (y :: l)).
Proof. done. Qed.

Lemma splitChar_joined l :
  l <> [] -> splitChar slash (joinWith "/" l) = List.concat (map (splitChar slash) l).
Proof.
  induction l as [|x l IH]; intros Hl; [done|]. destruct l as [|y l].
  - cbn. by rewrite app_nil_r.
  - rewrite joinWith_slash, splitChar_cut, IH by done. done.
Qed.

Lemma sound_concat l :
  Forall (fun e => sound e = true) l -> List.concat (map (splitChar slash) l) = l.
Proof.
  induction 1 as [|e l He _ IH]; [done|]. cbn. rewrite IH. unfold sound in He. bool_simpl.
  by rewrite splitChar_none.
Qed.

Lemma sound_filter l : Forall (fun e => sound e = true) l -> List.filter real l = l.
Proof.
  induction 1 as [|e l He _ IH]; [done|]. cbn. rewrite IH. unfold sound in He. bool_simpl.
  by destruct (real e).
Qed.

Lemma splitChar_pathOf rooted l :
  Forall (fun e => sound e = true) l ->
  List.filter real (splitChar slash (pathOf rooted l)) = l
  /\ (".." ∉ l -> ".." ∉ splitChar slash (pathOf rooted l)).
Proof.
  intros Hl. destruct l as [|x l].
  { split; [by destruct rooted|]. intros _.
    destruct rooted; apply (bool_decide_unpack _); vm_compute; exact I. }
  assert (Hs : splitChar slash (joinWith "/" (x :: l)) = x :: l).
  { rewrite splitChar_joined by done. by apply sound_concat. }
  unfold pathOf. destruct rooted.
  - change ("/" +:+ joinWith "/" (x :: l)) with ("" +:+ String slash (joinWith "/" (x :: l))).
    rewrite splitChar_cut, Hs. change (splitChar slash "" ++ x :: l) with ("" :: x :: l).
    split; [by apply (sound_filter (x :: l))|].
    intros Hp. apply not_elem_of_cons. split; [done|exact Hp].
  - rewrite Hs. split; [by apply sound_filter|done].
Qed.

Lemma rooted_pathOf l : isRooted (pathOf true l) = true.
Proof. unfold pathOf. change ("/" +:+ joinWith "/" l) with (String "/" (joinWith "/" l)). by destruct (joinWith "/" l). Qed.

Lemma elements_clean p : isRooted p = true -> isRooted (Clean p) = true /\ elements (Clean p) = elements p.
Proof.
  intros Hr. unfold Clean at 1. rewrite Hr. split; [apply rooted_pathOf|].
  destruct (splitChar_pathOf true (elements p) (elements_sound p)) as [H1 H2].
  unfold elements at 1, Clean. rewrite Hr, rooted_pathOf, clean_plain, H1, app_nil_r.
  - apply reverse_involutive.
  - apply H2. unfold elements. rewrite elem_of_reverse, Hr. apply rooted_no_parent, not_elem_of_nil.
Qed.

(** The elements of a joined path without parents are those of its parts. *)
Lemma splitChar_Join l :
  ".." ∉ List.concat (map (splitChar slash) l) ->
  List.filter real (splitChar slash (Join l))
    = List.filter real (List.concat (map (splitChar slash) l))
  /\ ".." ∉ splitChar slash (Join l).
Proof.
  induction l as [|x l IH]; intros Hl.
  { split; [done|]. apply (bool_decide_unpack _). vm_compute. exact I. }
  destruct x as [|a x].
  { cbn. apply IH. intros H. apply Hl. cbn. by right. }
  set (l' := String a x :: l) in *.
  assert (E : Join l' = Clean (joinWith "/" l')) by done. rewrite E.
  rewrite <- splitChar_joined in Hl |- * by done.
  set (q := joinWith "/" l') in *. unfold Clean.
  destruct (splitChar_pathOf (isRooted q) (elements q) (elements_sound q)) as [H1 H2].
  assert (Hq : elements q = List.filter real (splitChar slash q)).
  { unfold elements. by rewrite clean_plain, app_nil_r, reverse_involutive. }
  rewrite H1. split; [done|]. apply H2. rewrite Hq. intros [_ H]%list_elem_of_In%filter_In%and_comm.
  apply Hl. by apply list_elem_of_In.
Qed.
