(* ===== verification/Subscriptions.v ===== *)
(** * Webhook subscriptions and the event filter

    [domain/queue/status_webhook.go] (the event catalog and the filter),
    [internal/whatsapp/repository.go] (the table of subscriptions),
    [internal/whatsapp/client.go] and [manager.go] (the guarded operations on it),
    and the rendering of [internal/handler/whatsapp/whatsapp_webhook_handler.go]. *)

From Stdlib Require Import ZArith Ascii String.
From stdpp Require Import strings numbers gmap list sorting.
From S2P Require Import Prelude GoLang.
#[local] Set Default Proof Using "Type".

(** ** Events *)

Definition EventMessageQueued : string := "message.queued".
Definition EventMessageSent : string := "message.sent".
Definition EventMessageFailed : string := "message.failed".
Definition EventMessageIncoming : string := "message.incoming".
Definition EventSessionLoggedOut : string := "session.logged_out".
Definition EventSessionBanned : string := "session.banned".
Definition EventSessionConnectFailure : string := "session.connect_failure".
Definition EventSessionConnected : string := "session.connected".
Definition EventSessionDisconnected : string := "session.disconnected".
Definition EventSessionReplaced : string := "session.replaced".
Definition EventSessionReachoutTimelocked : string := "session.reachout_timelocked".

Definition WebhookEventCatalog : list string :=
  [ EventMessageIncoming; EventMessageQueued; EventMessageSent; EventMessageFailed;
    EventSessionLoggedOut; EventSessionBanned; EventSessionConnectFailure;
    EventSessionConnected; EventSessionDisconnected; EventSessionReplaced;
    EventSessionReachoutTimelocked ].

Definition IsKnownEvent (e : string) : bool := bool_decide (e ∈ WebhookEventCatalog).

Definition comma : ascii := ",".

(** [EventMatches(subEvents, event)]. *)
Definition EventMatches (subEvents event : string) : bool :=
  if bool_decide (trimSpace subEvents = ""%string) then true
  else existsb (fun e => bool_decide (trimSpace e = event)) (splitChar comma subEvents).

(** [splitEvents(events)] of the handler: the filter as the API returns it. *)
Definition splitEvents (events : string) : list string :=
  if bool_decide (trimSpace events = ""%string) then []
  else List.filter (fun e => negb (bool_decide (e = ""%string))) (map trimSpace (splitChar comma events)).

(** ** Data *)

Record Webhook := mkWebhook { whUrl : string; whHmacSecret : string; whEvents : list string }.

Record WebhookSubscription := mkSub { subUrl : string; subHmacSecret : string; subEvents : string }.

(** A row of [device_webhook_subscriptions]; its primary key is (jid, url). *)
Record SubRow := mkSubRow {
  srJid : string;
  srUrl : string;
  srHmac : string;
  srEvents : string;
  srCreated : instant;
}.

Definition sameKey (jid url : string) (r : SubRow) : bool :=
  bool_decide (srJid r = jid) && bool_decide (srUrl r = url).

(** [INSERT ... ON CONFLICT (jid, url) DO UPDATE SET hmac_secret, events]. *)
Definition upsertSub (now : instant) (jid url hmac events : string) (t : list SubRow) : list SubRow :=
  if existsb (sameKey jid url) t
  then map (fun r => if sameKey jid url r
                     then mkSubRow (srJid r) (srUrl r) hmac events (srCreated r) else r) t
  else t ++ [mkSubRow jid url hmac events now].

(** [ORDER BY created_at, url]; [urlLe] is the order of the database on texts. *)
Section order.
Context (urlLe : string -> string -> bool).

Definition rowLe (a b : SubRow) : bool :=
  (srCreated a <? srCreated b)%Z
  || (srCreated a =? srCreated b)%Z && urlLe (srUrl a) (srUrl b).

Fixpoint insertRow (r : SubRow) (l : list SubRow) : list SubRow :=
  match l with
  | [] => [r]
  | x :: l' => if rowLe r x then r :: l else x :: insertRow r l'
  end.

Definition orderRows (l : list SubRow) : list SubRow := foldr insertRow [] l.

Definition toSub (r : SubRow) : WebhookSubscription :=
  mkSub (srUrl r) (srHmac r) (srEvents r).

(** [GetWebhookSubscriptions(ctx, jid)]. *)
Definition getSubs (jid : string) (t : list SubRow) : list WebhookSubscription :=
  map toSub (orderRows (List.filter (fun r => bool_decide (srJid r = jid)) t)).

Lemma insertRow_perm r l : insertRow r l ≡ₚ r :: l.
Proof.
  induction l as [|x l IH]; cbn; [done|]. destruct (rowLe r x); [done|].
  rewrite IH. constructor.
Qed.

Lemma orderRows_perm l : orderRows l ≡ₚ l.
Proof.
  unfold orderRows. induction l as [|r l IH]; cbn; [done|].
  by rewrite insertRow_perm, IH.
Qed.
End order.

Definition deleteSub (jid url : string) (t : list SubRow) : list SubRow :=
  List.filter (fun r => negb (sameKey jid url r)) t.

Definition deleteAllSubs (jid : string) (t : list SubRow) : list SubRow :=
  List.filter (fun r => negb (bool_decide (srJid r = jid))) t.

(** ** The guarded operations *)

(** The error kinds of the answers ([domain/error]); a failure of the cipher is
    returned as it is. *)
Inductive SubError :=
  | ErrInternalFailure | ErrConflictUnauthorized | ErrBadRequest | ErrNotFound | ErrCipher.

(** What the operations find: the login status ([None]: it could not be had), the
    account's JID when its client is in the store, whether the database answers; the
    verdict of [utils.ValidateURL], and the cipher. *)
Record SubEnv := mkSubEnv {
  seLogin : option bool;
  seJid : option string;
  seDbOk : bool;
  seNow : instant;
  seValidUrl : string -> bool;
  seEncrypt : string -> option string;
}.

(** [webhookLoginGate]. *)
Definition webhookLoginGate (env : SubEnv) : option SubError :=
  match seLogin env with
  | None => Some ErrInternalFailure
  | Some false => Some ErrConflictUnauthorized
  | Some true => None
  end.

(** [client.SetWebhookSubscription]. *)
Definition clientSetSubscription (env : SubEnv) (w : Webhook) (t : list SubRow)
    : option SubError * list SubRow :=
  match seJid env with
  | None => (Some ErrNotFound, t)
  | Some jid =>
      if negb (seDbOk env) then (Some ErrInternalFailure, t)
      else (None, upsertSub (seNow env) jid (whUrl w) (whHmacSecret w)
                    (joinWith (String comma "") (whEvents w)) t)
  end.

(** [manager.SetWebhookSubscription]. *)
Definition SetWebhookSubscription (env : SubEnv) (w : Webhook) (t : list SubRow)
    : option SubError * list SubRow :=
  match webhookLoginGate env with
  | Some e => (Some e, t)
  | None =>
      if negb (forallb (fun e => IsKnownEvent (trimSpace e)) (whEvents w)) then (Some ErrBadRequest, t)
      else if negb (seValidUrl env (whUrl w)) then (Some ErrBadRequest, t)
      else
        let secret :=
          if bool_decide (whHmacSecret w = ""%string) then Some ""%string
          else seEncrypt env (whHmacSecret w) in
        match secret with
        | None => (Some ErrCipher, t)
        | Some s => clientSetSubscription env (mkWebhook (whUrl w) s (whEvents w)) t
        end
  end.

Definition DeleteWebhookSubscription (env : SubEnv) (url : string) (t : list SubRow)
    : option SubError * list SubRow :=
  match webhookLoginGate env with
  | Some e => (Some e, t)
  | None =>
      match seJid env with
      | None => (Some ErrNotFound, t)
      | Some jid =>
          if negb (seDbOk env) then (Some ErrInternalFailure, t) else (None, deleteSub jid url t)
      end
  end.

Definition DeleteAllWebhookSubscriptions (env : SubEnv) (t : list SubRow)
    : option SubError * list SubRow :=
  match webhookLoginGate env with
  | Some e => (Some e, t)
  | None =>
      match seJid env with
      | None => (Some ErrNotFound, t)
      | Some jid =>
          if negb (seDbOk env) then (Some ErrInternalFailure, t) else (None, deleteAllSubs jid t)
      end
  end.

(** The handler of DELETE: no body, or a body without a url, deletes everything.
    [body]: [None] for an empty body, else the [url] of the parsed body. *)
Definition DeleteWebhookURL (env : SubEnv) (body : option string) (t : list SubRow)
    : option SubError * list SubRow :=
  match body with
  | Some url =>
      if negb (bool_decide (trimSpace url = ""%string)) then DeleteWebhookSubscription env url t
      else DeleteAllWebhookSubscriptions env t
  | None => DeleteAllWebhookSubscriptions env t
  end.

(** The subscriptions an event is delivered to, in order: the loop shared by
    [dispatch], [deliverWebhook], [sendStatusWebhook] and the queue's handlers. *)
Definition recipients (event : string) (subs : list WebhookSubscription) : list WebhookSubscription :=
  List.filter (fun s => EventMatches (subEvents s) event) subs.

(** The keys of the table are unique. *)
Definition keysUnique (t : list SubRow) : Prop :=
  NoDup (map (fun r => (srJid r, srUrl r)) t).

(** ** Lemmas *)

Lemma known_graphic e : IsKnownEvent e = true -> stringAll graphic e = true.
Proof.
  unfold IsKnownEvent. rewrite bool_decide_eq_true. unfold WebhookEventCatalog.
  rewrite !elem_of_cons, elem_of_nil.
  intros H. repeat destruct H as [->|H]; try done.
Qed.

Lemma known_dot e : IsKnownEvent e = true -> hasChar "." e = true.
Proof.
  unfold IsKnownEvent. rewrite bool_decide_eq_true. unfold WebhookEventCatalog.
  rewrite !elem_of_cons, elem_of_nil.
  intros H. repeat destruct H as [->|H]; try done.
Qed.

Lemma known_no_comma e : IsKnownEvent e = true -> hasChar comma e = false.
Proof.
  unfold IsKnownEvent. rewrite bool_decide_eq_true. unfold WebhookEventCatalog.
  rewrite !elem_of_cons, elem_of_nil.
  intros H. repeat destruct H as [->|H]; try done.
Qed.

Lemma known_trim_no_comma e : IsKnownEvent (trimSpace e) = true -> hasChar comma e = false.
Proof.
  intros H%known_no_comma. apply not_true_iff_false. intros Hc.
  by rewrite (trimSpace_keeps comma e eq_refl Hc) in H.
Qed.

Lemma trimSpace_sub c s : hasChar c (trimSpace s) = true -> hasChar c s = true.
Proof.
  rewrite !hasChar_elem. unfold trimSpace. rewrite list_ascii_of_string_of_list_ascii.
  assert (HL : forall l, c ∈ trimLeftSpace l -> c ∈ l).
  { intros l. remember (length l) as n eqn:Hn. revert l Hn.
    induction (lt_wf n) as [n _ IH]. intros l ->. destruct l as [|a r]; [done|].
    cbn [trimLeftSpace]. destruct (space1 a); [intros H; right; by apply (IH (length r)); [cbn; lia| |]|].
    destruct r as [|b r2]; [done|]. destruct (space2 a b);
      [intros H; do 2 right; by apply (IH (length r2)); [cbn; lia| |]|].
    destruct r2 as [|d r3]; [done|]. destruct (space3 a b d); [|done].
    intros H. do 3 right. by apply (IH (length r3)); [cbn; lia| |]. }
  assert (HR : forall l, c ∈ trimRightSpace l -> c ∈ l).
  { intros l. remember (length l) as n eqn:Hn. revert l Hn.
    induction (lt_wf n) as [n _ IH]. intros l ->. destruct l as [|a r]; [done|].
    cbn [trimRightSpace]. destruct (space1 a); [intros H; right; by apply (IH (length r)); [cbn; lia| |]|].
    destruct r as [|b r2]; [done|]. destruct (space2 b a);
      [intros H; do 2 right; by apply (IH (length r2)); [cbn; lia| |]|].
    destruct r2 as [|d r3]; [done|]. destruct (space3 d b a); [|done].
    intros H. do 3 right. by apply (IH (length r3)); [cbn; lia| |]. }
  rewrite elem_of_reverse. intros H%HR. rewrite elem_of_reverse in H. by apply HL.
Qed.

Lemma known_trim_dot e : IsKnownEvent (trimSpace e) = true -> hasChar "." e = true.
Proof. intros H%known_dot. by apply trimSpace_sub. Qed.

(** A joined list of known events is not blank, unless it is empty. *)
Lemma joined_not_blank evs :
  evs <> [] -> forallb (fun e => IsKnownEvent (trimSpace e)) evs = true ->
  trimSpace (joinWith (String comma "") evs) <> ""%string.
Proof.
  intros Hne Hall Hblank. destruct evs as [|e evs]; [done|].
  cbn [forallb] in Hall. apply andb_true_iff in Hall as [He _].
  assert (Hdot : hasChar "." (joinWith (String comma "") (e :: evs)) = true).
  { destruct evs as [|e' evs]; cbn [joinWith]; [by apply known_trim_dot|].
    by rewrite hasChar_app, known_trim_dot. }
  pose proof (trimSpace_keeps "." _ eq_refl Hdot) as Hk. by rewrite Hblank in Hk.
Qed.

Lemma joined_split evs :
  evs <> [] -> forallb (fun e => IsKnownEvent (trimSpace e)) evs = true ->
  splitChar comma (joinWith (String comma "") evs) = evs.
Proof.
  intros Hne Hall. apply splitChar_joinWith; [done|].
  apply Forall_forall. intros e He. rewrite forallb_forall in Hall.
  by apply known_trim_no_comma, Hall, list_elem_of_In.
Qed.

(** The filter of an accepted registration, as matched and as rendered. *)
Lemma accepted_matches evs ev :
  forallb (fun e => IsKnownEvent (trimSpace e)) evs = true ->
  EventMatches (joinWith (String comma "") evs) ev = true
  <-> evs = [] \/ ev ∈ map trimSpace evs.
Proof.
  intros Hall. destruct (decide (evs = [])) as [->|Hne]; [split; auto|].
  unfold EventMatches. rewrite bool_decide_eq_false_2 by by apply joined_not_blank.
  rewrite joined_split by done. rewrite existsb_exists. split.
  - intros (e & He & Heq). bool_simpl. right. apply list_elem_of_fmap.
    exists e. split; [done|]. by apply list_elem_of_In.
  - intros [->|H]; [done|]. apply list_elem_of_fmap in H as (e & -> & He).
    exists e. split; [by apply list_elem_of_In|]. by apply bool_decide_eq_true.
Qed.

(** What the API returns for an accepted registration. *)
Lemma accepted_rendered evs :
  forallb (fun e => IsKnownEvent (trimSpace e)) evs = true ->
  splitEvents (joinWith (String comma "") evs) = map trimSpace evs.
Proof.
  intros Hall. destruct (decide (evs = [])) as [->|Hne]; [done|].
  unfold splitEvents. rewrite bool_decide_eq_false_2 by by apply joined_not_blank.
  rewrite joined_split by done. apply allb_filter, allb_Forall, Forall_forall.
  intros e (x & -> & Hx)%list_elem_of_fmap.
  apply negb_true_iff, bool_decide_eq_false. intros He.
  rewrite forallb_forall in Hall. specialize (Hall x (proj1 (list_elem_of_In _ _) Hx)).
  by rewrite He in Hall.
Qed.

Lemma sameKey_true jid url r : sameKey jid url r = true <-> srJid r = jid /\ srUrl r = url.
Proof. unfold sameKey. rewrite andb_true_iff, !bool_decide_eq_true. done. Qed.

Lemma existsb_sameKey jid url t :
  existsb (sameKey jid url) t = true <-> (jid, url) ∈ map (fun r => (srJid r, srUrl r)) t.
Proof.
  rewrite existsb_exists, list_elem_of_fmap. split.
  - intros (r & Hr & [<- <-]%sameKey_true). exists r. by rewrite list_elem_of_In.
  - intros (r & [= -> ->] & Hr). exists r. split; [by apply list_elem_of_In|by apply sameKey_true].
Qed.

(** The rows after an upsert: the new one, and the others as they were. *)
Lemma elem_upsert now jid url hmac events t r :
  r ∈ upsertSub now jid url hmac events t <->
  (sameKey jid url r = false /\ r ∈ t)
  \/ (srJid r = jid /\ srUrl r = url /\ srHmac r = hmac /\ srEvents r = events
      /\ ((existsb (sameKey jid url) t = false /\ srCreated r = now)
          \/ (exists r0, r0 ∈ t /\ sameKey jid url r0 = true /\ srCreated r = srCreated r0))).
Proof.
  unfold upsertSub. destruct (existsb (sameKey jid url) t) eqn:E.
  - rewrite list_elem_of_fmap. split.
    + intros (r0 & -> & Hr0). destruct (sameKey jid url r0) eqn:Ek; [|by left].
      right. pose proof (proj1 (sameKey_true _ _ _) Ek) as [H1 H2]. cbn. eauto 10.
    + intros [[Hk Hr]|(H1 & H2 & H3 & H4 & [[? _]|(r0 & Hr0 & Hk & Hc)])]; [|done|].
      * exists r. by rewrite Hk.
      * exists r0. rewrite Hk. split; [|done]. apply sameKey_true in Hk as [Hj Hu].
        destruct r; cbn in *; by subst.
  - rewrite elem_of_app, list_elem_of_singleton. split.
    + intros [Hr| ->]; [left|right; cbn; auto 10]. split; [|done].
      apply not_true_iff_false. intros Hk. apply not_true_iff_false in E. apply E.
      apply existsb_exists. exists r. by rewrite <- list_elem_of_In.
    + intros [[_ Hr]|(H1 & H2 & H3 & H4 & [[_ H5]|(r0 & Hr0 & Hk & _)])]; [by left| |].
      * right. destruct r; cbn in *; by subst.
      * exfalso. apply not_true_iff_false in E. apply E, existsb_exists.
        exists r0. by rewrite <- list_elem_of_In.
Qed.

Lemma upsert_keysUnique now jid url hmac events t :
  keysUnique t -> keysUnique (upsertSub now jid url hmac events t).
Proof.
  unfold keysUnique, upsertSub. intros Hu. destruct (existsb (sameKey jid url) t) eqn:E.
  - rewrite map_map. erewrite map_ext; [exact Hu|]. intros r. by destruct (sameKey jid url r).
  - rewrite map_app. apply NoDup_app. split_and!; [done| |by apply NoDup_singleton].
    intros k Hk ->%list_elem_of_singleton. cbn in Hk.
    apply existsb_sameKey in Hk. congruence.
Qed.

Lemma elem_getSubs urlLe jid t s :
  s ∈ getSubs urlLe jid t <-> exists r, r ∈ t /\ srJid r = jid /\ s = toSub r.
Proof.
  unfold getSubs. rewrite list_elem_of_fmap. setoid_rewrite (orderRows_perm urlLe).
  split.
  - intros (r & -> & Hr). rewrite list_elem_of_In, filter_In, bool_decide_eq_true in Hr.
    exists r. rewrite list_elem_of_In. intuition.
  - intros (r & Hr & Hj & ->). exists r. split; [done|].
    rewrite list_elem_of_In, filter_In, bool_decide_eq_true. by rewrite <- list_elem_of_In.
Qed.

Lemma getSubs_urls_unique urlLe jid t :
  keysUnique t -> NoDup (map subUrl (getSubs urlLe jid t)).
Proof.
  unfold keysUnique, getSubs. intros Hu. rewrite map_map.
  assert (Hp : map (fun r => subUrl (toSub r))
                 (orderRows urlLe (List.filter (fun r => bool_decide (srJid r = jid)) t))
               ≡ₚ map srUrl (List.filter (fun r => bool_decide (srJid r = jid)) t)).
  { change (map (fun r => subUrl (toSub r))) with (map srUrl).
    apply Permutation_map, orderRows_perm. }
  rewrite Hp. clear Hp. induction t as [|r t IH]; cbn; [by apply NoDup_nil|].
  cbn in Hu. apply NoDup_cons in Hu as [Hni Hu]. case_bool_decide as Hj; [|by apply IH].
  cbn. apply NoDup_cons. split; [|by apply IH]. intros (x & Hxu & Hx)%list_elem_of_fmap.
  rewrite list_elem_of_In, filter_In, bool_decide_eq_true in Hx.
  destruct Hx as [Hx Hxj]. apply Hni, list_elem_of_fmap. exists x.
  split; [by rewrite Hj, Hxj, Hxu|by apply list_elem_of_In].
Qed.

Lemma filter_upsert_other now jid url hmac events t jid' :
  jid' <> jid ->
  List.filter (fun r => bool_decide (srJid r = jid')) (upsertSub now jid url hmac events t)
  = List.filter (fun r => bool_decide (srJid r = jid')) t.
Proof.
  intros Hne. unfold upsertSub. destruct (existsb (sameKey jid url) t).
  - induction t as [|r t IH]; cbn; [done|]. destruct (sameKey jid url r) eqn:Ek; cbn.
    + apply sameKey_true in Ek as [Hj _].
      rewrite bool_decide_eq_false_2 by congruence. done.
    + by rewrite IH.
  - rewrite List.filter_app. cbn. rewrite bool_decide_eq_false_2 by congruence.
    by rewrite app_nil_r.
Qed.

(** A failed registration changes nothing; an accepted one is an upsert of the joined
    events. *)
Lemma set_cases env w t :
  let res := SetWebhookSubscription env w t in
  match res.1 with
  | Some _ => res.2 = t
  | None => exists jid hmac, seJid env = Some jid
      /\ forallb (fun e => IsKnownEvent (trimSpace e)) (whEvents w) = true
      /\ seValidUrl env (whUrl w) = true
      /\ (if bool_decide (whHmacSecret w = ""%string) then Some ""%string
          else seEncrypt env (whHmacSecret w)) = Some hmac
      /\ res.2 = upsertSub (seNow env) jid (whUrl w) hmac (joinWith (String comma "") (whEvents w)) t
  end.
Proof.
  cbv zeta. unfold SetWebhookSubscription. destruct (webhookLoginGate env); [done|].
  destruct (forallb _ (whEvents w)) eqn:Ee; [|done].
  destruct (seValidUrl env (whUrl w)) eqn:Eu; [|done]. cbn [negb].
  destruct (if bool_decide (whHmacSecret w = ""%string) then _ else _) as [s|]; [|done].
  unfold clientSetSubscription. destruct (seJid env) as [jid|]; [|done].
  destruct (seDbOk env); [|done]. cbn. eauto 10.
Qed.

(** C16: the filter of a registered subscription means what the client asked for.  When a
    registration with a list of events is accepted, the account's subscriptions
    still have one entry per url; the entry of the registered url receives an event
    exactly when the list is empty or names the event, and the API shows the list
    back; the account's other subscriptions and those of other accounts are
    untouched.  A refused registration stores nothing. *)
Theorem registered_filter_means (urlLe : string -> string -> bool) (env : SubEnv) (w : Webhook)
    (t : list SubRow) (jid : string) :
  keysUnique t -> seJid env = Some jid ->
  let (err, t') := SetWebhookSubscription env w t in
  match err with
  | Some _ => t' = t
  | None =>
      keysUnique t'
      /\ NoDup (map subUrl (getSubs urlLe jid t'))
      /\ (forall ev, whUrl w ∈ map subUrl (recipients ev (getSubs urlLe jid t'))
            <-> whEvents w = [] \/ ev ∈ map trimSpace (whEvents w))
      /\ (forall s, s ∈ getSubs urlLe jid t' -> subUrl s = whUrl w ->
            splitEvents (subEvents s) = map trimSpace (whEvents w))
      /\ (forall s, subUrl s <> whUrl w -> s ∈ getSubs urlLe jid t' <-> s ∈ getSubs urlLe jid t)
      /\ (forall jid', jid' <> jid -> getSubs urlLe jid' t' = getSubs urlLe jid' t)
  end.
Proof.
  intros Hu Hjid. pose proof (set_cases env w t) as Hc. cbv zeta in Hc.
  destruct (SetWebhookSubscription env w t) as [[e|] t']; cbn [fst snd] in Hc; [done|].
  destruct Hc as (jid0 & hmac & Hj & Hev & _ & _ & ->). rewrite Hjid in Hj. injection Hj as <-.
  pose proof (upsert_keysUnique (seNow env) jid (whUrl w) hmac
                (joinWith (String comma "") (whEvents w)) t Hu) as Hu'.
  assert (Hrow : forall s, subUrl s = whUrl w ->
            s ∈ getSubs urlLe jid (upsertSub (seNow env) jid (whUrl w) hmac
                  (joinWith (String comma "") (whEvents w)) t) ->
            subEvents s = joinWith (String comma "") (whEvents w)).
  { intros s Hs (r & Hr & Hrj & ->)%elem_getSubs. cbn in *.
    apply elem_upsert in Hr as [[Hk _]|(_ & _ & _ & He & _)]; [|done].
    exfalso. apply not_true_iff_false in Hk. apply Hk. by apply sameKey_true. }
  split_and!; try done.
  - by apply getSubs_urls_unique.
  - intros ev. rewrite <- (accepted_matches _ ev Hev). rewrite list_elem_of_fmap. split.
    + intros (s & Hs & Hr). apply list_elem_of_In in Hr. unfold recipients in Hr.
      apply filter_In in Hr as [Hr Hm]. apply list_elem_of_In in Hr.
      by rewrite (Hrow s (eq_sym Hs) Hr) in Hm.
    + intros Hm. destruct (existsb (sameKey jid (whUrl w)) t) eqn:E.
      * apply existsb_exists in E as (r0 & Hr0 & Hk).
        exists (mkSub (whUrl w) hmac (joinWith (String comma "") (whEvents w))).
        split; [done|]. apply list_elem_of_In, filter_In. split; [|done].
        apply list_elem_of_In, elem_getSubs.
        exists (mkSubRow jid (whUrl w) hmac (joinWith (String comma "") (whEvents w)) (srCreated r0)).
        split; [|done]. apply elem_upsert. right. cbn. split_and!; try done.
        right. exists r0. by rewrite list_elem_of_In.
      * exists (mkSub (whUrl w) hmac (joinWith (String comma "") (whEvents w))).
        split; [done|]. apply list_elem_of_In, filter_In. split; [|done].
        apply list_elem_of_In, elem_getSubs.
        exists (mkSubRow jid (whUrl w) hmac (joinWith (String comma "") (whEvents w)) (seNow env)).
        split; [|done]. apply elem_upsert. right. cbn. split_and!; try done. by left.
  - intros s Hs Heq. rewrite (Hrow s Heq Hs). by apply accepted_rendered.
  - intros s Hne. rewrite !elem_getSubs. split; intros (r & Hr & Hrj & ->); exists r;
      (split; [|done]).
    + apply elem_upsert in Hr as [[_ Hr]|(_ & H2 & _)]; [done|]. by cbn in Hne.
    + apply elem_upsert. left. split; [|done]. apply not_true_iff_false.
      intros [_ H2]%sameKey_true. by cbn in Hne.
  - intros jid' Hne. unfold getSubs. by rewrite filter_upsert_other.
Qed.

Definition sampleEnv : SubEnv :=
  mkSubEnv (Some true) (Some "1@s.whatsapp.net"%string) true 5 (fun _ => true) (fun s => Some s).

Definition sampleTable : list SubRow :=
  [mkSubRow "1@s.whatsapp.net" "https://a" "" "message.sent" 3;
   mkSubRow "2@s.whatsapp.net" "https://b" "" "" 4].

Lemma registered_filter_means_witness :
  let w := mkWebhook "https://a" "" [" message.failed"; "message.queued"] in
  let urlLe := fun _ _ => true in
  let t' := (SetWebhookSubscription sampleEnv w sampleTable).2 in
  keysUnique t'
  /\ NoDup (map subUrl (getSubs urlLe "1@s.whatsapp.net" t'))
  /\ (forall ev, whUrl w ∈ map subUrl (recipients ev (getSubs urlLe "1@s.whatsapp.net" t'))
        <-> whEvents w = [] \/ ev ∈ map trimSpace (whEvents w))
  /\ (forall s, s ∈ getSubs urlLe "1@s.whatsapp.net" t' -> subUrl s = whUrl w ->
        splitEvents (subEvents s) = map trimSpace (whEvents w))
  /\ (forall s, subUrl s <> whUrl w ->
        s ∈ getSubs urlLe "1@s.whatsapp.net" t' <-> s ∈ getSubs urlLe "1@s.whatsapp.net" sampleTable)
  /\ (forall jid', jid' <> "1@s.whatsapp.net"%string ->
        getSubs urlLe jid' t' = getSubs urlLe jid' sampleTable).
Proof.
  refine (registered_filter_means (fun _ _ => true) sampleEnv
    (mkWebhook "https://a" "" [" message.failed"%string; "message.queued"%string]) sampleTable
    "1@s.whatsapp.net" _ _); [|reflexivity].
  apply NoDup_cons. split; [by intros [= ?]%list_elem_of_singleton|apply NoDup_singleton].
Defined.
