(* ===== verification/Dedup.v ===== *)
(** * Duplicate suppression of redelivered messages ([pkg/queue/dedup.go])

    The cache against its specification: a message is a duplicate exactly when it was
    marked less than the TTL ago. *)

From Stdlib Require Import ZArith Ascii String.
From stdpp Require Import strings numbers gmap list.
From S2P Require Import Prelude GoLang.
#[local] Set Default Proof Using "Type".
#[local] Open Scope Z_scope.

(** [entries] maps a key to its expiry. *)
Record DedupCache := mkDedup {
  dcEntries : gmap string instant;
  dcTtl : duration;
  dcNextSweep : instant;
}.

Definition NewDedupCache (ttl : duration) (now : instant) : DedupCache :=
  mkDedup ∅ ttl (now + ttl).

Definition dedupKey (scope id : string) : string := scope +:+ String ":" id.

(** [sweepLocked]: reads the clock once. *)
Definition sweepLocked (now : instant) (d : DedupCache) : DedupCache :=
  if now <? dcNextSweep d then d
  else mkDedup (filter (fun kv => ~ kv.2 < now) (dcEntries d)) (dcTtl d) (now + dcTtl d).

(** [IsDuplicate(scope, id)] on a possibly nil cache; [now1] and [now2] are the readings
    of the clock by the sweep and by the comparison. *)
Definition IsDuplicate (scope id : string) (now1 now2 : instant) (d : option DedupCache)
    : bool * option DedupCache :=
  match d with
  | None => (false, None)
  | Some d =>
      if bool_decide (id = ""%string) then (false, Some d)
      else
        let d := sweepLocked now1 d in
        (match dcEntries d !! dedupKey scope id with
         | Some expiry => now2 <? expiry
         | None => false
         end, Some d)
  end.

Definition MarkProcessed (scope id : string) (now1 now2 : instant) (d : option DedupCache)
    : option DedupCache :=
  match d with
  | None => None
  | Some d =>
      if bool_decide (id = ""%string) then Some d
      else
        let d := sweepLocked now1 d in
        Some (mkDedup (<[dedupKey scope id := now2 + dcTtl d]> (dcEntries d)) (dcTtl d) (dcNextSweep d))
  end.

(** The key of a webhook delivery ([webhook_delivery_handler.go], [webhookDedupKey]). *)
Definition webhookDedupKey (messageID url : string) : string := messageID +:+ "|" +:+ url.

(** ** Runs *)

Inductive DedupOp := Query (scope id : string) | Mark (scope id : string).

(** An operation with its two readings of the clock. *)
Record Timed := mkTimed { tmOp : DedupOp; tmNow1 : instant; tmNow2 : instant }.

(** Runs the operations; the answers of the queries, in order. *)
Fixpoint dedupRun (ops : list Timed) (d : option DedupCache) : list bool * option DedupCache :=
  match ops with
  | [] => ([], d)
  | op :: rest =>
      match tmOp op with
      | Query s i =>
          let (b, d1) := IsDuplicate s i (tmNow1 op) (tmNow2 op) d in
          let (bs, d2) := dedupRun rest d1 in (b :: bs, d2)
      | Mark s i => dedupRun rest (MarkProcessed s i (tmNow1 op) (tmNow2 op) d)
      end
  end.

(** The clock never goes back, and scopes (the queue names) have no colon. *)
Fixpoint ordered (now : instant) (ops : list Timed) : Prop :=
  match ops with
  | [] => True
  | op :: rest => now <= tmNow1 op /\ tmNow1 op <= tmNow2 op /\ ordered (tmNow2 op) rest
  end.

(** The last reading of the clock. *)
Fixpoint endTime (now : instant) (ops : list Timed) : instant :=
  match ops with [] => now | op :: rest => endTime (tmNow2 op) rest end.

Definition opScope (op : Timed) : string :=
  match tmOp op with Query s _ | Mark s _ => s end.

Definition scopesOk (ops : list Timed) : Prop :=
  Forall (fun op => hasChar ":" (opScope op) = false) ops.

(** ** Specification: the history of the marks *)

Definition History := list (string * string * instant).

(** The time of the last mark of a message. *)
Fixpoint lastMark (s i : string) (h : History) : option instant :=
  match h with
  | [] => None
  | (s', i', t) :: r => if bool_decide (s' = s /\ i' = i) then Some t else lastMark s i r
  end.

Definition isDuplicateSpec (ttl : duration) (s i : string) (now : instant) (h : History) : bool :=
  match lastMark s i h with Some t => now <? t + ttl | None => false end.

Fixpoint specRun (ttl : duration) (ops : list Timed) (h : History) : list bool :=
  match ops with
  | [] => []
  | op :: rest =>
      match tmOp op with
      | Query s i => isDuplicateSpec ttl s i (tmNow2 op) h :: specRun ttl rest h
      | Mark s i =>
          specRun ttl rest (if bool_decide (i = ""%string) then h else (s, i, tmNow2 op) :: h)
      end
  end.

(** ** Refinement *)

Lemma dedupKey_inj s i s' i' :
  hasChar ":" s = false -> hasChar ":" s' = false ->
  dedupKey s i = dedupKey s' i' -> s = s' /\ i = i'.
Proof.
  unfold dedupKey, hasChar. rewrite !negb_false_iff. revert s'.
  induction s as [|a s IH]; intros [|a' s'] Hs Hs'; cbn in *; bool_simpl.
  - by intros [= ->].
  - intros [= <- _]. done.
  - intros [= -> _]. done.
  - intros [= -> Heq]. destruct (IH s') as [-> ->]; auto.
Qed.

(** The cache agrees with the history at time [now]: an entry is the expiry of the last
    mark, and a missing entry is one that expired. *)
Record agrees (ttl : duration) (now : instant) (h : History) (d : DedupCache) : Prop := {
  ag_ttl : dcTtl d = ttl;
  ag_key s i : hasChar ":" s = false ->
    match lastMark s i h with
    | Some t => dcEntries d !! dedupKey s i = Some (t + ttl)
                \/ (dcEntries d !! dedupKey s i = None /\ t + ttl < now)
    | None => dcEntries d !! dedupKey s i = None
    end;
  ag_old k e : dcEntries d !! k = Some e -> dcNextSweep d - ttl <= e;
  ag_next : dcNextSweep d <= now + ttl;
  ag_empty s i t : (s, i, t) ∈ h -> i <> ""%string;
}.

Lemma agrees_later ttl now now' h d :
  now <= now' -> agrees ttl now h d -> agrees ttl now' h d.
Proof.
  intros Hle [H1 H2 H3 H4 H5]. split; [done| |done|lia|done].
  intros s i Hs. specialize (H2 s i Hs). destruct (lastMark s i h); [|done].
  destruct H2 as [|[? ?]]; [by left|right; split; [done|lia]].
Qed.

Lemma agrees_new ttl now : 0 <= ttl -> agrees ttl now [] (NewDedupCache ttl now).
Proof.
  intros Ht. split; cbn; [done| |done|lia|by intros s i t Hin%elem_of_nil].
  intros s i _. apply lookup_empty.
Qed.

Lemma sweep_agrees ttl now now1 h d :
  0 <= ttl -> now <= now1 -> agrees ttl now h d -> agrees ttl now1 h (sweepLocked now1 d).
Proof.
  intros Ht Hle Ha. apply (agrees_later _ _ now1) in Ha; [|done]. unfold sweepLocked.
  destruct (now1 <? dcNextSweep d) eqn:E; [done|]. destruct Ha as [H1 H2 H3 H4 H5].
  split; cbn; [done| |intros k e|rewrite H1; lia|done].
  - intros s i Hs. specialize (H2 s i Hs). destruct (lastMark s i h) as [t|].
    + destruct H2 as [H2|[H2 Hlt]].
      * destruct (decide (t + ttl < now1)) as [Hlt|Hge].
        -- right. split; [|done]. apply map_lookup_filter_None. right.
           intros x Hx. rewrite H2 in Hx. injection Hx as <-. cbn. lia.
        -- left. apply map_lookup_filter_Some. by split.
      * right. split; [|done]. apply map_lookup_filter_None. by left.
    + apply map_lookup_filter_None. by left.
  - intros [Hk Hge]%map_lookup_filter_Some. cbn in Hge. rewrite H1. lia.
Qed.

(** What a sweep at [now1] leaves was marked after [now1 - 2 * ttl]. *)
Lemma sweep_recent ttl now now1 h d k e :
  0 < ttl -> now <= now1 -> agrees ttl now h d ->
  dcEntries (sweepLocked now1 d) !! k = Some e -> now1 - 2 * ttl < e - ttl.
Proof.
  intros Ht Hle Ha He.
  pose proof (ag_old _ _ _ _ (sweep_agrees ttl now now1 h d ltac:(lia) Hle Ha) k e He) as Ho.
  revert Ho. unfold sweepLocked. pose proof (ag_ttl _ _ _ _ Ha) as Heq.
  destruct (now1 <? dcNextSweep d) eqn:E; cbn; lia.
Qed.

Lemma lastMark_empty s h :
  (forall s i t, (s, i, t) ∈ h -> i <> ""%string) -> lastMark s "" h = None.
Proof.
  induction h as [|[[s' i'] t] h IH]; intros Hh; [done|]. cbn.
  rewrite bool_decide_eq_false_2.
  - apply IH. intros s0 i0 t0 Hin. apply (Hh s0 i0 t0). by right.
  - intros [_ ->]. by apply (Hh s' ""%string t); [left|].
Qed.

Lemma query_agrees ttl now s i now1 now2 h d :
  0 <= ttl -> now <= now1 -> now1 <= now2 -> hasChar ":" s = false ->
  agrees ttl now h d ->
  exists d', IsDuplicate s i now1 now2 (Some d) = (isDuplicateSpec ttl s i now2 h, Some d')
    /\ agrees ttl now2 h d'.
Proof.
  intros Ht H1 H2 Hs Ha. unfold IsDuplicate, isDuplicateSpec.
  case_bool_decide as Hi.
  { subst i. rewrite lastMark_empty by apply (ag_empty _ _ _ _ Ha).
    exists d. split; [done|]. by apply (agrees_later ttl now); [lia|]. }
  pose proof (sweep_agrees ttl now now1 h d Ht H1 Ha) as Hg.
  eexists. split; [|by apply (agrees_later ttl now1)].
  pose proof (ag_key _ _ _ _ Hg s i Hs) as Hk.
  destruct (lastMark s i h) as [t|]; [|by rewrite Hk].
  destruct Hk as [-> |[-> Hlt]]; [done|]. f_equal. lia.
Qed.

Lemma mark_agrees ttl now s i now1 now2 h d :
  0 <= ttl -> now <= now1 -> now1 <= now2 -> hasChar ":" s = false ->
  agrees ttl now h d ->
  exists d', MarkProcessed s i now1 now2 (Some d) = Some d'
    /\ agrees ttl now2 (if bool_decide (i = ""%string) then h else (s, i, now2) :: h) d'.
Proof.
  intros Ht H1 H2 Hs Ha. unfold MarkProcessed. case_bool_decide as Hi.
  { exists d. split; [done|]. by apply (agrees_later ttl now); [lia|]. }
  pose proof (sweep_agrees ttl now now1 h d Ht H1 Ha) as Hg.
  apply (agrees_later _ _ now2) in Hg; [|done]. destruct Hg as [G1 G2 G3 G4 G5].
  eexists. split; [reflexivity|]. split; cbn; [done| | |done|].
  - intros s0 i0 Hs0. case_bool_decide as Hk.
    + destruct Hk as [-> ->]. left. rewrite lookup_insert_eq. by rewrite G1.
    + rewrite lookup_insert_ne; [by apply G2|]. intros Heq.
      apply dedupKey_inj in Heq; [by apply Hk|done|done].
  - intros k e He. destruct (decide (k = dedupKey s i)) as [->|Hne].
    + rewrite lookup_insert_eq in He. injection He as <-. rewrite G1. lia.
    + rewrite lookup_insert_ne in He by done. by apply (G3 k).
  - intros s0 i0 t0 [[= -> -> ->]|Hin]%elem_of_cons; [done|]. by apply (G5 s0 i0 t0).
Qed.

Lemma run_agrees ttl ops now h d :
  0 <= ttl -> ordered now ops -> scopesOk ops -> agrees ttl now h d ->
  exists d' h', dedupRun ops (Some d) = (specRun ttl ops h, Some d')
    /\ agrees ttl (endTime now ops) h' d'.
Proof.
  intros Ht. revert now h d. induction ops as [|[op n1 n2] ops IH]; intros now h d Ho Hsc Ha;
    [by exists d, h|].
  destruct Ho as (H1 & H2 & Ho). apply Forall_cons in Hsc as [Hs Hsc].
  cbn [tmNow1 tmNow2] in *. unfold opScope in Hs. cbn [tmOp] in Hs.
  destruct op as [s i|s i]; cbn [dedupRun specRun endTime tmOp tmNow1 tmNow2].
  - destruct (query_agrees ttl now s i n1 n2 h d) as (d1 & -> & Ha1); try done.
    destruct (IH n2 h d1 Ho Hsc Ha1) as (d2 & h2 & -> & Ha2).
    by exists d2, h2.
  - destruct (mark_agrees ttl now s i n1 n2 h d) as (d1 & -> & Ha1); try done.
    destruct (IH n2 _ d1 Ho Hsc Ha1) as (d2 & h2 & -> & Ha2).
    by exists d2, h2.
Qed.

(** ** Work guarded by the cache *)

(** A piece of work that was checked not to be a duplicate, done, and marked: under which
    scope and id, when the check read the clock and when the mark did. *)
Record Guarded := mkGuarded { gdScope : string; gdId : string; gdCheck : instant; gdMark : instant }.

(** The marks of such work (newest first), as a history; without an id nothing is marked. *)
Definition marksOf (l : list Guarded) : History :=
  flat_map (fun g => if bool_decide (gdId g = ""%string) then [] else [(gdScope g, gdId g, gdMark g)]) l.

(** Work of one scope and id is done again only a TTL after it was marked. *)
Fixpoint spaced (ttl : duration) (l : list Guarded) : Prop :=
  match l with
  | [] => True
  | g :: rest =>
      (gdId g <> ""%string ->
       match lastMark (gdScope g) (gdId g) (marksOf rest) with
       | Some t => t + ttl <= gdCheck g
       | None => True
       end) /\ spaced ttl rest
  end.

Definition guardOk (ttl : duration) (now : instant) (d : option DedupCache) (l : list Guarded) : Prop :=
  exists c, d = Some c /\ agrees ttl now (marksOf l) c /\ spaced ttl l.

Lemma guard_later ttl now now' d l : now <= now' -> guardOk ttl now d l -> guardOk ttl now' d l.
Proof. intros Hle (c & Hd & Ha & Hs). exists c. split_and!; [done|by eapply agrees_later|done]. Qed.

Lemma guard_new ttl now : 0 <= ttl -> guardOk ttl now (Some (NewDedupCache ttl now)) [].
Proof. intros Ht. eexists. split_and!; [done|by apply agrees_new|done]. Qed.

(** The check, and the mark of what passed it. *)
Lemma guard_step ttl now scope id c1 c2 m1 m2 d l :
  0 <= ttl -> now <= c1 -> c1 <= c2 -> c2 <= m1 -> m1 <= m2 -> hasChar ":" scope = false ->
  guardOk ttl now d l ->
  let (dup, d1) := IsDuplicate scope id c1 c2 d in
  guardOk ttl m2 d1 l
  /\ (dup = false -> guardOk ttl m2 (MarkProcessed scope id m1 m2 d1) (mkGuarded scope id c2 m2 :: l)).
Proof.
  intros Ht H1 H2 H3 H4 Hsc (c & -> & Ha & Hs).
  destruct (query_agrees ttl now scope id c1 c2 (marksOf l) c) as (c' & -> & Ha1); try done. split.
  { exists c'. split_and!; [done| |done]. by apply (agrees_later ttl c2); [lia|]. }
  intros Hdup. destruct (mark_agrees ttl c2 scope id m1 m2 (marksOf l) c') as (c2' & Hm & Ha2); try done.
  exists c2'. split_and!; [done| |].
  - unfold marksOf in *. cbn [flat_map gdId gdScope gdMark]. by destruct (bool_decide (id = _)).
  - cbn [spaced gdId gdScope gdCheck]. split; [|done]. intros Hne. unfold isDuplicateSpec in Hdup.
    destruct (lastMark _ _ _) as [t|]; [|done]. lia.
Qed.

(** C2: the cache implements its specification.  Over any run of queries and marks whose
    clock does not go back, every answer is the one of the full history of marks
    (a message is a duplicate exactly when it was last marked less than the TTL
    before, an empty id never is), although expired entries are swept: what the next
    operation leaves in the map was marked within the two TTLs before it. *)
Theorem dedup_refines_history (ttl : duration) (start : instant) (ops : list Timed) :
  0 < ttl -> ordered start ops -> scopesOk ops ->
  let (answers, d) := dedupRun ops (Some (NewDedupCache ttl start)) in
  answers = specRun ttl ops []
  /\ match d with
     | Some d => forall now k expiry, endTime start ops <= now ->
         dcEntries (sweepLocked now d) !! k = Some expiry -> now - 2 * ttl < expiry - ttl
     | None => False
     end.
Proof.
  intros Ht Ho Hsc.
  destruct (run_agrees ttl ops start [] (NewDedupCache ttl start)) as (d & h & -> & Ha);
    [lia|done|done|by apply agrees_new; lia|].
  split; [done|]. intros now k e Hle He. by eapply sweep_recent.
Qed.

Lemma dedup_refines_history_witness :
  let ops := [mkTimed (Mark "q" "m") 10 11; mkTimed (Query "q" "m") 12 13;
              mkTimed (Query "q" "m") 110 111; mkTimed (Query "q" "m") 112 113] in
  let (answers, d) := dedupRun ops (Some (NewDedupCache 100 0)) in
  answers = specRun 100 ops []
  /\ match d with
     | Some d => forall now k expiry, endTime 0 ops <= now ->
         dcEntries (sweepLocked now d) !! k = Some expiry -> now - 2 * 100 < expiry - 100
     | None => False
     end.
Proof.
  apply (dedup_refines_history 100 0
    [mkTimed (Mark "q" "m") 10 11; mkTimed (Query "q" "m") 12 13;
     mkTimed (Query "q" "m") 110 111; mkTimed (Query "q" "m") 112 113]);
    [lia|cbn; lia|repeat constructor].
Defined.

(** Every fan-out message of one event has its own key, and so has every message without
    an id: the key of a delivery is never empty, so two deliveries of messages
    without an id to one url are taken for duplicates. *)
Lemma webhook_key_never_empty messageID url : webhookDedupKey messageID url <> ""%string.
Proof. by destruct messageID. Qed.

Lemma webhook_key_same_message m url url' :
  webhookDedupKey m url = webhookDedupKey m url' -> url = url'.
Proof. unfold webhookDedupKey. induction m as [|a m IH]; cbn; intros [= H]; auto. Qed.
