(* ===== verification/RetryQueue.v ===== *)
(** * The worker and its retries ([pkg/queue/worker_pool.go], [constants.go], and the
    topology of [rabbitmq.go])

    [processMessage] maps what the handler did, and what the broker answers to the
    publication of a retry, to the settlement of the message; the retry queues
    bring it back after a delay. *)

From Stdlib Require Import ZArith Ascii String.
From stdpp Require Import strings numbers pretty gmap list.
From S2P Require Import Prelude GoLang.
#[local] Set Default Proof Using "Type".
#[local] Open Scope Z_scope.

(** ** Names *)

Definition ExchangeName : string := "whatsapp.topic".
Definition ExchangeDLX : string := "whatsapp.dlx".
Definition QueueIncomingEvents : string := "whatsapp.events.incoming".
Definition QueueWebhookDelivery : string := "whatsapp.webhooks.delivery".
Definition QueueOutgoingMessages : string := "whatsapp.messages.outgoing".
Definition DLQIncomingEvents : string := "whatsapp.dlq.events.incoming".
Definition DLQWebhookDelivery : string := "whatsapp.dlq.webhooks.delivery".
Definition DLQOutgoingMessages : string := "whatsapp.dlq.messages.outgoing".
Definition RoutingKeyIncomingEvent : string := "event.incoming".
Definition RoutingKeyWebhook : string := "webhook.delivery".
Definition RoutingKeyOutgoingMsg : string := "message.outgoing".

Definition RetryTiers : list duration := [1 * second; 5 * second; 25 * second].

(** [Duration.String()] of a whole number of seconds below a minute. *)
Definition secondsString (d : duration) : string := pretty (d `quot` second) +:+ "s".

Definition retryTierQueueName (queue : string) (tier : duration) : string :=
  queue +:+ ".retry." +:+ secondsString tier.

Definition retryLongQueueName (queue : string) : string := queue +:+ ".retry.long".

(** [retryRoute(queue, delay)]: the retry queue, and whether the delay must be carried by
    the message. *)
Fixpoint retryRouteIn (tiers : list duration) (queue : string) (delay : duration) : string * bool :=
  match tiers with
  | [] => (retryLongQueueName queue, true)
  | tier :: rest =>
      if delay <=? tier then (retryTierQueueName queue tier, false)
      else retryRouteIn rest queue delay
  end.

Definition retryRoute : string -> duration -> string * bool := retryRouteIn RetryTiers.

Definition retryBackoff (retry : Z) : duration :=
  if retry =? 0 then 1 * second
  else if retry =? 1 then 5 * second
  else if retry =? 2 then 25 * second
  else 25 * second.

(** ** Headers *)

(** The field values the code looks at; anything else is [FOther]. *)
Inductive Field := FInt (n : Z) | FInt32 (n : Z) | FInt64 (n : Z) | FString (s : string) | FOther.

Abbreviation Table := (gmap string Field).

Definition TraceIDKey : string := "x-trace-id".
Definition RetryCountKey : string := "x-retry-count".

Definition getRetryCount (headers : option Table) : Z :=
  match headers with
  | None => 0
  | Some h =>
      match h !! RetryCountKey with
      | Some (FInt v) | Some (FInt32 v) | Some (FInt64 v) => v
      | _ => 0
      end
  end.

(** [fresh] is the identifier [uuid.New()] would give. *)
Definition GetTraceIDWorkerProcess (fresh : string) (headers : option Table) : string :=
  match headers with
  | None => fresh
  | Some h => match h !! TraceIDKey with Some (FString s) => s | _ => fresh end
  end.

(** ** Processing a message *)

(** What the handler does with a message: returns, fails (with the [RetryAfter] of a
    [RateLimitError] in the chain of the error, if there is one), or panics. *)
Inductive Outcome := HOk | HErr (rateLimit : option duration) | HPanic.

(** What a publication gets: [Publish] fails or not; in confirm mode the wait for the
    confirmation fails ([None]) or brings an ack or a nack. *)
Record PublishEnv := mkPublishEnv { peError : bool; peConfirm : option bool }.

Record WorkerConfig := mkWorkerConfig { QueueMaxRetries : Z; PublishConfirm : bool }.

Record Publishing := mkPublishing {
  pubKey : string;
  pubHeaders : Table;
  pubBody : list Byte.byte;
  pubExpiration : option Z;
}.

Inductive Settlement := Ack | NackDead | NackRequeue.

(** [publishRetry(task)]: the message that reached the broker, if one did, and whether the
    call succeeded. *)
Definition publishRetry (cfg : WorkerConfig) (env : PublishEnv) (queue : string) (headers : Table)
    (body : list Byte.byte) (delay : duration) : option Publishing * bool :=
  let (key, perMessage) := retryRoute queue delay in
  let p := mkPublishing key headers body
             (if perMessage then Some (milliseconds delay) else None) in
  if peError env then (None, false)
  else if PublishConfirm cfg then
    match peConfirm env with
    | None => (Some p, false)
    | Some acked => (Some p, acked)
    end
  else (Some p, true).

(** [processMessage]: what was published and how the message is settled. *)
Definition processMessage (cfg : WorkerConfig) (env : PublishEnv) (fresh queue : string)
    (headers : option Table) (body : list Byte.byte) (handler : Table -> Outcome)
    : option Publishing * Settlement :=
  let retryCount := getRetryCount headers in
  let traceID := GetTraceIDWorkerProcess fresh headers in
  let headers := <[TraceIDKey := FString traceID]> (default ∅ headers) in
  match handler headers with
  | HPanic => (None, NackDead)
  | HOk => (None, Ack)
  | HErr rateLimit =>
      if QueueMaxRetries cfg <=? retryCount then (None, NackDead)
      else
        let newRetryCount := wrap64 (retryCount + 1) in
        let headers := <[RetryCountKey := FInt newRetryCount]> headers in
        let delay := match rateLimit with Some d => d | None => retryBackoff retryCount end in
        let (sent, ok) := publishRetry cfg env queue headers body delay in
        (sent, if ok then Ack else NackRequeue)
  end.

(** ** Topology *)

Record QueueArgs := mkQueueArgs {
  qaDeadExchange : option string;
  qaDeadKey : option string;
  qaTtlMs : option Z;
}.

Inductive Declaration :=
  | DeclareExchange (name kind : string)
  | DeclareQueue (name : string) (args : QueueArgs)
  | BindQueue (queue key exchange : string).

Definition noArgs : QueueArgs := mkQueueArgs None None None.

(** The declarations for one queue, in the order of the loop. *)
Definition declareQueues (name routingKey dlq : string) : list Declaration :=
  [ DeclareQueue dlq noArgs;
    BindQueue dlq dlq ExchangeDLX;
    DeclareQueue name (mkQueueArgs (Some ExchangeDLX) (Some dlq) None) ]
  ++ flat_map (fun tier =>
       let retryQueue := retryTierQueueName name tier in
       [ DeclareQueue retryQueue
           (mkQueueArgs (Some ExchangeName) (Some routingKey) (Some (milliseconds tier)));
         BindQueue retryQueue retryQueue ExchangeName ]) RetryTiers
  ++ [ DeclareQueue (retryLongQueueName name) (mkQueueArgs (Some ExchangeName) (Some routingKey) None);
       BindQueue (retryLongQueueName name) (retryLongQueueName name) ExchangeName;
       BindQueue name routingKey ExchangeName ].

Definition queues : list (string * string * string) :=
  [ (QueueIncomingEvents, RoutingKeyIncomingEvent, DLQIncomingEvents);
    (QueueWebhookDelivery, RoutingKeyWebhook, DLQWebhookDelivery);
    (QueueOutgoingMessages, RoutingKeyOutgoingMsg, DLQOutgoingMessages) ].

Definition topology : list Declaration :=
  [ DeclareExchange ExchangeName "topic"; DeclareExchange ExchangeDLX "direct" ]
  ++ flat_map (fun q => let '(name, key, dlq) := q in declareQueues name key dlq) queues.

(** [setupTopology()]: declares in order, stops at the first refusal. *)
Fixpoint setupTopology (accepts : Declaration -> bool) (ds : list Declaration)
    : list Declaration * bool :=
  match ds with
  | [] => ([], true)
  | d :: rest =>
      if accepts d then let (done, ok) := setupTopology accepts rest in (d :: done, ok)
      else ([], false)
  end.

(** ** The broker's side of the topology

    An exchange routes a message to the queues bound with its routing key (no key of
    the program has a wildcard); a queue dead-letters with its arguments. *)

Definition routed (ds : list Declaration) (exchange key : string) : list string :=
  omap (fun d => match d with
                 | BindQueue q k e => if bool_decide (k = key /\ e = exchange) then Some q else None
                 | _ => None
                 end) ds.

Definition queueArgs (ds : list Declaration) (queue : string) : option QueueArgs :=
  head (omap (fun d => match d with
                       | DeclareQueue q a => if bool_decide (q = queue) then Some a else None
                       | _ => None
                       end) ds).

(** Where a message goes when it expires in a queue or is rejected from it. *)
Definition deadLettered (ds : list Declaration) (queue : string) : list string :=
  match queueArgs ds queue with
  | Some a =>
      match qaDeadExchange a, qaDeadKey a with
      | Some e, Some k => routed ds e k
      | _, _ => []
      end
  | None => []
  end.

(** How long a message stays in a retry queue, in milliseconds: the smaller of the TTL of
    the queue and the expiration of the message. *)
Definition heldMs (ds : list Declaration) (queue : string) (expiration : option Z) : option Z :=
  match queueArgs ds queue with
  | Some a =>
      match qaTtlMs a, expiration with
      | Some t, Some e => Some (Z.min t e)
      | Some t, None => Some t
      | None, e => e
      end
  | None => None
  end.

(** ** Lemmas *)

Lemma retryRoute_cases queue delay :
  retryRoute queue delay
  = if delay <=? 1 * second then (retryTierQueueName queue (1 * second), false)
    else if delay <=? 5 * second then (retryTierQueueName queue (5 * second), false)
    else if delay <=? 25 * second then (retryTierQueueName queue (25 * second), false)
    else (retryLongQueueName queue, true).
Proof. reflexivity. Qed.

(** The delay a route holds a message for, in milliseconds. *)
Definition routeMs (delay : duration) : Z :=
  if delay <=? 1 * second then 1000
  else if delay <=? 5 * second then 5000
  else if delay <=? 25 * second then 25000
  else milliseconds delay.

Lemma getRetryCount_insert_trace s h :
  getRetryCount (Some (<[TraceIDKey := s]> h)) = getRetryCount (Some h).
Proof. unfold getRetryCount. by rewrite lookup_insert_ne. Qed.

(** C5: the retry queues bring a failed message back where it failed, and not early.  For
    each of the three work queues and every delay, the route chosen for a retry
    leads, through the topic exchange, to exactly one declared queue; that queue
    hands the message back, when its time is over, to exactly the work queue it
    came from; and its time is the smallest tier not below the delay, or beyond 25
    seconds the delay itself rounded down to the millisecond.  A message a work
    queue rejects goes to exactly its dead-letter queue. *)
Theorem retry_returns_to_its_queue (name key dlq : string) (delay : duration) :
  (name, key, dlq) ∈ queues ->
  let (route, perMessage) := retryRoute name delay in
  let expiration := if perMessage then Some (milliseconds delay) else None in
  routed topology ExchangeName route = [route]
  /\ deadLettered topology route = [name]
  /\ heldMs topology route expiration = Some (routeMs delay)
  /\ delay - millisecond < routeMs delay * millisecond
  /\ (delay <= 25 * second -> delay <= routeMs delay * millisecond)
  /\ deadLettered topology name = [dlq].
Proof.
  assert (Hall : forall n k q, (n, k, q) ∈ queues ->
    let check := fun r held e => routed topology ExchangeName r = [r]
                       /\ deadLettered topology r = [n] /\ heldMs topology r e = held in
    check (retryTierQueueName n (1 * second)) (Some 1000) None
    /\ check (retryTierQueueName n (5 * second)) (Some 5000) None
    /\ check (retryTierQueueName n (25 * second)) (Some 25000) None
    /\ (forall e, check (retryLongQueueName n) e e)
    /\ deadLettered topology n = [q]).
  { clear. intros n k q. unfold queues. rewrite !elem_of_cons, elem_of_nil.
    intros [[= -> -> ->]|[[= -> -> ->]|[[= -> -> ->]|[]]]]; split_and!; try (intros e; split_and!);
      vm_compute; try reflexivity; by destruct e. }
  intros Hin. destruct (Hall _ _ _ Hin) as (H1 & H2 & H3 & H4 & H5). clear Hall.
  rewrite retryRoute_cases. unfold routeMs.
  pose proof (milliseconds_floor delay) as Hfloor.
  unfold second, millisecond in *.
  destruct (delay <=? 1 * 10 ^ 9) eqn:E1; [split_and!; try apply H1; try done; lia|].
  destruct (delay <=? 5 * 10 ^ 9) eqn:E2; [split_and!; try apply H2; try done; lia|].
  destruct (delay <=? 25 * 10 ^ 9) eqn:E3; [split_and!; try apply H3; try done; lia|].
  split_and!; try apply (H4 None); try apply (H4 (Some _)); try done; lia.
Qed.

Lemma retry_returns_to_its_queue_witness :
  let (route, perMessage) := retryRoute QueueOutgoingMessages (30 * second) in
  let expiration := if perMessage then Some (milliseconds (30 * second)) else None in
  routed topology ExchangeName route = [route]
  /\ deadLettered topology route = [QueueOutgoingMessages]
  /\ heldMs topology route expiration = Some (routeMs (30 * second))
  /\ 30 * second - millisecond < routeMs (30 * second) * millisecond
  /\ (30 * second <= 25 * second -> 30 * second <= routeMs (30 * second) * millisecond)
  /\ deadLettered topology QueueOutgoingMessages = [DLQOutgoingMessages].
Proof.
  apply (retry_returns_to_its_queue QueueOutgoingMessages RoutingKeyOutgoingMsg).
  vm_compute. right. right. left.
Defined.

(** C3: no message is lost or settled twice.  Whatever the handler does and whatever the
    broker answers, a message is settled exactly once: acknowledged when the handler
    returned; dead-lettered when it panicked or failed with its retries used up;
    acknowledged in favour of one retry, to its own retry queue, with its body, its
    trace id and the count increased by one, when that retry was published; and
    given back to the queue when it was not (an unconfirmed copy may then exist
    besides it). *)
Theorem message_settled (cfg : WorkerConfig) (env : PublishEnv) (fresh queue : string)
    (headers : option Table) (body : list Byte.byte) (handler : Table -> Outcome) :
  let seen := <[TraceIDKey := FString (GetTraceIDWorkerProcess fresh headers)]> (default ∅ headers) in
  let (sent, settled) := processMessage cfg env fresh queue headers body handler in
  match handler seen with
  | HOk => sent = None /\ settled = Ack
  | HPanic => sent = None /\ settled = NackDead
  | HErr limit =>
      if QueueMaxRetries cfg <=? getRetryCount headers then sent = None /\ settled = NackDead
      else
        let delay := default (retryBackoff (getRetryCount headers)) limit in
        let retry := mkPublishing (retryRoute queue delay).1
          (<[RetryCountKey := FInt (wrap64 (getRetryCount headers + 1))]> seen) body
          (if (retryRoute queue delay).2 then Some (milliseconds delay) else None) in
        match settled with
        | Ack => sent = Some retry /\ peError env = false
                 /\ (PublishConfirm cfg = true -> peConfirm env = Some true)
        | NackRequeue =>
            (sent = None /\ peError env = true)
            \/ (sent = Some retry /\ PublishConfirm cfg = true /\ peConfirm env <> Some true)
        | NackDead => False
        end
  end.
Proof.
  cbv zeta. unfold processMessage, publishRetry.
  set (seen := <[TraceIDKey := _]> _).
  destruct (handler seen) as [|limit|]; [done| |done].
  destruct (QueueMaxRetries cfg <=? getRetryCount headers); [done|].
  replace (match limit with Some d => d | None => _ end)
    with (default (retryBackoff (getRetryCount headers)) limit) by by destruct limit.
  destruct (retryRoute queue _) as [key perMessage]; cbn [fst snd].
  destruct (peError env) eqn:Ee; [by left|].
  destruct (PublishConfirm cfg) eqn:Ec; [|done].
  destruct (peConfirm env) as [[]|] eqn:Ep; [done|right; split_and!; congruence..].
Qed.

(** ** The journey of a message

    The deliveries of one message until it is acknowledged for good or dead-lettered,
    when its retries are always published.  [handler k] is what the handler does at
    the [k]-th delivery; [wire] is what a round through the broker does to the
    headers, of which the code relies on the count being kept. *)

Inductive Fate := Processed | DeadLettered.

Section journey.
Context (wire : Table -> Table).
Context (wire_count : forall h, getRetryCount (Some (wire h)) = getRetryCount (Some h)).
Context (cfg : WorkerConfig) (fresh queue : string) (body : list Byte.byte).
Context (handler : nat -> Outcome).

Definition allPublished : PublishEnv := mkPublishEnv false (Some true).

(** The fate and the number of deliveries it took. *)
Fixpoint journey (fuel k : nat) (headers : option Table) : option (Fate * nat) :=
  match fuel with
  | O => None
  | S f =>
      match processMessage cfg allPublished fresh queue headers body (fun _ => handler k) with
      | (Some p, Ack) => journey f (S k) (Some (wire (pubHeaders p)))
      | (None, Ack) => Some (Processed, S k)
      | (_, NackDead) => Some (DeadLettered, S k)
      | (_, NackRequeue) => journey f (S k) headers
      end
  end.

(** The specification: the first delivery that does not fail decides, and the last
    retry is the last delivery. *)
Fixpoint fateSpec (retries k : nat) : Fate * nat :=
  match handler k with
  | HOk => (Processed, S k)
  | HPanic => (DeadLettered, S k)
  | HErr _ =>
      match retries with
      | O => (DeadLettered, S k)
      | S r => fateSpec r (S k)
      end
  end.

Lemma fateSpec_bound retries k : (k < (fateSpec retries k).2 <= k + retries + 1)%nat.
Proof using.
  revert k. induction retries as [|r IH]; intros k; cbn; destruct (handler k); cbn; try lia.
  specialize (IH (S k)). lia.
Qed.

Lemma process_error k headers limit :
  handler k = HErr limit -> getRetryCount headers < QueueMaxRetries cfg ->
  exists p, processMessage cfg allPublished fresh queue headers body (fun _ => handler k)
            = (Some p, Ack)
    /\ getRetryCount (Some (pubHeaders p)) = wrap64 (getRetryCount headers + 1).
Proof using.
  intros Hk Hlt. unfold processMessage. rewrite Hk.
  destruct (QueueMaxRetries cfg <=? getRetryCount headers) eqn:E; [lia|].
  unfold publishRetry. destruct (retryRoute queue _) as [key pm].
  cbn [allPublished peError peConfirm].
  destruct (PublishConfirm cfg); eexists; (split; [reflexivity|]);
    unfold getRetryCount; cbn [pubHeaders]; by rewrite lookup_insert_eq.
Qed.

Lemma journey_fate retries k headers :
  0 <= getRetryCount headers -> QueueMaxRetries cfg < 2 ^ 63 ->
  QueueMaxRetries cfg = getRetryCount headers + Z.of_nat retries ->
  journey (S retries) k headers = Some (fateSpec retries k).
Proof using wire_count.
  intros H0 Hmax. revert k headers H0.
  induction retries as [|r IH]; intros k headers H0 Heq; cbn [journey fateSpec].
  - destruct (handler k) as [|limit|] eqn:Hk; unfold processMessage; rewrite ?Hk; try done.
    destruct (QueueMaxRetries cfg <=? getRetryCount headers) eqn:E; [done|lia].
  - destruct (handler k) as [|limit|] eqn:Hk; try (unfold processMessage; done).
    destruct (process_error k headers limit Hk ltac:(lia)) as (p & Hp & Hc).
    rewrite Hk in Hp. rewrite Hp.
    apply IH; rewrite wire_count, Hc, wrap64_id by lia; lia.
Qed.
End journey.

(** C6: retries are bounded and end.  A message whose retries are published is delivered
    at most one time more than the configured number of retries, and its journey is
    the specified one: it is processed if a delivery returns before the retries run
    out, and dead-lettered after a panic or after its last failure.  [retries + 1]
    units of fuel are enough, each being one delivery. *)
Theorem retries_bounded (wire : Table -> Table) (cfg : WorkerConfig) (fresh queue : string)
    (body : list Byte.byte) (handler : nat -> Outcome) (retries : nat) (headers : option Table) :
  (forall h, getRetryCount (Some (wire h)) = getRetryCount (Some h)) ->
  QueueMaxRetries cfg = Z.of_nat retries -> QueueMaxRetries cfg < 2 ^ 63 ->
  getRetryCount headers = 0 ->
  exists fate n, journey wire cfg fresh queue body handler (S retries) 0 headers = Some (fate, n)
    /\ (fate, n) = fateSpec handler retries 0
    /\ (1 <= n <= retries + 1)%nat.
Proof.
  intros Hw Hmax Hlt H0.
  pose proof (fateSpec_bound handler retries 0) as Hb.
  exists (fateSpec handler retries 0).1, (fateSpec handler retries 0).2.
  rewrite <- surjective_pairing. split_and!; [|done|lia|lia].
  apply journey_fate; [done|lia|lia|lia].
Qed.

(** What the broker brings back: an [int] header comes back as an [int32]. *)
Definition wireInt32 (h : Table) : Table :=
  (fun f => match f with FInt n => FInt32 n | f => f end) <$> h.

Lemma wireInt32_count h : getRetryCount (Some (wireInt32 h)) = getRetryCount (Some h).
Proof.
  unfold getRetryCount, wireInt32. rewrite lookup_fmap.
  by destruct (h !! RetryCountKey) as [[]|].
Qed.

Lemma retries_bounded_witness :
  exists fate n,
    journey wireInt32 (mkWorkerConfig 3 true) "t" QueueOutgoingMessages []
      (fun k => if (k <? 2)%nat then HErr None else HOk) 4 0 None = Some (fate, n)
    /\ (fate, n) = fateSpec (fun k => if (k <? 2)%nat then HErr None else HOk) 3 0
    /\ (1 <= n <= 3 + 1)%nat.
Proof.
  apply (retries_bounded wireInt32 (mkWorkerConfig 3 true) "t" QueueOutgoingMessages []
    (fun k => if (k <? 2)%nat then HErr None else HOk) 3 None);
    [exact wireInt32_count|reflexivity|reflexivity|reflexivity].
Defined.
