(* ===== verification/RabbitConnection.v ===== *)
(** * The life of the broker connection ([pkg/queue/rabbitmq.go])

    The monitor goroutine ([monitorConnection], [reconnectLoop]), the consumers it
    restarts and [Shutdown], as steps on the shared state; a step is one critical
    section, or one exchange with the broker and what follows it up to the next
    point where the goroutine waits. *)

From Stdlib Require Import ZArith String.
From stdpp Require Import strings numbers gmap relations list.
From S2P Require Import Prelude GoLang RetryQueue.
#[local] Set Default Proof Using "Type".

(** A worker group and whether its [stopChan] is closed. *)
Record WorkerGroup := mkGroup { wgQueue : string; wgStopped : bool }.

Abbreviation WorkerPool := (list WorkerGroup).

(** [close(group.stopChan)]: closing a closed channel panics. *)
Definition closeStop (g : WorkerGroup) : go WorkerGroup :=
  if wgStopped g then Panic else Ret (mkGroup (wgQueue g) true).

(** [WorkerPool.Shutdown]: every group in turn. *)
Fixpoint poolShutdown (p : WorkerPool) : go WorkerPool :=
  match p with
  | [] => Ret []
  | g :: rest =>
      goBind (closeStop g) (fun g' => goBind (poolShutdown rest) (fun rest' => Ret (g' :: rest')))
  end.

(** Where the monitor goroutine is: waiting for the connection to close or for the stop
    channel; in [reconnectLoop], past its [select]; about to restart the consumers;
    returned. *)
Inductive MonitorAt := Watching | Reconnecting | Restarting | Exited.

(** How far [Shutdown] has come: not called, the stop channel closed, the pool shut down,
    returned. *)
Inductive ShutdownAt := NotCalled | Signalled | PoolDown | Returned.

#[export] Instance MonitorAt_eq_dec : EqDecision MonitorAt.
Proof. solve_decision. Defined.
#[export] Instance ShutdownAt_eq_dec : EqDecision ShutdownAt.
Proof. solve_decision. Defined.

(** [mqConn]: the connection, if any, is open or closed; [mqStopCh]: the stop channel is
    closed; [mqPanicked]: a goroutine panicked, which ends the process. *)
Record Mq := mkMq {
  mqConn : option bool;
  mqHealthy : bool;
  mqClosing : bool;
  mqStopCh : bool;
  mqHandlers : list string;
  mqPool : option WorkerPool;
  mqMonitor : MonitorAt;
  mqShutdown : ShutdownAt;
  mqPanicked : bool;
}.

(** [connect()]: the old connection is closed first; [ok] says whether the dial, the
    channels, the prefetch and the confirm mode all succeeded. *)
Definition connect (ok : bool) (s : Mq) : Mq :=
  let conn := if ok then Some true
              else match mqConn s with Some _ => Some false | None => None end in
  mkMq conn (mqHealthy s) (mqClosing s) (mqStopCh s) (mqHandlers s) (mqPool s)
    (mqMonitor s) (mqShutdown s) (mqPanicked s).

Definition setHealthy (h : bool) (s : Mq) : Mq :=
  mkMq (mqConn s) h (mqClosing s) (mqStopCh s) (mqHandlers s) (mqPool s)
    (mqMonitor s) (mqShutdown s) (mqPanicked s).

Definition setMonitor (m : MonitorAt) (s : Mq) : Mq :=
  mkMq (mqConn s) (mqHealthy s) (mqClosing s) (mqStopCh s) (mqHandlers s) (mqPool s)
    m (mqShutdown s) (mqPanicked s).

Definition setPool (p : option WorkerPool) (s : Mq) : Mq :=
  mkMq (mqConn s) (mqHealthy s) (mqClosing s) (mqStopCh s) (mqHandlers s) p
    (mqMonitor s) (mqShutdown s) (mqPanicked s).

Definition setShutdown (a : ShutdownAt) (s : Mq) : Mq :=
  mkMq (mqConn s) (mqHealthy s) (mqClosing s) (mqStopCh s) (mqHandlers s) (mqPool s)
    (mqMonitor s) a (mqPanicked s).

Definition panicked (s : Mq) : Mq :=
  mkMq (mqConn s) (mqHealthy s) (mqClosing s) (mqStopCh s) (mqHandlers s) (mqPool s)
    (mqMonitor s) (mqShutdown s) true.

(** [NewRabbitMQQueue]: a queue exists only once connected and declared. *)
Definition newMq (connectOk topologyOk : bool) : option Mq :=
  if negb connectOk then None
  else if negb topologyOk then None
  else Some (mkMq (Some true) true false false [] None Watching NotCalled false).

(** [startConsumers()]: a group per registered queue; the pool is installed only when
    every [Consume] succeeded. *)
Definition startConsumers (consumes : string -> bool) (s : Mq) : bool * Mq :=
  if forallb consumes (mqHandlers s)
  then (true, setPool (Some (map (fun q => mkGroup q false) (mqHandlers s))) s)
  else (false, s).

(** [StartWorkers(...)]: the three work queues, and the three dead-letter queues when there
    is a handler for them. *)
Definition registered (withDlq : bool) : list string :=
  [QueueIncomingEvents; QueueWebhookDelivery; QueueOutgoingMessages]
  ++ (if withDlq then [DLQIncomingEvents; DLQWebhookDelivery; DLQOutgoingMessages] else []).

Definition StartWorkers (withDlq : bool) (consumes : string -> bool) (s : Mq) : bool * Mq :=
  startConsumers consumes
    (mkMq (mqConn s) (mqHealthy s) (mqClosing s) (mqStopCh s) (registered withDlq) (mqPool s)
       (mqMonitor s) (mqShutdown s) (mqPanicked s)).

(** [restartConsumers()]. *)
Definition restartConsumers (consumes : string -> bool) (s : Mq) : go (bool * Mq) :=
  if mqClosing s || bool_decide (mqHandlers s = []) then Ret (true, s)
  else match mqPool s with
       | Some p =>
           goBind (poolShutdown p) (fun p' => Ret (startConsumers consumes (setPool (Some p') s)))
       | None => Ret (startConsumers consumes s)
       end.

(** One turn of [reconnectLoop] after its delay. *)
Definition reconnectTurn (connectOk topologyOk : bool) (s : Mq) : Mq :=
  let s := connect connectOk s in
  if connectOk && topologyOk then setMonitor Restarting (setHealthy true s)
  else setMonitor Reconnecting s.

(** The inner loop of [monitorConnection] once reconnected. *)
Definition restartTurn (consumes : string -> bool) (s : Mq) : Mq :=
  match restartConsumers consumes s with
  | Panic => panicked s
  | Ret (true, s') => setMonitor Watching s'
  | Ret (false, s') => setMonitor Reconnecting (setHealthy false s')
  end.

(** The connection closes: gracefully ([nil] error) or not. *)
Definition connectionClosed (graceful : bool) (s : Mq) : Mq :=
  let s := mkMq (Some false) (mqHealthy s) (mqClosing s) (mqStopCh s) (mqHandlers s) (mqPool s)
             (mqMonitor s) (mqShutdown s) (mqPanicked s) in
  if graceful then setMonitor Exited s
  else setMonitor Reconnecting (setHealthy false s).

(** [Shutdown(timeout)] in its three sections. *)
Definition shutdownSignal (s : Mq) : Mq :=
  mkMq (mqConn s) (mqHealthy s) true true (mqHandlers s) (mqPool s)
    (mqMonitor s) Signalled (mqPanicked s).

Definition shutdownPool (s : Mq) : Mq :=
  match mqPool s with
  | Some p =>
      match poolShutdown p with
      | Ret p' => setShutdown PoolDown (setPool (Some p') s)
      | Panic => panicked s
      end
  | None => setShutdown PoolDown s
  end.

Definition shutdownClose (s : Mq) : Mq :=
  mkMq (match mqConn s with Some _ => Some false | None => None end) false (mqClosing s) (mqStopCh s)
    (mqHandlers s) (mqPool s) (mqMonitor s) Returned (mqPanicked s).

(** The steps.  [reconnectLoop] and the outer [select] can only leave through the stop
    channel once it is closed; until it is read a turn already past its [select]
    still runs. *)
Inductive step (s : Mq) : Mq -> Prop :=
  | StStart withDlq consumes :
      mqPanicked s = false -> mqHandlers s = [] -> mqMonitor s = Watching -> mqClosing s = false ->
      step s (StartWorkers withDlq consumes s).2
  | StClosed graceful :
      mqPanicked s = false -> mqMonitor s = Watching -> step s (connectionClosed graceful s)
  | StStop :
      mqPanicked s = false -> mqStopCh s = true -> mqMonitor s = Watching \/ mqMonitor s = Reconnecting ->
      step s (setMonitor Exited s)
  | StReconnect connectOk topologyOk :
      mqPanicked s = false -> mqMonitor s = Reconnecting -> step s (reconnectTurn connectOk topologyOk s)
  | StRestart consumes :
      mqPanicked s = false -> mqMonitor s = Restarting -> step s (restartTurn consumes s)
  | StShutdown :
      mqPanicked s = false -> mqShutdown s = NotCalled -> step s (shutdownSignal s)
  | StShutdownPool :
      mqPanicked s = false -> mqShutdown s = Signalled -> step s (shutdownPool s)
  | StShutdownClose :
      mqPanicked s = false -> mqShutdown s = PoolDown -> step s (shutdownClose s).

Definition reachable (s : Mq) : Prop := exists s0, newMq true true = Some s0 /\ rtc step s0 s.

(** Publishing asks only whether the queue is healthy ([publish]). *)
Definition publishAccepted (s : Mq) : bool := mqHealthy s.

(** All the groups of the pool run, one per registered queue. *)
Definition consuming (s : Mq) : Prop :=
  forall p, mqPool s = Some p -> p = map (fun q => mkGroup q false) (mqHandlers s).

(** While it waits on a live queue, the monitor leaves it connected, healthy and
    consuming; during a shutdown the signals are set. *)
Record mqInv (s : Mq) : Prop := {
  mi_watching : mqMonitor s = Watching -> mqClosing s = false ->
    mqConn s = Some true /\ mqHealthy s = true /\ consuming s;
  mi_restarting : mqMonitor s = Restarting -> mqClosing s = false ->
    mqConn s = Some true /\ mqHealthy s = true;
  mi_closing : mqClosing s = mqStopCh s;
  mi_shutdown : mqShutdown s = NotCalled <-> mqClosing s = false;
  mi_reconnecting : mqMonitor s = Reconnecting -> mqClosing s = false -> mqHealthy s = false;
  mi_started : mqHandlers s = [] -> mqPool s = None;
}.

Lemma start_consuming consumes s b s' :
  startConsumers consumes s = (b, s') ->
  (b = true /\ s' = setPool (Some (map (fun q => mkGroup q false) (mqHandlers s))) s)
  \/ (b = false /\ s' = s).
Proof. unfold startConsumers. destruct (forallb _ _); intros [= <- <-]; auto. Qed.

Lemma connectionClosed_inv g s : mqInv s -> mqMonitor s = Watching -> mqInv (connectionClosed g s).
Proof. intros [Hw Hr Hc Hs He Ht] Hm. by destruct g; split. Qed.

Lemma reconnectTurn_inv c t s : mqInv s -> mqMonitor s = Reconnecting -> mqInv (reconnectTurn c t s).
Proof. intros [Hw Hr Hc Hs He Ht] Hm. unfold reconnectTurn. by destruct c, t; split; cbn; auto. Qed.

Lemma startWorkers_inv withDlq consumes s :
  mqInv s -> mqHandlers s = [] -> mqMonitor s = Watching -> mqClosing s = false ->
  mqInv (StartWorkers withDlq consumes s).2.
Proof.
  intros [Hw Hr Hc Hs He Ht] Hh Hm Hcl. destruct (Hw Hm Hcl) as (H1 & H2 & _).
  unfold StartWorkers. destruct (startConsumers consumes _) as [b s1] eqn:E. cbn [snd].
  apply start_consuming in E as [[-> ->]|[-> ->]]; split; cbn; auto; try done.
  - intros _ _. split_and!; [done..|]. intros p. cbn. by intros [= <-].
  - intros _ _. split_and!; [done..|]. intros p. cbn. by rewrite Ht.
Qed.

Lemma restartTurn_inv consumes s :
  mqInv s -> mqMonitor s = Restarting -> mqPanicked (restartTurn consumes s) = false ->
  mqInv (restartTurn consumes s).
Proof.
  intros [Hw Hr Hc Hs He Ht] Hm. unfold restartTurn, restartConsumers.
  destruct (mqClosing s) eqn:Ecl; [intros _; split; cbn; auto; by rewrite Ecl|].
  destruct (Hr Hm eq_refl) as [H1 H2]. cbn [orb].
  case_bool_decide as Hh.
  { intros _. split; cbn; auto; try done; try (by rewrite Ecl).
    intros _ _. split_and!; [done..|]. intros p. cbn. by rewrite Ht. }
  destruct (mqPool s) as [p|] eqn:Ep.
  - destruct (poolShutdown p) as [p'|]; [|done]. cbn [goBind].
    destruct (startConsumers consumes _) as [b s1] eqn:E.
    apply start_consuming in E as [[-> ->]|[-> ->]]; intros _; split; cbn; auto; try done; try (by rewrite Ecl).
    intros _ _. split_and!; [done..|]. intros q. cbn. by intros [= <-].
  - destruct (startConsumers consumes _) as [b s1] eqn:E.
    apply start_consuming in E as [[-> ->]|[-> ->]]; intros _; split; cbn; auto; try done; try (by rewrite Ecl).
    intros _ _. split_and!; [done..|]. intros q. cbn. by intros [= <-].
Qed.

(** The steps of [Shutdown] set the closing mark or find it set. *)
Lemma closing_inv s s' :
  mqInv s -> mqClosing s' = true -> mqStopCh s' = true -> mqShutdown s' <> NotCalled ->
  (mqHandlers s' = [] -> mqPool s' = None) -> mqInv s'.
Proof. intros _ Hc Hst Hs Ht. constructor; first [exact Ht|congruence|split; congruence]. Qed.

Lemma step_inv s s' : mqInv s -> mqPanicked s' = false -> step s s' -> mqInv s'.
Proof.
  intros Hi Hp Hst. pose proof Hi as [_ _ Hc Hs _ Ht].
  destruct Hst as [withDlq consumes _ Hh Hm Hcl|graceful _ Hm|_ Hst Hm|c t _ Hm|consumes _ Hm|_ Hn|_ Hn|_ Hn].
  - by apply startWorkers_inv.
  - by apply connectionClosed_inv.
  - destruct Hi as [Hw Hr _ _ He _]. by split.
  - by apply reconnectTurn_inv.
  - by apply restartTurn_inv.
  - by apply (closing_inv s).
  - assert (Hcl : mqClosing s = true).
    { apply not_false_iff_true. intros Hf. apply Hs in Hf. congruence. }
    unfold shutdownPool in *. destruct (mqPool s) as [p|] eqn:Ep.
    + destruct (poolShutdown p); [|done].
      apply (closing_inv s); cbn; try done; try congruence. intros Hh. by specialize (Ht Hh).
    + apply (closing_inv s); cbn; try done; congruence.
  - assert (Hcl : mqClosing s = true).
    { apply not_false_iff_true. intros Hf. apply Hs in Hf. congruence. }
    apply (closing_inv s); cbn; try done; congruence.
Qed.

Lemma panicked_stuck s s' : mqPanicked s = true -> step s s' -> False.
Proof. intros Hp Hst. inversion Hst; congruence. Qed.

Lemma reachable_inv s : reachable s -> mqPanicked s = false -> mqInv s.
Proof.
  intros (s0 & H0 & Hr). injection H0 as <-.
  revert s Hr. apply (rtc_ind_r (fun s => mqPanicked s = false -> mqInv s)); [by split|].
  intros s2 s3 _ Hst IH Hp. apply (step_inv s2); [|done|done]. apply IH.
  apply not_true_iff_false. intros Ht. by apply (panicked_stuck s2 s3).
Qed.


(** A state reached by starting the workers, losing the connection and getting it back. *)
Definition lostAndBack (consumes : string -> bool) : Mq :=
  restartTurn consumes (reconnectTurn true true (connectionClosed false
    (StartWorkers true (fun _ => true) (mkMq (Some true) true false false [] None Watching NotCalled false)).2)).

Lemma lostAndBack_reachable consumes : reachable (lostAndBack consumes).
Proof.
  eexists. split; [reflexivity|]. unfold lostAndBack.
  eapply rtc_l; [by apply (StStart _ true (fun _ => true))|].
  eapply rtc_l; [by apply (StClosed _ false)|].
  eapply rtc_l; [by apply (StReconnect _ true true)|].
  eapply rtc_l; [by apply (StRestart _ consumes)|]. reflexivity.
Qed.


(** A failed restart of the consumers is fatal.  If, after a reconnection, restarting
    the consumers fails once (the connection having broken again), then, however many
    turns it takes to reconnect, the next restart panics on the stop channels that
    the first one closed, and the process dies. *)
Theorem failed_restart_panics (consumes consumes' : string -> bool) (s : Mq) (turns : list (bool * bool)) :
  mqClosing s = false -> mqHandlers s <> [] -> consuming s -> mqPool s <> None ->
  forallb consumes (mqHandlers s) = false ->
  let failed := restartTurn consumes s in
  let retried := fold_left (fun s t => reconnectTurn t.1 t.2 s) turns failed in
  mqMonitor failed = Reconnecting /\ mqHealthy failed = false
  /\ mqPanicked (restartTurn consumes' (reconnectTurn true true retried)) = true.
Proof.
  intros Hc Hh Hcons Hpool Hf. cbv zeta.
  destruct (mqPool s) as [p|] eqn:Ep; [|done]. specialize (Hcons p Ep).
  assert (Hdown : poolShutdown p = Ret (map (fun q => mkGroup q true) (mqHandlers s))).
  { subst p. clear. induction (mqHandlers s) as [|q l IH]; [done|]. cbn. by rewrite IH. }
  set (p' := map (fun q => mkGroup q true) (mqHandlers s)) in *.
  assert (Hfailed : restartTurn consumes s
                    = setMonitor Reconnecting (setHealthy false (setPool (Some p') s))).
  { unfold restartTurn, restartConsumers. rewrite Hc, bool_decide_eq_false_2 by done.
    cbn [orb]. rewrite Ep, Hdown. cbn [goBind]. unfold startConsumers. cbn. by rewrite Hf. }
  rewrite Hfailed. split_and!; [done..|].
  assert (Hinv : forall s1, mqClosing s1 = false -> mqHandlers s1 = mqHandlers s -> mqPool s1 = Some p' ->
            mqPanicked (restartTurn consumes' (reconnectTurn true true s1)) = true).
  { intros s1 H1 H2 H3. unfold restartTurn, restartConsumers. cbn.
    rewrite H1, H2, bool_decide_eq_false_2 by done. cbn [orb]. rewrite H3. unfold p'.
    by destruct (mqHandlers s). }
  assert (Hloop : forall s1, mqClosing s1 = false -> mqHandlers s1 = mqHandlers s -> mqPool s1 = Some p' ->
            let s2 := fold_left (fun s t => reconnectTurn t.1 t.2 s) turns s1 in
            mqClosing s2 = false /\ mqHandlers s2 = mqHandlers s /\ mqPool s2 = Some p').
  { clear. induction turns as [|[c t] turns IH]; intros s1 H1 H2 H3; [done|]. cbn [fold_left fst snd].
    apply IH; unfold reconnectTurn; by destruct (c && t). }
  destruct (Hloop (setMonitor Reconnecting (setHealthy false (setPool (Some p') s)))) as (H1 & H2 & H3);
    [done..|]. by apply Hinv.
Qed.

Lemma failed_restart_panics_witness :
  let s := reconnectTurn true true (connectionClosed false (lostAndBack (fun _ => true))) in
  let failed := restartTurn (fun _ => false) s in
  let retried := fold_left (fun s t => reconnectTurn t.1 t.2 s) [(false, false)] failed in
  mqMonitor failed = Reconnecting /\ mqHealthy failed = false
  /\ mqPanicked (restartTurn (fun _ => true) (reconnectTurn true true retried)) = true.
Proof.
  apply (failed_restart_panics (fun _ => false) (fun _ => true)
    (reconnectTurn true true (connectionClosed false (lostAndBack (fun _ => true)))) [(false, false)]);
    [reflexivity|done| |done|reflexivity].
  intros p [= <-]. reflexivity.
Defined.

(** [Shutdown] can be overtaken by a reconnection.  There is a run in which [Shutdown]
    returns while the monitor is in the middle of a reconnection turn, and after
    which the monitor exits leaving the connection open and the queue healthy:
    publishing is accepted after the shutdown. *)
Theorem shutdown_overtaken :
  exists s, reachable s /\ mqPanicked s = false /\ mqShutdown s = Returned /\ mqMonitor s = Exited
  /\ mqConn s = Some true /\ publishAccepted s = true
  /\ (forall s', rtc step s s' -> publishAccepted s' = true).
Proof.
  set (lost := connectionClosed false (mkMq (Some true) true false false [] None Watching NotCalled false)).
  set (final := setMonitor Exited (restartTurn (fun _ => true)
    (reconnectTurn true true (shutdownClose (shutdownPool (shutdownSignal lost)))))).
  exists final. split_and!; try done.
  - eexists. split; [reflexivity|].
    eapply rtc_l; [by apply (StClosed _ false)|]. fold lost.
    eapply rtc_l; [by apply StShutdown|].
    eapply rtc_l; [by apply StShutdownPool|].
    eapply rtc_l; [by apply StShutdownClose|].
    eapply rtc_l; [by apply (StReconnect _ true true)|].
    eapply rtc_l; [by apply (StRestart _ (fun _ => true))|].
    eapply rtc_l; [by apply StStop; [..|left]|]. reflexivity.
  - intros s' Hrtc. inversion Hrtc as [|? s1 ? Hst _]; subst; [done|].
    exfalso. inversion Hst; try discriminate. destruct H1 as [|]; discriminate.
Qed.
