(* ===== verification/RateLimiter.v ===== *)
(** * Rate limiters ([pkg/ratelimiter])

    The [Limiter] interface and its window implementations: [memory.go], [redis.go],
    [noop.go], [provider.go].  Token bucket and pacer have files of their own. *)

From Stdlib Require Import ZArith String.
From stdpp Require Import strings numbers gmap list.
From S2P Require Import Prelude GoLang.
#[local] Set Default Proof Using "Type".
#[local] Open Scope Z_scope.

(** [Result]. *)
Record Result := mkResult {
  resAllowed : bool;
  resRemaining : Z;
  resLimit : Z;
  resRetryAfter : duration;
  resResetAfter : duration;
}.

(** [Config]. *)
Record LimiterConfig := mkLimiterConfig { lcLimit : Z; lcWindow : duration; lcPrefix : string }.

(** The [Limiter] interface: a call gets the reading of the clock it decides by and the
    one its answer is computed at; [None] is an error. *)
Class Limiter (St : Type) := {
  AllowN : instant -> instant -> string -> Z -> St -> option Result * St;
  Reset : string -> St -> St;
}.

Definition Allow `{Limiter St} (now later : instant) (key : string) (s : St) : option Result * St :=
  AllowN now later key 1 s.

(** ** In memory *)

Record memoryEntry := mkEntry { meCount : Z; meExpiresAt : instant }.

Record MemoryLimiter := mkMemory { mlStore : gmap string memoryEntry; mlConfig : LimiterConfig }.

Definition NewMemoryLimiter (cfg : LimiterConfig) : MemoryLimiter := mkMemory ∅ cfg.

(** The entry a call works on: a missing or expired one is replaced. *)
Definition currentEntry (window : duration) (now : instant) (e : option memoryEntry) : memoryEntry :=
  match e with
  | Some e => if meExpiresAt e <? now then mkEntry 0 (now + window) else e
  | None => mkEntry 0 (now + window)
  end.

Definition memoryAllowN (now later : instant) (key : string) (n : Z) (m : MemoryLimiter)
    : option Result * MemoryLimiter :=
  let cfg := mlConfig m in
  let fullKey := lcPrefix cfg +:+ key in
  let entry := currentEntry (lcWindow cfg) now (mlStore m !! fullKey) in
  let until := meExpiresAt entry - later in
  if lcLimit cfg <? wrap64 (meCount entry + n) then
    (Some (mkResult false (wrap64 (lcLimit cfg - meCount entry)) (lcLimit cfg) until until),
     mkMemory (<[fullKey := entry]> (mlStore m)) cfg)
  else
    let entry := mkEntry (wrap64 (meCount entry + n)) (meExpiresAt entry) in
    (Some (mkResult true (wrap64 (lcLimit cfg - meCount entry)) (lcLimit cfg) 0 until),
     mkMemory (<[fullKey := entry]> (mlStore m)) cfg).

#[export] Instance memory_limiter : Limiter MemoryLimiter := {
  AllowN := memoryAllowN;
  Reset key m := mkMemory (delete (lcPrefix (mlConfig m) +:+ key) (mlStore m)) (mlConfig m);
}.

(** ** No limit *)

#[export] Instance noop_limiter : Limiter unit := {
  AllowN _ _ _ _ s := (Some (mkResult true (-1) (-1) 0 0), s);
  Reset _ s := s;
}.

(** ** Redis

    The commands of the script; a server is a state with, at each instant in
    milliseconds, the value and the expiry of its live keys.  The laws are the
    documented behaviour of the commands. *)

Class RedisServer (R : Type) := {
  live : R -> Z -> string -> option (Z * option Z);
  incrby : Z -> string -> Z -> R -> Z * R;
  pexpire : Z -> string -> Z -> R -> R;
  pttl : Z -> string -> R -> Z;
  delKey : string -> R -> R;
  (** INCRBY adds to the value, a missing key counting as 0; the expiry stays. *)
  incrby_value t key n r : (incrby t key n r).1 = default 0 (fst <$> live r t key) + n;
  incrby_live t key n r :
    live (incrby t key n r).2 t key
    = Some (default 0 (fst <$> live r t key) + n, live r t key ≫= snd);
  (** PEXPIRE of a positive time on an existing key sets its expiry. *)
  pexpire_live t key ms v e r :
    0 < ms -> live r t key = Some (v, e) -> live (pexpire t key ms r) t key = Some (v, Some (t + ms));
  (** PTTL of a key with an expiry. *)
  pttl_live t key v e r : live r t key = Some (v, Some e) -> pttl t key r = e - t;
  (** A key is live until its expiry, and its value does not change by itself. *)
  live_later t t' key v e r :
    t <= t' -> live r t key = Some (v, Some e) ->
    live r t' key = if t' <? e then Some (v, Some e) else None;
}.

Record RedisLimiter (R : Type) := mkRedis { rlServer : R; rlConfig : LimiterConfig }.
Arguments mkRedis {R} _ _.
Arguments rlServer {R} _.
Arguments rlConfig {R} _.

Section redis.
Context {R : Type} `{RedisServer R}.

(** The Lua script, run atomically at [t] (milliseconds). *)
Definition luaScript (t : Z) (key : string) (n windowMs : Z) (r : R) : Z * Z * R :=
  let (current, r1) := incrby t key n r in
  let r2 := if current =? n then pexpire t key windowMs r1 else r1 in
  (current, pttl t key r2, r2).

(** [RedisLimiter.AllowN]: [t] is the time of the server. *)
Definition redisAllowN (t : Z) (key : string) (n : Z) (l : RedisLimiter R) : Result * RedisLimiter R :=
  let cfg := rlConfig l in
  let '(current, ttlMs, r) :=
    luaScript t (lcPrefix cfg +:+ key) n (milliseconds (lcWindow cfg)) (rlServer l) in
  let remaining := Z.max 0 (lcLimit cfg - current) in
  let ttl := wrap64 (ttlMs * millisecond) in
  (mkResult (current <=? lcLimit cfg) remaining (lcLimit cfg) ttl ttl, mkRedis r cfg).

(** As a [Limiter]: the clock of the server is the instant of the call, and a call the
    server does not answer is an error that leaves it as it is. *)
Definition redis_limiter (answers : instant -> bool) : Limiter (RedisLimiter R) := {|
  AllowN now _ key n l :=
    if answers now then
      let (res, l') := redisAllowN (milliseconds now) key n l in (Some res, l')
    else (None, l);
  Reset key l := mkRedis (delKey (lcPrefix (rlConfig l) +:+ key) (rlServer l)) (rlConfig l);
|}.

(** A call of the script on a key that is not live starts a window. *)
Lemma lua_fresh t key n windowMs r :
  0 < windowMs -> live r t key = None ->
  let '(current, ttl, r') := luaScript t key n windowMs r in
  current = n /\ ttl = windowMs /\ live r' t key = Some (n, Some (t + windowMs)).
Proof.
  intros Hms Hn. unfold luaScript. pose proof (incrby_value t key n r) as Hv.
  pose proof (incrby_live t key n r) as Hl. rewrite Hn in Hv, Hl. cbn in Hv, Hl.
  destruct (incrby t key n r) as [c r1]. cbn in Hv, Hl. subst c. rewrite Z.eqb_refl.
  pose proof (pexpire_live t key windowMs _ _ r1 Hms Hl) as Hp.
  split_and!; [done| |done]. rewrite (pttl_live _ _ _ _ _ Hp). lia.
Qed.

(** A call in a window adds to its count. *)
Lemma lua_live t key n windowMs v e r :
  live r t key = Some (v, Some e) -> v <> 0 ->
  let '(current, ttl, r') := luaScript t key n windowMs r in
  current = v + n /\ ttl = e - t /\ live r' t key = Some (v + n, Some e).
Proof.
  intros Hn Hne. unfold luaScript. pose proof (incrby_value t key n r) as Hv.
  pose proof (incrby_live t key n r) as Hl. rewrite Hn in Hv, Hl. cbn in Hv, Hl.
  destruct (incrby t key n r) as [c r1]. cbn in Hv, Hl. subst c.
  destruct (v + n =? n) eqn:E; [lia|].
  split_and!; [done| |done]. by rewrite (pttl_live _ _ _ _ _ Hl).
Qed.
End redis.

(** ** Which limiter ([ProvideRateLimiter]) *)

Definition ProviderRedis : string := "redis".
Definition ProviderMemory : string := "memory".

Inductive AnyLimiter (R : Type) :=
  | LRedis (l : RedisLimiter R) | LMemory (l : MemoryLimiter) | LNoop.
Arguments LRedis {R} _.
Arguments LMemory {R} _.
Arguments LNoop {R}.

Definition ProvideRateLimiter {R} (provider : string) (limit : Z) (window : duration) (rdb : R)
    : AnyLimiter R :=
  let cfg := mkLimiterConfig limit window "whatsapp:gateway:ratelimiter:" in
  if bool_decide (provider = ProviderRedis) then LRedis (mkRedis rdb cfg)
  else if bool_decide (provider = ProviderMemory) then LMemory (NewMemoryLimiter cfg)
  else LNoop.

(** ** The window of the memory limiter *)

(** A call: its time and its weight. *)
Record Call := mkCall { callAt : instant; callN : Z }.

(** Calls with one key, in order; [true] for the admitted ones. *)
Fixpoint memoryCalls (key : string) (calls : list Call) (m : MemoryLimiter) : list bool :=
  match calls with
  | [] => []
  | c :: rest =>
      let (res, m') := memoryAllowN (callAt c) (callAt c) key (callN c) m in
      (match res with Some r => resAllowed r | None => false end) :: memoryCalls key rest m'
  end.

(** The weight admitted between two instants. *)
Fixpoint admitted (from to : instant) (calls : list Call) (answers : list bool) : Z :=
  match calls, answers with
  | c :: calls, b :: answers =>
      (if b && (from <=? callAt c) && (callAt c <=? to) then callN c else 0)
      + admitted from to calls answers
  | _, _ => 0
  end.

Fixpoint timeOrdered (now : instant) (calls : list Call) : Prop :=
  match calls with [] => True | c :: rest => now <= callAt c /\ timeOrdered (callAt c) rest end.

(** Weights are not negative, and no sum overflows. *)
Definition weightsOk (limit : Z) (calls : list Call) : Prop :=
  0 <= limit /\ Forall (fun c => 0 <= callN c /\ limit + callN c < 2 ^ 63) calls.

(** The same calls on the entry alone. *)
Definition entryStep (cfg : LimiterConfig) (c : Call) (e : option memoryEntry) : bool * memoryEntry :=
  let entry := currentEntry (lcWindow cfg) (callAt c) e in
  if lcLimit cfg <? wrap64 (meCount entry + callN c) then (false, entry)
  else (true, mkEntry (wrap64 (meCount entry + callN c)) (meExpiresAt entry)).

Fixpoint entryCalls (cfg : LimiterConfig) (calls : list Call) (e : option memoryEntry) : list bool :=
  match calls with
  | [] => []
  | c :: rest => let (b, e') := entryStep cfg c e in b :: entryCalls cfg rest (Some e')
  end.

Lemma memoryCalls_entry key calls m :
  memoryCalls key calls m
  = entryCalls (mlConfig m) calls (mlStore m !! (lcPrefix (mlConfig m) +:+ key)).
Proof.
  revert m. induction calls as [|c calls IH]; intros m; [done|].
  cbn [memoryCalls entryCalls]. unfold memoryAllowN, entryStep. cbv zeta.
  destruct (lcLimit (mlConfig m) <? _); cbn [resAllowed]; f_equal; rewrite IH; cbn;
    by rewrite lookup_insert_eq.
Qed.

(** The entry is consistent: its count is between 0 and the limit. *)
Definition entryOk (limit : Z) (e : option memoryEntry) : Prop :=
  match e with Some e => 0 <= meCount e <= limit | None => True end.

Definition room (limit : Z) (e : option memoryEntry) : Z :=
  match e with Some e => limit - meCount e | None => limit end.

Lemma entryStep_spec cfg c e :
  0 <= lcLimit cfg -> 0 <= callN c -> lcLimit cfg + callN c < 2 ^ 63 -> entryOk (lcLimit cfg) e ->
  let (b, e') := entryStep cfg c e in
  let entry := currentEntry (lcWindow cfg) (callAt c) e in
  entryOk (lcLimit cfg) (Some e') /\ meExpiresAt e' = meExpiresAt entry
  /\ meCount e' = meCount entry + (if b then callN c else 0).
Proof.
  intros H0 Hn Ho He. unfold entryStep. cbv zeta.
  set (entry := currentEntry _ _ _).
  assert (Hok : 0 <= meCount entry <= lcLimit cfg).
  { unfold entry, currentEntry. destruct e as [e|]; cbn in *; [|lia].
    destruct (meExpiresAt e <? callAt c); cbn; lia. }
  rewrite wrap64_id by lia.
  destruct (lcLimit cfg <? meCount entry + callN c) eqn:E; cbn; split_and!; lia.
Qed.

(** While the entry outlives the interval, what is admitted in it fits in the entry. *)
Lemma admitted_one_window cfg from to calls e now :
  weightsOk (lcLimit cfg) calls -> timeOrdered now calls ->
  entryOk (lcLimit cfg) (Some e) -> to <= meExpiresAt e ->
  admitted from to calls (entryCalls cfg calls (Some e)) <= lcLimit cfg - meCount e.
Proof.
  intros [H0 Hw]. revert e now. induction calls as [|c calls IH]; intros e now Ho He Hto; [cbn in *; lia|].
  apply Forall_cons in Hw as [[Hn Hl] Hw]. destruct Ho as [Hle Ho]. specialize (IH Hw).
  pose proof (entryStep_spec cfg c (Some e) H0 Hn Hl He) as Hs.
  cbn [entryCalls]. destruct (entryStep cfg c (Some e)) as [b e']. destruct Hs as (Hok & Hexp & Hcnt).
  cbn [admitted]. destruct (callAt c <=? to) eqn:Et.
  - assert (Hcur : currentEntry (lcWindow cfg) (callAt c) (Some e) = e).
    { unfold currentEntry. destruct (meExpiresAt e <? callAt c) eqn:E; [lia|done]. }
    rewrite Hcur in *. specialize (IH e' (callAt c) Ho Hok ltac:(lia)).
    destruct b, (from <=? callAt c); cbn [andb]; lia.
  - rewrite andb_false_r. cbn in He.
    assert (Hrest : forall es, admitted from to calls es = 0).
    { clear -Ho Et. assert (Hlt : to < callAt c) by lia. clear Et.
      revert Hlt Ho. generalize (callAt c) as now. induction calls as [|d calls IH]; intros now Hlt Ho [|b es];
        cbn [admitted]; try done. destruct Ho as [Hle Ho].
      destruct (callAt d <=? to) eqn:E; [lia|]. rewrite andb_false_r.
      by rewrite (IH (callAt d) ltac:(lia) Ho es). }
    rewrite Hrest. lia.
Qed.

(** Once inside an interval no longer than the window, at most one more entry can be
    created before its end. *)
Lemma admitted_from_inside cfg from to calls e now :
  weightsOk (lcLimit cfg) calls -> from <= now -> timeOrdered now calls ->
  entryOk (lcLimit cfg) e -> to <= from + lcWindow cfg ->
  admitted from to calls (entryCalls cfg calls e) <= room (lcLimit cfg) e + lcLimit cfg.
Proof.
  intros [H0 Hw] Hin Ho He Hto. revert e now Hin Ho He.
  induction calls as [|c calls IH]; intros e now Hin Ho He; [cbn; destruct e; cbn in *; lia|].
  apply Forall_cons in Hw as [[Hn Hl] Hw]. destruct Ho as [Hle Ho]. specialize (IH Hw).
  pose proof (entryStep_spec cfg c e H0 Hn Hl He) as Hs.
  cbn [entryCalls]. destruct (entryStep cfg c e) as [b e']. destruct Hs as (Hok & Hexp & Hcnt).
  cbn [admitted]. destruct (decide (meExpiresAt e' < to)) as [Hlt|Hge].
  - assert (Hcur : exists e0, e = Some e0 /\ currentEntry (lcWindow cfg) (callAt c) e = e0).
    { destruct e as [e0|]; [|cbn in Hexp; lia]. exists e0. split; [done|].
      unfold currentEntry in *. destruct (meExpiresAt e0 <? callAt c); [cbn in Hexp; lia|done]. }
    destruct Hcur as (e0 & -> & Hcur). rewrite Hcur in *.
    specialize (IH (Some e') (callAt c) ltac:(lia) Ho Hok). cbn [room] in *.
    destruct b, (from <=? callAt c), (callAt c <=? to); cbn [andb]; lia.
  - pose proof (admitted_one_window cfg from to calls e' (callAt c) (conj H0 Hw) Ho Hok ltac:(lia)).
    assert (Hroom : 0 <= room (lcLimit cfg) e /\ 0 <= meCount (currentEntry (lcWindow cfg) (callAt c) e)).
    { destruct e as [e0|]; cbn in *; [|lia]. destruct (_ <? _); cbn; lia. }
    destruct b, (from <=? callAt c), (callAt c <=? to); cbn [andb]; lia.
Qed.

Lemma admitted_two_windows cfg from to calls e now :
  weightsOk (lcLimit cfg) calls -> timeOrdered now calls ->
  entryOk (lcLimit cfg) e -> to <= from + lcWindow cfg ->
  admitted from to calls (entryCalls cfg calls e) <= 2 * lcLimit cfg.
Proof.
  intros Hw Ho He Hto. revert e now Ho He.
  induction calls as [|c calls IH]; intros e now Ho He; [cbn; destruct Hw; lia|].
  destruct (decide (from <= callAt c)) as [Hin|Hout].
  - pose proof (admitted_from_inside cfg from to (c :: calls) e (callAt c) Hw Hin) as Ha.
    destruct Ho as [_ Ho]. specialize (Ha (conj (Z.le_refl _) Ho) He Hto).
    destruct e; cbn [room entryOk] in *; lia.
  - pose proof Hw as [H0 [[Hn Hl] Hw']%Forall_cons]. destruct Ho as [_ Ho].
    pose proof (entryStep_spec cfg c e H0 Hn Hl He) as Hs.
    cbn [entryCalls]. destruct (entryStep cfg c e) as [b e']. destruct Hs as (Hok & _ & _).
    cbn [admitted]. destruct (from <=? callAt c) eqn:E; [lia|]. rewrite andb_false_r. cbn [andb].
    apply (IH (conj H0 Hw') (Some e') (callAt c) Ho Hok).
Qed.

(** C11: the memory limiter bounds traffic.  For calls with one key, in the order of time
    and with weights that do not overflow, from any consistent state of the entry:
    what is admitted in any interval no longer than the window is at most twice the
    limit (an interval can straddle two windows), and what is admitted until the
    expiry of an entry is at most what the entry has left. *)
Theorem memory_limiter_bounds (m : MemoryLimiter) (key : string) (calls : list Call)
    (now from to : instant) :
  let cfg := mlConfig m in
  let entry := mlStore m !! (lcPrefix cfg +:+ key) in
  weightsOk (lcLimit cfg) calls -> timeOrdered now calls -> entryOk (lcLimit cfg) entry ->
  (to <= from + lcWindow cfg ->
     admitted from to calls (memoryCalls key calls m) <= 2 * lcLimit cfg)
  /\ (forall e, entry = Some e -> to <= meExpiresAt e ->
     admitted from to calls (memoryCalls key calls m) <= lcLimit cfg - meCount e).
Proof.
  cbv zeta. intros Hw Ho He. rewrite memoryCalls_entry. split.
  - intros Hto. by apply (admitted_two_windows _ _ _ _ _ now).
  - intros e Heq Hto. rewrite Heq in *. by apply (admitted_one_window _ _ _ _ _ now).
Qed.

Lemma memory_limiter_bounds_witness :
  let m := NewMemoryLimiter (mkLimiterConfig 2 100 "p:") in
  let calls := [mkCall 1 1; mkCall 99 1; mkCall 100 1; mkCall 102 1; mkCall 103 2] in
  let entry := mlStore m !! ("p:" +:+ "k")%string in
  (103 <= 3 + 100 -> admitted 3 103 calls (memoryCalls "k" calls m) <= 2 * 2)
  /\ (forall e, entry = Some e -> 103 <= meExpiresAt e ->
     admitted 3 103 calls (memoryCalls "k" calls m) <= 2 - meCount e).
Proof.
  apply (memory_limiter_bounds (NewMemoryLimiter (mkLimiterConfig 2 100 "p:")) "k"
    [mkCall 1 1; mkCall 99 1; mkCall 100 1; mkCall 102 1; mkCall 103 2] 0 3 103);
    [split; [cbn; lia|repeat constructor; cbn; lia]|cbn; lia|exact I].
Defined.

(** ** The two limiters side by side *)

Section agree.
Context {R : Type} `{RedisServer R}.

(** Calls of one unit with one key; the answers of the Redis limiter. *)
Fixpoint redisCalls (key : string) (times : list instant) (l : RedisLimiter R) : list bool :=
  match times with
  | [] => []
  | t :: rest =>
      let (res, l') := redisAllowN (milliseconds t) key 1 l in
      resAllowed res :: redisCalls key rest l'
  end.

Fixpoint inOrder (now : instant) (times : list instant) : Prop :=
  match times with [] => True | t :: rest => now <= t /\ inOrder t rest end.

(** The first [k] of [n] answers are positive. *)
Definition firstAdmitted (k : Z) (n : nat) : list bool :=
  map (fun i => Z.of_nat i <? k) (seq 0 n).

Lemma milliseconds_mono a b : 0 <= a -> a <= b -> milliseconds a <= milliseconds b.
Proof using.
  intros Ha Hab. unfold milliseconds. rewrite !Z.quot_div_nonneg by (unfold millisecond; lia).
  apply Z.div_le_mono; [unfold millisecond; lia|done].
Qed.

Lemma redisCalls_window cfg key t0 times now v r :
  0 <= now -> 0 < v -> inOrder now times ->
  Forall (fun t => milliseconds t < t0 + milliseconds (lcWindow cfg)) times ->
  live r (milliseconds now) (lcPrefix cfg +:+ key) = Some (v, Some (t0 + milliseconds (lcWindow cfg))) ->
  redisCalls key times (mkRedis r cfg)
  = map (fun i => v + Z.of_nat i <? lcLimit cfg) (seq 0 (length times)).
Proof using.
  intros Hnow Hv Ho Hw Hl. revert now v r Hnow Hv Ho Hl.
  induction times as [|t times IH]; intros now v r Hnow Hv Ho Hl; [done|].
  apply Forall_cons in Hw as [Ht Hw]. destruct Ho as [Hle Ho].
  pose proof (live_later _ (milliseconds t) _ _ _ _ (milliseconds_mono now t Hnow Hle) Hl) as Hl'.
  destruct (milliseconds t <? t0 + milliseconds (lcWindow cfg)) eqn:E; [|lia].
  pose proof (lua_live (milliseconds t) _ 1 (milliseconds (lcWindow cfg)) _ _ _ Hl' ltac:(lia)) as Hlua.
  cbn [redisCalls]. unfold redisAllowN. cbn [rlConfig rlServer].
  destruct (luaScript _ _ _ _ _) as [[c ttl] r']. destruct Hlua as (-> & _ & Hl2).
  cbn [resAllowed length seq map]. f_equal; [lia|].
  rewrite (IH Hw t (v + 1) r'); [|lia|lia|done|done].
  rewrite <- seq_shift, map_map. apply map_ext. intros i. lia.
Qed.

Lemma memoryCalls_window cfg key t0 times now v m :
  mlConfig m = cfg -> 0 <= v <= lcLimit cfg -> lcLimit cfg + 1 < 2 ^ 63 -> inOrder now times ->
  Forall (fun t => t <= t0 + lcWindow cfg) times ->
  mlStore m !! (lcPrefix cfg +:+ key) = Some (mkEntry v (t0 + lcWindow cfg)) ->
  memoryCalls key (map (fun t => mkCall t 1) times) m
  = map (fun i => v + Z.of_nat i <? lcLimit cfg) (seq 0 (length times)).
Proof using.
  intros Hc Hv Hlim Ho Hw Hl. rewrite memoryCalls_entry, Hc, Hl. clear m Hc Hl.
  revert now v Hv Ho. induction times as [|t times IH]; intros now v Hv Ho; [done|].
  apply Forall_cons in Hw as [Ht Hw]. destruct Ho as [Hle Ho].
  cbn [map entryCalls]. unfold entryStep, currentEntry. cbn [callAt callN meExpiresAt].
  destruct (t0 + lcWindow cfg <? t) eqn:E; [lia|]. cbn [meCount meExpiresAt].
  rewrite wrap64_id by lia. cbn [length seq map].
  destruct (lcLimit cfg <? v + 1) eqn:E2.
  - f_equal; [lia|]. rewrite (IH Hw t v Hv Ho), <- seq_shift, map_map. apply map_ext.
    intros i. lia.
  - f_equal; [lia|]. rewrite (IH Hw t (v + 1) ltac:(lia) Ho), <- seq_shift, map_map. apply map_ext.
    intros i. lia.
Qed.
End agree.

(** The two limiters agree on single sends.  Against a Redis server whose commands
    behave as documented, for calls of weight one with a key that neither limiter
    has yet, made within less than one window (a whole number of milliseconds) of the
    first: both admit exactly the first [limit] calls. *)
Theorem limiters_agree {R : Type} `{RedisServer R} (cfg : LimiterConfig) (key : string)
    (r : R) (t0 : instant) (times : list instant) :
  0 < lcLimit cfg -> lcLimit cfg + 1 < 2 ^ 63 -> 0 <= t0 -> inOrder t0 times ->
  lcWindow cfg = milliseconds (lcWindow cfg) * millisecond ->
  Forall (fun t => milliseconds t < milliseconds t0 + milliseconds (lcWindow cfg)) (t0 :: times) ->
  live r (milliseconds t0) (lcPrefix cfg +:+ key) = None ->
  let n := length (t0 :: times) in
  redisCalls key (t0 :: times) (mkRedis r cfg) = firstAdmitted (lcLimit cfg) n
  /\ memoryCalls key (map (fun t => mkCall t 1) (t0 :: times)) (NewMemoryLimiter cfg)
     = firstAdmitted (lcLimit cfg) n.
Proof.
  intros Hlim Hov Ht0 Ho Hwin Hw Hl. cbv zeta. unfold firstAdmitted.
  assert (Hms : 0 < milliseconds (lcWindow cfg)) by (apply Forall_cons in Hw as [Hw0 _]; lia).
  split.
  - cbn [redisCalls]. unfold redisAllowN. cbn [rlConfig rlServer].
    pose proof (lua_fresh (milliseconds t0) _ 1 (milliseconds (lcWindow cfg)) _ Hms Hl) as Hlua.
    destruct (luaScript _ _ _ _ _) as [[c ttl] r']. destruct Hlua as (-> & _ & Hl2).
    cbn [resAllowed length seq map]. f_equal; [lia|]. apply Forall_cons in Hw as [_ Hw].
    rewrite (redisCalls_window cfg key (milliseconds t0) times t0 1 r'); [|done..].
    rewrite <- seq_shift, map_map. apply map_ext. intros i. lia.
  - cbn [map]. apply Forall_cons in Hw as [Hw0 Hw].
    change (mkCall t0 1 :: map (fun t => mkCall t 1) times) with (map (fun t => mkCall t 1) (t0 :: times)).
    rewrite memoryCalls_entry. cbn [mlConfig NewMemoryLimiter mlStore]. rewrite lookup_empty.
    cbn [map entryCalls]. unfold entryStep, currentEntry. cbn [callAt callN meCount meExpiresAt].
    rewrite wrap64_id by lia. destruct (lcLimit cfg <? 0 + 1) eqn:E; [lia|].
    cbn [length seq map meCount meExpiresAt]. change (0 + 1) with 1. f_equal; [lia|].
    pose proof (memoryCalls_window cfg key t0 times t0 1
      (mkMemory {[ lcPrefix cfg +:+ key := mkEntry 1 (t0 + lcWindow cfg) ]} cfg)) as Hm.
    rewrite memoryCalls_entry in Hm. cbn [mlConfig mlStore] in Hm. rewrite lookup_singleton_eq in Hm.
    rewrite Hm; [|done|lia|lia|done| |done].
    + rewrite <- seq_shift, map_map. apply map_ext. intros i. lia.
    + eapply Forall_impl; [exact Hw|]. cbn. intros t Ht.
      assert (0 <= t \/ t < 0) as [Hp|Hp] by lia; [|unfold millisecond in *; lia].
      pose proof (milliseconds_floor t Hp). pose proof (milliseconds_floor t0 Ht0).
      unfold millisecond in *. nia.
Qed.

(** A server for the witness: a map from keys to values and expiries. *)
Definition mapLive (r : gmap string (Z * option Z)) (t : Z) (key : string) : option (Z * option Z) :=
  match r !! key with
  | Some (v, Some e) => if t <? e then Some (v, Some e) else None
  | o => o
  end.

Definition mapIncrby (t : Z) (key : string) (n : Z) (r : gmap string (Z * option Z)) :=
  let v := default 0 (fst <$> mapLive r t key) + n in
  (v, <[key := (v, mapLive r t key ≫= snd)]> r).

Definition mapPexpire (t : Z) (key : string) (ms : Z) (r : gmap string (Z * option Z)) :=
  match mapLive r t key with Some (v, _) => <[key := (v, Some (t + ms))]> r | None => r end.

Definition mapPttl (t : Z) (key : string) (r : gmap string (Z * option Z)) : Z :=
  match mapLive r t key with Some (_, Some e) => e - t | Some _ => -1 | None => -2 end.

#[export] Instance map_redis : RedisServer (gmap string (Z * option Z)).
Proof.
  refine {| live := mapLive; incrby := mapIncrby; pexpire := mapPexpire; pttl := mapPttl;
            delKey key r := delete key r |}.
  - done.
  - intros t key n r. unfold mapIncrby. cbn [snd]. unfold mapLive at 1. rewrite lookup_insert_eq.
    unfold mapLive. destruct (r !! key) as [[v [e|]]|]; cbn; try done.
    destruct (t <? e) eqn:Et; cbn; by rewrite ?Et.
  - intros t key ms v e r Hms H. unfold mapPexpire. rewrite H. unfold mapLive.
    rewrite lookup_insert_eq. destruct (t <? t + ms) eqn:E; [done|lia].
  - intros t key v e r H. unfold mapPttl. by rewrite H.
  - intros t t' key v e r Hle. unfold mapLive. destruct (r !! key) as [[v0 [e0|]]|]; try done.
    destruct (t <? e0); [|done]. by intros [= <- <-].
Defined.

Lemma limiters_agree_witness :
  let cfg := mkLimiterConfig 2 (5 * millisecond) "p:" in
  let times := [7; 8; millisecond; 3 * millisecond] in
  redisCalls "k" times (mkRedis (∅ : gmap string (Z * option Z)) cfg) = firstAdmitted 2 4
  /\ memoryCalls "k" (map (fun t => mkCall t 1) times) (NewMemoryLimiter cfg) = firstAdmitted 2 4.
Proof.
  apply (limiters_agree (mkLimiterConfig 2 (5 * millisecond) "p:") "k"
    (∅ : gmap string (Z * option Z)) 7 [8; millisecond; 3 * millisecond]);
    [cbn; lia|cbn; lia|lia|cbn; unfold millisecond; lia|reflexivity|repeat constructor|reflexivity].
Defined.

(** Beyond single sends they differ: Redis counts a refused call, the memory limiter
    does not. *)
Example refused_calls_differ :
  let cfg := mkLimiterConfig 5 (5 * millisecond) "p:" in
  let '(r1, l1) := redisAllowN 0 "k" 3 (mkRedis (∅ : gmap string (Z * option Z)) cfg) in
  let '(r2, l2) := redisAllowN 0 "k" 3 l1 in
  let '(r3, _) := redisAllowN 0 "k" 2 l2 in
  (resAllowed r1, resAllowed r2, resAllowed r3) = (true, false, false)
  /\ memoryCalls "k" [mkCall 0 3; mkCall 0 3; mkCall 0 2] (NewMemoryLimiter cfg) = [true; false; true].
Proof. vm_compute. done. Qed.
