(* ===== verification/TokenBucket.v ===== *)
(** * The token bucket ([pkg/ratelimiter/tokenbucket.go])

    The operations are written over an interface of [float64] arithmetic, with the
    machine's doubles as the instance that is the program and exact rationals as the
    one the throughput bound is proved for: the bound holds up to the rounding of
    the doubles. *)

From Stdlib Require Import ZArith QArith Lqa Floats String.
From stdpp Require Import strings numbers gmap list.
From S2P Require Import Prelude GoLang Float64 RateLimiter.
#[local] Set Default Proof Using "Type".
#[local] Open Scope Z_scope.

(** What the bucket needs of [float64]. *)
Class Arith (F : Type) := {
  fofZ : Z -> F;
  fadd : F -> F -> F;
  fsub : F -> F -> F;
  fmul : F -> F -> F;
  fdiv : F -> F -> F;
  fmin : F -> F -> F;
  fleb : F -> F -> bool;
  fltb : F -> F -> bool;
  ftrunc : F -> Z;
}.

(** ** Doubles *)

Definition floatOfZ (z : Z) : number :=
  match z with
  | Z0 => PrimFloat.zero
  | Zpos _ => PrimFloat.of_uint63 (Uint63.of_Z z)
  | Zneg p => PrimFloat.opp (PrimFloat.of_uint63 (Uint63.of_Z (Zpos p)))
  end.

(** Truncation towards zero; what Go does beyond [int64] is left to the machine. *)
Definition floatTrunc (x : number) : Z :=
  match Prim2SF x with
  | S754_finite s m e =>
      let n := if e <? 0 then Z.shiftr (Zpos m) (- e) else Z.shiftl (Zpos m) e in
      if s then - n else n
  | _ => 0
  end.

#[export] Instance float_arith : Arith number := {
  fofZ := floatOfZ;
  fadd := PrimFloat.add;
  fsub := PrimFloat.sub;
  fmul := PrimFloat.mul;
  fdiv := PrimFloat.div;
  fmin := mathMin;
  fleb := PrimFloat.leb;
  fltb := PrimFloat.ltb;
  ftrunc := floatTrunc;
}.

(** ** Rationals *)

Definition qtrunc (q : Q) : Z := Z.quot (Qnum q) (Zpos (Qden q)).

#[export] Instance rational_arith : Arith Q := {
  fofZ := inject_Z;
  fadd := Qplus;
  fsub := Qminus;
  fmul := Qmult;
  fdiv := Qdiv;
  fmin a b := if Qle_bool a b then a else b;
  fleb := Qle_bool;
  fltb a b := negb (Qle_bool b a);
  ftrunc := qtrunc;
}.

(** ** The bucket *)

Section bucket.
Context {F : Type} `{Arith F}.

Record TokenBucketConfig := mkTokenBucketConfig { tcRate : F; tcBurst : F; tcPrefix : string }.

Record tbEntry := mkTbEntry { tbTokens : F; tbLast : instant }.

Record TokenBucketLimiter := mkTokenBucket {
  tbBuckets : gmap string tbEntry;
  tbRate : F;
  tbBurst : F;
  tbPrefix : string;
}.

Definition NewTokenBucketLimiter (cfg : TokenBucketConfig) : TokenBucketLimiter :=
  let rate := if fleb (tcRate cfg) (fofZ 0) then fofZ 1 else tcRate cfg in
  let burst := if fltb (tcBurst cfg) (fofZ 1) then fofZ 1 else tcBurst cfg in
  mkTokenBucket ∅ rate burst (tcPrefix cfg).

(** [Duration.Seconds()]. *)
Definition secondsOf (d : duration) : F :=
  fadd (fofZ (Z.quot d second)) (fdiv (fofZ (Z.rem d second)) (fofZ second)).

(** The bucket of a key, refilled for the time elapsed. *)
Definition refill (now : instant) (t : TokenBucketLimiter) (e : option tbEntry) : tbEntry :=
  match e with
  | None => mkTbEntry (tbBurst t) now
  | Some e =>
      let elapsed := secondsOf (now - tbLast e) in
      if fltb (fofZ 0) elapsed
      then mkTbEntry (fmin (tbBurst t) (fadd (tbTokens e) (fmul elapsed (tbRate t)))) now
      else e
  end.

(** [AllowN]. *)
Definition bucketAllowN (now : instant) (key : string) (n : Z) (t : TokenBucketLimiter)
    : Result * TokenBucketLimiter :=
  let n := if n <=? 0 then 1 else n in
  let need := fofZ n in
  let fullKey := tbPrefix t +:+ key in
  let e := refill now t (tbBuckets t !! fullKey) in
  let put e := mkTokenBucket (<[fullKey := e]> (tbBuckets t)) (tbRate t) (tbBurst t) (tbPrefix t) in
  if fleb need (tbTokens e) then
    let e := mkTbEntry (fsub (tbTokens e) need) (tbLast e) in
    (mkResult true (ftrunc (tbTokens e)) (ftrunc (tbBurst t)) 0 0, put e)
  else
    let deficit := fsub need (tbTokens e) in
    let retryAfter := ftrunc (fmul (fdiv deficit (tbRate t)) (fofZ second)) in
    (mkResult false (ftrunc (tbTokens e)) (ftrunc (tbBurst t)) retryAfter retryAfter, put e).

Definition bucketReset (key : string) (t : TokenBucketLimiter) : TokenBucketLimiter :=
  mkTokenBucket (delete (tbPrefix t +:+ key) (tbBuckets t)) (tbRate t) (tbBurst t) (tbPrefix t).

#[export] Instance token_bucket_limiter : Limiter TokenBucketLimiter := {
  AllowN now _ key n t := let (res, t') := bucketAllowN now key n t in (Some res, t');
  Reset := bucketReset;
}.

(** Calls with one key, in order, and the answers. *)
Fixpoint bucketCalls (key : string) (calls : list Call) (t : TokenBucketLimiter) : list Result :=
  match calls with
  | [] => []
  | c :: rest =>
      let (res, t') := bucketAllowN (callAt c) key (callN c) t in res :: bucketCalls key rest t'
  end.
End bucket.

Arguments TokenBucketLimiter F : clear implicits.
Arguments TokenBucketConfig F : clear implicits.
Arguments tbEntry F : clear implicits.

(** The tests of the source, on doubles: a burst of five, a refusal that asks to wait one
    second, three tokens back after three seconds. *)
Example bucket_burst_then_refill :
  let t := NewTokenBucketLimiter (mkTokenBucketConfig (F := number) 1%float 5%float "t:") in
  let at_ s := mkCall (s * second) 1 in
  map (fun r => (resAllowed r, resRetryAfter r))
    (bucketCalls "acc" [at_ 0; at_ 0; at_ 0; at_ 0; at_ 0; at_ 0; at_ 3; at_ 3; at_ 3; at_ 3] t)
  = [(true, 0); (true, 0); (true, 0); (true, 0); (true, 0); (false, second);
     (true, 0); (true, 0); (true, 0); (false, second)].
Proof. vm_compute. done. Qed.

(** ** Throughput, in exact arithmetic *)

(** The weight of a call, and what a run admitted. *)
Definition weight (c : Call) : Z := if callN c <=? 0 then 1 else callN c.

Fixpoint granted (calls : list Call) (answers : list Result) : Z :=
  match calls, answers with
  | c :: calls, r :: answers => (if resAllowed r then weight c else 0) + granted calls answers
  | _, _ => 0
  end.

Fixpoint lastTime (now : instant) (calls : list Call) : instant :=
  match calls with [] => now | c :: rest => lastTime (callAt c) rest end.

Lemma seconds_exact d : (secondsOf (F := Q) d == inject_Z d / inject_Z second)%Q.
Proof.
  unfold secondsOf. cbn [fadd fdiv fofZ rational_arith].
  pose proof (Z.quot_rem' d second) as Hd. rewrite Hd at 3.
  rewrite inject_Z_plus, inject_Z_mult. field. done.
Qed.

(** The bucket of a key holds between nothing and the burst, and was refilled in the past. *)
Definition bucketOk (t : TokenBucketLimiter Q) (now : instant) (e : option (tbEntry Q)) : Prop :=
  match e with
  | Some e => (0 <= tbTokens e <= tbBurst t)%Q /\ tbLast e <= now
  | None => True
  end.

Definition tokensAt (t : TokenBucketLimiter Q) (e : option (tbEntry Q)) : Q :=
  match e with Some e => tbTokens e | None => tbBurst t end.

Definition lastRefill (now : instant) (e : option (tbEntry Q)) : instant :=
  match e with Some e => tbLast e | None => now end.

Lemma refill_spec t now e :
  (0 < tbRate t)%Q -> (1 <= tbBurst t)%Q -> bucketOk t now e ->
  let e' := refill now t e in
  (0 <= tbTokens e' <= tbBurst t)%Q /\ tbLast e' = now
  /\ (tbTokens e' <= tokensAt t e + tbRate t * (inject_Z (now - lastRefill now e) / inject_Z second))%Q.
Proof.
  intros Hr Hb He. cbv zeta. unfold refill. destruct e as [e|]; cbn [bucketOk tokensAt lastRefill] in *.
  - destruct He as [[H0 H1] Hl].
    assert (Hs : (secondsOf (F := Q) (now - tbLast e) == inject_Z (now - tbLast e) / inject_Z second)%Q)
      by apply seconds_exact.
    assert (Hpos : (0 <= inject_Z (now - tbLast e))%Q) by (change 0%Q with (inject_Z 0); rewrite <- Zle_Qle; lia).
    assert (Hdiv : (0 <= inject_Z (now - tbLast e) / inject_Z second)%Q).
    { apply Qle_shift_div_l; [done|]. lra. }
    cbn [fltb fofZ rational_arith].
    destruct (Qle_bool (secondsOf (now - tbLast e)) (inject_Z 0)) eqn:E; cbn [negb].
    + apply Qle_bool_iff in E. rewrite Hs in E. change (inject_Z 0) with 0%Q in E.
      assert (Hz : now = tbLast e).
      { assert (inject_Z (now - tbLast e) <= 0)%Q as Hz.
        { assert (Hx : (inject_Z (now - tbLast e)
                         == (inject_Z (now - tbLast e) / inject_Z second) * (1000000000 # 1))%Q)
            by (change (inject_Z second) with (1000000000 # 1)%Q; field).
          revert Hx E. generalize (inject_Z (now - tbLast e) / inject_Z second)%Q. intros x Hx E. lra. }
        change 0%Q with (inject_Z 0) in Hz. rewrite <- Zle_Qle in Hz. lia. }
      split_and!; [done|done|done|].
      assert (0 <= tbRate t * (inject_Z (now - tbLast e) / inject_Z second))%Q by
        (apply Qmult_le_0_compat; lra). lra.
    + cbn [tbTokens tbLast fmin fadd fmul rational_arith].
      assert (Hadd : (0 <= tbRate t * (inject_Z (now - tbLast e) / inject_Z second))%Q)
        by (apply Qmult_le_0_compat; lra).
      assert (Heq : (tbTokens e + secondsOf (now - tbLast e) * tbRate t
                     == tbTokens e + tbRate t * (inject_Z (now - tbLast e) / inject_Z second))%Q)
        by (rewrite Hs; ring).
      match goal with |- context [Qle_bool (tbBurst t) ?x] => destruct (Qle_bool (tbBurst t) x) eqn:E2 end.
      * apply Qle_bool_iff in E2. rewrite Heq in E2. split_and!; [lra|lra|done|lra].
      * assert (~ (tbBurst t <= tbTokens e + secondsOf (now - tbLast e) * tbRate t)%Q) as Hn.
        { intros Hle%Qle_bool_iff. congruence. }
        split_and!; [lra|lra|done|lra].
  - cbn [tbTokens tbLast]. rewrite Z.sub_diag. change (inject_Z 0) with 0%Q.
    split_and!; [lra|lra|done|].
    assert (0 / inject_Z second == 0)%Q as -> by (field; done). lra.
Qed.

(** Tokens per second over a time in nanoseconds. *)
Definition accrued (rate : Q) (d : duration) : Q := rate * (inject_Z d / inject_Z second).

Lemma accrued_add rate a b : (accrued rate (a + b) == accrued rate a + accrued rate b)%Q.
Proof. unfold accrued. rewrite inject_Z_plus. field. done. Qed.

Lemma accrued_nonneg rate d : (0 <= rate)%Q -> 0 <= d -> (0 <= accrued rate d)%Q.
Proof.
  intros Hr Hd. unfold accrued. apply Qmult_le_0_compat; [done|].
  apply Qle_shift_div_l; [done|]. setoid_rewrite Qmult_0_l.
  change 0%Q with (inject_Z 0). rewrite <- Zle_Qle. lia.
Qed.

Definition entryOf {F} (t : TokenBucketLimiter F) (key : string) : option (tbEntry F) :=
  tbBuckets t !! (tbPrefix t +:+ key).

Lemma entryOf_put {F} (t : TokenBucketLimiter F) key e :
  entryOf (mkTokenBucket (<[tbPrefix t +:+ key := e]> (tbBuckets t)) (tbRate t) (tbBurst t) (tbPrefix t)) key
  = Some e.
Proof. unfold entryOf. cbn [tbBuckets tbPrefix]. by rewrite lookup_insert_eq. Qed.

(** One call: the bucket stays consistent, and what it grants comes out of what it held
    or accrued. *)
Lemma bucket_call_spec (t : TokenBucketLimiter Q) key now now0 n :
  (0 < tbRate t)%Q -> (1 <= tbBurst t)%Q -> now0 <= now -> bucketOk t now0 (entryOf t key) ->
  let (res, t') := bucketAllowN now key n t in
  let w := if n <=? 0 then 1 else n in
  tbRate t' = tbRate t /\ tbBurst t' = tbBurst t /\ tbPrefix t' = tbPrefix t
  /\ bucketOk t' now (entryOf t' key) /\ lastRefill now (entryOf t' key) = now
  /\ (tokensAt t' (entryOf t' key) + (if resAllowed res then inject_Z w else 0)
      == tbTokens (refill now t (entryOf t key)))%Q
  /\ (tbTokens (refill now t (entryOf t key))
      <= tokensAt t (entryOf t key) + accrued (tbRate t) (now - lastRefill now0 (entryOf t key)))%Q.
Proof.
  intros Hr Hb Hle He. unfold bucketAllowN. cbv zeta. fold (entryOf t key).
  assert (He' : bucketOk t now (entryOf t key)).
  { destruct (entryOf t key); [|done]. destruct He. split; [done|lia]. }
  destruct (refill_spec t now (entryOf t key) Hr Hb He') as (H1 & H2 & H3).
  set (e := refill now t (entryOf t key)) in *.
  assert (Hlast : (tbTokens e <= tokensAt t (entryOf t key)
                   + accrued (tbRate t) (now - lastRefill now0 (entryOf t key)))%Q).
  { eapply Qle_trans; [exact H3|]. apply Qplus_le_r.
    destruct (entryOf t key) as [e0|]; cbn [lastRefill]; [apply Qle_refl|].
    rewrite Z.sub_diag. change (tbRate t * (inject_Z 0 / inject_Z second))%Q with (accrued (tbRate t) 0).
    assert (accrued (tbRate t) 0 == 0)%Q as -> by (unfold accrued; field; done).
    apply accrued_nonneg; [lra|lia]. }
  set (w := if n <=? 0 then 1 else n).
  assert (Hw : 1 <= w) by (unfold w; destruct (n <=? 0) eqn:E; lia).
  assert (Hw' : (1 <= inject_Z w)%Q) by (change 1%Q with (inject_Z 1); by rewrite <- Zle_Qle).
  cbn [fleb fofZ fsub rational_arith].
  destruct (Qle_bool (inject_Z w) (tbTokens e)) eqn:E; rewrite !entryOf_put;
    cbn [tbRate tbBurst tbPrefix resAllowed bucketOk tokensAt lastRefill tbTokens tbLast].
  - apply Qle_bool_iff in E. split_and!; try done; try lra; lia.
  - split_and!; try done; try lra; lia.
Qed.

Lemma granted_bound key calls (t : TokenBucketLimiter Q) now :
  (0 < tbRate t)%Q -> (1 <= tbBurst t)%Q -> timeOrdered now calls -> bucketOk t now (entryOf t key) ->
  (inject_Z (granted calls (bucketCalls key calls t))
   <= tokensAt t (entryOf t key)
      + accrued (tbRate t) (lastTime now calls - lastRefill now (entryOf t key)))%Q.
Proof.
  revert t now. induction calls as [|c calls IH]; intros t now Hr Hb Ho He.
  - cbn [granted bucketCalls lastTime]. change (inject_Z 0) with 0%Q.
    assert (0 <= accrued (tbRate t) (now - lastRefill now (entryOf t key)))%Q.
    { apply accrued_nonneg; [lra|]. destruct (entryOf t key); cbn in *; lia. }
    assert (0 <= tokensAt t (entryOf t key))%Q by (destruct (entryOf t key); cbn in *; lra).
    lra.
  - destruct Ho as [Hle Ho].
    pose proof (bucket_call_spec t key (callAt c) now (callN c) Hr Hb Hle He) as Hs.
    cbn [bucketCalls lastTime]. destruct (bucketAllowN (callAt c) key (callN c) t) as [res t'].
    destruct Hs as (Hrt & Hbt & _ & Hok & Hlast & Hsum & Hle2).
    cbn [granted]. rewrite inject_Z_plus.
    specialize (IH t' (callAt c) ltac:(by rewrite Hrt) ltac:(by rewrite Hbt) Ho Hok).
    rewrite Hlast, Hrt in IH. fold (weight c) in Hsum.
    pose proof (accrued_add (tbRate t) (lastTime (callAt c) calls - callAt c)
                  (callAt c - lastRefill now (entryOf t key))) as Hacc.
    replace (lastTime (callAt c) calls - callAt c + (callAt c - lastRefill now (entryOf t key)))
      with (lastTime (callAt c) calls - lastRefill now (entryOf t key)) in Hacc by lia.
    rewrite Hacc. clear Hacc.
    destruct (resAllowed res); change (inject_Z 0) with 0%Q in *; lra.
Qed.

(** The first instant from which a refused call is granted. *)
Lemma qtrunc_bound q : (0 <= q)%Q -> (q < inject_Z (qtrunc q + 1))%Q.
Proof.
  intros Hq. unfold qtrunc. destruct q as [n d]. unfold Qle in Hq. cbn [Qnum Qden] in *.
  rewrite Z.quot_div_nonneg by lia. unfold Qlt. cbn [Qnum Qden inject_Z].
  pose proof (Z.div_mod n (Zpos d) ltac:(lia)). pose proof (Z.mod_pos_bound n (Zpos d) ltac:(lia)). nia.
Qed.

(** A refused call leaves the refilled bucket, and asks to wait for the missing tokens. *)
Lemma refused_call (t : TokenBucketLimiter Q) key now n :
  1 <= n -> resAllowed (bucketAllowN now key n t).1 = false ->
  let e := refill now t (entryOf t key) in
  (tbTokens e < inject_Z n)%Q
  /\ bucketAllowN now key n t
     = (mkResult false (qtrunc (tbTokens e)) (qtrunc (tbBurst t))
          (qtrunc ((inject_Z n - tbTokens e) / tbRate t * inject_Z second))
          (qtrunc ((inject_Z n - tbTokens e) / tbRate t * inject_Z second)),
        mkTokenBucket (<[tbPrefix t +:+ key := e]> (tbBuckets t)) (tbRate t) (tbBurst t) (tbPrefix t)).
Proof.
  intros Hn. unfold bucketAllowN. cbv zeta. fold (entryOf t key).
  destruct (n <=? 0) eqn:E0; [lia|]. cbn [fleb fofZ rational_arith].
  destruct (Qle_bool (inject_Z n) (tbTokens _)) eqn:E; intros Hd; [done|]. split; [|done].
  apply Qnot_le_lt. intros Hle%Qle_bool_iff. congruence.
Qed.

(** A call is granted when the bucket would hold enough, refilled without a cap. *)
Lemma granted_call (t : TokenBucketLimiter Q) key later n e :
  1 <= n -> (inject_Z n <= tbBurst t)%Q -> entryOf t key = Some e ->
  (0 < tbRate t)%Q -> (inject_Z n <= tbTokens e + accrued (tbRate t) (later - tbLast e))%Q ->
  resAllowed (bucketAllowN later key n t).1 = true.
Proof.
  intros Hn Hb He Hr Hneed. unfold bucketAllowN. cbv zeta. fold (entryOf t key). rewrite He.
  destruct (n <=? 0) eqn:E0; [lia|]. cbn [fleb fofZ rational_arith].
  assert (Hen : (inject_Z n <= tbTokens (refill later t (Some e)))%Q).
  { unfold refill. pose proof (seconds_exact (later - tbLast e)) as Hse.
    cbn [fltb fofZ fmin fadd fmul rational_arith].
    assert (Hacc : (tbTokens e + secondsOf (later - tbLast e) * tbRate t
                    == tbTokens e + accrued (tbRate t) (later - tbLast e))%Q)
      by (rewrite Hse; unfold accrued; ring).
    destruct (Qle_bool (secondsOf (later - tbLast e)) (inject_Z 0)) eqn:E; cbn [negb].
    - apply Qle_bool_iff in E. rewrite Hse in E. change (inject_Z 0) with 0%Q in E.
      assert (accrued (tbRate t) (later - tbLast e) <= 0)%Q; [|lra].
      unfold accrued. rewrite <- (Qmult_0_r (tbRate t)). apply Qmult_le_l; done.
    - cbn [tbTokens].
      match goal with |- context [Qle_bool ?a ?b] => destruct (Qle_bool a b) end; [done|].
      rewrite Hacc. done. }
  by rewrite (proj2 (Qle_bool_iff _ _) Hen).
Qed.

(** The bucket paces, in exact arithmetic.  From any consistent state, whatever the
    calls with a key in the order of time: what is granted is at most what the bucket
    held plus the rate times the time elapsed, hence at most the burst plus the rate
    times the time; and a call that is refused, with a weight not above the burst, is
    granted when it is made again at any time more than its [RetryAfter] later (one
    nanosecond is the truncation), if no other call was made in between. *)
Theorem bucket_throughput (t : TokenBucketLimiter Q) (key : string) (calls : list Call) (now : instant) :
  (0 < tbRate t)%Q -> (1 <= tbBurst t)%Q -> timeOrdered now calls -> bucketOk t now (entryOf t key) ->
  (inject_Z (granted calls (bucketCalls key calls t))
   <= tbBurst t + accrued (tbRate t) (lastTime now calls - lastRefill now (entryOf t key)))%Q
  /\ (forall n later, 1 <= n -> (inject_Z n <= tbBurst t)%Q ->
      let (res, t') := bucketAllowN now key n t in
      resAllowed res = false -> now + resRetryAfter res < later ->
      resAllowed (bucketAllowN later key n t').1 = true).
Proof.
  intros Hr Hb Ho He. split.
  { pose proof (granted_bound key calls t now Hr Hb Ho He) as Hg.
    eapply Qle_trans; [exact Hg|]. apply Qplus_le_l. destruct (entryOf t key); cbn in *; lra. }
  intros n later Hn Hnb. pose proof (refused_call t key now n Hn) as Href.
  destruct (refill_spec t now (entryOf t key) Hr Hb He) as (_ & Hlast & _).
  destruct (bucketAllowN now key n t) as [res t']. intros Hden Hlater.
  destruct (Href Hden) as [Hshort [= -> ->]]. clear Href. cbn [resRetryAfter] in Hlater.
  set (e := refill now t (entryOf t key)) in *.
  set (x := ((inject_Z n - tbTokens e) / tbRate t * inject_Z second)%Q) in *.
  assert (Hx0 : (0 <= x)%Q).
  { unfold x. apply Qmult_le_0_compat; [|done]. apply Qle_shift_div_l; [done|]. lra. }
  assert (Hd : (x <= inject_Z (later - now))%Q).
  { eapply Qle_trans; [apply Qlt_le_weak, (qtrunc_bound x Hx0)|]. rewrite <- Zle_Qle. lia. }
  apply (granted_call _ _ _ _ e); [done|done|by apply entryOf_put|done|].
  cbn [tbRate]. rewrite Hlast. unfold accrued.
  assert (Hm : (tbRate t * (x / inject_Z second) == inject_Z n - tbTokens e)%Q)
    by (unfold x; field; repeat split; intros Hz; first [discriminate Hz|lra]).
  assert (tbRate t * (x / inject_Z second) <= tbRate t * (inject_Z (later - now) / inject_Z second))%Q.
  { apply Qmult_le_l; [done|]. unfold Qdiv. apply Qmult_le_compat_r; [lra|done]. }
  lra.
Qed.

Lemma bucket_throughput_witness :
  let t := NewTokenBucketLimiter (mkTokenBucketConfig (F := Q) (1 # 2) (2 # 1) "acct:") in
  let calls := [mkCall 0 1; mkCall 1 1; mkCall 2 1; mkCall (2 * second) 1] in
  (inject_Z (granted calls (bucketCalls "p" calls t))
   <= tbBurst t + accrued (tbRate t) (lastTime 0 calls - lastRefill 0 (entryOf t "p")))%Q
  /\ (forall n later, 1 <= n -> (inject_Z n <= tbBurst t)%Q ->
      let (res, t') := bucketAllowN 0 "p" n t in
      resAllowed res = false -> 0 + resRetryAfter res < later ->
      resAllowed (bucketAllowN later "p" n t').1 = true).
Proof.
  apply (bucket_throughput
    (NewTokenBucketLimiter (mkTokenBucketConfig (F := Q) (1 # 2) (2 # 1) "acct:")) "p"
    [mkCall 0 1; mkCall 1 1; mkCall 2 1; mkCall (2 * second) 1] 0);
    [reflexivity|by compute|cbn; unfold second; lia|exact I].
Defined.
