(* ===== verification/Pacer.v ===== *)
(** * The outbound pacer ([pkg/ratelimiter/pacer.go])

    [Wait] over any account limiter: the ban gate, the burst guard, the hard cap per
    recipient, and the loop that waits for account tokens until a deadline. *)

From Stdlib Require Import ZArith QArith String.
From stdpp Require Import strings numbers gmap list.
From S2P Require Import Prelude GoLang Float64 RateLimiter TokenBucket.
#[local] Set Default Proof Using "Type".
#[local] Open Scope Z_scope.

Section pacer.
(** The arithmetic of the burst, the account limiter and the fallback limiter. *)
Context {F A B : Type} `{Arith F} `{Limiter A} `{Limiter B}.

Record PacerConfig := mkPacerConfig {
  pcEnabled : bool;
  pcMode : string;
  pcAccountBurst : F;
  pcMaxWait : duration;
  pcJitter : duration;
  pcRecipientLimit : Z;
  pcRecipientWindow : duration;
}.

(** A pacer: [mode] is [reject] or [pace]; the recipient and fallback limiters may be
    absent. *)
Record Pacer := mkPacer {
  paEnabled : bool;
  paReject : bool;
  paAccount : A;
  paAccountBurst : F;
  paRecipient : option MemoryLimiter;
  paFallback : option B;
  paMaxWait : duration;
}.

(** [NewPacer], given the account limiter and its effective burst. *)
Definition NewPacer (cfg : PacerConfig) (account : A) (burst : F) (fallback : option B) : Pacer :=
  mkPacer (pcEnabled cfg) (bool_decide (pcMode cfg = "reject"%string)) account burst
    (if (0 <? pcRecipientLimit cfg) && (0 <? pcRecipientWindow cfg)
     then Some (NewMemoryLimiter (mkLimiterConfig (pcRecipientLimit cfg) (pcRecipientWindow cfg) "rcpt:"))
     else None)
    fallback (pcMaxWait cfg).

(** A [RateLimitError], another error of a limiter, a cancelled context, or nil. *)
Inductive WaitOutcome :=
  | Cleared
  | RateLimited (retryAfter : duration) (limit remaining : Z)
  | LimiterFailed
  | Cancelled.

(** What a call meets: the successive readings of the clock, the jitters drawn, whether
    the context is cancelled during the [i]-th sleep, and the ban state ([banUntil] is
    nil, or says until when the account is banned). *)
Record World := mkWorld {
  woClock : nat -> instant;
  woJitter : nat -> duration;
  woCancelled : nat -> bool;
  woBanUntil : option (string -> option instant);
}.

(** What a call did: the outcome, the sleeps (start and length), the answers of the
    account limiter in order, and the pacer after it. *)
Record WaitRun := mkWaitRun {
  wrOutcome : WaitOutcome;
  wrSleeps : list (instant * duration);
  wrAnswers : list Result;
  wrPacer : Pacer;
}.

Definition withAccount (a : A) (p : Pacer) : Pacer :=
  mkPacer (paEnabled p) (paReject p) a (paAccountBurst p) (paRecipient p) (paFallback p) (paMaxWait p).

Definition withRecipient (r : option MemoryLimiter) (p : Pacer) : Pacer :=
  mkPacer (paEnabled p) (paReject p) (paAccount p) (paAccountBurst p) r (paFallback p) (paMaxWait p).

Definition withFallback (f : option B) (p : Pacer) : Pacer :=
  mkPacer (paEnabled p) (paReject p) (paAccount p) (paAccountBurst p) (paRecipient p) f (paMaxWait p).

Definition stop (o : WaitOutcome) (p : Pacer) : WaitRun := mkWaitRun o [] [] p.

(** [fallbackReject]. *)
Definition fallbackReject (w : World) (phone : string) (n : Z) (p : Pacer) : WaitRun :=
  match paFallback p with
  | None => stop Cleared p
  | Some f =>
      let (res, f') := AllowN (woClock w 0%nat) (woClock w 1%nat) phone n f in
      let p := withFallback (Some f') p in
      match res with
      | None => stop LimiterFailed p
      | Some r =>
          if resAllowed r then stop Cleared p
          else stop (RateLimited (resRetryAfter r) (resLimit r) (resRemaining r)) p
      end
  end.

Definition record (r : Result) (run : WaitRun) : WaitRun :=
  mkWaitRun (wrOutcome run) (wrSleeps run) (r :: wrAnswers run) (wrPacer run).

Definition slept (start : instant) (d : duration) (run : WaitRun) : WaitRun :=
  mkWaitRun (wrOutcome run) ((start, d) :: wrSleeps run) (wrAnswers run) (wrPacer run).

(** The account loop; [k] readings of the clock and [i] sleeps lie behind.  A sleep of no
    time returns without looking at the context. *)
Fixpoint accountLoop (fuel : nat) (w : World) (phone : string) (n : Z) (deadline : instant)
    (k i : nat) (p : Pacer) : option WaitRun :=
  match fuel with
  | O => None
  | S fuel =>
      let (res, a) := AllowN (woClock w k) (woClock w (k + 1)%nat) phone n (paAccount p) in
      let p := withAccount a p in
      match res with
      | None => Some (stop LimiterFailed p)
      | Some r =>
          record r <$>
          (if resAllowed r then Some (stop Cleared p)
           else if paReject p
           then Some (stop (RateLimited (resRetryAfter r) (resLimit r) (resRemaining r)) p)
           else
             let now := woClock w (k + 2)%nat in
             let remaining := deadline - now in
             if remaining <=? 0 then Some (stop (RateLimited (resRetryAfter r) 0 0) p)
             else
               let wait := Z.min (resRetryAfter r + woJitter w i) remaining in
               slept now wait <$>
               (if (0 <? wait) && woCancelled w i then Some (stop Cancelled p)
                else accountLoop fuel w phone n deadline (k + 3)%nat (S i) p))
      end
  end.

(** The ban gate: how long the account stays banned, if it is. *)
Definition banGate (w : World) (phone : string) : option duration :=
  match woBanUntil w with
  | Some ban =>
      match ban phone with
      | Some until => if 0 <? until - woClock w 0%nat then Some (until - woClock w 0%nat) else None
      | None => None
      end
  | None => None
  end.

(** The cap per recipient: an outcome when it refuses. *)
Definition recipientCap (w : World) (phone recipient : string) (n : Z) (p : Pacer)
    : option WaitOutcome * Pacer :=
  match paRecipient p with
  | Some m =>
      if bool_decide (recipient = ""%string) then (None, p)
      else
        let (res, m') := memoryAllowN (woClock w 1%nat) (woClock w 2%nat)
                           (phone +:+ ":" +:+ recipient) n m in
        let p := withRecipient (Some m') p in
        match res with
        | None => (Some LimiterFailed, p)
        | Some r =>
            if resAllowed r then (None, p)
            else (Some (RateLimited (resRetryAfter r) (resLimit r) (resRemaining r)), p)
        end
  | None => (None, p)
  end.

(** [Wait]. *)
Definition Wait (fuel : nat) (w : World) (phone recipient : string) (n : Z) (p : Pacer) : option WaitRun :=
  if negb (paEnabled p) then Some (fallbackReject w phone n p)
  else
    match banGate w phone with
    | Some d => Some (stop (RateLimited d 0 0) p)
    | None =>
        if fltb (paAccountBurst p) (fofZ n)
        then Some (stop (RateLimited 0 (ftrunc (paAccountBurst p)) 0) p)
        else
          match recipientCap w phone recipient n p with
          | (Some o, p) => Some (stop o p)
          | (None, p) => accountLoop fuel w phone n (woClock w 3%nat + paMaxWait p) 4 0 p
          end
    end.

(** ** Lemmas *)

(** The clock moves on between two readings. *)
Definition ticking (w : World) : Prop := forall k, woClock w k < woClock w (S k).

Lemma ticking_plus w k d : ticking w -> woClock w k + Z.of_nat d <= woClock w (k + d)%nat.
Proof using.
  intros Ht. induction d as [|d IH]; [rewrite Nat.add_0_r; lia|].
  pose proof (Ht (k + d)%nat). rewrite Nat.add_succ_r. lia.
Qed.

Definition isCleared (o : WaitOutcome) : bool := match o with Cleared => true | _ => false end.

(** What a run of the loop looks like: the sleeps end by the deadline; every answer of
    the account but the last is a refusal, and the last grants exactly when the
    outcome is [Cleared]. *)
Record loopRun (deadline : instant) (run : WaitRun) : Prop := {
  lr_sleeps : Forall (fun s => s.1 + s.2 <= deadline /\ s.1 < deadline) (wrSleeps run);
  lr_answers : exists refused final,
    wrAnswers run = refused ++ final
    /\ Forall (fun r => resAllowed r = false) refused
    /\ (if isCleared (wrOutcome run) then exists r, final = [r] /\ resAllowed r = true
        else final = []);
}.

Lemma stop_run deadline o p : isCleared o = false -> loopRun deadline (stop o p).
Proof using.
  intros Ho. split; [constructor|]. exists [], []. cbn. by rewrite Ho.
Qed.

Lemma record_refused deadline r run :
  resAllowed r = false -> loopRun deadline run -> loopRun deadline (record r run).
Proof using.
  intros Hr [Hs (ref & fin & Heq & Hall & Hfin)]. split; [done|].
  exists (r :: ref), fin. cbn. by rewrite Heq, Forall_cons.
Qed.

Lemma slept_run deadline start d run :
  start + d <= deadline -> start < deadline -> loopRun deadline run -> loopRun deadline (slept start d run).
Proof using. intros Hd Hst [Hs Ha]. split; [by constructor|done]. Qed.

Lemma accountLoop_runs fuel w phone n deadline k i p :
  ticking w -> deadline - woClock w k < Z.of_nat fuel -> (0 < fuel)%nat ->
  exists run, accountLoop fuel w phone n deadline k i p = Some run /\ loopRun deadline run.
Proof using.
  intros Ht. revert k i p. induction fuel as [|fuel IH]; intros k i p Hf Hpos; [lia|].
  cbn [accountLoop]. destruct (AllowN _ _ phone n (paAccount p)) as [[r|] a]; cycle 1.
  { eexists. split; [done|]. by apply stop_run. }
  destruct (resAllowed r) eqn:Er.
  { eexists. split; [done|]. split; [constructor|]. exists [], [r]. cbn. eauto. }
  destruct (paReject (withAccount a p)).
  { eexists. split; [done|]. apply record_refused, stop_run; done. }
  cbv zeta. pose proof (ticking_plus w k 2 Ht) as Hk2. pose proof (ticking_plus w k 3 Ht) as Hk3.
  destruct (deadline - woClock w (k + 2)%nat <=? 0) eqn:Ed.
  { eexists. split; [done|]. apply record_refused, stop_run; done. }
  destruct (_ && _).
  { eexists. split; [done|]. apply record_refused, slept_run, stop_run; try done; lia. }
  destruct (IH (k + 3)%nat (S i) (withAccount a p)) as (run & -> & Hrun); [lia|lia|].
  eexists. split; [done|]. apply record_refused, slept_run; try done; lia.
Qed.

(** In reject mode the loop does not sleep. *)
Lemma accountLoop_reject fuel w phone n deadline k i p run :
  paReject p = true -> accountLoop fuel w phone n deadline k i p = Some run -> wrSleeps run = [].
Proof using.
  intros Hr. destruct fuel as [|fuel]; [done|]. cbn [accountLoop].
  destruct (AllowN _ _ phone n (paAccount p)) as [[r|] a]; [|by intros [= <-]].
  destruct (resAllowed r); [by intros [= <-]|]. cbn [withAccount paReject]. rewrite Hr.
  by intros [= <-].
Qed.

Lemma recipientCap_account w phone recipient n p :
  let (o, p') := recipientCap w phone recipient n p in
  paAccount p' = paAccount p /\ paReject p' = paReject p /\ paMaxWait p' = paMaxWait p
  /\ o <> Some Cleared.
Proof using.
  unfold recipientCap. destruct (paRecipient p) as [m|]; [|done]. case_bool_decide; [done|].
  destruct (memoryAllowN _ _ _ _ _) as [[r|] m']; [|done]. by destruct (resAllowed r).
Qed.
End pacer.


(** The pacer of the source's tests: one token per second, a burst of one, ten seconds. *)
Definition samplePacer : Pacer (F := Q) (A := TokenBucketLimiter Q) (B := unit) :=
  NewPacer (mkPacerConfig true "pace" 1%Q (10 * second) 0 0 0)
    (bucketAllowN 0 "p1" 1 (NewTokenBucketLimiter (mkTokenBucketConfig (F := Q) 1%Q 1%Q "acct:"))).2
    1%Q None.

(** A clock that jumps by a second at the seventh reading, where the first sleep ends. *)
Definition sampleWorld : World :=
  mkWorld (fun k => Z.of_nat (k `div` 7) * second + Z.of_nat k) (fun _ => 0) (fun _ => false) None.

Lemma sampleWorld_ticking : ticking sampleWorld.
Proof.
  intros k. unfold sampleWorld, second. cbn [woClock].
  assert (k `div` 7 <= S k `div` 7)%nat by (apply Nat.Div0.div_le_mono; lia). lia.
Qed.


(** The paced send of the source's test clears after one sleep of a second. *)
Example paced_send_clears :
  match Wait 10 sampleWorld "p1" "r2" 1 samplePacer with
  | Some run => isCleared (wrOutcome run) = true
                /\ map snd (wrSleeps run) = [second - 4]
  | None => False
  end.
Proof. vm_compute. done. Qed.
