(* ===== verification/OutgoingHandler.v ===== *)
(** * Outgoing message jobs

    [internal/queue/handlers/outgoing_message_handler.go] over the job table of
    [internal/queue/job_repository.go], the dedup cache, the pacer's answer and the
    account's webhook subscriptions. *)

From Stdlib Require Import ZArith String.
From stdpp Require Import strings numbers gmap list.
From S2P Require Import Prelude GoLang Subscriptions Dedup RetryQueue.
#[local] Set Default Proof Using "Type".
#[local] Open Scope Z_scope.

(** ** The job table *)

Record MessageJob := mkMessageJob {
  mjPhone : string;
  mjStatus : string;
  mjMessageID : option string;
  mjError : option string;
  mjCreatedAt : instant;
  mjUpdatedAt : instant;
  mjCompletedAt : option instant;
}.

Abbreviation JobTable := (gmap string MessageJob).

Definition nonEmpty (s : string) : option string := if bool_decide (s = ""%string) then None else Some s.

(** [Create]: an INSERT; the job id is the primary key. *)
Definition jobCreate (now : instant) (jobID status phone : string) (t : JobTable) : bool * JobTable :=
  match t !! jobID with
  | Some _ => (false, t)
  | None => (true, <[jobID := mkMessageJob phone status None None now now None]> t)
  end.

(** [UpdateStatus]: an UPDATE, of no row when the job is unknown. *)
Definition jobUpdateStatus (now : instant) (jobID status messageID errorMessage : string) (t : JobTable)
    : JobTable :=
  match t !! jobID with
  | None => t
  | Some j =>
      let completed :=
        if bool_decide (status = "completed"%string) || bool_decide (status = "failed"%string)
        then Some now else None in
      <[jobID := mkMessageJob (mjPhone j) status (nonEmpty messageID) (nonEmpty errorMessage)
                   (mjCreatedAt j) now completed]> t
  end.

Definition jobGet (jobID : string) (t : JobTable) : option MessageJob := t !! jobID.

(** ** Jobs *)

(** [OutgoingMessageJob]: the fields the handler reads itself; what it only passes on to
    the manager is [jbContent]. *)
Record OutgoingJob := mkJob {
  jbJobID : string;
  jbPhoneNumber : string;
  jbType : string;
  jbTo : string;
  jbImageData : string;
  jbMessageID : string;
  jbContent : string;
}.

(** What the handler finds: the pacer's answer; the base64 decoder; what the manager
    answers to a send (the bytes are those of a media job); the database; the webhook
    settings, the JID of the account ([GetJIDFromPhoneNumber], which panics on a client
    without a device id) and its subscriptions. *)
Inductive Pace := PaceOk | PaceLimited (retryAfter : duration) | PaceFailed.

Record OutEnv := mkOutEnv {
  oePace : Pace;
  oeDecode : string -> option (list Byte.byte);
  oeSend : OutgoingJob -> option (list Byte.byte) -> option string;
  oeDbOk : bool;
  oeStatusEvents : bool;
  oeJid : string -> go (option string);
  oeSubs : string -> option (list WebhookSubscription);
}.

(** The job types whose payload is base64, those sent as they are, and those that act on
    a message and keep its id. *)
Definition mediaTypes : list string := ["image"; "audio"; "video"; "document"; "sticker"].
Definition plainTypes : list string := ["text"; "location"; "poll"].
Definition actionTypes : list string := ["react"; "delete"; "edit"].

(** The [switch] on the type: the message id, or an error; and whether the manager was
    called. *)
Definition sendJob (env : OutEnv) (job : OutgoingJob) : option string * bool :=
  if bool_decide (jbType job ∈ plainTypes) then (oeSend env job None, true)
  else if bool_decide (jbType job ∈ mediaTypes) then
    match oeDecode env (jbImageData job) with
    | None => (None, false)
    | Some bytes => (oeSend env job (Some bytes), true)
    end
  else if bool_decide (jbType job ∈ actionTypes) then
    ((fun _ => jbMessageID job) <$> oeSend env job None, true)
  else (None, false).

(** A delivered status webhook: event, job, url. *)
Record Hook := mkHook { hkEvent : string; hkJob : string; hkUrl : string }.

(** [sendStatusWebhook]: what reaches the sender, in order (its errors are only logged). *)
Definition sendStatusWebhook (env : OutEnv) (job : OutgoingJob) (event : string) : go (list Hook) :=
  if negb (oeStatusEvents env) then Ret []
  else goBind (oeJid env (jbPhoneNumber job)) (fun found =>
       match found with
       | None => Ret []
       | Some jid =>
           match oeSubs env jid with
           | None => Ret []
           | Some subs => Ret (map (fun s => mkHook event (jbJobID job) (subUrl s)) (recipients event subs))
           end
       end).

(** The process's state: the dedup cache, the job table, the sends the manager carried
    out (newest first), the webhooks (oldest first). *)
Record OutState := mkOutState {
  osDedup : option DedupCache;
  osJobs : JobTable;
  osSent : list Guarded;
  osHooks : list Hook;
}.

(** Clock readings of one delivery: the duplicate check and the mark read it twice each;
    the database uses the first of the mark. *)
Record OutTimes := mkOutTimes { otCheck1 : instant; otCheck2 : instant; otMark1 : instant; otMark2 : instant }.

Definition updateJob (env : OutEnv) (now : instant) (jobID status messageID errorMessage : string)
    (t : JobTable) : JobTable :=
  if oeDbOk env then jobUpdateStatus now jobID status messageID errorMessage t else t.

Definition failure : string := "Failed to process job".

(** The end of [Handle]: the status webhooks, then the answer. *)
Definition notifying (o : Outcome) (hooks : go (list Hook)) (s : OutState) : Outcome * OutState :=
  match hooks with
  | Panic => (HPanic, s)
  | Ret l => (o, mkOutState (osDedup s) (osJobs s) (osSent s) (osHooks s ++ l))
  end.

(** [Handle]; [None] is a body that is not a job. *)
Definition Handle (env : OutEnv) (ts : OutTimes) (body : option OutgoingJob) (s : OutState)
    : Outcome * OutState :=
  match body with
  | None => (HErr None, s)
  | Some job =>
      let (dup, d) := IsDuplicate QueueOutgoingMessages (jbJobID job) (otCheck1 ts) (otCheck2 ts) (osDedup s) in
      let s := mkOutState d (osJobs s) (osSent s) (osHooks s) in
      if dup then (HOk, s)
      else
        match oePace env with
        | PaceLimited d => (HErr (Some d), s)
        | PaceFailed => (HErr None, s)
        | PaceOk =>
            let jobs := updateJob env (otMark1 ts) (jbJobID job) "processing" "" "" (osJobs s) in
            let (sent, _) := sendJob env job in
            match sent with
            | None =>
                notifying (HErr None) (sendStatusWebhook env job EventMessageFailed)
                  (mkOutState d (updateJob env (otMark1 ts) (jbJobID job) "failed" "" failure jobs)
                     (osSent s) (osHooks s))
            | Some messageID =>
                notifying HOk (sendStatusWebhook env job EventMessageSent)
                  (mkOutState
                     (MarkProcessed QueueOutgoingMessages (jbJobID job) (otMark1 ts) (otMark2 ts) d)
                     (updateJob env (otMark1 ts) (jbJobID job) "completed" messageID "" jobs)
                     (mkGuarded QueueOutgoingMessages (jbJobID job) (otCheck2 ts) (otMark2 ts) :: osSent s) (osHooks s))
            end
        end
  end.

(** A delivery, and a run of deliveries of any jobs. *)
Record Delivery := mkDelivery { dlEnv : OutEnv; dlTimes : OutTimes; dlBody : option OutgoingJob }.

Fixpoint deliver (ds : list Delivery) (s : OutState) : list Outcome * OutState :=
  match ds with
  | [] => ([], s)
  | d :: rest =>
      let (o, s1) := Handle (dlEnv d) (dlTimes d) (dlBody d) s in
      let (os, s2) := deliver rest s1 in (o :: os, s2)
  end.

(** The clock does not go back. *)
Fixpoint clockOk (now : instant) (ds : list Delivery) : Prop :=
  match ds with
  | [] => True
  | d :: rest =>
      now <= otCheck1 (dlTimes d) /\ otCheck1 (dlTimes d) <= otCheck2 (dlTimes d)
      /\ otCheck2 (dlTimes d) <= otMark1 (dlTimes d) /\ otMark1 (dlTimes d) <= otMark2 (dlTimes d)
      /\ clockOk (otMark2 (dlTimes d)) rest
  end.

(** ** Lemmas *)

Definition outOk (ttl : duration) (now : instant) (s : OutState) : Prop := guardOk ttl now (osDedup s) (osSent s).

Lemma notifying_keeps o hooks s :
  osDedup (notifying o hooks s).2 = osDedup s /\ osSent (notifying o hooks s).2 = osSent s.
Proof. by destruct hooks. Qed.

Lemma handle_ok ttl now env ts body s :
  0 <= ttl -> now <= otCheck1 ts -> otCheck1 ts <= otCheck2 ts -> otCheck2 ts <= otMark1 ts ->
  otMark1 ts <= otMark2 ts -> outOk ttl now s -> outOk ttl (otMark2 ts) (Handle env ts body s).2.
Proof.
  intros Ht H1 H2 H3 H4 Hs. destruct body as [job|]; [|by apply (guard_later ttl now); [lia|]].
  cbn [Handle].
  pose proof (guard_step ttl now QueueOutgoingMessages (jbJobID job) (otCheck1 ts) (otCheck2 ts)
                (otMark1 ts) (otMark2 ts) (osDedup s) (osSent s) Ht H1 H2 H3 H4 eq_refl Hs) as Hg.
  destruct (IsDuplicate _ _ _ _ _) as [dup d]. destruct Hg as [Hkeep Hmark].
  destruct dup; [done|]. cbn [osDedup osJobs osSent osHooks].
  destruct (oePace env); [|done..]. unfold outOk.
  destruct (sendJob env job) as [[messageID|] called];
    rewrite (proj1 (notifying_keeps _ _ _)), (proj2 (notifying_keeps _ _ _)); cbn [osDedup osSent]; auto.
Qed.

Lemma deliver_ok ttl ds now s :
  0 <= ttl -> clockOk now ds -> outOk ttl now s -> exists now', outOk ttl now' (deliver ds s).2.
Proof.
  intros Ht. revert now s. induction ds as [|d ds IH]; intros now s Hc Hs; [by exists now|].
  destruct Hc as (H1 & H2 & H3 & H4 & Hc). cbn [deliver].
  pose proof (handle_ok ttl now (dlEnv d) (dlTimes d) (dlBody d) s Ht H1 H2 H3 H4 Hs) as Hs1.
  destruct (Handle _ _ _ s) as [o s1]. destruct (IH _ s1 Hc Hs1) as (now' & Hs').
  destruct (deliver ds s1) as [os s2]. by exists now'.
Qed.


Definition sampleJob : OutgoingJob := mkJob "j1" "621" "text" "622@s.whatsapp.net" "" "" "hello".

Definition sampleOutEnv (send : option string) : OutEnv :=
  mkOutEnv PaceOk (fun _ => None) (fun _ _ => send) true true (fun _ => Ret (Some "621@s.whatsapp.net"%string))
    (fun _ => Some [mkSub "https://a" "" ""]).


(** The job's row after a delivery that reaches the manager. *)
Definition statusOf (t : JobTable) (id : string) : option string := mjStatus <$> t !! id.

(** The client sees a failure for every failed attempt.  When a job whose pacing
    clears is delivered again and again, failing [failures] times and then sent, its
    row ends [completed], with the message id; but the subscribers of its account that
    listen to both events were told [message.failed] once per failed attempt before
    being told [message.sent]: the event does not wait for the retries to be used up. *)
Theorem failed_event_per_attempt (job : OutgoingJob) (fail ok : OutEnv) (ts : OutTimes)
    (failures : nat) (messageID : string) (s : OutState) (failHooks okHooks : list Hook) :
  osDedup s = None -> is_Some (osJobs s !! jbJobID job) ->
  oePace fail = PaceOk -> oePace ok = PaceOk -> oeDbOk fail = true -> oeDbOk ok = true ->
  (sendJob fail job).1 = None -> (sendJob ok job).1 = Some messageID ->
  sendStatusWebhook fail job EventMessageFailed = Ret failHooks ->
  sendStatusWebhook ok job EventMessageSent = Ret okHooks ->
  let ds := replicate failures (mkDelivery fail ts (Some job)) ++ [mkDelivery ok ts (Some job)] in
  let (outcomes, s') := deliver ds s in
  outcomes = replicate failures (HErr None) ++ [HOk]
  /\ statusOf (osJobs s') (jbJobID job) = Some "completed"%string
  /\ osHooks s' = osHooks s
       ++ List.concat (replicate failures failHooks) ++ okHooks.
Proof.
  intros Hd Hrow Hpf Hpo Hdf Hdo Hf Ho Hhf Hho. cbv zeta.
  destruct (sendJob fail job) as [sf cf] eqn:Ef. destruct (sendJob ok job) as [so co] eqn:Eo.
  cbn in Hf, Ho. subst sf so.
  assert (Hup : forall now st mid err t, is_Some (t !! jbJobID job) ->
            is_Some (jobUpdateStatus now (jbJobID job) st mid err t !! jbJobID job)
            /\ statusOf (jobUpdateStatus now (jbJobID job) st mid err t) (jbJobID job) = Some st).
  { intros now st mid err t [r Hr]. unfold jobUpdateStatus, statusOf. rewrite Hr, !lookup_insert_eq.
    split; [by eexists|done]. }
  revert s Hd Hrow. induction failures as [|f IH]; intros s Hd Hrow; cbn [replicate app deliver List.concat].
  - cbn [Handle dlBody dlEnv dlTimes]. rewrite Hd. cbn [IsDuplicate]. rewrite Hpo, Eo, Hho. unfold notifying.
    cbn [osJobs osHooks osSent osDedup]. unfold updateJob. rewrite Hdo. split_and!; [done| |done].
    apply Hup. by apply Hup.
  - cbn [Handle dlBody dlEnv dlTimes]. rewrite Hd. cbn [IsDuplicate]. rewrite Hpf, Ef, Hhf. unfold notifying.
    cbn [osJobs osHooks osSent osDedup]. unfold updateJob. rewrite Hdf.
    set (s1 := mkOutState _ _ _ _).
    specialize (IH s1 eq_refl ltac:(apply Hup; by apply Hup)).
    destruct (deliver _ s1) as [os s2]. destruct IH as (-> & Hst & Hh). split_and!; [done|done|].
    rewrite Hh. cbn [s1 osHooks]. by rewrite <- !app_assoc.
Qed.

Lemma failed_event_per_attempt_witness :
  let s := mkOutState None (jobCreate 0 "j1" "queued" "621" ∅).2 [] [] in
  let ts := mkOutTimes 1 2 3 4 in
  let ds := replicate 2 (mkDelivery (sampleOutEnv None) ts (Some sampleJob))
            ++ [mkDelivery (sampleOutEnv (Some "m1"%string)) ts (Some sampleJob)] in
  let (outcomes, s') := deliver ds s in
  outcomes = replicate 2 (HErr None) ++ [HOk]
  /\ statusOf (osJobs s') "j1" = Some "completed"%string
  /\ osHooks s' = osHooks s
       ++ List.concat (replicate 2 [mkHook EventMessageFailed "j1" "https://a"])
       ++ [mkHook EventMessageSent "j1" "https://a"].
Proof.
  apply (failed_event_per_attempt sampleJob (sampleOutEnv None) (sampleOutEnv (Some "m1"%string))
    (mkOutTimes 1 2 3 4) 2 "m1" (mkOutState None (jobCreate 0 "j1" "queued" "621" ∅).2 [] [])
    [mkHook EventMessageFailed "j1" "https://a"] [mkHook EventMessageSent "j1" "https://a"]);
    try reflexivity. by eexists.
Defined.
