(* ===== verification/Idempotency.v ===== *)
(** * Idempotent requests ([internal/middleware/idempotency.go])

    The middleware as a state machine over the table of keys and the requests in
    flight; a step is the work between two points where a request can be overtaken by
    another: its insertion, its look at the row it lost to, the end of its handler. *)

From Stdlib Require Import ZArith Ascii String.
From stdpp Require Import strings numbers gmap list.
From S2P Require Import Prelude GoLang.
#[local] Set Default Proof Using "Type".
#[local] Open Scope Z_scope.

(** [trimHeader]: spaces and tabs at both ends. *)
Definition blank (a : ascii) : bool := Ascii.eqb a " " || Ascii.eqb a (ascii_of_N 9).

Definition trimHeader (s : string) : string :=
  string_of_list_ascii (trim_with blank (list_ascii_of_string s)).

(** A row of [idempotency_keys]. *)
Inductive RowStatus := Pending | Completed (httpStatus : Z) (body : string).

Record Row := mkRow { irHash : string; irStatus : RowStatus; irCreated : instant }.

(** The configuration, with the defaults of the constructor. *)
Record IdemConfig := mkIdemConfig { icTtl : duration; icPendingTimeout : duration }.

Definition NewIdempotencyMiddleware (ttlSeconds pendingSeconds : Z) : IdemConfig :=
  let ttl := ttlSeconds * second in
  let pending := pendingSeconds * second in
  mkIdemConfig (if ttl <=? 0 then 24 * 3600 * second else ttl)
    (if pending <=? 0 then 30 * second else pending).

(** A request: its header, whether it is a GET, the phone number of its token (empty when
    there is none), and the hash of its method, path and body. *)
Record Request := mkRequest { rqHeader : string; rqGet : bool; rqPhone : string; rqHash : string }.

(** What its handler did: an error, or a response. *)
Inductive HandlerResult := HandlerError | Responded (status : Z) (body : string).

(** A request in flight: its handler runs and it owns its row; its handler runs without a
    row; it lost the insertion and has not looked at the row yet. *)
Inductive Phase := Winner | Unprotected | Loser.

(** What a request was answered: the result of its handler, the stored response, 409, or
    422. *)
Inductive Answer :=
  | Executed (r : HandlerResult)
  | Replayed (status : Z) (body : string)
  | InProgress
  | KeyReused.

Abbreviation Key := (string * string)%type.

Record IdemState := mkIdem {
  idRows : gmap Key Row;
  idFlight : gmap nat (Request * Phase);
  idAnswers : list (Request * Answer);
}.

Definition idemInit : IdemState := mkIdem ∅ ∅ [].

(** The key a request is deduplicated by; [None]: it is passed through. *)
Definition keyOf (q : Request) : option Key :=
  let key := trimHeader (rqHeader q) in
  if bool_decide (key = ""%string) || rqGet q then None
  else if bool_decide (rqPhone q = ""%string) then None
  else Some (rqPhone q, key).

Definition fly (rid : nat) (q : Request) (ph : Phase) (rows : gmap Key Row) (s : IdemState) : IdemState :=
  mkIdem rows (<[rid := (q, ph)]> (idFlight s)) (idAnswers s).

Definition answer (rid : nat) (q : Request) (a : Answer) (rows : gmap Key Row) (s : IdemState) : IdemState :=
  mkIdem rows (delete rid (idFlight s)) ((q, a) :: idAnswers s).

(** [Handler]: up to the insertion ([tryInsertPending]); [db]: the database answers. *)
Definition arrive (now : instant) (db : bool) (rid : nat) (q : Request) (s : IdemState) : IdemState :=
  match keyOf q with
  | None => fly rid q Unprotected (idRows s) s
  | Some k =>
      if negb db then fly rid q Unprotected (idRows s) s
      else match idRows s !! k with
           | None => fly rid q Winner (<[k := mkRow (rqHash q) Pending now]> (idRows s)) s
           | Some _ => fly rid q Loser (idRows s) s
           end
  end.

(** [replayOrReject]. *)
Definition lookup_ (cfg : IdemConfig) (now : instant) (db : bool) (rid : nat) (q : Request) (k : Key)
    (s : IdemState) : IdemState :=
  match (if db then idRows s !! k else None) with
  | None => fly rid q Unprotected (idRows s) s
  | Some row =>
      let takeOver := fly rid q Unprotected (delete k (idRows s)) s in
      if icTtl cfg <? now - irCreated row then takeOver
      else if negb (bool_decide (irHash row = rqHash q)) then answer rid q KeyReused (idRows s) s
      else match irStatus row with
           | Pending =>
               if icPendingTimeout cfg <? now - irCreated row then takeOver
               else answer rid q InProgress (idRows s) s
           | Completed status body => answer rid q (Replayed status body) (idRows s) s
           end
  end.

Definition success (r : HandlerResult) : bool :=
  match r with HandlerError => false | Responded st _ => (200 <=? st) && (st <? 300) end.

(** [complete]: an UPDATE of the row, whoever owns it; [delete]. *)
Definition completeRow (k : Key) (status : Z) (body : string) (rows : gmap Key Row) : gmap Key Row :=
  match rows !! k with
  | Some row => <[k := mkRow (irHash row) (Completed status body) (irCreated row)]> rows
  | None => rows
  end.

(** The end of a handler ([runAndRecord] for the winner). *)
Definition finish (db : bool) (rid : nat) (q : Request) (ph : Phase) (r : HandlerResult) (s : IdemState)
    : IdemState :=
  let rows :=
    match ph, keyOf q with
    | Winner, Some k =>
        if negb db then idRows s
        else match r with
             | Responded status body =>
                 if success r then completeRow k status body (idRows s) else delete k (idRows s)
             | HandlerError => delete k (idRows s)
             end
    | _, _ => idRows s
    end in
  answer rid q (Executed r) rows s.

(** [sweepLoop]: one tick. *)
Definition sweep (cfg : IdemConfig) (now : instant) (db : bool) (s : IdemState) : IdemState :=
  if db then mkIdem (filter (fun kv => ~ irCreated kv.2 < now - icTtl cfg) (idRows s)) (idFlight s) (idAnswers s)
  else s.

Inductive IdemEvent :=
  | Arrive (rid : nat) (q : Request)
  | Look (rid : nat)
  | Finish (rid : nat) (r : HandlerResult)
  | Sweep.

(** An event, its time, and whether the database answers. *)
Record IdemStep := mkStep { isEvent : IdemEvent; isNow : instant; isDb : bool }.

Definition idemStep (cfg : IdemConfig) (st : IdemStep) (s : IdemState) : IdemState :=
  let now := isNow st in
  let db := isDb st in
  match isEvent st with
  | Arrive rid q => match idFlight s !! rid with None => arrive now db rid q s | Some _ => s end
  | Look rid =>
      match idFlight s !! rid with
      | Some (q, Loser) => match keyOf q with Some k => lookup_ cfg now db rid q k s | None => s end
      | _ => s
      end
  | Finish rid r =>
      match idFlight s !! rid with
      | Some (q, Winner) => finish db rid q Winner r s
      | Some (q, Unprotected) => finish db rid q Unprotected r s
      | _ => s
      end
  | Sweep => sweep cfg now db s
  end.

Definition idemRun (cfg : IdemConfig) (sts : list IdemStep) (s : IdemState) : IdemState :=
  fold_left (fun s st => idemStep cfg st s) sts s.

(** The successful executions of a key: the hash of the request and its response. *)
Definition successes (k : Key) (answers : list (Request * Answer)) : list (string * Z * string) :=
  omap (fun qa => match qa with
                  | (q, Executed (Responded st b)) =>
                      if bool_decide (keyOf q = Some k) && success (Responded st b)
                      then Some (rqHash q, st, b) else None
                  | _ => None
                  end) answers.

(** A step within the windows: the database answers, no row is older than the TTL nor a
    pending one than the pending timeout, and a row that was lost to is still there. *)
Definition timely (cfg : IdemConfig) (st : IdemStep) (s : IdemState) : Prop :=
  isDb st = true
  /\ (forall k row, idRows s !! k = Some row ->
        isNow st - irCreated row <= icTtl cfg
        /\ (irStatus row = Pending -> isNow st - irCreated row <= icPendingTimeout cfg))
  /\ (forall rid q k, isEvent st = Look rid -> idFlight s !! rid = Some (q, Loser) -> keyOf q = Some k ->
        is_Some (idRows s !! k)).

Fixpoint timelyRun (cfg : IdemConfig) (sts : list IdemStep) (s : IdemState) : Prop :=
  match sts with
  | [] => True
  | st :: rest => timely cfg st s /\ timelyRun cfg rest (idemStep cfg st s)
  end.

(** The same, decided. *)
Definition timelyb (cfg : IdemConfig) (st : IdemStep) (s : IdemState) : bool :=
  isDb st
  && forallb (fun kv => let age := isNow st - irCreated (snd kv) in
       (age <=? icTtl cfg)
       && match irStatus (snd kv) with Pending => age <=? icPendingTimeout cfg | Completed _ _ => true end)
       (map_to_list (idRows s))
  && match isEvent st with
     | Look rid =>
         match idFlight s !! rid with
         | Some (q, Loser) =>
             match keyOf q with
             | Some k => match idRows s !! k with Some _ => true | None => false end
             | None => true
             end
         | _ => true
         end
     | _ => true
     end.

Fixpoint timelyRunb (cfg : IdemConfig) (sts : list IdemStep) (s : IdemState) : bool :=
  match sts with
  | [] => true
  | st :: rest => timelyb cfg st s && timelyRunb cfg rest (idemStep cfg st s)
  end.

Lemma timelyb_ok cfg st s : timelyb cfg st s = true -> timely cfg st s.
Proof.
  unfold timelyb. intros [[Hdb Hrows]%andb_true_iff Hlook]%andb_true_iff. split_and!; [done| |].
  - intros k row Hk. rewrite forallb_forall in Hrows.
    specialize (Hrows (k, row)). rewrite <- list_elem_of_In, elem_of_map_to_list in Hrows.
    specialize (Hrows Hk). cbn in Hrows. apply andb_true_iff in Hrows as [H1 H2].
    split; [lia|]. intros Hp. rewrite Hp in H2. lia.
  - intros rid q k He Hf Hkq. rewrite He, Hf, Hkq in Hlook.
    destruct (idRows s !! k); [by eexists|done].
Qed.

Lemma timelyRunb_ok cfg sts s : timelyRunb cfg sts s = true -> timelyRun cfg sts s.
Proof.
  revert s. induction sts as [|st sts IH]; intros s; [done|]. cbn.
  intros [H1%timelyb_ok H2]%andb_true_iff. split; [done|]. by apply IH.
Qed.

(** ** The invariant of timely runs *)

Record idemInv (s : IdemState) : Prop := {
  ii_unprotected rid q : idFlight s !! rid = Some (q, Unprotected) -> keyOf q = None;
  ii_winner rid q k : idFlight s !! rid = Some (q, Winner) -> keyOf q = Some k ->
    exists created, idRows s !! k = Some (mkRow (rqHash q) Pending created);
  ii_single r1 r2 q1 q2 k : idFlight s !! r1 = Some (q1, Winner) -> idFlight s !! r2 = Some (q2, Winner) ->
    keyOf q1 = Some k -> keyOf q2 = Some k -> r1 = r2;
  ii_rows k : match idRows s !! k with
              | Some (mkRow h (Completed st b) _) => successes k (idAnswers s) = [(h, st, b)]
              | _ => successes k (idAnswers s) = []
              end;
  ii_replayed q st b k : (q, Replayed st b) ∈ idAnswers s -> keyOf q = Some k ->
    successes k (idAnswers s) = [(rqHash q, st, b)];
  ii_keyed q rid ph : idFlight s !! rid = Some (q, ph) -> ph <> Unprotected -> is_Some (keyOf q);
}.

Lemma idemInit_inv : idemInv idemInit.
Proof. split; try done. - intros q st b k H. by apply elem_of_nil in H. Qed.

(** Sending a request on, or answering it without a success, keeps the successes. *)
Lemma successes_other k q a answers :
  (forall st b, a = Executed (Responded st b) -> success (Responded st b) = true -> keyOf q <> Some k) ->
  successes k ((q, a) :: answers) = successes k answers.
Proof.
  intros Ha. unfold successes. cbn [omap list_omap]. destruct a as [[|st b]|st b| |]; try done.
  destruct (success (Responded st b)) eqn:E; [|by rewrite andb_false_r].
  rewrite bool_decide_eq_false_2 by by eapply Ha. done.
Qed.

Lemma fly_lookup rid q ph rows s r q' ph' :
  idFlight (fly rid q ph rows s) !! r = Some (q', ph') ->
  (r = rid /\ q' = q /\ ph' = ph) \/ (r <> rid /\ idFlight s !! r = Some (q', ph')).
Proof.
  cbn. destruct (decide (r = rid)) as [->|Hne].
  - rewrite lookup_insert_eq. intros [= <- <-]. by left.
  - rewrite lookup_insert_ne by done. by right.
Qed.

Lemma answer_lookup rid q a rows s r q' ph' :
  idFlight (answer rid q a rows s) !! r = Some (q', ph') ->
  r <> rid /\ idFlight s !! r = Some (q', ph').
Proof. cbn. intros [Hne H]%lookup_delete_Some. auto. Qed.

Lemma arrive_inv now rid q s :
  idemInv s -> idFlight s !! rid = None -> idemInv (arrive now true rid q s).
Proof.
  intros [Hu Hw Hs Hr Hp Hk] Hnew. unfold arrive. destruct (keyOf q) as [k|] eqn:Ek; cbn [negb].
  - destruct (idRows s !! k) as [row|] eqn:Erow.
    + split; [intros r q' [(_ & _ & ?)|[_ H]]%fly_lookup; [done|eauto]
             |intros r q' k' [(_ & _ & ?)|[_ H]]%fly_lookup; [done|eauto]
             |intros r1 r2 q1 q2 k' [(_ & _ & ?)|[_ H1]]%fly_lookup [(_ & _ & ?)|[_ H2]]%fly_lookup; eauto; done
             |done|done|intros q' r ph [(-> & -> & ->)|[_ H]]%fly_lookup Hne; [by rewrite Ek|eauto]].
    + assert (Hnok : forall r q', idFlight s !! r = Some (q', Winner) -> keyOf q' <> Some k).
      { intros r q' H1 H2. destruct (Hw r q' k H1 H2) as [c Hc]. congruence. }
      split.
      * intros r q' [(_ & _ & ?)|[_ H]]%fly_lookup; [done|eauto].
      * intros r q' k' [(-> & -> & _)|[_ H]]%fly_lookup Hkq; cbn.
        -- rewrite Ek in Hkq. injection Hkq as <-. exists now. by rewrite lookup_insert_eq.
        -- rewrite lookup_insert_ne; [by eapply Hw|]. intros <-. by eapply Hnok.
      * intros r1 r2 q1 q2 k' [(-> & -> & _)|[_ H1]]%fly_lookup [(-> & -> & _)|[_ H2]]%fly_lookup Hk1 Hk2; try done.
        -- rewrite Ek in Hk1. injection Hk1 as <-. by destruct (Hnok _ _ H2).
        -- rewrite Ek in Hk2. injection Hk2 as <-. by destruct (Hnok _ _ H1).
        -- by eapply Hs.
      * intros k'. cbn. destruct (decide (k' = k)) as [->|Hne].
        -- rewrite lookup_insert_eq. specialize (Hr k). by rewrite Erow in Hr.
        -- rewrite lookup_insert_ne by done. apply Hr.
      * done.
      * intros q' r ph [(-> & -> & ->)|[_ H]]%fly_lookup Hne; [by rewrite Ek|eauto].
  - split; [intros r q' [(_ & -> & _)|[_ H]]%fly_lookup; [done|eauto]
           |intros r q' k' [(_ & _ & ?)|[_ H]]%fly_lookup; [done|eauto]
           |intros r1 r2 q1 q2 k' [(_ & _ & ?)|[_ H1]]%fly_lookup [(_ & _ & ?)|[_ H2]]%fly_lookup; eauto; done
           |done|done|intros q' r ph [(-> & -> & ->)|[_ H]]%fly_lookup Hne; [done|eauto]].
Qed.

(** Answering a request that did not execute leaves the rest as it is. *)
Lemma answer_inv rid q a s :
  idemInv s -> (forall r, a <> Executed r) ->
  (forall st b k, a = Replayed st b -> keyOf q = Some k -> successes k (idAnswers s) = [(rqHash q, st, b)]) ->
  idemInv (answer rid q a (idRows s) s).
Proof.
  intros [Hu Hw Hs Hr Hp Hk] Ha Hrep.
  assert (Hsame : forall k, successes k ((q, a) :: idAnswers s) = successes k (idAnswers s)).
  { intros k. apply successes_other. intros st b Heq. by apply Ha in Heq. }
  split.
  - intros r q' [_ H]%answer_lookup. eauto.
  - intros r q' k [_ H]%answer_lookup. eauto.
  - intros r1 r2 q1 q2 k [_ H1]%answer_lookup [_ H2]%answer_lookup. eauto.
  - intros k. cbn [answer idRows idAnswers]. rewrite Hsame. apply Hr.
  - intros q' st b k Hin Hkq. cbn [answer idAnswers] in *. rewrite Hsame.
    apply elem_of_cons in Hin as [[= -> <-]|Hin]; [by apply (Hrep st b k)|by apply Hp].
  - intros q' r ph [_ H]%answer_lookup. eauto.
Qed.

Lemma lookup_inv cfg now rid q k s :
  idemInv s -> keyOf q = Some k -> is_Some (idRows s !! k) ->
  (forall row, idRows s !! k = Some row ->
     now - irCreated row <= icTtl cfg
     /\ (irStatus row = Pending -> now - irCreated row <= icPendingTimeout cfg)) ->
  idemInv (lookup_ cfg now true rid q k s).
Proof.
  intros Hi Ek [row Erow] Ht. destruct (Ht row Erow) as [H1 H2]. unfold lookup_. rewrite Erow. cbv zeta.
  destruct (icTtl cfg <? now - irCreated row) eqn:E1; [lia|].
  case_bool_decide as Hh; cbn [negb]; [|by apply answer_inv].
  destruct (irStatus row) as [|st b] eqn:Est.
  - destruct (icPendingTimeout cfg <? now - irCreated row) eqn:E2; [specialize (H2 eq_refl); lia|].
    by apply answer_inv.
  - apply answer_inv; [done|done|]. intros st' b' k' [= <- <-] Hk'.
    rewrite Ek in Hk'. injection Hk' as <-. pose proof (ii_rows s Hi k) as Hr. rewrite Erow in Hr.
    destruct row as [h rs c]. cbn in *. subst rs h. done.
Qed.

Lemma finish_unprotected_inv db rid q r s :
  idemInv s -> keyOf q = None -> idemInv (finish db rid q Unprotected r s).
Proof.
  intros [Hu Hw Hs Hr Hp Hk] Ek.
  assert (Hsame : forall k, successes k ((q, Executed r) :: idAnswers s) = successes k (idAnswers s)).
  { intros k. apply successes_other. intros st b _ _. by rewrite Ek. }
  split.
  - intros r' q' [_ H]%answer_lookup. eauto.
  - intros r' q' k [_ H]%answer_lookup. eauto.
  - intros r1 r2 q1 q2 k [_ H1]%answer_lookup [_ H2]%answer_lookup. eauto.
  - intros k. cbn [finish answer idRows idAnswers]. rewrite Hsame. apply Hr.
  - intros q' st b k Hin Hkq. cbn [finish answer idAnswers] in *. rewrite Hsame.
    apply elem_of_cons in Hin as [[=]|Hin]. by apply Hp.
  - intros q' r' ph [_ H]%answer_lookup. eauto.
Qed.

(** The rows after the end of a winner: its own is completed or gone, the others stay. *)
Lemma finish_winner_inv rid q r s :
  idemInv s -> idFlight s !! rid = Some (q, Winner) -> idemInv (finish true rid q Winner r s).
Proof.
  intros Hi Hrid. pose proof Hi as [Hu Hw Hs Hr Hp Hk].
  destruct (Hk q rid Winner Hrid ltac:(done)) as [k Ek].
  destruct (Hw rid q k Hrid Ek) as [c Erow].
  assert (Hs0 : successes k (idAnswers s) = []) by (specialize (Hr k); by rewrite Erow in Hr).
  assert (Hother : forall r' q' k', r' <> rid -> idFlight s !! r' = Some (q', Winner) ->
            keyOf q' = Some k' -> k' <> k).
  { intros r' q' k' Hne H1 H2 ->. apply Hne. by eapply Hs. }
  assert (Hsucc : forall k', k' <> k ->
            successes k' ((q, Executed r) :: idAnswers s) = successes k' (idAnswers s)).
  { intros k' Hne. apply successes_other. intros st b _ _. rewrite Ek. congruence. }
  set (rows := idRows (finish true rid q Winner r s)).
  assert (Hrows : forall k', k' <> k -> rows !! k' = idRows s !! k').
  { intros k' Hne. unfold rows, finish. rewrite Ek. cbn [negb]. destruct r as [|st b]; cbn [idRows answer].
    - by rewrite lookup_delete_ne.
    - destruct (success _); [|by rewrite lookup_delete_ne].
      unfold completeRow. rewrite Erow. by rewrite lookup_insert_ne. }
  assert (Hk0 : match rows !! k with
                | Some (mkRow h (Completed st b) _) =>
                    successes k ((q, Executed r) :: idAnswers s) = [(h, st, b)]
                | _ => successes k ((q, Executed r) :: idAnswers s) = []
                end).
  { unfold rows, finish. rewrite Ek. cbn [negb]. destruct r as [|st b]; cbn [idRows answer].
    - by rewrite lookup_delete_eq.
    - destruct (success (Responded st b)) eqn:Es.
      + unfold completeRow. rewrite Erow, lookup_insert_eq. cbn [irHash].
        unfold successes. cbn [omap list_omap]. rewrite bool_decide_eq_true_2 by done. rewrite Es. cbn.
        by rewrite <- Hs0.
      + rewrite lookup_delete_eq. rewrite successes_other; [done|].
        intros st' b' [= <- <-]. congruence. }
  assert (Hans : idAnswers (finish true rid q Winner r s) = (q, Executed r) :: idAnswers s) by done.
  split; rewrite ?Hans.
  - intros r' q' [_ H]%answer_lookup. eauto.
  - intros r' q' k' [Hne H]%answer_lookup Hk'. fold rows.
    rewrite Hrows by by eapply Hother. by eapply Hw.
  - intros r1 r2 q1 q2 k' [_ H1]%answer_lookup [_ H2]%answer_lookup. eauto.
  - intros k'. fold rows. destruct (decide (k' = k)) as [->|Hne]; [done|].
    rewrite Hrows, Hsucc by done. apply Hr.
  - intros q' st b k' Hin Hkq. apply elem_of_cons in Hin as [[=]|Hin].
    pose proof (Hp q' st b k' Hin Hkq) as Hpp.
    destruct (decide (k' = k)) as [->|Hne]; [congruence|]. by rewrite Hsucc.
  - intros q' r' ph [_ H]%answer_lookup. eauto.
Qed.

Lemma sweep_timely cfg st s :
  timely cfg st s -> sweep cfg (isNow st) true s = s.
Proof.
  intros (_ & Hrows & _). destruct s as [rows flight answers]. unfold sweep. cbn in *. f_equal.
  apply map_filter_id. intros k row Hrow. cbn. destruct (Hrows k row Hrow). lia.
Qed.

Lemma idemStep_inv cfg st s : idemInv s -> timely cfg st s -> idemInv (idemStep cfg st s).
Proof.
  intros Hi Ht. pose proof Ht as (Hdb & Hrows & Hlook). unfold idemStep. rewrite Hdb.
  destruct (isEvent st) as [rid q|rid|rid r|] eqn:Ee.
  - destruct (idFlight s !! rid) eqn:E; [done|]. by apply arrive_inv.
  - destruct (idFlight s !! rid) as [[q []]|] eqn:E; try done.
    destruct (keyOf q) as [k|] eqn:Ek; [|done]. apply lookup_inv; try done.
    + by apply (Hlook rid q k).
    + intros row. apply Hrows.
  - destruct (idFlight s !! rid) as [[q []]|] eqn:E; try done.
    + by apply finish_winner_inv.
    + apply finish_unprotected_inv; [done|]. by apply (ii_unprotected s Hi rid).
  - by rewrite (sweep_timely cfg st s Ht).
Qed.

Lemma idemRun_inv cfg sts s : idemInv s -> timelyRun cfg sts s -> idemInv (idemRun cfg sts s).
Proof.
  unfold idemRun. revert s. induction sts as [|st sts IH]; intros s Hi; [done|].
  intros [Ht Hrest]. cbn [fold_left]. apply IH; [|done]. by apply idemStep_inv.
Qed.


Definition sampleRequest : Request := mkRequest " key-1 " false "621" "h".

Definition sampleIdemSteps : list IdemStep :=
  map (fun e => mkStep e 5 true)
    [Arrive 1 sampleRequest; Arrive 2 sampleRequest; Look 2; Finish 1 (Responded 202 "job"); Sweep;
     Arrive 3 sampleRequest; Look 3].


(** Taking over is not recorded.  When the row of a request that crashed has outlived
    the pending timeout, the next identical request runs its handler without a row of
    its own: when it succeeds nothing is stored, so the request after it runs the
    handler once more instead of being answered from the first. *)
Theorem takeover_not_recorded (cfg : IdemConfig) (s : IdemState) (q : Request) (k : Key)
    (created now : instant) (st : Z) (body body' : string) (r1 r2 : nat) :
  keyOf q = Some k -> idRows s !! k = Some (mkRow (rqHash q) Pending created) ->
  icPendingTimeout cfg < now - created -> idFlight s !! r1 = None -> idFlight s !! r2 = None -> r1 <> r2 ->
  200 <= st < 300 ->
  let run := idemRun cfg (map (fun e => mkStep e now true)
               [Arrive r1 q; Look r1; Finish r1 (Responded st body);
                Arrive r2 q; Finish r2 (Responded st body')]) s in
  successes k (idAnswers run) = (rqHash q, st, body') :: (rqHash q, st, body) :: successes k (idAnswers s)
  /\ idRows run !! k = Some (mkRow (rqHash q) (Completed st body') now).
Proof.
  intros Ek Erow Hlate H1 H2 Hne Hst. cbv zeta. unfold idemRun. cbn [map fold_left].
  set (s1 := idemStep cfg (mkStep (Arrive r1 q) now true) s).
  assert (Hs1 : s1 = fly r1 q Loser (idRows s) s).
  { unfold s1, idemStep. cbn [isEvent isNow isDb]. rewrite H1. unfold arrive. rewrite Ek. cbn [negb].
    by rewrite Erow. }
  set (s2 := idemStep cfg (mkStep (Look r1) now true) s1).
  assert (Hs2 : s2 = fly r1 q Unprotected (delete k (idRows s)) s1).
  { unfold s2, idemStep. cbn [isEvent isNow isDb]. rewrite Hs1. cbn [fly idFlight].
    rewrite lookup_insert_eq, Ek. unfold lookup_. cbn [idRows fly]. rewrite Erow. cbv zeta. cbn [irCreated irHash irStatus].
    destruct (icTtl cfg <? now - created); [done|]. rewrite bool_decide_eq_true_2 by done. cbn [negb].
    destruct (icPendingTimeout cfg <? now - created) eqn:E; [done|lia]. }
  set (s3 := idemStep cfg (mkStep (Finish r1 (Responded st body)) now true) s2).
  assert (Hs3 : s3 = answer r1 q (Executed (Responded st body)) (idRows s2) s2).
  { unfold s3, idemStep. cbn [isEvent isNow isDb]. rewrite Hs2. cbn [fly idFlight]. by rewrite lookup_insert_eq. }
  assert (Hr3 : idRows s3 !! k = None) by (rewrite Hs3, Hs2; cbn; by rewrite lookup_delete_eq).
  assert (Hf3 : idFlight s3 !! r2 = None).
  { rewrite Hs3, Hs2, Hs1. cbn. rewrite lookup_delete_ne, !lookup_insert_ne by congruence. done. }
  set (s4 := idemStep cfg (mkStep (Arrive r2 q) now true) s3).
  assert (Hs4 : s4 = fly r2 q Winner (<[k := mkRow (rqHash q) Pending now]> (idRows s3)) s3).
  { unfold s4, idemStep. cbn [isEvent isNow isDb]. rewrite Hf3. unfold arrive. rewrite Ek. cbn [negb].
    by rewrite Hr3. }
  assert (Hok : forall b, success (Responded st b) = true) by (intros b; cbn; lia).
  unfold idemStep. cbn [isEvent isNow isDb]. rewrite Hs4. cbn [fly idFlight]. rewrite lookup_insert_eq.
  unfold finish. rewrite Ek. cbn [negb]. rewrite Hok. cbn [idRows answer fly idAnswers].
  unfold completeRow. rewrite lookup_insert_eq. split; [|by rewrite lookup_insert_eq].
  assert (Hsucc : forall b l, successes k ((q, Executed (Responded st b)) :: l) = (rqHash q, st, b) :: successes k l).
  { intros b l. unfold successes. cbn [omap list_omap]. rewrite bool_decide_eq_true_2, Hok by done. done. }
  rewrite Hs3, Hs2, Hs1. cbn [answer fly idAnswers]. by rewrite !Hsucc.
Qed.

Lemma takeover_not_recorded_witness :
  let cfg := NewIdempotencyMiddleware 0 0 in
  let k := ("621"%string, "key-1"%string) in
  let s := idemStep cfg (mkStep (Arrive 1 sampleRequest) 0 true) idemInit in
  let run := idemRun cfg (map (fun e => mkStep e (31 * second) true)
               [Arrive 2 sampleRequest; Look 2; Finish 2 (Responded 200 "a");
                Arrive 3 sampleRequest; Finish 3 (Responded 200 "b")]) s in
  successes k (idAnswers run)
  = (rqHash sampleRequest, 200, "b"%string) :: (rqHash sampleRequest, 200, "a"%string) :: successes k (idAnswers s)
  /\ idRows run !! k = Some (mkRow (rqHash sampleRequest) (Completed 200 "b") (31 * second)).
Proof.
  apply (takeover_not_recorded (NewIdempotencyMiddleware 0 0)
    (idemStep (NewIdempotencyMiddleware 0 0) (mkStep (Arrive 1 sampleRequest) 0 true) idemInit)
    sampleRequest ("621"%string, "key-1"%string) 0 (31 * second) 200 "a" "b" 2 3);
    try reflexivity; [done|lia].
Defined.
