(* ===== verification/IncomingBuffer.v ===== *)
(** * The buffer of incoming messages ([internal/whatsapp/incoming_buffer.go])

    A ring of a fixed capacity, against its specification: the last messages received,
    newest first. *)

From Stdlib Require Import ZArith.
From stdpp Require Import numbers list.
From S2P Require Import Prelude GoLang.
#[local] Set Default Proof Using "Type".
#[local] Open Scope Z_scope.

Section ring.
Context {M : Type}.

(** [data] holds nil where nothing was pushed yet. *)
Record incomingBuffer := mkBuffer {
  ibCap : Z;
  ibData : list (option M);
  ibHead : Z;
  ibLen : Z;
}.

(** [newIncomingBuffer(size)]: [make] panics on a negative size. *)
Definition newIncomingBuffer (size : Z) : go incomingBuffer :=
  if size <? 0 then Panic else Ret (mkBuffer size (replicate (Z.to_nat size) None) 0 0).

(** [b.data[i] = m]: out of range panics. *)
Definition store (i : Z) (m : option M) (data : list (option M)) : go (list (option M)) :=
  if (i <? 0) || (Z.of_nat (length data) <=? i) then Panic else Ret (<[Z.to_nat i := m]> data).

(** The remainder: by zero it panics. *)
Definition goRem (a b : Z) : go Z := if b =? 0 then Panic else Ret (Z.rem a b).

Definition Push (m : option M) (b : incomingBuffer) : go incomingBuffer :=
  match m with
  | None => Ret b
  | Some _ =>
      goBind (store (ibHead b) m (ibData b)) (fun data =>
      goBind (goRem (ibHead b + 1) (ibCap b)) (fun head =>
      Ret (mkBuffer (ibCap b) data head (if ibLen b <? ibCap b then ibLen b + 1 else ibLen b))))
  end.

(** The loop of [Latest]: [n] entries backwards from [idx]. *)
Fixpoint backwards (n : nat) (idx cap : Z) (data : list (option M)) : list (option M) :=
  match n with
  | O => []
  | S n => mjoin (data !! Z.to_nat idx) :: backwards n (Z.rem (idx - 1 + cap) cap) cap data
  end.

Definition Latest (n : Z) (b : incomingBuffer) : list (option M) :=
  let n := if ibLen b <? n then ibLen b else n in
  if n <=? 0 then []
  else backwards (Z.to_nat n) (Z.rem (ibHead b - 1 + ibCap b) (ibCap b)) (ibCap b) (ibData b).

Fixpoint pushAll (ms : list M) (b : incomingBuffer) : go incomingBuffer :=
  match ms with
  | [] => Ret b
  | m :: rest => goBind (Push (Some m) b) (pushAll rest)
  end.

(** The ring holds the history [h] (newest first): its [len] latest entries lie backwards
    from the head. *)
Record holds (h : list M) (b : incomingBuffer) : Prop := {
  ho_cap : 0 < ibCap b;
  ho_data : Z.of_nat (length (ibData b)) = ibCap b;
  ho_head : 0 <= ibHead b < ibCap b;
  ho_len : ibLen b = Z.min (ibCap b) (Z.of_nat (length h));
  ho_entry i : 0 <= i < ibLen b ->
    ibData b !! Z.to_nat ((ibHead b - 1 - i) `mod` ibCap b) = Some (h !! Z.to_nat i);
}.

Lemma new_holds size b : 0 < size -> newIncomingBuffer size = Ret b -> holds [] b.
Proof.
  unfold newIncomingBuffer. intros Hs. destruct (size <? 0); [done|]. intros [= <-].
  split; cbn; try lia. rewrite length_replicate. lia.
Qed.

Lemma mod_step a c : 0 < c -> 0 <= a < c -> (a + 1) `mod` c = if a + 1 =? c then 0 else a + 1.
Proof.
  intros Hc Ha. destruct (a + 1 =? c) eqn:E.
  - replace (a + 1) with c by lia. by apply Z.mod_same; lia.
  - apply Z.mod_small. lia.
Qed.

Lemma push_holds h m b :
  holds h b -> exists b', Push (Some m) b = Ret b' /\ holds (m :: h) b'.
Proof.
  intros [Hc Hd Hh Hl He]. unfold Push, store, goRem.
  destruct (_ || _) eqn:E; [lia|]. cbn [goBind]. destruct (ibCap b =? 0) eqn:E0; [lia|].
  eexists. split; [reflexivity|].
  rewrite Z.rem_mod_nonneg by lia.
  pose proof (Z.mod_pos_bound (ibHead b + 1) (ibCap b) Hc) as Hb.
  split; cbn [ibCap ibData ibHead ibLen]; [done|by rewrite length_insert|lia| |].
  - cbn [length]. destruct (ibLen b <? ibCap b) eqn:El; lia.
  - intros i Hi. set (k := (ibHead b + 1) `mod` ibCap b).
    assert (Hpos : (k - 1 - i) `mod` ibCap b = (ibHead b - i) `mod` ibCap b).
    { unfold k. replace ((ibHead b + 1) `mod` ibCap b - 1 - i)
        with ((ibHead b + 1) `mod` ibCap b - (1 + i)) by lia.
      rewrite Zminus_mod_idemp_l. f_equal. lia. }
    rewrite Hpos. destruct (decide (i = 0)) as [->|Hne].
    + rewrite Z.sub_0_r, Z.mod_small by lia. apply list_lookup_insert_eq. lia.
    + assert (Hneq : Z.to_nat (ibHead b) <> Z.to_nat ((ibHead b - i) `mod` ibCap b)).
      { pose proof (Z.mod_pos_bound (ibHead b - i) (ibCap b) Hc) as Hm. intros Heq.
        assert (Heq' : ibHead b = (ibHead b - i) `mod` ibCap b)
          by (apply Z2Nat.inj in Heq; [done|apply Hh|apply Hm]).
        assert (Hi' : 0 < i < ibCap b) by (destruct (ibLen b <? ibCap b) eqn:El; lia).
        destruct (decide (i <= ibHead b)).
        - rewrite Z.mod_small in Heq' by lia. lia.
        - rewrite <- (Z.mod_add _ 1), Z.mod_small in Heq' by lia. lia. }
      rewrite list_lookup_insert_ne by done.
      replace (ibHead b - i) with (ibHead b - 1 - (i - 1)) by lia.
      rewrite He by (destruct (ibLen b <? ibCap b) eqn:El; lia).
      f_equal. replace (Z.to_nat i) with (S (Z.to_nat (i - 1))) by lia. done.
Qed.

Lemma backwards_holds h b n i :
  holds h b -> 0 <= i -> i + Z.of_nat n <= ibLen b ->
  backwards n ((ibHead b - 1 - i) `mod` ibCap b) (ibCap b) (ibData b)
  = map Some (take n (drop (Z.to_nat i) h)).
Proof.
  intros Hb. revert i. pose proof Hb as [Hc Hd Hh Hl He].
  induction n as [|n IH]; intros i Hi Hn; [done|]. cbn [backwards].
  rewrite He by lia. cbn [mjoin option_join].
  assert (Hlen : (Z.to_nat i < length h)%nat) by lia.
  destruct (lookup_lt_is_Some_2 h (Z.to_nat i) Hlen) as [x Hx].
  pose proof (drop_S h x (Z.to_nat i) Hx) as Hdrop. rewrite Hdrop. cbn [take map].
  f_equal; [by rewrite Hx|].
  replace (S (Z.to_nat i)) with (Z.to_nat (i + 1)) by lia.
  rewrite <- IH by lia. f_equal.
  pose proof (Z.mod_pos_bound (ibHead b - 1 - i) (ibCap b) Hc).
  rewrite Z.rem_mod_nonneg by lia.
  replace ((ibHead b - 1 - i) `mod` ibCap b - 1 + ibCap b)
    with ((ibHead b - 1 - i) `mod` ibCap b - 1 + 1 * ibCap b) by lia.
  rewrite Z.mod_add by lia. rewrite Zminus_mod_idemp_l. f_equal. lia.
Qed.

Lemma latest_holds h b n :
  holds h b -> Latest n b = map Some (take (Z.to_nat (Z.min n (ibLen b))) h).
Proof.
  intros Hb. pose proof Hb as [Hc Hd Hh Hl He]. unfold Latest. cbv zeta.
  replace (if ibLen b <? n then ibLen b else n) with (Z.min n (ibLen b))
    by (destruct (ibLen b <? n) eqn:E; lia).
  destruct (Z.min n (ibLen b) <=? 0) eqn:E.
  { by replace (Z.to_nat (Z.min n (ibLen b))) with 0%nat by lia. }
  rewrite Z.rem_mod_nonneg by lia.
  replace (ibHead b - 1 + ibCap b) with (ibHead b - 1 - 0 + 1 * ibCap b) by lia.
  rewrite Z.mod_add by lia. rewrite (backwards_holds h) by (try done; lia).
  by rewrite Z2Nat.inj_0, drop_0.
Qed.

Lemma pushAll_holds ms h b :
  holds h b -> exists b', pushAll ms b = Ret b' /\ holds (reverse ms ++ h) b' /\ ibCap b' = ibCap b.
Proof.
  revert h b. induction ms as [|m ms IH]; intros h b Hb; [by exists b|].
  destruct (push_holds h m b Hb) as (b1 & Hp & Hb1).
  destruct (IH _ b1 Hb1) as (b2 & Hp2 & Hb2 & Hcap). exists b2.
  cbn [pushAll]. rewrite Hp. cbn [goBind]. rewrite Hp2. split; [done|].
  rewrite reverse_cons, <- app_assoc. split; [done|]. rewrite Hcap.
  revert Hp. unfold Push, store, goRem. destruct (_ || _); [done|]. cbn [goBind].
  destruct (ibCap b =? 0); [done|]. by intros [= <-].
Qed.
End ring.

Arguments incomingBuffer M : clear implicits.

(** The ring is the tail of the history.  For a positive capacity, after any pushes,
    none of which panics, [Latest n] returns the [n] most recent messages, newest
    first, or as many as were received, at most the capacity; for a capacity of zero
    the first push panics. *)
Theorem latest_is_recent {M : Type} (size : Z) (ms : list M) (n : Z) :
  0 <= size ->
  exists b, newIncomingBuffer (M := M) size = Ret b
  /\ (0 < size ->
      exists b', pushAll ms b = Ret b'
      /\ Latest n b' = map Some (take (Z.to_nat (Z.min n (Z.min size (Z.of_nat (length ms))))) (reverse ms)))
  /\ (size = 0 -> forall m, Push (Some m) b = Panic).
Proof.
  intros Hs. unfold newIncomingBuffer. destruct (size <? 0) eqn:E; [lia|].
  eexists. split; [reflexivity|]. split.
  - intros Hpos. destruct (pushAll_holds ms [] (mkBuffer size (replicate (Z.to_nat size) None) 0 0))
      as (b' & Hp & Hb & Hcap).
    { apply (new_holds size); [done|]. unfold newIncomingBuffer. by rewrite E. }
    exists b'. split; [done|]. rewrite app_nil_r in Hb. rewrite (latest_holds _ _ _ Hb).
    do 4 f_equal. rewrite (ho_len _ _ Hb), Hcap, length_reverse. done.
  - intros -> m. done.
Qed.

Lemma latest_is_recent_witness :
  exists b, newIncomingBuffer (M := nat) 3 = Ret b
  /\ (0 < 3 ->
      exists b', pushAll [1; 2; 3; 4; 5]%nat b = Ret b'
      /\ Latest 2 b' = map Some (take (Z.to_nat (Z.min 2 (Z.min 3 (Z.of_nat 5)))) (reverse [1; 2; 3; 4; 5]%nat)))
  /\ (3 = 0 -> forall m, Push (Some m) b = Panic).
Proof. apply (latest_is_recent 3 [1; 2; 3; 4; 5]%nat 2). lia. Defined.
