(* ===== verification/Jid.v ===== *)
(** * Addresses ([internal/whatsapp/helper.go])

    Phone numbers and JIDs as the gateway rewrites them: the number of a JID, a JID
    without its device, the masked number of the logs, and the address under which the
    sender of a message is reported. *)

From Stdlib Require Import ZArith Ascii String.
From stdpp Require Import strings numbers list.
From S2P Require Import Prelude GoLang.
#[local] Set Default Proof Using "Type".

Definition at_ : ascii := "@".
Definition colon : ascii := ":".

(** [s[:n]] and [s[n:]] for [n] within the string, and [strings.Index] of one byte. *)
Fixpoint strTake (n : nat) (s : string) : string :=
  match n, s with S n, String a r => String a (strTake n r) | _, _ => "" end.

Fixpoint strDrop (n : nat) (s : string) : string :=
  match n, s with S n, String _ r => strDrop n r | O, _ => s | _, EmptyString => "" end.

Fixpoint indexChar (c : ascii) (s : string) : option nat :=
  match s with
  | EmptyString => None
  | String a r => if Ascii.eqb a c then Some O else S <$> indexChar c r
  end.

(** [phoneNumber[0]] panics on the empty string. *)
Definition WhatsappDecomposeJID (jid : string) : go string :=
  let phoneNumber := if hasChar at_ jid then default "" (head (splitChar at_ jid)) else jid in
  match phoneNumber with
  | EmptyString => Panic
  | String a r => Ret (if Ascii.eqb a "+" then r else phoneNumber)
  end.

Definition StripDeviceIDFromJID (jid : string) : string :=
  match indexChar at_ jid with
  | None => jid
  | Some atIdx =>
      match indexChar colon (strTake atIdx jid) with
      | None => jid
      | Some colonIdx => strTake colonIdx jid +:+ strDrop atIdx jid
      end
  end.

Definition MaskedPhoneNumber (phoneNumber : string) : string :=
  let n := String.length phoneNumber in
  if (n <? 4)%nat then phoneNumber else strTake (n - 4) phoneNumber +:+ "xxxx".

Definition pnSuffix : string := "@s.whatsapp.net".
Definition lidSuffix : string := "@lid".

(** [ConvertJIDToNonADLID] over the JIDs of whatsmeow: their text, whether one is empty,
    and the store's map from LIDs to phone numbers ([None] for the function when there
    is no client with a store, [None] as its answer when it fails). *)
Section convert.
Context {J : Type} (text : J -> string) (isEmpty : J -> bool).

Definition ConvertJIDToNonADLID (senderJID senderAlt chatJID : J) (getPNForLID : option (J -> option J))
    : string * string :=
  let senderStr := text senderJID in
  if hasSuffix pnSuffix senderStr then (StripDeviceIDFromJID senderStr, "pn"%string)
  else if hasSuffix lidSuffix senderStr then
    let altStr := text senderAlt in
    if hasSuffix pnSuffix altStr then (StripDeviceIDFromJID altStr, "pn"%string)
    else
      let resolved := getPNForLID ≫= (fun get => get senderJID) in
      match resolved with
      | Some j =>
          if negb (isEmpty j) && hasSuffix pnSuffix (text j) then (StripDeviceIDFromJID (text j), "pn"%string)
          else if hasSuffix pnSuffix (text chatJID) then (StripDeviceIDFromJID (text chatJID), "pn"%string)
          else (StripDeviceIDFromJID senderStr, "lid"%string)
      | None =>
          if hasSuffix pnSuffix (text chatJID) then (StripDeviceIDFromJID (text chatJID), "pn"%string)
          else (StripDeviceIDFromJID senderStr, "lid"%string)
      end
  else (StripDeviceIDFromJID senderStr, "pn"%string).
End convert.

(** ** Lemmas *)

Lemma strTake_app u v : strTake (String.length u) (u +:+ v) = u.
Proof.
  induction u as [|a u IH]; [by destruct v|].
  change (String a u +:+ v) with (String a (u +:+ v)). cbn [String.length strTake]. by rewrite IH.
Qed.

Lemma strDrop_app u v : strDrop (String.length u) (u +:+ v) = v.
Proof.
  induction u as [|a u IH]; [by destruct v|].
  change (String a u +:+ v) with (String a (u +:+ v)). cbn [String.length strDrop]. done.
Qed.

Lemma hasChar_cons c a s : hasChar c (String a s) = Ascii.eqb a c || hasChar c s.
Proof. unfold hasChar. cbn [stringAll]. by rewrite negb_andb, negb_involutive. Qed.

Lemma indexChar_app c u v :
  hasChar c u = false -> indexChar c (u +:+ String c v) = Some (String.length u).
Proof.
  induction u as [|a u IH].
  - intros _. change ("" +:+ String c v) with (String c v). cbn [indexChar].
    by rewrite Ascii.eqb_refl.
  - rewrite hasChar_cons. intros [Ha Hu]%orb_false_iff.
    change (String a u +:+ String c v) with (String a (u +:+ String c v)). cbn [indexChar].
    by rewrite Ha, IH.
Qed.

Lemma indexChar_none c s : hasChar c s = false -> indexChar c s = None.
Proof.
  induction s as [|a s IH]; [done|]. rewrite hasChar_cons. intros [Ha Hs]%orb_false_iff.
  cbn [indexChar]. by rewrite Ha, IH.
Qed.

(** A string that holds a byte splits at its first occurrence. *)
Lemma hasChar_split c s : hasChar c s = true -> exists u v, s = u +:+ String c v /\ hasChar c u = false.
Proof.
  induction s as [|a s IH]; [done|]. rewrite hasChar_cons.
  destruct (Ascii.eqb_spec a c) as [->|Hne]; cbn [orb].
  - intros _. by exists "", s.
  - intros (u & v & -> & Hu)%IH. exists (String a u), v. split; [done|].
    rewrite hasChar_cons, Hu. by rewrite (proj2 (Ascii.eqb_neq a c)).
Qed.

Lemma str_app_assoc (a b c : string) : (a +:+ b) +:+ c = a +:+ (b +:+ c).
Proof.
  induction a as [|x a IH]; [done|].
  change (String x a +:+ b) with (String x (a +:+ b)).
  change (String x (a +:+ b) +:+ c) with (String x ((a +:+ b) +:+ c)). by rewrite IH.
Qed.

Lemma hasSuffix_app p u : hasSuffix p (u +:+ p) = true.
Proof.
  induction u as [|a u IH].
  - change ("" +:+ p) with p. destruct p; cbn [hasSuffix]; by rewrite bool_decide_eq_true_2.
  - change (String a u +:+ p) with (String a (u +:+ p)). cbn [hasSuffix].
    by rewrite IH, orb_true_r.
Qed.

Lemma hasSuffix_true p s : hasSuffix p s = true <-> exists u, s = u +:+ p.
Proof.
  split; [|intros [u ->]; apply hasSuffix_app].
  induction s as [|a s IH]; cbn [hasSuffix]; intros H; bool_simpl; destruct H as [H|H]; bool_simpl.
  - by exists ""; subst p.
  - done.
  - by exists ""; subst p.
  - destruct (IH H) as [u ->]. by exists (String a u).
Qed.

(** Removing the device: [user:device@server] becomes [user@server]. *)
Lemma strip_device user device server :
  hasChar at_ user = false -> hasChar colon user = false -> hasChar at_ device = false ->
  StripDeviceIDFromJID (user +:+ String colon device +:+ String at_ server) = user +:+ String at_ server.
Proof.
  intros Hu Hc Hd. unfold StripDeviceIDFromJID.
  assert (Hat : hasChar at_ (user +:+ String colon device) = false).
  { rewrite hasChar_app, hasChar_cons, Hu, Hd. done. }
  replace (user +:+ String colon device +:+ String at_ server)
    with ((user +:+ String colon device) +:+ String at_ server) by apply str_app_assoc.
  rewrite indexChar_app by done. rewrite strTake_app, indexChar_app by done.
  rewrite strDrop_app. f_equal. by rewrite str_app_assoc, strTake_app.
Qed.

Lemma strip_plain user server :
  hasChar at_ user = false -> hasChar colon user = false ->
  StripDeviceIDFromJID (user +:+ String at_ server) = user +:+ String at_ server.
Proof.
  intros Hu Hc. unfold StripDeviceIDFromJID. rewrite indexChar_app by done.
  by rewrite strTake_app, indexChar_none.
Qed.

(** Any JID: either nothing to strip, or a user, a device and a server. *)
Lemma jid_cases jid :
  StripDeviceIDFromJID jid = jid
  \/ exists user device server,
       jid = user +:+ String colon device +:+ String at_ server
       /\ hasChar at_ user = false /\ hasChar colon user = false /\ hasChar at_ device = false.
Proof.
  destruct (hasChar at_ jid) eqn:Ha.
  2:{ left. unfold StripDeviceIDFromJID. by rewrite indexChar_none. }
  destruct (hasChar_split _ _ Ha) as (u & v & -> & Hu).
  destruct (hasChar colon u) eqn:Hc; [|left; by apply strip_plain].
  destruct (hasChar_split _ _ Hc) as (user & device & -> & Huser). right.
  rewrite hasChar_app, hasChar_cons in Hu. bool_simpl.
  exists user, device, v. split; [apply str_app_assoc|]. done.
Qed.

Lemma str_app_cons a s t : String a s +:+ t = String a (s +:+ t).
Proof. reflexivity. Qed.

(** A suffix that starts with the at sign survives. *)
Lemma hasSuffix_app_at p u v :
  hasChar at_ u = false -> hasSuffix (String at_ p) (u +:+ v) = hasSuffix (String at_ p) v.
Proof.
  induction u as [|a u IH]; [done|]. rewrite hasChar_cons, str_app_cons. intros [Ha Hu]%orb_false_iff.
  cbn [hasSuffix]. rewrite IH by done. apply Ascii.eqb_neq in Ha.
  rewrite bool_decide_eq_false_2 by congruence. done.
Qed.

Lemma strip_suffix p jid :
  hasSuffix (String at_ p) (StripDeviceIDFromJID jid) = hasSuffix (String at_ p) jid.
Proof.
  destruct (jid_cases jid) as [->|(user & device & server & -> & Hu & Hc & Hd)]; [done|].
  rewrite strip_device by done. rewrite (hasSuffix_app_at p user) by done.
  rewrite <- str_app_assoc, hasSuffix_app_at; [done|].
  by rewrite hasChar_app, hasChar_cons, Hu, Hd.
Qed.

Lemma strip_idempotent jid : StripDeviceIDFromJID (StripDeviceIDFromJID jid) = StripDeviceIDFromJID jid.
Proof.
  destruct (jid_cases jid) as [Heq|(user & device & server & -> & Hu & Hc & Hd)]; [by rewrite Heq|].
  rewrite strip_device by done. by apply strip_plain.
Qed.

(** Two numbers that differ in their last four digits look the same in the logs. *)
Lemma mask_hides p a b :
  String.length a = 4%nat -> String.length b = 4%nat ->
  MaskedPhoneNumber (p +:+ a) = MaskedPhoneNumber (p +:+ b).
Proof.
  assert (Hlen : forall x, String.length (p +:+ x) = (String.length p + String.length x)%nat).
  { intros x. induction p as [|c p IH]; [done|]. rewrite str_app_cons. cbn [String.length]. by rewrite IH. }
  intros Ha Hb. unfold MaskedPhoneNumber. rewrite !Hlen, Ha, Hb.
  replace (String.length p + 4 - 4)%nat with (String.length p) by lia. rewrite !strTake_app.
  by replace (String.length p + 4 <? 4)%nat with false by lia.
Qed.

(** The numbers that make [WhatsappDecomposeJID] panic. *)
Lemma decompose_panics jid :
  WhatsappDecomposeJID jid = Panic <-> jid = "" \/ exists r, jid = String at_ r.
Proof.
  unfold WhatsappDecomposeJID. destruct (hasChar at_ jid) eqn:Ha.
  - destruct (hasChar_split _ _ Ha) as (u & v & -> & Hu). rewrite splitChar_app by done. cbn [head from_option].
    destruct u as [|a u]; [change ("" +:+ String at_ v) with (String at_ v); split; [eauto|done]|].
    split; [done|]. intros [|[r [= -> _]]]; [done|]. by rewrite hasChar_cons, Ascii.eqb_refl in Hu.
  - destruct jid as [|a r]; [split; auto|]. split; [done|]. intros [|[r' [= -> ->]]]; [done|].
    by rewrite hasChar_cons, Ascii.eqb_refl in Ha.
Qed.

(** ** Properties *)

Section properties.
Context {J : Type} (text : J -> string) (isEmpty : J -> bool).

(** The phone numbers known for a sender, in the order they are tried. *)
Definition candidates (senderAlt chat : J) (sender : J) (get : option (J -> option J)) : list string :=
  List.filter (hasSuffix pnSuffix)
    ([text senderAlt]
     ++ match get ≫= (fun g => g sender) with
        | Some j => if isEmpty j then [] else [text j]
        | None => []
        end
     ++ [text chat]).

(** The sender of a message is reported under a phone number whenever one is
    known.  A sender that is a phone number is reported as it is, without its device;
    a sender that is a LID is reported under the first phone number among its
    alternative address, the store's mapping and the chat, in mode [pn], and as the
    LID itself, in mode [lid], only when there is none; in mode [pn] the address is
    then a phone number.  Any other sender is reported as it is but in mode [pn] all
    the same. *)
Theorem sender_resolution (sender senderAlt chat : J) (get : option (J -> option J)) :
  let '(from, mode) := ConvertJIDToNonADLID text isEmpty sender senderAlt chat get in
  let strip := StripDeviceIDFromJID in
  from = strip from
  /\ (if hasSuffix pnSuffix (text sender) then (from, mode) = (strip (text sender), "pn"%string)
      else if hasSuffix lidSuffix (text sender) then
        (from, mode) = match candidates senderAlt chat sender get with
                       | s :: _ => (strip s, "pn"%string)
                       | [] => (strip (text sender), "lid"%string)
                       end
        /\ (mode = "pn"%string -> hasSuffix pnSuffix from = true)
      else (from, mode) = (strip (text sender), "pn"%string) /\ hasSuffix pnSuffix from = false).
Proof.
  unfold ConvertJIDToNonADLID, candidates. cbv zeta.
  destruct (hasSuffix pnSuffix (text sender)) eqn:Es; [by rewrite strip_idempotent|].
  destruct (hasSuffix lidSuffix (text sender)) eqn:El.
  - destruct (get ≫= _) as [j|]; [destruct (isEmpty j)|]; cbn [negb andb app List.filter];
      repeat case_match; simplify_eq/=;
      (split; [by rewrite strip_idempotent|]); (split; [done|]); intros; try done;
      unfold pnSuffix in *; by rewrite strip_suffix.
  - rewrite strip_idempotent. unfold pnSuffix in *. by rewrite strip_suffix.
Qed.
End properties.
