(* ===== verification/MessagePayload.v ===== *)
(** * What a received message becomes

    The payload of direct delivery ([internal/whatsapp/handler.go]), the payload of the
    queue's worker ([internal/queue/handlers/incoming_event_handler.go]) and the entry
    of the polled buffer ([internal/whatsapp/incoming_buffer.go]), three translations of
    the same event. *)

From Stdlib Require Import Floats ZArith Ascii String.
From stdpp Require Import strings numbers gmap list.
From S2P Require Import Prelude GoLang Jid.
#[local] Set Default Proof Using "Type".

(** ** The event *)

(** A media message of the protocol, with its getters ([GetURL] and the like return the
    zero value of an absent field); the MIME type as the pointer it is. *)
Record Media := mkMedia {
  mdURL : string;
  mdMimetype : option string;
  mdFileLength : Z;
  mdSHA256 : string;
  mdCaption : string;
  mdFileName : string;
}.

Definition GetMimetype (m : Media) : string := default "" (mdMimetype m).

Record Place := mkPlace {
  plLatitude : option float;
  plLongitude : option float;
  plName : string;
  plAddress : string;
}.

Record Poll := mkPoll { poName : string; poOptions : list string; poSelectable : Z }.

(** [evt.Message], with a field per kind of content the code looks at. *)
Record Content := mkContent {
  ctConversation : option string;
  ctExtendedText : option (option string);
  ctImage : option Media;
  ctVideo : option Media;
  ctAudio : option Media;
  ctDocument : option Media;
  ctSticker : option Media;
  ctContact : option (option string);
  ctLocation : option Place;
  ctPoll : option Poll;
}.

Record Event := mkEvent {
  evID : string;
  evChat : string;
  evFrom : string;
  evAddressing : string;
  evIsGroup : bool;
  evPushName : string;
  evTimestamp : Z;
  evMessage : option Content;
}.

(** ** JSON values *)

Inductive Scalar :=
  | SStr (s : string) | SInt (z : Z) | SBool (b : bool) | SNum (f : float) | SStrs (l : list string).

Abbreviation MediaInfo := (gmap string Scalar).

Inductive Value := VScalar (s : Scalar) | VMedia (m : MediaInfo).

Abbreviation Payload := (gmap string Value).

Definition put (k : string) (s : Scalar) (p : Payload) : Payload := <[k := VScalar s]> p.

(** [p[k] = v] when [v] is not the empty string. *)
Definition putText (k v : string) (p : Payload) : Payload :=
  if bool_decide (v = "") then p else put k (SStr v) p.

Definition infoText (k v : string) (m : MediaInfo) : MediaInfo :=
  if bool_decide (v = "") then m else <[k := SStr v]> m.

Definition putOpt {A} (k : string) (f : A -> Scalar) (o : option A) (p : Payload) : Payload :=
  match o with Some x => put k (f x) p | None => p end.

(** ** Media *)

(** The answer of [DownloadAndStoreMedia]: a URL, and whether it failed; there may be no
    downloader. *)
Abbreviation Downloader := (option (Media -> string -> string * bool)).

Definition downloadMedia (dl : Downloader) (m : Media) (mediaType : string) : string * bool :=
  match dl with None => (""%string, false) | Some f => f m mediaType end.

Definition stored (r : string * bool) : bool := negb r.2 && negb (bool_decide (r.1 = ""%string)).

(** The entries every kind of media starts with. *)
Definition mediaBase (mediaType : string) (m : Media) : MediaInfo :=
  <["size" := SInt (mdFileLength m)]>
    (<["mime_type" := SStr (GetMimetype m)]> {["type" := SStr mediaType]}).

Definition stickerBase (m : Media) : MediaInfo :=
  match mdMimetype m with
  | Some t => <["mime_type" := SStr t]> {["type" := SStr "sticker"]}
  | None => {["type" := SStr "sticker"]}
  end.

Module Direct.
Definition setUrl (r : string * bool) (whatsappURL : string) (i : MediaInfo) : MediaInfo :=
  <["url" := SStr (if stored r then r.1 else whatsappURL)]> i.

Definition buildImageMediaInfo (m : Media) (r : string * bool) : MediaInfo :=
  infoText "caption" (mdCaption m) (setUrl r (mdURL m) (mediaBase "image" m)).

Definition buildVideoMediaInfo (m : Media) (r : string * bool) : MediaInfo :=
  infoText "caption" (mdCaption m) (setUrl r (mdURL m) (mediaBase "video" m)).

Definition buildAudioMediaInfo (m : Media) (r : string * bool) : MediaInfo :=
  setUrl r (mdURL m) (mediaBase "audio" m).

Definition buildDocumentMediaInfo (m : Media) (r : string * bool) : MediaInfo :=
  setUrl r (mdURL m) (<["file_name" := SStr (mdFileName m)]> (mediaBase "document" m)).

Definition buildStickerMediaInfo (m : Media) (r : string * bool) : MediaInfo :=
  setUrl r (mdURL m) (stickerBase m).
End Direct.

Module Queued.
Definition setUrl (r : string * bool) (whatsappURL : string) (i : MediaInfo) : MediaInfo :=
  if stored r then <["storage_url" := SStr r.1]> (<["url" := SStr r.1]> i)
  else <["whatsapp_url" := SStr whatsappURL]> (<["url" := SStr whatsappURL]> i).

Definition hashed (m : Media) (i : MediaInfo) : MediaInfo := <["sha256" := SStr (mdSHA256 m)]> i.

Definition buildImageMediaInfo (m : Media) (r : string * bool) : MediaInfo :=
  infoText "caption" (mdCaption m) (setUrl r (mdURL m) (hashed m (mediaBase "image" m))).

Definition buildVideoMediaInfo (m : Media) (r : string * bool) : MediaInfo :=
  infoText "caption" (mdCaption m) (setUrl r (mdURL m) (hashed m (mediaBase "video" m))).

Definition buildAudioMediaInfo (m : Media) (r : string * bool) : MediaInfo :=
  setUrl r (mdURL m) (hashed m (mediaBase "audio" m)).

Definition buildDocumentMediaInfo (m : Media) (r : string * bool) : MediaInfo :=
  setUrl r (mdURL m) (hashed m (<["file_name" := SStr (mdFileName m)]> (mediaBase "document" m))).

Definition buildStickerMediaInfo (m : Media) (r : string * bool) : MediaInfo :=
  setUrl r (mdURL m) (stickerBase m).
End Queued.

(** ** Payloads *)

Definition basePayload (e : Event) : Payload :=
  put "push_name" (SStr (evPushName e))
    (put "is_group" (SBool (evIsGroup e))
    (put "chat" (SStr (evChat e))
    (put "addressing_mode" (SStr (evAddressing e))
    (put "from" (SStr (evFrom e))
    (put "timestamp" (SInt (evTimestamp e))
    (put "message_id" (SStr (evID e))
    (put "event" (SStr "message.incoming") ∅))))))).

Definition typed (t : string) (p : Payload) : Payload := put "type" (SStr t) p.

Definition withMedia (t : string) (i : MediaInfo) (p : Payload) : Payload :=
  <["media" := VMedia i]> (typed t p).

(** [*ExtendedTextMessage.Text]: dereferencing nil panics. *)
Definition textOf (t : option string) (p : Payload) : go Payload :=
  match t with None => Panic | Some s => Ret (put "text" (SStr s) (typed "text" p)) end.

Definition locationPayload (l : Place) (p : Payload) : Payload :=
  putText "address" (plAddress l)
    (putText "name" (plName l)
    (putOpt "longitude" SNum (plLongitude l)
    (putOpt "latitude" SNum (plLatitude l) (typed "location" p)))).

Definition pollPayload (o : Poll) (p : Payload) : Payload :=
  put "selectable_count" (SInt (poSelectable o))
    (put "options" (SStrs (poOptions o)) (put "question" (SStr (poName o)) (typed "poll" p))).

(** The payload of direct delivery. *)
Definition buildDirectPayload (dl : Downloader) (e : Event) : go Payload :=
  let p := basePayload e in
  match evMessage e with
  | None => Ret p
  | Some c =>
      match ctConversation c, ctExtendedText c, ctImage c, ctVideo c, ctAudio c with
      | Some s, _, _, _, _ => Ret (put "text" (SStr s) (typed "text" p))
      | _, Some t, _, _, _ => textOf t p
      | _, _, Some m, _, _ =>
          Ret (withMedia "image" (Direct.buildImageMediaInfo m (downloadMedia dl m "image")) p)
      | _, _, _, Some m, _ =>
          Ret (withMedia "video" (Direct.buildVideoMediaInfo m (downloadMedia dl m "video")) p)
      | _, _, _, _, Some m =>
          Ret (withMedia "audio" (Direct.buildAudioMediaInfo m (downloadMedia dl m "audio")) p)
      | None, None, None, None, None =>
          match ctDocument c, ctSticker c, ctContact c, ctLocation c, ctPoll c with
          | Some m, _, _, _, _ =>
              Ret (withMedia "document" (Direct.buildDocumentMediaInfo m (downloadMedia dl m "document")) p)
          | _, Some m, _, _, _ =>
              Ret (withMedia "sticker" (Direct.buildStickerMediaInfo m (downloadMedia dl m "sticker")) p)
          | _, _, Some name, _, _ => Ret (putOpt "display_name" SStr name (typed "contact" p))
          | _, _, _, Some l, _ => Ret (locationPayload l p)
          | _, _, _, _, Some o => Ret (pollPayload o p)
          | None, None, None, None, None => Ret (typed "unknown" p)
          end
      end
  end.

(** The payload of the queue's worker: media first, no case for contacts and none for
    what is left. *)
Definition buildQueuedPayload (dl : Downloader) (e : Event) : go Payload :=
  let p := basePayload e in
  match evMessage e with
  | None => Ret p
  | Some c =>
      match ctImage c, ctVideo c, ctAudio c, ctDocument c, ctSticker c with
      | Some m, _, _, _, _ =>
          Ret (withMedia "image" (Queued.buildImageMediaInfo m (downloadMedia dl m "image")) p)
      | _, Some m, _, _, _ =>
          Ret (withMedia "video" (Queued.buildVideoMediaInfo m (downloadMedia dl m "video")) p)
      | _, _, Some m, _, _ =>
          Ret (withMedia "audio" (Queued.buildAudioMediaInfo m (downloadMedia dl m "audio")) p)
      | _, _, _, Some m, _ =>
          Ret (withMedia "document" (Queued.buildDocumentMediaInfo m (downloadMedia dl m "document")) p)
      | _, _, _, _, Some m =>
          Ret (withMedia "sticker" (Queued.buildStickerMediaInfo m (downloadMedia dl m "sticker")) p)
      | None, None, None, None, None =>
          match ctConversation c, ctExtendedText c, ctLocation c, ctPoll c with
          | Some s, _, _, _ => Ret (put "text" (SStr s) (typed "text" p))
          | _, Some t, _, _ => textOf t p
          | _, _, Some l, _ => Ret (locationPayload l p)
          | _, _, _, Some o => Ret (pollPayload o p)
          | None, None, None, None => Ret p
          end
      end
  end.

(** ** The buffered message *)

Record IncomingMedia := mkIncomingMedia {
  imdType : string; imdMimeType : string; imdSize : Z; imdFileName : string; imdCaption : string;
}.

Record IncomingMessage := mkIncoming {
  imMessageID : string;
  imChat : string;
  imFrom : string;
  imAddressingMode : string;
  imIsGroup : bool;
  imPushName : string;
  imTimestamp : Z;
  imType : string;
  imText : string;
  imMedia : option IncomingMedia;
}.

Definition toIncomingMessage (evt : option Event) : option IncomingMessage :=
  e ← evt;
  let m := mkIncoming (evID e) (evChat e) (evFrom e) (evAddressing e) (evIsGroup e) (evPushName e)
             (evTimestamp e) in
  let media t x name caption := Some (mkIncomingMedia t (GetMimetype x) (mdFileLength x) name caption) in
  Some match evMessage e with
  | None => m "unknown"%string ""%string None
  | Some c =>
      match ctConversation c, ctExtendedText c, ctImage c, ctVideo c, ctAudio c with
      | Some s, _, _, _, _ => m "text"%string s None
      | _, Some t, _, _, _ => m "text"%string (default ""%string t) None
      | _, _, Some x, _, _ => m "image"%string ""%string (media "image"%string x ""%string (mdCaption x))
      | _, _, _, Some x, _ => m "video"%string ""%string (media "video"%string x ""%string (mdCaption x))
      | _, _, _, _, Some x => m "audio"%string ""%string (media "audio"%string x ""%string ""%string)
      | None, None, None, None, None =>
          match ctDocument c, ctSticker c, ctContact c, ctLocation c with
          | Some x, _, _, _ =>
              m "document"%string ""%string (media "document"%string x (mdFileName x) ""%string)
          | _, Some x, _, _ =>
              m "sticker"%string ""%string
                (Some (mkIncomingMedia "sticker" (GetMimetype x) 0 "" ""))
          | _, _, Some _, _ => m "contact"%string ""%string None
          | _, _, _, Some _ => m "location"%string ""%string None
          | None, None, None, None => m "unknown"%string ""%string None
          end
      end
  end.

(** ** Properties *)

Inductive Kind :=
  | KText | KExtended | KImage | KVideo | KAudio | KDocument | KSticker | KContact | KLocation | KPoll.

#[export] Instance Kind_eq_dec : EqDecision Kind.
Proof. solve_decision. Defined.

Definition kindName (k : Kind) : string :=
  match k with
  | KText | KExtended => "text" | KImage => "image" | KVideo => "video" | KAudio => "audio"
  | KDocument => "document" | KSticker => "sticker" | KContact => "contact"
  | KLocation => "location" | KPoll => "poll"
  end.

Definition has {A} (k : Kind) (o : option A) : list Kind := match o with Some _ => [k] | None => [] end.

(** The kinds of content a message carries. *)
Definition kinds (c : Content) : list Kind :=
  has KText (ctConversation c) ++ has KExtended (ctExtendedText c) ++ has KImage (ctImage c)
  ++ has KVideo (ctVideo c) ++ has KAudio (ctAudio c) ++ has KDocument (ctDocument c)
  ++ has KSticker (ctSticker c) ++ has KContact (ctContact c) ++ has KLocation (ctLocation c)
  ++ has KPoll (ctPoll c).

(** A payload of the queue without the entries direct delivery does not send. *)
Definition simplify (p : Payload) : Payload :=
  (fun v => match v with
            | VMedia i => VMedia (delete "sha256" (delete "storage_url" (delete "whatsapp_url" i)))
            | v => v
            end) <$> p.

Ltac one_kind c H :=
  destruct c as [t x i v a d st co l po]; unfold kinds in H;
  cbn [ctConversation ctExtendedText ctImage ctVideo ctAudio ctDocument ctSticker ctContact
       ctLocation ctPoll] in H;
  repeat match type of H with
    | context [has _ ?o] => destruct o; cbn [has app] in H; try discriminate H
    end; injection H as <-.

Ltac case_scalars :=
  repeat match goal with
    | |- context [infoText _ (mdCaption ?m)] => unfold infoText; destruct (bool_decide (mdCaption m = ""))
    | |- context [stored ?r] => destruct (stored r)
    | |- context [match mdMimetype ?m with _ => _ end] => destruct (mdMimetype m)
    | |- context [match plLatitude ?m with _ => _ end] => destruct (plLatitude m)
    | |- context [match plLongitude ?m with _ => _ end] => destruct (plLongitude m)
    | |- context [bool_decide (plName ?m = "")] => destruct (bool_decide (plName m = ""))
    | |- context [bool_decide (plAddress ?m = "")] => destruct (bool_decide (plAddress m = ""))
    end.

(** The three translations of a message with one kind of content agree, up to what
    is known to differ.  Direct delivery and the queue send the same payload, but for
    the media's hash and the URLs it repeats, with the type of the content; the entry of
    the buffer has the same type.  Except: a contact sent through the queue has neither
    type nor name; a poll is buffered as unknown; an extended text without text panics
    in both payloads, while the buffer takes it as an empty text. *)
Theorem translations_agree (dl : Downloader) (e : Event) (c : Content) (k : Kind) :
  evMessage e = Some c -> kinds c = [k] ->
  exists b, toIncomingMessage (Some e) = Some b
  /\ imType b = (if decide (k = KPoll) then "unknown"%string else kindName k)
  /\ (if decide (ctExtendedText c = Some None) then
        buildDirectPayload dl e = Panic /\ buildQueuedPayload dl e = Panic /\ imText b = ""%string
      else exists pd pq, buildDirectPayload dl e = Ret pd /\ buildQueuedPayload dl e = Ret pq
           /\ pd !! "type" = Some (VScalar (SStr (kindName k)))
           /\ if decide (k = KContact) then pq = delete "display_name" (delete "type" pd) /\ pq !! "type" = None
              else simplify pq = pd).
Proof.
  intros He Hk. destruct e as [id ch fr ad gr pn ts m]. cbn in He. subst m.
  one_kind c Hk.
  all: cbn [mbind option_bind toIncomingMessage buildDirectPayload buildQueuedPayload evMessage
    ctConversation ctExtendedText ctImage ctVideo ctAudio ctDocument ctSticker ctContact ctLocation ctPoll].
  all: eexists; (split; [reflexivity|]); (split; [reflexivity|]).
  all: cbn [imText textOf]; try (destruct o as [s|]); goal_decide; simplify_eq; try done.
  all: cbn [textOf]; eexists _, _; (split; [reflexivity|]); (split; [reflexivity|]).
  all: unfold withMedia, locationPayload, pollPayload, putText, putOpt,
    Direct.buildImageMediaInfo, Direct.buildVideoMediaInfo, Direct.buildAudioMediaInfo,
    Direct.buildDocumentMediaInfo, Direct.buildStickerMediaInfo, Queued.buildImageMediaInfo,
    Queued.buildVideoMediaInfo, Queued.buildAudioMediaInfo, Queued.buildDocumentMediaInfo,
    Queued.buildStickerMediaInfo, Direct.setUrl, Queued.setUrl, stickerBase.
  all: case_scalars.
  all: split; [reflexivity|]; try (split; reflexivity); reflexivity.
Qed.


Definition sampleContact : Content :=
  mkContent None None None None None None None (Some (Some "Ana"%string)) None None.

Definition sampleEvent (c : Content) : Event :=
  mkEvent "m1" "1@s.whatsapp.net" "1@s.whatsapp.net" "pn" false "Bo" 7 (Some c).

Lemma translations_agree_witness :
  exists b, toIncomingMessage (Some (sampleEvent sampleContact)) = Some b
  /\ imType b = "contact"%string
  /\ exists pd pq, buildDirectPayload None (sampleEvent sampleContact) = Ret pd
     /\ buildQueuedPayload None (sampleEvent sampleContact) = Ret pq
     /\ pd !! "type" = Some (VScalar (SStr "contact"))
     /\ pq = delete "display_name" (delete "type" pd) /\ pq !! "type" = None.
Proof.
  apply (translations_agree None (sampleEvent sampleContact) sampleContact KContact); reflexivity.
Defined.
