(* ===== verification/UrlGuard.v ===== *)
(** * The guard of webhook addresses

    [internal/utils/url_utils.go] and the dialer of
    [internal/whatsapp/webhook_sender.go]: which hosts a webhook may reach. *)

From Stdlib Require Import ZArith String.
From stdpp Require Import strings numbers list.
From S2P Require Import Prelude GoLang.
#[local] Set Default Proof Using "Type".
#[local] Open Scope Z_scope.

(** ** Package [net]: addresses are byte slices *)

Abbreviation IP := (list Z).

(** [ip.To4()]. *)
Definition To4 (ip : IP) : option IP :=
  if bool_decide (length ip = 4%nat) then Some ip
  else if bool_decide (length ip = 16%nat) && bool_decide (take 12 ip = replicate 10 0 ++ [255; 255])
       then Some (drop 12 ip) else None.

(** The mask of [ones] leading bits over [n] bytes. *)
Fixpoint CIDRMask (ones : Z) (n : nat) : list Z :=
  match n with
  | O => []
  | S n => (if 8 <=? ones then 255 else 256 - 2 ^ (8 - ones)) :: CIDRMask (Z.max 0 (ones - 8)) n
  end.

Record IPNet := mkNet { netIP : IP; netOnes : Z }.

(** [network.Contains(ip)]. *)
Definition Contains (net : IPNet) (ip : IP) : bool :=
  let ip := default ip (To4 ip) in
  let mask := CIDRMask (netOnes net) (length (netIP net)) in
  bool_decide (length ip = length (netIP net))
  && bool_decide (zip_with Z.land (netIP net) mask = zip_with Z.land ip mask).

Definition byteAt (ip : IP) (i : nat) : Z := default 0 (ip !! i).

Definition IsLoopback (ip : IP) : bool :=
  match To4 ip with
  | Some ip4 => byteAt ip4 0 =? 127
  | None => bool_decide (ip = replicate 15 0 ++ [1])
  end.

Definition IsLinkLocalUnicast (ip : IP) : bool :=
  match To4 ip with
  | Some ip4 => (byteAt ip4 0 =? 169) && (byteAt ip4 1 =? 254)
  | None => bool_decide (length ip = 16%nat) && (byteAt ip 0 =? 254) && (Z.land (byteAt ip 1) 192 =? 128)
  end.

Definition IsLinkLocalMulticast (ip : IP) : bool :=
  match To4 ip with
  | Some ip4 => (byteAt ip4 0 =? 224) && (byteAt ip4 1 =? 0) && (byteAt ip4 2 =? 0)
  | None => bool_decide (length ip = 16%nat) && (byteAt ip 0 =? 255) && (Z.land (byteAt ip 1) 15 =? 2)
  end.

Definition IsPrivate (ip : IP) : bool :=
  match To4 ip with
  | Some ip4 =>
      (byteAt ip4 0 =? 10)
      || (byteAt ip4 0 =? 172) && (Z.land (byteAt ip4 1) 240 =? 16)
      || (byteAt ip4 0 =? 192) && (byteAt ip4 1 =? 168)
  | None => bool_decide (length ip = 16%nat) && (Z.land (byteAt ip 0) 254 =? 252)
  end.

(** ** The guard *)

Definition privateCIDRs : list IPNet :=
  [mkNet [127; 0; 0; 0] 8; mkNet [10; 0; 0; 0] 8; mkNet [172; 16; 0; 0] 12;
   mkNet [192; 168; 0; 0] 16; mkNet [169; 254; 0; 0] 16; mkNet [0; 0; 0; 0] 8].

Definition IsPrivateIP (ip : IP) : bool :=
  let ip := default ip (To4 ip) in
  existsb (fun block => Contains block ip) privateCIDRs
  || (IsLoopback ip || IsLinkLocalUnicast ip || IsLinkLocalMulticast ip || IsPrivate ip).

(** A parsed URL, as far as the code reads it. *)
Record Url := mkUrl { urlScheme : string; urlHost : string; urlHostname : string }.

Inductive UrlError :=
  | InvalidStructure | UnsupportedScheme | MissingHost | Unresolved | Blocked (ip : IP).

(** [ParseRequestURI] of package [net/url] and the resolver are arguments. *)
Section validate.
Context (parse : string -> option Url) (lookup : string -> option (list IP)).

Definition validateStructure (raw : string) : UrlError + Url :=
  match parse raw with
  | None => inl InvalidStructure
  | Some u =>
      if negb (bool_decide (urlScheme u = "http"%string))
         && negb (bool_decide (urlScheme u = "https"%string)) then inl UnsupportedScheme
      else if bool_decide (urlHost u = ""%string) then inl MissingHost
      else inr u
  end.

Definition firstPrivate (ips : list IP) : option IP := head (List.filter IsPrivateIP ips).

Definition validateSSRF (u : Url) : option UrlError :=
  match lookup (urlHostname u) with
  | None => Some Unresolved
  | Some ips => Blocked <$> firstPrivate ips
  end.

Definition ValidateURL (raw : string) : option UrlError :=
  match validateStructure raw with
  | inl e => Some e
  | inr u => validateSSRF u
  end.
End validate.

(** What [ssrfSafeDialContext] does: an error, or a connection attempt to an address.
    [split] is [net.SplitHostPort]; [ips[0]] of an empty answer panics. *)
Inductive Dial := DialError | DialTo (ip : IP) (port : string).

Definition ssrfSafeDialContext (split : string -> option (string * string))
    (lookup : string -> option (list IP)) (addr : string) : go Dial :=
  match split addr with
  | None => Ret DialError
  | Some (host, port) =>
      match lookup host with
      | None => Ret DialError
      | Some ips =>
          match firstPrivate ips with
          | Some _ => Ret DialError
          | None => match ips with [] => Panic | ip :: _ => Ret (DialTo ip port) end
          end
      end
  end.

(** ** Lemmas *)

(** The number of an address, most significant byte first. *)
Definition ipNumber (ip : IP) : Z := fold_left (fun acc b => 256 * acc + b) ip 0.

Definition isByte (b : Z) : Prop := 0 <= b < 256.

(** A fact of one byte is checked on the 256 of them. *)
Lemma byte_check (p : Z -> bool) : forallb p (seqZ 0 256) = true -> forall b, isByte b -> p b = true.
Proof.
  rewrite forallb_forall. intros H b Hb. apply H, list_elem_of_In, elem_of_seqZ. unfold isByte in Hb. lia.
Qed.

Lemma land_240 b : isByte b -> (Z.land b 240 =? 16) = (16 <=? b) && (b <? 32).
Proof. intros Hb. apply (byte_check (fun b => eqb (Z.land b 240 =? 16) ((16 <=? b) && (b <? 32)))) in Hb; [by apply eqb_prop|by vm_compute]. Qed.

Lemma land_192 b : isByte b -> (Z.land b 192 =? 128) = (128 <=? b) && (b <? 192).
Proof. intros Hb. apply (byte_check (fun b => eqb (Z.land b 192 =? 128) ((128 <=? b) && (b <? 192)))) in Hb; [by apply eqb_prop|by vm_compute]. Qed.

Lemma land_15 b : isByte b -> (Z.land b 15 =? 2) = (b `mod` 16 =? 2).
Proof. intros Hb. apply (byte_check (fun b => eqb (Z.land b 15 =? 2) (b `mod` 16 =? 2))) in Hb; [by apply eqb_prop|by vm_compute]. Qed.

Lemma land_254 b : isByte b -> (Z.land b 254 =? 252) = (252 <=? b) && (b <? 254).
Proof. intros Hb. apply (byte_check (fun b => eqb (Z.land b 254 =? 252) ((252 <=? b) && (b <? 254)))) in Hb; [by apply eqb_prop|by vm_compute]. Qed.

Lemma land_255 b : isByte b -> Z.land b 255 = b.
Proof. intros Hb. apply (byte_check (fun b => Z.land b 255 =? b)) in Hb; [lia|by vm_compute]. Qed.

Lemma quad_eq (x1 x2 x3 x4 y1 y2 y3 y4 : Z) :
  bool_decide ([x1; x2; x3; x4] = [y1; y2; y3; y4])
  = (x1 =? y1) && (x2 =? y2) && (x3 =? y3) && (x4 =? y4).
Proof.
  apply eq_iff_eq_true. rewrite bool_decide_eq_true, !andb_true_iff, !Z.eqb_eq.
  split; [by intros [= -> -> -> ->]|by intros [[[-> ->] ->] ->]].
Qed.

(** Membership in a network of IPv4, byte by byte. *)
Lemma contains_v4 n1 n2 n3 n4 ones m1 m2 m3 m4 a b c d :
  CIDRMask ones 4 = [m1; m2; m3; m4] ->
  Contains (mkNet [n1; n2; n3; n4] ones) [a; b; c; d]
  = (Z.land n1 m1 =? Z.land a m1) && (Z.land n2 m2 =? Z.land b m2)
    && (Z.land n3 m3 =? Z.land c m3) && (Z.land n4 m4 =? Z.land d m4).
Proof.
  intros Hm. unfold Contains. cbn [netIP netOnes]. unfold To4.
  rewrite bool_decide_eq_true_2 by done. change (default [a; b; c; d] (Some [a; b; c; d])) with [a; b; c; d]. cbn [length].
  rewrite Hm.
  rewrite (bool_decide_eq_true_2 (4 = 4)%nat) by done. cbn [zip_with]. apply quad_eq.
Qed.

(** The guard on an IPv4 address. *)
Lemma private_v4 a b c d :
  isByte a -> isByte b ->
  IsPrivateIP [a; b; c; d]
  = (a =? 127) || (a =? 10) || (a =? 172) && ((16 <=? b) && (b <? 32)) || (a =? 192) && (b =? 168)
    || (a =? 169) && (b =? 254) || (a =? 0) || (a =? 224) && (b =? 0) && (c =? 0).
Proof.
  intros Ha Hb. unfold IsPrivateIP. change (To4 [a; b; c; d]) with (Some [a; b; c; d]).
  change (default [a; b; c; d] (Some [a; b; c; d])) with [a; b; c; d].
  unfold privateCIDRs. cbn [existsb].
  rewrite !(contains_v4 _ _ _ _ 8 255 0 0 0), !(contains_v4 _ _ _ _ 16 255 255 0 0),
    (contains_v4 _ _ _ _ 12 255 240 0 0) by reflexivity.
  rewrite !Z.land_0_r, !(land_255 a), !(land_255 b) by done.
  unfold IsLoopback, IsLinkLocalUnicast, IsLinkLocalMulticast, IsPrivate.
  change (To4 [a; b; c; d]) with (Some [a; b; c; d]). cbv iota beta.
  change (byteAt [a; b; c; d] 0) with a. change (byteAt [a; b; c; d] 1) with b.
  change (byteAt [a; b; c; d] 2) with c.
  rewrite land_240 by done.
  change (Z.land 16 240) with 16. rewrite (Z.eqb_sym 16 (Z.land b 240)), land_240 by done.
  change (Z.land 127 255) with 127. change (Z.land 10 255) with 10. change (Z.land 172 255) with 172.
  change (Z.land 192 255) with 192. change (Z.land 169 255) with 169. change (Z.land 0 255) with 0.
  change (Z.land 168 255) with 168. change (Z.land 254 255) with 254.
  rewrite !(Z.eqb_sym _ a), !(Z.eqb_sym _ b). rewrite !Z.eqb_refl, !andb_true_r.
  destruct (a =? 127), (a =? 10), (a =? 172), (a =? 192), (a =? 169), (a =? 0), (a =? 224),
    (b =? 168), (b =? 254), (b =? 0), (16 <=? b), (b <? 32), (c =? 0); reflexivity.
Qed.

(** An IPv6 address that is not a mapped IPv4 one is in none of the networks. *)
Lemma contains_v6 n1 n2 n3 n4 ones ip :
  length ip = 16%nat -> To4 ip = None -> Contains (mkNet [n1; n2; n3; n4] ones) ip = false.
Proof.
  intros Hl H4. unfold Contains. rewrite H4. cbn [netIP default]. change (default ip None) with ip.
  by rewrite bool_decide_eq_false_2 by (rewrite Hl; cbn; lia).
Qed.

Lemma private_v6 ip :
  length ip = 16%nat -> To4 ip = None -> isByte (byteAt ip 0) -> isByte (byteAt ip 1) ->
  IsPrivateIP ip
  = bool_decide (ip = replicate 15 0 ++ [1])
    || (byteAt ip 0 =? 254) && ((128 <=? byteAt ip 1) && (byteAt ip 1 <? 192))
    || (byteAt ip 0 =? 255) && (byteAt ip 1 `mod` 16 =? 2)
    || ((252 <=? byteAt ip 0) && (byteAt ip 0 <? 254)).
Proof.
  intros Hl H4 H0 H1. unfold IsPrivateIP. rewrite H4. change (default ip None) with ip.
  unfold privateCIDRs. cbn [existsb]. rewrite !contains_v6 by done.
  unfold IsLoopback, IsLinkLocalUnicast, IsLinkLocalMulticast, IsPrivate.
  rewrite H4, Hl. rewrite (bool_decide_eq_true_2 (16 = 16)%nat) by done. rewrite land_192, land_15, land_254 by done.
  destruct (bool_decide (ip = _)), (byteAt ip 0 =? 254), (byteAt ip 0 =? 255); reflexivity.
Qed.

(** A mapped address is treated as the IPv4 address it stands for. *)
Lemma private_mapped ip4 :
  length ip4 = 4%nat -> IsPrivateIP (replicate 10 0 ++ [255; 255] ++ ip4) = IsPrivateIP ip4.
Proof.
  intros Hl. unfold IsPrivateIP.
  assert (Hm : To4 (replicate 10 0 ++ [255; 255] ++ ip4) = Some ip4).
  { unfold To4. rewrite bool_decide_eq_false_2 by (cbn; lia).
    rewrite bool_decide_eq_true_2 by (cbn; lia). done. }
  assert (H4 : To4 ip4 = Some ip4) by (unfold To4; by rewrite bool_decide_eq_true_2).
  by rewrite Hm, H4.
Qed.

(** ** Properties *)

(** The numeric ranges of IPv4: the listed networks, and 224.0.0.0/24. *)
Definition guardedRanges : list (Z * Z) :=
  [(0x00000000, 0x00ffffff); (0x0a000000, 0x0affffff); (0x7f000000, 0x7fffffff);
   (0xa9fe0000, 0xa9feffff); (0xac100000, 0xac1fffff); (0xc0a80000, 0xc0a8ffff);
   (0xe0000000, 0xe00000ff)].

Definition inRanges (l : list (Z * Z)) (n : Z) : bool := existsb (fun r => (r.1 <=? n) && (n <=? r.2)) l.

(** The guard blocks exactly its ranges.  An IPv4 address, plain or mapped into IPv6,
    is blocked when its number lies in one of the seven ranges (this network, 10/8,
    loopback, link-local, 172.16/12, 192.168/16 and the local multicast block); any other
    IPv6 address when it is ::1, link-local unicast or multicast, or unique-local.  The
    unspecified address :: is none of these and passes. *)
Theorem guard_ranges :
  (forall a b c d, isByte a -> isByte b -> isByte c -> isByte d ->
     IsPrivateIP [a; b; c; d] = inRanges guardedRanges (ipNumber [a; b; c; d])
     /\ IsPrivateIP (replicate 10 0 ++ [255; 255; a; b; c; d]) = IsPrivateIP [a; b; c; d])
  /\ (forall ip, length ip = 16%nat -> Forall isByte ip -> To4 ip = None ->
     IsPrivateIP ip = true
     <-> ip = replicate 15 0 ++ [1]
         \/ 0xfe80 <= ipNumber (take 2 ip) <= 0xfebf
         \/ (byteAt ip 0 = 255 /\ byteAt ip 1 `mod` 16 = 2)
         \/ 0xfc00 <= ipNumber (take 2 ip) <= 0xfdff)
  /\ IsPrivateIP (replicate 16 0) = false.
Proof.
  split; [|split; [|by vm_compute]].
  - intros a b c d Ha Hb Hc Hd. split; [|by apply private_mapped].
    rewrite private_v4 by done. unfold inRanges, guardedRanges, ipNumber. cbn [existsb fold_left fst snd].
    unfold isByte in *. lia.
  - intros ip Hl Hall H4.
    destruct ip as [|x0 [|x1 rest]]; [done|done|].
    apply Forall_cons in Hall as [H0 Hall]. apply Forall_cons in Hall as [H1 _].
    rewrite private_v6 by done. change (byteAt (x0 :: x1 :: rest) 0) with x0.
    change (byteAt (x0 :: x1 :: rest) 1) with x1.
    unfold ipNumber. cbn [take fold_left]. rewrite take_0. cbn [fold_left]. unfold isByte in *.
    destruct (bool_decide_reflect (x0 :: x1 :: rest = replicate 15 0 ++ [1])) as [He|He].
    + split; [by left|done].
    + split.
      * intros Hb. right. lia.
      * intros [|Hb]; [done|]. lia.
Qed.

(** C37: the guard holds at the connection, not only at the registration.  A webhook is
    only ever connected to an address that is not private, and the first one of the
    answer the guard has just seen, whatever the resolver answered when the URL was
    validated; an answer with one private address connects nowhere, and so does a
    failure. *)
Theorem dial_never_private (split : string -> option (string * string))
    (lookup : string -> option (list IP)) (addr host port : string) (ips : list IP) :
  split addr = Some (host, port) -> lookup host = Some ips ->
  match ssrfSafeDialContext split lookup addr with
  | Panic => ips = []
  | Ret (DialTo ip p) => head ips = Some ip /\ p = port /\ Forall (fun i => IsPrivateIP i = false) ips
  | Ret DialError => Exists (fun i => IsPrivateIP i = true) ips
  end.
Proof.
  intros Hs Hl. unfold ssrfSafeDialContext. rewrite Hs, Hl. unfold firstPrivate.
  destruct (List.filter IsPrivateIP ips) as [|ip rest] eqn:E; cbn [head].
  - assert (Hall : Forall (fun i => IsPrivateIP i = false) ips).
    { apply Forall_forall. intros i Hi. apply not_true_iff_false. intros Hp.
      assert (Hin : In i (List.filter IsPrivateIP ips))
        by (apply filter_In; split; [by apply list_elem_of_In|done]).
      by rewrite E in Hin. }
    destruct ips as [|ip ips]; [done|]. done.
  - apply Exists_exists. exists ip.
    assert (Hin : In ip (List.filter IsPrivateIP ips)) by (rewrite E; by left).
    apply filter_In in Hin as [Hin Hp]. split; [by apply list_elem_of_In|done].
Qed.

(** [localhost] and a public host, as a resolver answers them. *)
Definition sampleLookup (host : string) : option (list IP) :=
  if bool_decide (host = "example.com"%string) then Some [[93; 184; 216; 34]]
  else if bool_decide (host = "rebind.test"%string) then Some [[93; 184; 216; 34]; [127; 0; 0; 1]]
  else None.

Definition sampleSplit (addr : string) : option (string * string) :=
  match splitChar (Ascii.ascii_of_nat 58) addr with [h; p] => Some (h, p) | _ => None end.

Lemma dial_never_private_witness :
  ssrfSafeDialContext sampleSplit sampleLookup "example.com:443" = Ret (DialTo [93; 184; 216; 34] "443")
  /\ match ssrfSafeDialContext sampleSplit sampleLookup "rebind.test:80" with
     | Panic => [[93; 184; 216; 34]; [127; 0; 0; 1]] = []
     | Ret (DialTo ip p) =>
         head [[93; 184; 216; 34]; [127; 0; 0; 1]] = Some ip /\ p = "80"%string
         /\ Forall (fun i => IsPrivateIP i = false) [[93; 184; 216; 34]; [127; 0; 0; 1]]
     | Ret DialError => Exists (fun i => IsPrivateIP i = true) [[93; 184; 216; 34]; [127; 0; 0; 1]]
     end.
Proof.
  split; [reflexivity|].
  apply (dial_never_private sampleSplit sampleLookup "rebind.test:80" "rebind.test" "80"
           [[93; 184; 216; 34]; [127; 0; 0; 1]]); reflexivity.
Defined.

(** An accepted URL is http or https, names a host, and its host resolves to nothing
    private at the time. *)
Lemma accepted_url (parse : string -> option Url) (lookup : string -> option (list IP)) (raw : string) :
  ValidateURL parse lookup raw = None ->
  exists u ips, parse raw = Some u /\ (urlScheme u = "http" \/ urlScheme u = "https")%string
  /\ urlHost u <> ""%string /\ lookup (urlHostname u) = Some ips
  /\ forall ip, ip ∈ ips -> IsPrivateIP ip = false.
Proof.
  unfold ValidateURL, validateStructure, validateSSRF, firstPrivate.
  destruct (parse raw) as [u|]; [|done]. destruct (_ && _) eqn:Es; [done|].
  destruct (bool_decide (urlHost u = _)) eqn:Eh; [done|]. destruct (lookup _) as [ips|] eqn:El; [|done].
  destruct (List.filter IsPrivateIP ips) as [|ip r] eqn:E; [|done]. intros _.
  exists u, ips. split; [done|]. bool_simpl. split; [destruct Es; bool_simpl; auto|]. split; [done|].
  split; [done|]. intros ip Hip. apply not_true_iff_false. intros Hp.
  assert (Hin : In ip (List.filter IsPrivateIP ips))
    by (apply filter_In; split; [by apply list_elem_of_In|done]).
  by rewrite E in Hin.
Qed.
