(* ===== verification/Cipher.v ===== *)
(** * Secrets at rest ([pkg/cipherx/chiper.go])

    Envelope encryption of the webhooks' HMAC secrets: a fresh data key encrypts the
    secret, the master key encrypts the data key, and the four parts are stored in
    base64, separated by colons. *)

From Stdlib Require Import ZArith NArith Ascii String.
From stdpp Require Import strings numbers list.
From S2P Require Import Prelude GoLang.
#[local] Set Default Proof Using "Type".

(** Byte slices and strings are both sequences of bytes. *)
Abbreviation bytes := string (only parsing).

(** ** Package [encoding/base64]: [StdEncoding] *)

Definition enc6 (n : N) : ascii :=
  ascii_of_N (if n <? 26 then 65 + n else if n <? 52 then 71 + n else if n <? 62 then n - 4
              else if n =? 62 then 43 else 47)%N.

Definition dec6 (a : ascii) : option N :=
  let c := N_of_ascii a in
  (if (65 <=? c) && (c <=? 90) then Some (c - 65)
   else if (97 <=? c) && (c <=? 122) then Some (c - 71)
   else if (48 <=? c) && (c <=? 57) then Some (c + 4)
   else if c =? 43 then Some 62 else if c =? 47 then Some 63 else None)%N.

Definition pad : ascii := "=".

Fixpoint encodeList (s : list ascii) : list ascii :=
  match s with
  | [] => []
  | [a] => let a := N_of_ascii a in [enc6 (a / 4); enc6 (a `mod` 4 * 16); pad; pad]%N
  | [a; b] =>
      let a := N_of_ascii a in let b := N_of_ascii b in
      [enc6 (a / 4); enc6 (a `mod` 4 * 16 + b / 16); enc6 (b `mod` 16 * 4); pad]%N
  | a :: b :: c :: r =>
      let a := N_of_ascii a in let b := N_of_ascii b in let c := N_of_ascii c in
      [enc6 (a / 4); enc6 (a `mod` 4 * 16 + b / 16); enc6 (b `mod` 16 * 4 + c / 64); enc6 (c `mod` 64)]%N
      ++ encodeList r
  end.

Definition EncodeToString (s : bytes) : string :=
  string_of_list_ascii (encodeList (list_ascii_of_string s)).

Definition byte1 (i j : N) : ascii := ascii_of_N (i * 4 + j / 16).
Definition byte2 (j k : N) : ascii := ascii_of_N (j `mod` 16 * 16 + k / 4).
Definition byte3 (k l : N) : ascii := ascii_of_N (k `mod` 4 * 64 + l).

(** The quanta of four characters; padding only at the end. *)
Fixpoint decodeList (s : list ascii) : option (list ascii) :=
  match s with
  | [] => Some []
  | w :: x :: y :: z :: r =>
      i ← dec6 w; j ← dec6 x;
      if Ascii.eqb y pad then
        if Ascii.eqb z pad && match r with [] => true | _ => false end then Some [byte1 i j] else None
      else
        k ← dec6 y;
        if Ascii.eqb z pad then match r with [] => Some [byte1 i j; byte2 j k] | _ => None end
        else l ← dec6 z; rest ← decodeList r; Some (byte1 i j :: byte2 j k :: byte3 k l :: rest)
  | _ => None
  end.

(** The decoder skips line breaks wherever they are. *)
Definition lineBreak (a : ascii) : bool :=
  let c := N_of_ascii a in ((c =? 10) || (c =? 13))%N.

Definition DecodeString (s : string) : option bytes :=
  string_of_list_ascii <$> decodeList (List.filter (fun a => negb (lineBreak a)) (list_ascii_of_string s)).

(** ** The cipher *)

(** AES-GCM of package [crypto/cipher]: keys of 16, 24 or 32 bytes, nonces of twelve. *)
Class Aead := {
  seal : bytes -> bytes -> bytes -> bytes;
  unseal : bytes -> bytes -> bytes -> option bytes;
}.

(** Its documented law: what was sealed opens under the same key and nonce. *)
Class AeadLaws (A : Aead) := open_seal key nonce plain : unseal key nonce (seal key nonce plain) = Some plain.

Definition DEKSize : nat := 32.
Definition NonceSize : nat := 12.
Definition Version : string := "1".

Definition aesKey (key : bytes) : bool :=
  let n := String.length key in (n =? 16)%nat || (n =? 24)%nat || (n =? 32)%nat.

Section cipher.
Context {A : Aead} (MasterKey : bytes).

(** [aesGCMEncrypt] with the nonce the random source gave, [None] for an error. *)
Definition aesGCMEncrypt (key plaintext nonce : bytes) : option (bytes * bytes) :=
  if aesKey key then Some (nonce, seal key nonce plaintext) else None.

(** [gcm.Open] panics on a nonce of another length. *)
Definition aesGCMDecrypt (key nonce ciphertext : bytes) : go (option bytes) :=
  if negb (aesKey key) then Ret None
  else if negb (String.length nonce =? NonceSize)%nat then Panic
  else Ret (unseal key nonce ciphertext).

(** What [crypto/rand] gives to one call of [Encrypt]. *)
Record Random := mkRandom { rnDek : bytes; rnNonceData : bytes; rnNonceDek : bytes }.

Definition Encrypt (rand : option Random) (plainText : string) : option string :=
  if negb (String.length MasterKey =? 32)%nat then None
  else
    r ← rand;
    data ← aesGCMEncrypt (rnDek r) plainText (rnNonceData r);
    dek ← aesGCMEncrypt MasterKey (rnDek r) (rnNonceDek r);
    Some (joinWith ":" [Version; EncodeToString dek.1; EncodeToString dek.2;
                        EncodeToString data.1; EncodeToString data.2]).

Definition Decrypt (blob : string) : go (option string) :=
  match splitChar ":" blob with
  | [_; p1; p2; p3; p4] =>
      match DecodeString p1, DecodeString p2, DecodeString p3, DecodeString p4 with
      | Some nonceDEK, Some encDEK, Some nonceData, Some encData =>
          goBind (aesGCMDecrypt MasterKey nonceDEK encDEK) (fun dek =>
          match dek with
          | None => Ret None
          | Some dek => aesGCMDecrypt dek nonceData encData
          end)
      | _, _, _, _ => Ret None
      end
  | _ => Ret None
  end.
End cipher.

(** ** Lemmas *)

Lemma six_check (p : N -> bool) : forallb p (N.of_nat <$> seq 0 64) = true -> forall n, (n < 64)%N -> p n = true.
Proof.
  rewrite forallb_forall. intros H n Hn. apply H, list_elem_of_In, list_elem_of_fmap.
  exists (N.to_nat n). split; [lia|]. apply elem_of_seq. lia.
Qed.

Lemma dec6_enc6 n : (n < 64)%N -> dec6 (enc6 n) = Some n.
Proof.
  intros Hn. apply (six_check (fun n => bool_decide (dec6 (enc6 n) = Some n))) in Hn; [by bool_simpl|].
  by vm_compute.
Qed.

(** What base64 writes is neither a colon nor a line break, and only padding is padding. *)
Definition plain64 (a : ascii) : bool := negb (Ascii.eqb a ":") && negb (lineBreak a).

Lemma enc6_plain n : (n < 64)%N -> plain64 (enc6 n) && negb (Ascii.eqb (enc6 n) pad) = true.
Proof. revert n. apply six_check. by vm_compute. Qed.

Lemma enc6_plain64 n : (n < 64)%N -> plain64 (enc6 n) = true.
Proof. intros H%enc6_plain. by bool_simpl. Qed.

Lemma enc6_not_pad n : (n < 64)%N -> Ascii.eqb (enc6 n) pad = false.
Proof. intros H%enc6_plain. by bool_simpl. Qed.

Lemma byte_bound a : (N_of_ascii a < 256)%N.
Proof. apply N_ascii_bounded. Qed.

(** Induction by three bytes at a time. *)
Lemma three_ind (P : list ascii -> Prop) :
  P [] -> (forall a, P [a]) -> (forall a b, P [a; b]) ->
  (forall a b c r, P r -> P (a :: b :: c :: r)) -> forall s, P s.
Proof.
  intros H0 H1 H2 H3 s. remember (length s) as n eqn:Hn. revert s Hn.
  induction (lt_wf n) as [n _ IH]. intros [|a [|b [|c r]]] ->; [done|done|done|].
  apply H3, (IH (length r)); [cbn; lia|done].
Qed.

Lemma ascii_of_N_eq n a : n = N_of_ascii a -> ascii_of_N n = a.
Proof. intros ->. apply ascii_N_embedding. Qed.

Ltac six := repeat match goal with |- context [N_of_ascii ?a] =>
  match goal with H : (N_of_ascii a < 256)%N |- _ => fail 1 | _ => pose proof (byte_bound a) end end.

Ltac bits := six; lia.

Lemma encode_plain s : Forall (fun a => plain64 a = true) (encodeList s).
Proof.
  induction s as [|a|a b|a b c r IH] using three_ind; cbn [encodeList app];
    repeat apply Forall_cons_2; try done; try (apply enc6_plain64; bits).
Qed.

Lemma decode_encode s : decodeList (encodeList s) = Some s.
Proof.
  induction s as [|a|a b|a b c r IH] using three_ind; [done|..]; cbn [encodeList app decodeList];
    rewrite !dec6_enc6 by bits; cbn [mbind option_bind];
    rewrite ?(enc6_not_pad (_ * 4)), ?(enc6_not_pad (_ * 4 + _)), ?(enc6_not_pad (_ `mod` 64)) by bits;
    rewrite ?Ascii.eqb_refl, ?IH; cbn [andb mbind option_bind]; repeat f_equal;
    apply ascii_of_N_eq; bits.
Qed.

Lemma filter_plain s : List.filter (fun a => negb (lineBreak a)) (encodeList s) = encodeList s.
Proof.
  apply allb_filter, allb_Forall. eapply Forall_impl; [apply encode_plain|].
  intros a Ha. unfold plain64 in Ha. cbn in *. by bool_simpl; apply negb_true_iff.
Qed.

(** Decoding what was encoded. *)
Lemma base64_roundtrip s : DecodeString (EncodeToString s) = Some s.
Proof.
  unfold DecodeString, EncodeToString. rewrite list_ascii_of_string_of_list_ascii, filter_plain, decode_encode.
  cbn. by rewrite string_of_list_ascii_of_string.
Qed.

Lemma base64_no_colon s : hasChar ":" (EncodeToString s) = false.
Proof.
  apply not_true_iff_false. rewrite hasChar_elem. unfold EncodeToString.
  rewrite list_ascii_of_string_of_list_ascii. intros Hin.
  pose proof (encode_plain (list_ascii_of_string s)) as Hall. rewrite Forall_forall in Hall.
  by apply Hall in Hin.
Qed.

Lemma encrypt_decrypt {A : Aead} `{!AeadLaws A} (MasterKey plainText : string) (r : Random) :
  String.length (rnDek r) = DEKSize -> String.length (rnNonceData r) = NonceSize ->
  String.length (rnNonceDek r) = NonceSize ->
  match Encrypt MasterKey (Some r) plainText with
  | Some blob => String.length MasterKey = 32%nat /\ Decrypt MasterKey blob = Ret (Some plainText)
  | None => String.length MasterKey <> 32%nat
  end.
Proof.
  intros Hd Hnd Hnk. unfold Encrypt. destruct (String.length MasterKey =? 32)%nat eqn:Hk; cbn [negb]; [|lia].
  assert (Hkey : aesKey MasterKey = true) by (unfold aesKey; rewrite Hk; apply orb_true_r).
  assert (Hdek : aesKey (rnDek r) = true) by (unfold aesKey; rewrite Hd; done).
  cbn [mbind option_bind]. unfold aesGCMEncrypt. rewrite Hkey, Hdek. cbn [mbind option_bind fst snd].
  split; [lia|]. unfold Decrypt. rewrite (splitChar_joinWith ":"); [|done|].
  2:{ repeat apply Forall_cons_2; try apply base64_no_colon; done. }
  rewrite !base64_roundtrip. unfold aesGCMDecrypt. rewrite Hkey, Hnk. cbn [negb Nat.eqb NonceSize goBind].
  rewrite open_seal. cbn [goBind]. rewrite Hdek, Hnd. cbn [negb Nat.eqb NonceSize]. by rewrite open_seal.
Qed.

(** ** Properties *)

(** A stored secret can be read back.  Under a master key of 32 bytes, with the data
    key and nonces of the sizes the code draws, encryption succeeds on every secret, the
    empty one included, and decrypting the blob under the same key gives the secret;
    with a master key of another length nothing is encrypted. *)
Theorem cipher_roundtrip {A : Aead} `{!AeadLaws A} (MasterKey plainText : string) (r : Random) :
  String.length (rnDek r) = DEKSize -> String.length (rnNonceData r) = NonceSize ->
  String.length (rnNonceDek r) = NonceSize ->
  match Encrypt MasterKey (Some r) plainText with
  | Some blob => String.length MasterKey = 32%nat /\ Decrypt MasterKey blob = Ret (Some plainText)
  | None => String.length MasterKey <> 32%nat
  end.
Proof. apply encrypt_decrypt. Qed.

(** A stored blob with the right number of parts but an empty nonce is not refused: it
    panics. *)
Lemma malformed_blob_panics {A : Aead} (MasterKey : string) :
  String.length MasterKey = 32%nat -> Decrypt MasterKey "1::::" = Panic.
Proof.
  intros Hk. unfold Decrypt. change (splitChar ":" "1::::") with ["1"; ""; ""; ""; ""]%string.
  change (DecodeString "") with (Some ""%string). cbv iota. unfold aesGCMDecrypt.
  unfold aesKey. rewrite Hk. done.
Qed.

(** An authenticated cipher that only records: the sealed text is the key, the nonce and
    the plaintext, and opens under what it records. *)
Definition tagged (key nonce plain : string) : string := key +:+ nonce +:+ plain.

Fixpoint dropPrefix (p s : string) : option string :=
  match p, s with
  | EmptyString, _ => Some s
  | String a p, String b s => if Ascii.eqb a b then dropPrefix p s else None
  | _, _ => None
  end.

Lemma dropPrefix_app p s : dropPrefix p (p +:+ s) = Some s.
Proof.
  induction p as [|a p IH]; [done|]. change (String a p +:+ s) with (String a (p +:+ s)).
  cbn [dropPrefix]. by rewrite Ascii.eqb_refl.
Qed.

#[export] Instance recording : Aead := {
  seal := tagged;
  unseal key nonce ct := r ← dropPrefix key ct; dropPrefix nonce r;
}.

#[export] Instance recording_laws : AeadLaws recording.
Proof. intros key nonce plain. cbn. unfold tagged. rewrite dropPrefix_app. cbn. apply dropPrefix_app. Qed.

Definition key32 : string := "0123456789abcdef0123456789abcdef".

Lemma cipher_roundtrip_witness :
  match Encrypt key32 (Some (mkRandom key32 "nonce-data-1" "nonce-key-12")) "s3cret" with
  | Some blob => String.length key32 = 32%nat /\ Decrypt key32 blob = Ret (Some "s3cret"%string)
  | None => String.length key32 <> 32%nat
  end.
Proof.
  apply (cipher_roundtrip key32 "s3cret" (mkRandom key32 "nonce-data-1" "nonce-key-12")); reflexivity.
Defined.
