(* ===== verification/Migration.v ===== *)
(** * The migration of legacy webhooks ([internal/whatsapp/migration.go])

    The one-time backfill of the subscription table from the table of single webhooks
    that earlier versions kept, over boots that can fail anywhere. *)

From Stdlib Require Import ZArith String.
From stdpp Require Import strings numbers gmap list.
From S2P Require Import Prelude GoLang Subscriptions Cipher.
#[local] Set Default Proof Using "Type".
#[local] Open Scope Z_scope.

(** ** State *)

(** A row of [device_webhooks], [legacyWebhook]. *)
Record Legacy := mkLegacy { lgJid : string; lgUrl : string; lgSecret : string }.

(** The legacy table, the subscription table, and whether the marker row
    [device_webhooks_backfill] is there. *)
Record Db := mkDb { dbLegacy : list Legacy; dbSubs : list SubRow; dbSeeded : bool }.

(** What a boot finds: which statements succeed (the DDL, the query of the marker, the
    query of the legacy rows, the scan of the [i]-th, the end of the cursor, the insertion
    of each, the insertion of the marker), and the time of its insertions. *)
Record BootEnv := mkBoot {
  beDdl : bool;
  beMarkerQuery : bool;
  beLegacyQuery : bool;
  beScan : nat -> bool;
  beRowsErr : bool;
  beInsert : Legacy -> bool;
  beMark : bool;
  beNow : instant;
}.

(** ** The backfill *)

Section backfill.
(** [cipher.Decrypt], or no cipher. *)
Context (cipher : option (string -> go (option string))).

(** The secret a legacy row is taken over with. *)
Definition normalize (l : Legacy) : go Legacy :=
  match cipher with
  | Some decrypt =>
      if bool_decide (lgSecret l = ""%string) then Ret l
      else goBind (decrypt (lgSecret l)) (fun plain =>
           match plain with
           | None => Ret (mkLegacy (lgJid l) (lgUrl l) "")
           | Some p => Ret (if bool_decide (p = ""%string) then mkLegacy (lgJid l) (lgUrl l) "" else l)
           end)
  | None => Ret l
  end.

(** The loop over the cursor; [None] is an error. *)
Fixpoint readLegacy (env : BootEnv) (i : nat) (rows : list Legacy) : go (option (list Legacy)) :=
  match rows with
  | [] => Ret (if beRowsErr env then None else Some [])
  | l :: rest =>
      if negb (beScan env i) then Ret None
      else goBind (normalize l) (fun l =>
           goBind (readLegacy env (S i) rest) (fun pending => Ret (cons l <$> pending)))
  end.

(** [INSERT ... ON CONFLICT (jid, url) DO NOTHING]. *)
Definition insertIfAbsent (now : instant) (l : Legacy) (t : list SubRow) : list SubRow :=
  if existsb (sameKey (lgJid l) (lgUrl l)) t then t
  else t ++ [mkSubRow (lgJid l) (lgUrl l) (lgSecret l) "" now].

(** The loop of the insertions: the table, and whether it came to its end. *)
Fixpoint insertPending (env : BootEnv) (pending : list Legacy) (t : list SubRow) : list SubRow * bool :=
  match pending with
  | [] => (t, true)
  | l :: rest =>
      if beInsert env l then insertPending env rest (insertIfAbsent (beNow env) l t) else (t, false)
  end.

(** [runDeviceWebhookSubscriptionsMigrations]: whether it returned no error. *)
Definition runDeviceWebhookSubscriptionsMigrations (env : BootEnv) (s : Db) : go (bool * Db) :=
  if negb (beDdl env) then Ret (false, s)
  else if negb (beMarkerQuery env) then Ret (false, s)
  else if dbSeeded s then Ret (true, s)
  else if negb (beLegacyQuery env) then Ret (false, s)
  else
    goBind (readLegacy env 0 (dbLegacy s)) (fun pending =>
    match pending with
    | None => Ret (false, s)
    | Some pending =>
        let (t, ok) := insertPending env pending (dbSubs s) in
        if negb ok then Ret (false, mkDb (dbLegacy s) t false)
        else Ret (beMark env, mkDb (dbLegacy s) t (beMark env))
    end).

(** Boots one after the other, each until the first that succeeds (a failed boot ends the
    process). *)
Fixpoint boots (envs : list BootEnv) (s : Db) : go (bool * Db) :=
  match envs with
  | [] => Ret (false, s)
  | env :: rest =>
      goBind (runDeviceWebhookSubscriptionsMigrations env s) (fun r =>
      if r.1 then Ret (true, r.2) else boots rest r.2)
  end.

(** ** Specification *)

(** The secret to take over: as it is stored when it decrypts to one, else none. *)
Definition keptSecret (l : Legacy) : string :=
  match cipher with
  | None => lgSecret l
  | Some decrypt =>
      match decrypt (lgSecret l) with
      | Ret (Some p) => if bool_decide (p = ""%string) then ""%string else lgSecret l
      | _ => ""%string
      end
  end.

(** Decrypting the row's secret does not panic. *)
Definition decryptable (l : Legacy) : Prop :=
  forall decrypt, cipher = Some decrypt -> decrypt (lgSecret l) <> Panic.

(** [r] is the subscription that a legacy row becomes. *)
Definition fromLegacy (legacy : list Legacy) (r : SubRow) : Prop :=
  exists l now, l ∈ legacy /\ r = mkSubRow (lgJid l) (lgUrl l) (keptSecret l) "" now.

Definition kept (l : Legacy) : Legacy := mkLegacy (lgJid l) (lgUrl l) (keptSecret l).

(** ** Lemmas *)

Lemma normalize_kept l : decryptable l -> normalize l = Ret (kept l).
Proof.
  intros Hd. unfold normalize, kept, keptSecret, decryptable in *. destruct l as [j u s].
  cbn [lgJid lgUrl lgSecret] in *. destruct cipher as [decrypt|]; [|done].
  specialize (Hd decrypt eq_refl). case_bool_decide as Hs; [subst s|].
  - destruct (decrypt ""%string) as [[p|]|]; try done. by destruct (bool_decide (p = "")).
  - destruct (decrypt s) as [[p|]|]; [|done..]. cbn. by destruct (bool_decide (p = "")).
Qed.

Lemma readLegacy_kept env i rows :
  Forall decryptable rows ->
  exists o, readLegacy env i rows = Ret o /\ forall p, o = Some p -> p = map kept rows.
Proof.
  intros Hd. revert i. induction Hd as [|l rows Hl Hd IH]; intros i; cbn [readLegacy map].
  - eexists. split; [done|]. intros p. destruct (beRowsErr env); congruence.
  - destruct (beScan env i); cbn [negb]; [|by eexists].
    rewrite normalize_kept by done. cbn [goBind]. destruct (IH (S i)) as (o & -> & Ho). cbn [goBind].
    eexists. split; [done|]. intros p. destruct o as [q|]; cbn; [|done]. intros [= <-]. by rewrite (Ho q).
Qed.

(** A table between two others, when rows are only added, and only from the legacy rows. *)
Record grows (legacy : list Legacy) (t t' : list SubRow) : Prop := {
  gr_unique : keysUnique t -> keysUnique t';
  gr_old r : r ∈ t -> r ∈ t';
  gr_new r : r ∈ t' -> r ∈ t \/ fromLegacy legacy r;
}.

Lemma grows_trans legacy t1 t2 t3 : grows legacy t1 t2 -> grows legacy t2 t3 -> grows legacy t1 t3.
Proof.
  intros [H1 H2 H3] [G1 G2 G3]. split; auto. intros r Hr. destruct (G3 r Hr); auto.
Qed.

Lemma grows_refl legacy t : grows legacy t t.
Proof. split; auto. Qed.

Lemma sameKey_elem jid url t : existsb (sameKey jid url) t = true <-> exists r, r ∈ t /\ srJid r = jid /\ srUrl r = url.
Proof.
  rewrite existsb_exists. unfold sameKey. split.
  - intros (r & Hr & Hk). bool_simpl. exists r. split; [by apply list_elem_of_In|]. by conj_hyps.
  - intros (r & Hr & <- & <-). exists r. split; [by apply list_elem_of_In|]. by rewrite !bool_decide_eq_true_2.
Qed.

Lemma insert_grows legacy now l t :
  l ∈ legacy ->
  grows legacy t (insertIfAbsent now (kept l) t)
  /\ existsb (sameKey (lgJid l) (lgUrl l)) (insertIfAbsent now (kept l) t) = true.
Proof.
  intros Hl. unfold insertIfAbsent, kept. cbn [lgJid lgUrl lgSecret].
  destruct (existsb (sameKey (lgJid l) (lgUrl l)) t) eqn:E; [by split; [apply grows_refl|]|]. split.
  - split.
    + unfold keysUnique. rewrite map_app. intros Hu. apply NoDup_app. split_and!; [done| |apply NoDup_singleton].
      intros k (r & -> & Hr)%list_elem_of_fmap Hk%list_elem_of_singleton. injection Hk as H1 H2.
      apply not_true_iff_false in E. apply E, sameKey_elem. by exists r.
    + intros r Hr. apply elem_of_app. by left.
    + intros r [Hr|Hr%list_elem_of_singleton]%elem_of_app; [by left|]. right. by exists l, now.
  - apply sameKey_elem. eexists. split; [apply elem_of_app; right; apply list_elem_of_singleton; reflexivity|done].
Qed.

Lemma existsb_grows legacy jid url t t' :
  grows legacy t t' -> existsb (sameKey jid url) t = true -> existsb (sameKey jid url) t' = true.
Proof. intros Hg (r & Hr & Hk)%sameKey_elem. apply sameKey_elem. exists r. split; [by apply Hg|done]. Qed.

Lemma insertPending_grows env legacy rows t :
  rows ⊆ legacy ->
  let (t', ok) := insertPending env (map kept rows) t in
  grows legacy t t'
  /\ (ok = true -> Forall (fun l => existsb (sameKey (lgJid l) (lgUrl l)) t' = true) rows).
Proof.
  revert t. induction rows as [|l rows IH]; intros t Hsub; cbn [map insertPending];
    [by split; [apply grows_refl|constructor]|].
  destruct (beInsert env (kept l)); [|by split; [apply grows_refl|]].
  assert (Hl : l ∈ legacy) by (apply Hsub; by left).
  destruct (insert_grows legacy (beNow env) l t Hl) as [Hg1 Hk].
  specialize (IH (insertIfAbsent (beNow env) (kept l) t) ltac:(intros x Hx; apply Hsub; by right)).
  destruct (insertPending _ _ _) as [t' ok]. destruct IH as [Hg2 Hall]. split; [by eapply grows_trans|].
  intros Hok. constructor; [by eapply existsb_grows|by apply Hall].
Qed.

(** A boot that finds no marker. *)
Lemma boot_unseeded env s :
  dbSeeded s = false -> Forall decryptable (dbLegacy s) ->
  exists ok s', runDeviceWebhookSubscriptionsMigrations env s = Ret (ok, s')
  /\ dbLegacy s' = dbLegacy s /\ dbSeeded s' = ok /\ grows (dbLegacy s) (dbSubs s) (dbSubs s')
  /\ (ok = true -> Forall (fun l => existsb (sameKey (lgJid l) (lgUrl l)) (dbSubs s') = true) (dbLegacy s)).
Proof.
  intros Hs Hd. unfold runDeviceWebhookSubscriptionsMigrations.
  assert (Hsame : forall A : Prop, dbLegacy s = dbLegacy s /\ dbSeeded s = false
            /\ grows (dbLegacy s) (dbSubs s) (dbSubs s) /\ (false = true -> A))
    by (intros; split_and!; [done|done|apply grows_refl|done]).
  destruct (beDdl env); cbn [negb]; [|by eexists _, _].
  destruct (beMarkerQuery env); cbn [negb]; [|by eexists _, _]. rewrite Hs.
  destruct (beLegacyQuery env); cbn [negb]; [|by eexists _, _].
  destruct (readLegacy_kept env 0 (dbLegacy s) Hd) as (o & -> & Ho). cbn [goBind].
  destruct o as [p|]; [|by eexists _, _]. rewrite (Ho p eq_refl).
  pose proof (insertPending_grows env (dbLegacy s) (dbLegacy s) (dbSubs s) ltac:(done)) as Hg.
  destruct (insertPending _ _ _) as [t ok]. destruct Hg as [Hg Hall].
  destruct ok; cbn [negb]; eexists _, _; (split; [reflexivity|]); cbn [dbLegacy dbSeeded dbSubs];
    split_and!; try done. intros _. by apply Hall.
Qed.
End backfill.

(** C34: the migration takes every legacy webhook over, exactly once.  However many boots
    fail, wherever they fail, before one succeeds: every legacy webhook then has a
    subscription; the subscriptions that existed are as they were; whatever is new is
    a legacy webhook with no filter, so that it goes on receiving every event, and
    with its stored secret (none when that does not decrypt, or decrypts to the empty
    one); and no later boot touches the table again, whatever became of it, so that
    what the operator deletes stays deleted. *)
Theorem backfill_once (cipher : option (string -> go (option string))) (envs : list BootEnv) (s : Db) :
  dbSeeded s = false -> keysUnique (dbSubs s) -> Forall (decryptable cipher) (dbLegacy s) ->
  exists ok s', boots cipher envs s = Ret (ok, s')
  /\ keysUnique (dbSubs s')
  /\ (forall r, r ∈ dbSubs s -> r ∈ dbSubs s')
  /\ (forall r, r ∈ dbSubs s' -> r ∈ dbSubs s
        \/ (exists l, l ∈ dbLegacy s /\ srJid r = lgJid l /\ srUrl r = lgUrl l /\ srHmac r = keptSecret cipher l)
           /\ forall event, EventMatches (srEvents r) event = true)
  /\ (ok = true ->
        (forall l, l ∈ dbLegacy s -> exists r, r ∈ dbSubs s' /\ srJid r = lgJid l /\ srUrl r = lgUrl l)
        /\ dbSeeded s' = true
        /\ forall env t, exists b, runDeviceWebhookSubscriptionsMigrations cipher env (mkDb (dbLegacy s') t true)
                                   = Ret (b, mkDb (dbLegacy s') t true)).
Proof.
  intros Hs Hu Hd.
  assert (H : exists ok s', boots cipher envs s = Ret (ok, s') /\ dbLegacy s' = dbLegacy s
            /\ grows cipher (dbLegacy s) (dbSubs s) (dbSubs s')
            /\ (ok = true -> dbSeeded s' = true
                 /\ Forall (fun l => existsb (sameKey (lgJid l) (lgUrl l)) (dbSubs s') = true) (dbLegacy s))).
  { clear Hu. revert s Hs Hd. induction envs as [|env envs IH]; intros s Hs Hd; cbn [boots].
    - eexists _, s. split_and!; [done|done|apply grows_refl|done].
    - destruct (boot_unseeded cipher env s Hs Hd) as (ok & s1 & -> & Hl & Hseed & Hg & Hall). cbn [goBind fst snd].
      destruct ok; [by eexists _, s1; split_and!; auto|].
      destruct (IH s1 Hseed ltac:(by rewrite Hl)) as (ok & s2 & -> & Hl2 & Hg2 & Hall2).
      rewrite Hl in *. eexists _, s2. split_and!; [done|done|by eapply grows_trans|done]. }
  destruct H as (ok & s' & Hb & Hl & Hg & Hall). exists ok, s'. split_and!; [done|by apply Hg|apply Hg| |].
  - intros r Hr. destruct (gr_new _ _ _ _ Hg r Hr) as [|(l & now & Hin & ->)]; [by left|right].
    split; [by exists l|done].
  - intros Hok. destruct (Hall Hok) as [Hseed Hk]. split_and!; [|done|].
    + intros l Hin. rewrite Forall_forall in Hk. by apply sameKey_elem, Hk.
    + intros env t. unfold runDeviceWebhookSubscriptionsMigrations. cbn [dbSeeded].
      destruct (beDdl env), (beMarkerQuery env); cbn [negb]; eauto.
Qed.

(** A cipher that knows one blob of a secret and one of the empty secret. *)
Definition sampleDecrypt (blob : string) : go (option string) :=
  if bool_decide (blob = "blob"%string) then Ret (Some "key"%string)
  else if bool_decide (blob = "none"%string) then Ret (Some ""%string) else Ret None.

Definition sampleLegacy : list Legacy :=
  [mkLegacy "1@s.whatsapp.net" "https://a" "blob"; mkLegacy "2@s.whatsapp.net" "https://b" "none";
   mkLegacy "3@s.whatsapp.net" "https://c" "garbled"].

(** A boot that fails at the second insertion, and one that goes through. *)
Definition sampleBoots : list BootEnv :=
  [mkBoot true true true (fun _ => true) false (fun l => bool_decide (lgUrl l = "https://a"%string)) true 1;
   mkBoot true true true (fun _ => true) false (fun _ => true) true 2].

Lemma backfill_once_witness :
  let s := mkDb sampleLegacy [mkSubRow "9@s.whatsapp.net" "https://z" "" "message.sent" 0] false in
  exists ok s', boots (Some sampleDecrypt) sampleBoots s = Ret (ok, s')
  /\ keysUnique (dbSubs s')
  /\ (forall r, r ∈ dbSubs s -> r ∈ dbSubs s')
  /\ (forall r, r ∈ dbSubs s' -> r ∈ dbSubs s
        \/ (exists l, l ∈ dbLegacy s /\ srJid r = lgJid l /\ srUrl r = lgUrl l
              /\ srHmac r = keptSecret (Some sampleDecrypt) l)
           /\ forall event, EventMatches (srEvents r) event = true)
  /\ (ok = true ->
        (forall l, l ∈ dbLegacy s -> exists r, r ∈ dbSubs s' /\ srJid r = lgJid l /\ srUrl r = lgUrl l)
        /\ dbSeeded s' = true
        /\ forall env t, exists b, runDeviceWebhookSubscriptionsMigrations (Some sampleDecrypt) env
                                     (mkDb (dbLegacy s') t true)
                                   = Ret (b, mkDb (dbLegacy s') t true)).
Proof.
  apply (backfill_once (Some sampleDecrypt) sampleBoots
    (mkDb sampleLegacy [mkSubRow "9@s.whatsapp.net" "https://z" "" "message.sent" 0] false)).
  - reflexivity.
  - apply NoDup_singleton.
  - unfold sampleLegacy. cbn [dbLegacy]. repeat constructor; intros decrypt [= <-]; vm_compute; discriminate.
Defined.

(** The result of those boots: the kept secret, and none for the other two. *)
Lemma sample_backfill :
  boots (Some sampleDecrypt) sampleBoots (mkDb sampleLegacy [] false)
  = Ret (true, mkDb sampleLegacy
      [mkSubRow "1@s.whatsapp.net" "https://a" "blob" "" 1; mkSubRow "2@s.whatsapp.net" "https://b" "" "" 2;
       mkSubRow "3@s.whatsapp.net" "https://c" "" "" 2] true).
Proof. reflexivity. Qed.

(** A legacy secret on which decryption panics stops every boot that gets to it. *)
Lemma panicking_secret_stops_boot decrypt env l rest t :
  beDdl env = true -> beMarkerQuery env = true -> beLegacyQuery env = true -> beScan env 0 = true ->
  lgSecret l <> ""%string -> decrypt (lgSecret l) = Panic ->
  runDeviceWebhookSubscriptionsMigrations (Some decrypt) env (mkDb (l :: rest) t false) = Panic.
Proof.
  intros H1 H2 H3 H4 Hs Hd. unfold runDeviceWebhookSubscriptionsMigrations.
  rewrite H1, H2, H3. cbn [negb dbSeeded dbLegacy readLegacy]. rewrite H4. cbn [negb].
  unfold normalize. by rewrite bool_decide_eq_false_2, Hd.
Qed.
