(* ===== verification/WebhookSender.v ===== *)
(** * Delivering webhooks ([internal/whatsapp/webhook_sender.go])

    One signed delivery, the bounded retries of direct mode, their time budget and the
    semaphore that bounds how many run. *)

From Stdlib Require Import ZArith String.
From stdpp Require Import strings numbers list.
From S2P Require Import Prelude GoLang Subscriptions Cipher.
#[local] Set Default Proof Using "Type".
#[local] Open Scope Z_scope.

Definition maxWebhookRetries : Z := 10.
Definition maxConcurrentWebhooks : Z := 50.

Record WebhookSender := mkSender { wsMaxRetries : Z; wsBackoff : duration }.

(** [NewWebhookSender]: retries clamped to 0..10, a back-off of the configured seconds,
    or of two when that is not positive. *)
Definition NewWebhookSender (webhookMaxRetries webhookRetryBackoffSeconds : Z) : WebhookSender :=
  let maxRetries := if webhookMaxRetries <? 0 then 0 else webhookMaxRetries in
  let maxRetries := if maxWebhookRetries <? maxRetries then maxWebhookRetries else maxRetries in
  let backoff := wrap64 (webhookRetryBackoffSeconds * second) in
  mkSender maxRetries (if backoff <=? 0 then 2 * second else backoff).

(** ** One delivery *)

Record HttpRequest := mkHttp { hqUrl : string; hqBody : string; hqHeaders : list (string * string) }.

Inductive SendError := MarshalFailed | DecryptFailed | RequestFailed | NotSent | BadStatus (code : Z).

(** [Send]: the error, if any, and the request that left.  [marshal] is [json.Marshal],
    [hmacHex] the hex of HMAC-SHA256, [newRequest] accepts the URL, [http] is the server
    (its status, or no answer). *)
Section send.
Context {P : Type} {A : Aead} (MasterKey : string).
Context (marshal : P -> option string) (hmacHex : string -> string -> string)
        (newRequest : string -> bool) (http : HttpRequest -> option Z).

Definition Send (url encryptedHmacSecret : string) (payload : P)
    : go (option SendError * option HttpRequest) :=
  match marshal payload with
  | None => Ret (Some MarshalFailed, None)
  | Some jsonPayload =>
      goBind (if bool_decide (encryptedHmacSecret = ""%string) then Ret (Some ""%string)
              else Decrypt MasterKey encryptedHmacSecret) (fun secret =>
      match secret with
      | None => Ret (Some DecryptFailed, None)
      | Some hmacSecret =>
          if negb (newRequest url) then Ret (Some RequestFailed, None)
          else
            let req := mkHttp url jsonPayload
              [("Content-Type", "application/json");
               ("X-Webhook-Signature", "sha256=" +:+ hmacHex hmacSecret jsonPayload);
               ("User-Agent", "WhatsApp-Gateway-Webhook/1.0")]%string in
            match http req with
            | None => Ret (Some NotSent, Some req)
            | Some code =>
                Ret (if (code <? 200) || (300 <=? code) then Some (BadStatus code) else None, Some req)
            end
      end)
  end.
End send.

(** ** Retries *)

(** [ws.backoff << (attempt-1)] on a 64-bit duration. *)
Definition backoffBefore (ws : WebhookSender) (attempt : nat) : duration :=
  wrap64 (Z.shiftl (wsBackoff ws) (Z.of_nat attempt - 1)).

(** The loop of [retryBudget], from [attempt] on, [n] attempts. *)
Fixpoint budgetFrom (ws : WebhookSender) (n attempt : nat) (budget : duration) : duration :=
  match n with
  | O => budget
  | S n =>
      let budget := wrap64 (budget + 6 * second) in
      budgetFrom ws n (S attempt)
        (match attempt with O => budget | S _ => wrap64 (budget + backoffBefore ws attempt) end)
  end.

Definition attempts (ws : WebhookSender) : nat := Z.to_nat (wsMaxRetries ws + 1).

Definition retryBudget (ws : WebhookSender) : duration := budgetFrom ws (attempts ws) 0 0.

(** How one attempt goes when nothing stops it: how late its timer fires, how long
    [Send] takes, and whether it succeeds. *)
Record Attempt := mkAttempt { atLate : duration; atTook : duration; atOk : bool }.

Inductive SendOutcome := Delivered | Failed | Cancelled.

(** [sendWithRetry] from [attempt] on, [n] attempts left, at [now], with the context's
    deadline: the outcome, the attempts started and when it ends.  An attempt the
    deadline interrupts fails; a timer and a deadline at the same instant leave the
    choice to [select], here the deadline. *)
Fixpoint retryFrom (ws : WebhookSender) (world : nat -> Attempt) (deadline : instant)
    (n attempt : nat) (now : instant) : SendOutcome * nat * instant :=
  match n with
  | O => (Failed, attempt, now)
  | S n =>
      let a := world attempt in
      let start := match attempt with O => now | S _ => now + backoffBefore ws attempt + atLate a end in
      if bool_decide (attempt <> 0%nat) && (deadline <=? start) then (Cancelled, attempt, Z.max now deadline)
      else
        let end_ := start + atTook a in
        if deadline <=? end_ then retryFrom ws world deadline n (S attempt) (Z.max start deadline)
        else if atOk a then (Delivered, S attempt, end_)
        else retryFrom ws world deadline n (S attempt) end_
  end.

Definition sendWithRetry (ws : WebhookSender) (world : nat -> Attempt) (now : instant)
    : SendOutcome * nat * instant :=
  retryFrom ws world (now + retryBudget ws) (attempts ws) 0 now.

(** ** The semaphore *)

(** [SendAsync] and [asyncDeliverWebhook]: a slot or nothing. *)
Definition acquire (inFlight : Z) : bool * Z :=
  if inFlight <? maxConcurrentWebhooks then (true, inFlight + 1) else (false, inFlight).

Definition release (inFlight : Z) : Z := inFlight - 1.

(** ** Lemmas *)

Lemma sender_retries r b : 0 <= wsMaxRetries (NewWebhookSender r b) <= 10.
Proof. unfold NewWebhookSender, maxWebhookRetries. cbn. split_cases; lia. Qed.

Lemma sender_backoff r b : 0 < wsBackoff (NewWebhookSender r b).
Proof. unfold NewWebhookSender, second. cbn. split_cases; lia. Qed.

Definition smallBackoff (ws : WebhookSender) : Prop :=
  0 <= wsMaxRetries ws <= 10 /\ 0 < wsBackoff ws <= 10 ^ 5 * second.

(** The total of the budget without wrap-around. *)
Fixpoint exactFrom (ws : WebhookSender) (n attempt : nat) : Z :=
  match n with
  | O => 0
  | S n =>
      6 * second + match attempt with O => 0 | S k => wsBackoff ws * 2 ^ Z.of_nat k end
      + exactFrom ws n (S attempt)
  end.

Lemma pow2_bound (k : nat) : (k <= 10)%nat -> 1 <= 2 ^ Z.of_nat k <= 1024.
Proof.
  intros Hk. split; [apply (Z.pow_le_mono_r 2 0); lia|].
  change 1024 with (2 ^ 10). apply Z.pow_le_mono_r; lia.
Qed.

Lemma backoff_exact ws (k : nat) :
  smallBackoff ws -> (k <= 9)%nat -> backoffBefore ws (S k) = wsBackoff ws * 2 ^ Z.of_nat k.
Proof.
  intros [_ Hb] Hk. unfold backoffBefore. replace (Z.of_nat (S k) - 1) with (Z.of_nat k) by lia.
  rewrite Z.shiftl_mul_pow2 by lia. apply wrap64_id. pose proof (pow2_bound k ltac:(lia)).
  unfold second in *. nia.
Qed.

Lemma exact_bound ws (n attempt : nat) :
  smallBackoff ws -> (attempt + n <= 11)%nat ->
  0 <= exactFrom ws n attempt <= Z.of_nat n * (6 * second + 1024 * 10 ^ 5 * second).
Proof.
  intros Hs. revert attempt. induction n as [|n IH]; intros attempt Hn; cbn [exactFrom]; [lia|].
  specialize (IH (S attempt) ltac:(lia)).
  assert (0 <= match attempt with O => 0 | S k => wsBackoff ws * 2 ^ Z.of_nat k end <= 1024 * 10 ^ 5 * second).
  { destruct attempt as [|k]; [unfold second; lia|]. pose proof (pow2_bound k ltac:(lia)).
    destruct Hs as [_ Hb]. unfold second in *. nia. }
  unfold second in *. lia.
Qed.

Lemma budget_exact ws (n attempt : nat) budget :
  smallBackoff ws -> (attempt + n <= 11)%nat ->
  0 <= budget <= Z.of_nat attempt * (6 * second + 1024 * 10 ^ 5 * second) ->
  budgetFrom ws n attempt budget = budget + exactFrom ws n attempt.
Proof.
  intros Hs. revert attempt budget. induction n as [|n IH]; intros attempt budget Hn Hb;
    cbn [budgetFrom exactFrom]; [lia|].
  rewrite (wrap64_id (budget + _)) by (unfold second in *; lia).
  destruct attempt as [|k].
  - rewrite IH by (unfold second in *; lia). lia.
  - rewrite backoff_exact by (done || lia). pose proof (pow2_bound k ltac:(lia)).
    assert (wsBackoff ws * 2 ^ Z.of_nat k <= 1024 * 10 ^ 5 * second).
    { destruct Hs as [_ Hsb]. unfold second in *. nia. }
    assert (0 <= wsBackoff ws * 2 ^ Z.of_nat k) by (destruct Hs; nia).
    rewrite wrap64_id by (unfold second in *; lia).
    rewrite IH by (unfold second in *; lia). lia.
Qed.

(** An attempt that keeps to the six seconds the budget counts for it. *)
Definition prompt (a : Attempt) : Prop := 0 <= atLate a /\ 0 <= atTook a /\ atLate a + atTook a < 6 * second.

(** The first success among [n] attempts from [attempt] on. *)
Fixpoint firstOk (world : nat -> Attempt) (n attempt : nat) : option nat :=
  match n with
  | O => None
  | S n => if atOk (world attempt) then Some attempt else firstOk world n (S attempt)
  end.

Lemma retry_within ws world deadline (n attempt : nat) now :
  smallBackoff ws -> (attempt + n <= 11)%nat ->
  (forall k, (attempt <= k < attempt + n)%nat -> prompt (world k)) ->
  now + exactFrom ws n attempt <= deadline ->
  let '(o, started, end_) := retryFrom ws world deadline n attempt now in
  (o, started) = match firstOk world n attempt with
                 | Some k => (Delivered, S k)
                 | None => (Failed, (attempt + n)%nat)
                 end
  /\ now <= end_ <= deadline.
Proof.
  intros Hs. revert attempt now. induction n as [|n IH]; intros attempt now Hn Hp Hd;
    cbn [retryFrom exactFrom firstOk] in *; [rewrite Nat.add_0_r; split; [done|lia]|].
  pose proof (Hp attempt ltac:(lia)) as (H1 & H2 & H3).
  pose proof (exact_bound ws n (S attempt) Hs ltac:(lia)) as [Hex _].
  set (start := match attempt with O => now | S _ => _ end).
  assert (Hstart : now <= start
            /\ start + atTook (world attempt) + exactFrom ws n (S attempt) < deadline).
  { unfold start. destruct attempt as [|k]; [lia|].
    rewrite backoff_exact by (done || lia). pose proof (pow2_bound k ltac:(lia)).
    assert (0 <= wsBackoff ws * 2 ^ Z.of_nat k) by (destruct Hs; nia). lia. }
  replace (deadline <=? start) with false by lia. rewrite andb_false_r.
  replace (deadline <=? start + atTook (world attempt)) with false by lia.
  destruct (atOk (world attempt)); [split; [done|lia]|].
  specialize (IH (S attempt) (start + atTook (world attempt)) ltac:(lia)).
  destruct (retryFrom _ _ _ _ _ _) as [[o started] end_].
  destruct IH as [IHo IHe]; [intros k Hk; apply Hp; lia|lia|]. split; [|lia].
  rewrite IHo. replace (S attempt + n)%nat with (attempt + S n)%nat by lia. done.
Qed.

(** Whatever happens, no more attempts are started than configured. *)
Lemma retry_started ws world deadline (n attempt : nat) now :
  let '(_, started, _) := retryFrom ws world deadline n attempt now in
  (attempt <= started <= attempt + n)%nat.
Proof.
  revert attempt now. induction n as [|n IH]; intros attempt now; cbn [retryFrom]; [lia|].
  destruct (_ && _); [lia|].
  assert (Hrec : forall t, let '(_, started, _) := retryFrom ws world deadline n (S attempt) t in
            (attempt <= started <= attempt + S n)%nat).
  { intros t. specialize (IH (S attempt) t). destruct (retryFrom _ _ _ _ _ _) as [[? ?] ?]. lia. }
  destruct (deadline <=? _); [apply Hrec|]. destruct (atOk _); [lia|apply Hrec].
Qed.

Lemma acquire_bounded s : 0 <= s <= maxConcurrentWebhooks -> 0 <= (acquire s).2 <= maxConcurrentWebhooks.
Proof. unfold acquire, maxConcurrentWebhooks. intros H. destruct (s <? 50) eqn:E; cbn; lia. Qed.

Lemma send_signed {P : Type} {A : Aead} (MasterKey : string) (marshal : P -> option string)
    (hmacHex : string -> string -> string) (newRequest : string -> bool)
    (http : HttpRequest -> option Z) (url stored secret : string) (p : P) (body : string) :
  marshal p = Some body -> newRequest url = true ->
  (if bool_decide (stored = ""%string) then Ret (Some ""%string) else Decrypt MasterKey stored)
  = Ret (Some secret) ->
  exists err req, Send MasterKey marshal hmacHex newRequest http url stored p = Ret (err, Some req)
  /\ hqUrl req = url /\ hqBody req = body
  /\ ("X-Webhook-Signature", "sha256=" +:+ hmacHex secret body)%string ∈ hqHeaders req
  /\ (err = None <-> exists code, http req = Some code /\ 200 <= code < 300).
Proof.
  intros Hm Hn Hs. unfold Send. rewrite Hm, Hs. cbn [goBind]. rewrite Hn. cbn [negb].
  destruct (http _) as [code|] eqn:Eh.
  - eexists _, _. split; [reflexivity|]. cbn [hqUrl hqBody hqHeaders]. split; [done|]. split; [done|].
    split; [right; left|]. rewrite Eh. destruct (_ || _) eqn:E; split.
    + done.
    + intros (c & [= <-] & Hc). lia.
    + intros _. exists code. split; [done|lia].
    + done.
  - eexists _, _. split; [reflexivity|]. cbn [hqUrl hqBody hqHeaders]. split; [done|]. split; [done|].
    split; [right; left|]. rewrite Eh. split; [done|]. by intros (c & ? & _).
Qed.

(** ** Properties *)

(** The detached context does not cut retries short.  For a back-off configured between -10^9 and 10^5 seconds,
    if every attempt (the lateness of its timer and its request) takes less than the six
    seconds counted for it, the budget outlives all attempts: the delivery is never
    cancelled; it stops at the first attempt that succeeds, and fails only after all of
    them, at most eleven, have failed. *)
Theorem retry_budget_suffices (maxRetries backoffSeconds : Z) (world : nat -> Attempt) (now : instant) :
  let ws := NewWebhookSender maxRetries backoffSeconds in
  backoffSeconds <= 10 ^ 5 ->
  - 10 ^ 9 <= backoffSeconds ->
  (forall k, (k < attempts ws)%nat -> prompt (world k)) ->
  let '(o, started, end_) := sendWithRetry ws world now in
  (o, started) = match firstOk world (attempts ws) 0 with
                 | Some k => (Delivered, S k)
                 | None => (Failed, attempts ws)
                 end
  /\ now <= end_ <= now + retryBudget ws
  /\ (1 <= attempts ws <= 11)%nat.
Proof.
  intros ws Hb Hlow Hp.
  pose proof (sender_retries maxRetries backoffSeconds) as Hr. fold ws in Hr.
  assert (Hs : smallBackoff ws).
  { split; [done|]. split; [apply sender_backoff|]. unfold ws, NewWebhookSender. cbn [wsBackoff].
    rewrite wrap64_id by (unfold second; lia). destruct (_ <=? 0); unfold second; lia. }
  assert (Hn : (1 <= attempts ws <= 11)%nat) by (unfold attempts; lia).
  unfold sendWithRetry, retryBudget.
  rewrite (budget_exact ws) by (done || (unfold second; lia)).
  pose proof (retry_within ws world (now + (0 + exactFrom ws (attempts ws) 0)) (attempts ws) 0 now Hs
    ltac:(lia) ltac:(intros k Hk; apply Hp; lia) ltac:(lia)) as Hw.
  destruct (retryFrom _ _ _ _ _ _) as [[o started] end_]. destruct Hw as [Ho He].
  split; [|split; [lia|done]]. rewrite Ho. done.
Qed.

Lemma retry_budget_suffices_witness :
  let ws := NewWebhookSender 3 2 in
  let world := fun k => mkAttempt 10 (5 * second) (k =? 2)%nat in
  let '(o, started, end_) := sendWithRetry ws world 100 in
  (o, started) = match firstOk world (attempts ws) 0 with
                 | Some k => (Delivered, S k)
                 | None => (Failed, attempts ws)
                 end
  /\ 100 <= end_ <= 100 + retryBudget ws
  /\ (1 <= attempts ws <= 11)%nat.
Proof.
  apply (retry_budget_suffices 3 2 (fun k => mkAttempt 10 (5 * second) (k =? 2)%nat) 100); [lia|lia|].
  intros k _. unfold prompt, second. cbn. lia.
Defined.

(** C38: a webhook is signed with the secret its owner registered.  When a registration
    is accepted under a 32-byte master key, the stored subscription of its url holds a
    secret with which every delivery whose payload marshals is signed under the
    registered secret (the empty key for none), and the delivery counts as done exactly
    when the receiver answers with a 2xx status. *)
Theorem signed_with_registered_secret {P : Type} {A : Aead} `{!AeadLaws A}
    (urlLe : string -> string -> bool) (MasterKey : string) (r : Random)
    (marshal : P -> option string) (hmacHex : string -> string -> string)
    (newRequest : string -> bool) (http : HttpRequest -> option Z)
    (env : SubEnv) (w : Webhook) (t : list SubRow) (jid : string) (s : WebhookSubscription)
    (p : P) (body : string) :
  String.length (rnDek r) = DEKSize -> String.length (rnNonceData r) = NonceSize ->
  String.length (rnNonceDek r) = NonceSize ->
  seEncrypt env = Encrypt MasterKey (Some r) -> seJid env = Some jid ->
  marshal p = Some body -> newRequest (whUrl w) = true ->
  (SetWebhookSubscription env w t).1 = None ->
  s ∈ getSubs urlLe jid (SetWebhookSubscription env w t).2 -> subUrl s = whUrl w ->
  exists err req,
    Send MasterKey marshal hmacHex newRequest http (subUrl s) (subHmacSecret s) p = Ret (err, Some req)
    /\ hqUrl req = whUrl w /\ hqBody req = body
    /\ ("X-Webhook-Signature", "sha256=" +:+ hmacHex (whHmacSecret w) body)%string ∈ hqHeaders req
    /\ (err = None <-> exists code, http req = Some code /\ 200 <= code < 300).
Proof.
  intros Hd Hnd Hnk Henc Hjid Hm Hn Hok Hin Hurl. pose proof (set_cases env w t) as Hc. cbv zeta in Hc.
  rewrite Hok in Hc. destruct Hc as (jid0 & hmac & Hj & _ & _ & Hsec & Ht).
  rewrite Hjid in Hj. injection Hj as <-. rewrite Ht in Hin.
  apply elem_getSubs in Hin as (row & Hrow & Hrj & ->). cbn [toSub subUrl subHmacSecret] in *.
  apply elem_upsert in Hrow as [[Hk _]|(_ & _ & Hh & _)].
  { apply not_true_iff_false in Hk. exfalso. apply Hk. by apply sameKey_true. }
  rewrite Hurl, Hh. apply (send_signed MasterKey); [done|done|].
  case_bool_decide as He; [injection Hsec as <-; rewrite bool_decide_eq_true_2 by done; by rewrite He|].
  rewrite Henc in Hsec. pose proof (encrypt_decrypt MasterKey (whHmacSecret w) r Hd Hnd Hnk) as Hrt.
  rewrite Hsec in Hrt. destruct Hrt as [_ Hdec]. case_bool_decide as Hemp; [|done].
  by rewrite Hemp in Hdec.
Qed.

Definition sampleRandom : Random := mkRandom key32 "nonce-data-1" "nonce-key-12".

Definition signingEnv : SubEnv :=
  mkSubEnv (Some true) (Some "1@s.whatsapp.net"%string) true 5 (fun _ => true)
    (Encrypt key32 (Some sampleRandom)).

Definition sampleHook : Webhook := mkWebhook "https://a" "s3cret" [].

Definition sampleStored : WebhookSubscription :=
  mkSub "https://a" (default ""%string (Encrypt key32 (Some sampleRandom) "s3cret")) "".

Lemma signed_with_registered_secret_witness :
  exists err req,
    Send (P := string) key32 Some (fun k b => k +:+ b) (fun _ => true) (fun _ => Some 204)
      (subUrl sampleStored) (subHmacSecret sampleStored) "{}" = Ret (err, Some req)
    /\ hqUrl req = "https://a"%string /\ hqBody req = "{}"%string
    /\ ("X-Webhook-Signature", "sha256=" +:+ ("s3cret" +:+ "{}"))%string ∈ hqHeaders req
    /\ (err = None <-> exists code, (fun _ : HttpRequest => Some 204) req = Some code /\ 200 <= code < 300).
Proof.
  apply (signed_with_registered_secret (fun _ _ => true) key32 sampleRandom Some (fun k b => k +:+ b)
    (fun _ => true) (fun _ => Some 204) signingEnv sampleHook [] "1@s.whatsapp.net" sampleStored "{}" "{}");
    try reflexivity.
  apply list_elem_of_singleton. by vm_compute.
Defined.
