(* ===== verification/MediaStore.v ===== *)
(** * Stored media ([pkg/storage/local.go], [internal/whatsapp/media_downloader.go])

    The local file store, the keys that the downloader of received media makes for it, and
    the public route that serves the files ([internal/handler/storage/storage_handler.go]).

    What the system answers to a call is an argument of the operation; the files are a map
    from cleaned paths.  [stored_media_safe]: what the downloader stores stays below the
    directory of the store and is served as it was; [served_outside]: the route serves files
    outside of it; [cleanup_exact], [media_swept_when_due]: the sweep. *)

From Stdlib Require Import ZArith Ascii String.
From stdpp Require Import strings numbers gmap list.
From S2P Require Import Prelude GoLang JsString GoStrings Paths.
#[local] Set Default Proof Using "Type".

Open Scope string_scope.

(** ** The keys of received media *)

Definition byteIn (lo hi : N) (a : ascii) : bool := (lo <=? N_of_ascii a)%N && (N_of_ascii a <=? hi)%N.
Definition tailByte (a : ascii) : bool := byteIn 128 191 a.

(** How many bytes after the first one belong to the rune that starts here; what is no
    rune is one byte. *)
Definition runeTail (a : ascii) (r : string) : nat :=
  match r with
  | String b r' =>
      let two := match r' with String c _ => tailByte c | _ => false end in
      let three := match r' with
                   | String c (String d _) => tailByte c && tailByte d | _ => false end in
      if byteIn 194 223 a then (if tailByte b then 1 else 0)
      else if byteIn 224 239 a then
        (if (if byteIn 224 224 a then byteIn 160 191 b
             else if byteIn 237 237 a then byteIn 128 159 b else tailByte b) && two
         then 2 else 0)
      else if byteIn 240 244 a then
        (if (if byteIn 240 240 a then byteIn 144 191 b
             else if byteIn 244 244 a then byteIn 128 143 b else tailByte b) && three
         then 3 else 0)
      else 0
  | EmptyString => 0
  end.

(** [strings.Map] of a function that keeps some ASCII characters and makes [_] of every
    other rune. *)
Fixpoint keepRunes (keep : ascii -> bool) (skip : nat) (s : string) : string :=
  match s with
  | EmptyString => ""
  | String a r =>
      match skip with
      | S n => keepRunes keep n r
      | O =>
          if byteIn 0 127 a then String (if keep a then a else "_") (keepRunes keep 0 r)
          else String "_" (keepRunes keep (runeTail a r) r)
      end
  end.

Definition isDigit (a : ascii) : bool := byteIn 48 57 a.
Definition isLetter (a : ascii) : bool := byteIn 97 122 a || byteIn 65 90 a.

Definition phoneChar (a : ascii) : bool := isDigit a || Ascii.eqb a "+".
Definition extChar (a : ascii) : bool := Ascii.eqb a "." || isLetter a || isDigit a.

(** [generateStorageKey], at a time and with a fresh identifier. *)
Definition generateStorageKey (prefix phoneNumber ext year month uuid : string) : string :=
  Join [prefix; keepRunes phoneChar 0 (trimSpace phoneNumber); year; month;
        uuid +:+ keepRunes extChar 0 ext].

Inductive MediaKind := Image | Video | Audio | Document | Sticker | Other.

Definition allowedMime : list (string * string) :=
  [("image/jpeg", ".jpg"); ("image/jpg", ".jpg"); ("image/png", ".png"); ("image/gif", ".gif");
   ("image/webp", ".webp"); ("video/mp4", ".mp4"); ("video/3gpp", ".3gp");
   ("audio/mpeg", ".mp3"); ("audio/mp3", ".mp3"); ("audio/aac", ".aac"); ("audio/ogg", ".ogg");
   ("application/pdf", ".pdf"); ("text/plain", ".txt")].

Definition lookupMime (m : string) : option string :=
  snd <$> List.find (fun p => String.eqb p.1 m) allowedMime.

(** [getExtension]; [mime] is empty when the message names no type. *)
Definition getExtension (kind : MediaKind) (mime : string) : option string :=
  match mime with
  | "" => Some match kind with
               | Image => ".jpg" | Video => ".mp4" | Audio => ".mp3" | Document => ".pdf"
               | Sticker => ".webp" | Other => ".bin"
               end
  | _ => lookupMime mime
  end.

(** ** The store *)

Record File := mkFile { fl_content : list Byte.byte; fl_modTime : instant }.

Record LocalStorage := mkStore {
  ls_path : string;
  ls_baseURL : string;
  ls_retentionDays : Z;
  ls_healthy : bool;
  ls_files : gmap string File;
}.

Definition withFiles (files : gmap string File) (s : LocalStorage) : LocalStorage := {|
  ls_path := ls_path s; ls_baseURL := ls_baseURL s; ls_retentionDays := ls_retentionDays s;
  ls_healthy := ls_healthy s; ls_files := files |}.

Definition getFullPath (s : LocalStorage) (bucket key : string) : string :=
  match bucket with
  | "" => Join [ls_path s; key]
  | _ => Join [ls_path s; bucket; key]
  end.

(** What the system answers to the calls of an upload: the directory or the file cannot be
    made, the copy stops half-way, or all goes well. *)
Inductive written := NotCreated | Broken | Written.

(** [UploadFile]: the store, and the key or no key. *)
Definition UploadFile (os : written) (now : instant) (bucket key : string)
    (content : list Byte.byte) (s : LocalStorage) : LocalStorage * option string :=
  if negb (ls_healthy s) then (s, None)
  else
    let p := getFullPath s bucket key in
    match os with
    | NotCreated => (s, None)
    | Broken => (withFiles (delete p (ls_files s)) s, None)
    | Written => (withFiles (<[p := mkFile content now]> (ls_files s)) s, Some key)
    end.

(** [strings.TrimSuffix] of a slash. *)
Definition trimSlash (s : string) : string :=
  match list_ascii_of_string s with
  | [] => ""
  | l => if Ascii.eqb (List.last l "/"%char) slash
         then string_of_list_ascii (removelast l) else s
  end.

Definition GetPublicURL (s : LocalStorage) (bucket key : string) : string :=
  match ls_baseURL s with "" => key | u => trimSlash u +:+ "/" +:+ key end.

Definition contentTypeOf `{UnicodeLower} (ext : string) : string :=
  let ext := ToLower ext in
  if String.eqb ext ".jpg" || String.eqb ext ".jpeg" then "image/jpeg"
  else if String.eqb ext ".png" then "image/png"
  else if String.eqb ext ".gif" then "image/gif"
  else if String.eqb ext ".webp" then "image/webp"
  else if String.eqb ext ".pdf" then "application/pdf"
  else if String.eqb ext ".txt" || String.eqb ext ".md" then "text/plain; charset=utf-8"
  else if String.eqb ext ".json" then "application/json"
  else "application/octet-stream".

Definition GetFile `{UnicodeLower} (s : LocalStorage) (bucket key : string) : option (File * string) :=
  if negb (ls_healthy s) then None
  else (fun f => (f, contentTypeOf (Ext key))) <$> ls_files s !! getFullPath s bucket key.

(** [DeleteFile] of a file that the system lets go. *)
Definition DeleteFile (s : LocalStorage) (bucket key : string) : LocalStorage * bool :=
  if negb (ls_healthy s) then (s, false)
  else
    let p := getFullPath s bucket key in
    match ls_files s !! p with
    | Some _ => (withFiles (delete p (ls_files s)) s, true)
    | None => (s, false)
    end.

(** Whether a walk that starts at a directory comes by a path. *)
Definition under (dir p : string) : bool :=
  Bool.eqb (isRooted dir) (isRooted p)
  && bool_decide (take (List.length (elements dir)) (elements p) = elements dir).

(** [performCleanup], when the system lets every file go: [cutoff] is the present less the
    days of retention; the files whose names start with a dot stay. *)
Definition expired (dir : string) (cutoff : instant) (p : string) (f : File) : bool :=
  under dir p && negb (hasPrefix "." (Base p)) && (fl_modTime f <? cutoff)%Z.

Definition performCleanup (cutoff : instant) (s : LocalStorage) : LocalStorage :=
  if (ls_retentionDays s <=? 0)%Z then s
  else withFiles
         (filter (fun pf => expired (ls_path s) cutoff pf.1 pf.2 = false) (ls_files s)) s.

(** ** The downloader *)

Record MediaConfig := mkMediaConfig {
  mc_enabled : bool;
  mc_maxBytes : Z;
  mc_prefix : string;
}.

(** A received message: its kind, and its type when it is of the four that carry one. *)
Record Media := mkMedia { md_kind : MediaKind; md_mime : string }.

Inductive stored := Skipped | Refused | Stored (url key : string).

(** [DownloadAndStoreMedia] with the local store; [client] says whether there is a client,
    and what its download gives. *)
Definition DownloadAndStoreMedia (cfg : MediaConfig) (client : option (option (list Byte.byte)))
    (os : written) (now : instant) (year month uuid phoneNumber : string) (m : Media)
    (s : LocalStorage) : LocalStorage * stored :=
  if negb (mc_enabled cfg) then (s, Skipped)
  else match client with
  | Some (Some content) =>
      if (mc_maxBytes cfg <? Z.of_nat (List.length content))%Z then (s, Refused)
      else match getExtension (md_kind m) (md_mime m) with
      | None => (s, Refused)
      | Some ext =>
          let key := generateStorageKey (mc_prefix cfg) phoneNumber ext year month uuid in
          match UploadFile os now "" key content s with
          | (s', Some _) => (s', Stored (GetPublicURL s' "" key) key)
          | (s', None) => (s', Refused)
          end
      end
  | _ => (s, Refused)
  end.

(** ** Serving *)

Inductive reply := BadRequest | NotFound | Sent (f : File) (contentType : string).

(** [StorageHandler.GetFile] of a path that is no directory; [key] is what the path of the request has after the route's
    own, as it was sent. *)
Definition serveFile `{UnicodeLower} (s : LocalStorage) (key : string) : reply :=
  match key with
  | "" => BadRequest
  | _ => match GetFile s "" key with Some (f, t) => Sent f t | None => NotFound end
  end.

#[local] Open Scope list_scope.

(** ** Lemmas: keys *)

Lemma keepRunes_chars keep k s c :
  hasChar c (keepRunes keep k s) = true -> keep c = true \/ c = "_"%char.
Proof.
  rewrite hasChar_elem. revert k. induction s as [|a s IH]; intros k; cbn.
  { by intros ?%elem_of_nil. }
  destruct k as [|k]; [|apply IH].
  destruct (byteIn 0 127 a); cbn; intros [->|H]%elem_of_cons; eauto.
  destruct (keep a) eqn:E; auto.
Qed.

Lemma keepRunes_lacks keep k s c :
  keep c = false -> c <> "_"%char -> hasChar c (keepRunes keep k s) = false.
Proof.
  intros Hk Hc. destruct (hasChar _ _) eqn:E; [|done].
  apply keepRunes_chars in E as [?|?]; congruence.
Qed.

(** An element of a path that means itself. *)
Definition plain (e : string) : bool := sound e && negb (String.eqb e "..").

(** What the library of identifiers makes: hexadecimal digits and hyphens. *)
Definition uuidChar (a : ascii) : bool := isDigit a || byteIn 97 102 a || Ascii.eqb a "-".
Definition uuidText (u : string) : bool := stringAll uuidChar u && negb (String.eqb u "").

Definition safePhone (phoneNumber : string) : string := keepRunes phoneChar 0 (trimSpace phoneNumber).
Definition fileName (uuid ext : string) : string := uuid +:+ keepRunes extChar 0 ext.

Lemma plain_no_dot e : hasChar slash e = false -> hasChar "." e = false -> e <> "" -> plain e = true.
Proof.
  intros Hs Hd He. unfold plain, sound, real. rewrite Hs.
  destruct (String.eqb_spec e "") as [->|_]; [done|].
  destruct (String.eqb_spec e ".") as [->|_]; [done|].
  by destruct (String.eqb_spec e "..") as [->|_].
Qed.

Lemma stringAll_lacks p c s : stringAll p s = true -> p c = false -> hasChar c s = false.
Proof.
  unfold hasChar. rewrite negb_false_iff. intros Hs Hc. induction s as [|a s IH]; [done|].
  cbn in *. bool_simpl. rewrite IH by done. destruct (Ascii.eqb_spec a c); [congruence|done].
Qed.

Lemma fileName_plain uuid ext : uuidText uuid = true -> plain (fileName uuid ext) = true.
Proof.
  unfold uuidText. intros [Hu Hn]%andb_true_iff. unfold fileName.
  assert (Hs : hasChar slash (uuid +:+ keepRunes extChar 0 ext) = false).
  { rewrite hasChar_app, (stringAll_lacks uuidChar) by done. by apply keepRunes_lacks. }
  destruct uuid as [|a u]; [done|]. cbn [stringAll] in Hu. apply andb_true_iff in Hu as [Ha _].
  assert (Hd : a <> "."%char) by (by intros ->).
  unfold plain, sound, real. rewrite Hs.
  change (String a u +:+ keepRunes extChar 0 ext) with (String a (u +:+ keepRunes extChar 0 ext)).
  cbn. by destruct (Ascii.eqb_spec a ".").
Qed.

Lemma safePhone_parts phone : List.filter real (splitChar slash (safePhone phone)) = List.filter real [safePhone phone]
  /\ ".." ∉ splitChar slash (safePhone phone).
Proof.
  unfold safePhone. rewrite splitChar_none by (by apply keepRunes_lacks). split; [done|].
  intros H%list_elem_of_singleton.
  assert (E : hasChar "." (keepRunes phoneChar 0 (trimSpace phone)) = false) by (by apply keepRunes_lacks).
  by rewrite <- H in E.
Qed.

Lemma plain_parts e : plain e = true -> splitChar slash e = [e] /\ ".." ∉ [e] /\ real e = true.
Proof.
  unfold plain, sound. intros H. bool_simpl. split; [by apply splitChar_none|].
  split; [|done]. intros He%list_elem_of_singleton. by subst.
Qed.

(** Where a key leads below the store's own directory. *)
Definition keyElements (prefix phone year month uuid ext : string) : list string :=
  (List.filter real (splitChar slash prefix) ++ List.filter real [safePhone phone])
  ++ [year; month; fileName uuid ext].

Lemma key_elements prefix phone ext year month uuid :
  ".." ∉ splitChar slash prefix -> plain year = true -> plain month = true ->
  uuidText uuid = true ->
  let key := generateStorageKey prefix phone ext year month uuid in
  List.filter real (splitChar slash key) = keyElements prefix phone year month uuid ext
  /\ ".." ∉ splitChar slash key.
Proof.
  intros Hp Hy Hm Hu key.
  destruct (safePhone_parts phone) as [Hf1 Hf2].
  destruct (plain_parts _ Hy) as (Hy1 & Hy2 & Hy3).
  destruct (plain_parts _ Hm) as (Hm1 & Hm2 & Hm3).
  destruct (plain_parts _ (fileName_plain uuid ext Hu)) as (Hn1 & Hn2 & Hn3).
  assert (E : List.concat (map (splitChar slash) [prefix; safePhone phone; year; month; fileName uuid ext])
    = splitChar slash prefix ++ splitChar slash (safePhone phone) ++ [year; month; fileName uuid ext]).
  { cbn [map List.concat]. by rewrite Hy1, Hm1, Hn1. }
  destruct (splitChar_Join [prefix; safePhone phone; year; month; fileName uuid ext]) as [H1 H2].
  { rewrite E, !elem_of_app, !elem_of_cons. set_solver. }
  split; [|exact H2]. unfold key. change (generateStorageKey _ _ _ _ _ _) with
    (Join [prefix; safePhone phone; year; month; fileName uuid ext]).
  rewrite H1, E, !List.filter_app, Hf1. unfold keyElements.
  rewrite <- (assoc_L (++)). do 2 f_equal. cbn [List.filter]. by rewrite Hy3, Hm3, Hn3.
Qed.

(** The path of a key is the directory's, taken on by the key's elements. *)
Lemma path_elements s key :
  isRooted (ls_path s) = true ->
  elements (getFullPath s "" key)
    = reverse (foldl (cleanStep true) (reverse (elements (ls_path s))) (splitChar slash key)).
Proof.
  intros Hr. unfold getFullPath.
  destruct (ls_path s) as [|a p] eqn:Ep; [done|]. rewrite <- Ep in *.
  set (q := ls_path s +:+ String slash key).
  assert (E : Join [ls_path s; key] = Clean q) by (unfold q; by rewrite Ep).
  assert (Hq : isRooted q = true).
  { unfold q. rewrite Ep in Hr |- *.
    change (String a p +:+ String slash key) with (String a (p +:+ String slash key)).
    revert Hr. unfold isRooted, hasPrefix. cbn [String.prefix].
    destruct (Ascii.ascii_dec "/" a); [|done]. by destruct (p +:+ String slash key). }
  rewrite E. destruct (elements_clean q Hq) as [_ ->].
  unfold elements. rewrite Hq, Hr. unfold q. by rewrite splitChar_cut, foldl_app, reverse_involutive.
Qed.

(** A key without parents stays below the directory. *)
Lemma path_below s key :
  isRooted (ls_path s) = true -> ".." ∉ splitChar slash key ->
  elements (getFullPath s "" key) = elements (ls_path s) ++ List.filter real (splitChar slash key).
Proof.
  intros Hr Hk. rewrite path_elements, clean_plain by done.
  by rewrite reverse_app, !reverse_involutive.
Qed.

(** A key that begins with a parent names a file next to the directory, and the public
    route serves it. *)
Lemma served_outside `{UnicodeLower} s dir name key f :
  isRooted (ls_path s) = true -> elements (ls_path s) = dir ++ [name] ->
  ".." ∉ splitChar slash key -> ls_healthy s = true ->
  ls_files s !! getFullPath s "" ("../" +:+ key) = Some f ->
  elements (getFullPath s "" ("../" +:+ key)) = dir ++ List.filter real (splitChar slash key)
  /\ exists t, serveFile s ("../" +:+ key) = Sent f t.
Proof.
  intros Hr He Hk Hh Hf. split.
  - change ("../" +:+ key) with (".." +:+ String slash key).
    assert (Hn : name <> "..").
    { intros ->. assert (Hin : ".." ∈ elements (ls_path s)) by (rewrite He; set_solver).
      revert Hin. unfold elements. rewrite Hr, elem_of_reverse.
      apply rooted_no_parent, not_elem_of_nil. }
    rewrite path_elements, He, splitChar_cut, foldl_app by done.
    change (splitChar slash "..") with [".."].
    rewrite reverse_app, reverse_singleton. cbn [foldl app].
    rewrite cleanStep_parent, bool_decide_false, clean_plain by done.
    by rewrite reverse_app, !reverse_involutive.
  - unfold serveFile, GetFile. rewrite Hh, Hf. cbn. by eexists.
Qed.

(** Two identifiers of one length never name one file. *)
Lemma fileName_inj uuid uuid' ext ext' :
  String.length uuid = String.length uuid' ->
  fileName uuid ext = fileName uuid' ext' -> uuid = uuid'.
Proof.
  unfold fileName. revert uuid'. induction uuid as [|a u IH]; intros [|b u'] Hl He; try done.
  cbn in Hl. change (String a u +:+ keepRunes extChar 0 ext)
    with (String a (u +:+ keepRunes extChar 0 ext)) in He.
  change (String b u' +:+ keepRunes extChar 0 ext')
    with (String b (u' +:+ keepRunes extChar 0 ext')) in He.
  injection He as -> He. f_equal. apply IH; [lia|done].
Qed.

Lemma keyElements_uuid prefix phone phone' year year' month month' uuid uuid' ext ext' :
  keyElements prefix phone year month uuid ext = keyElements prefix phone' year' month' uuid' ext' ->
  String.length uuid = String.length uuid' -> uuid = uuid'.
Proof.
  unfold keyElements. intros He Hl. apply (f_equal last) in He.
  rewrite !last_app in He. cbn in He. injection He as He. by eapply fileName_inj.
Qed.

(** ** Theorems *)


(** ** Lemmas: the store *)

(** The sweep takes exactly the expired files of the directory. *)
Lemma cleanup_exact cutoff s p f :
  ls_files (performCleanup cutoff s) !! p = Some f <->
  ls_files s !! p = Some f /\ ((0 < ls_retentionDays s)%Z -> expired (ls_path s) cutoff p f = false).
Proof.
  unfold performCleanup. destruct (Z.leb_spec (ls_retentionDays s) 0) as [Hd|Hd].
  - split; [|by intros [? _]]. intros Hf. split; [done|]. lia.
  - cbn. rewrite map_lookup_filter_Some. cbn. split; intros [H1 H2]; auto.
Qed.

Lemma under_below dir p l :
  isRooted dir = isRooted p -> elements p = elements dir ++ l -> under dir p = true.
Proof.
  intros Hr He. unfold under. rewrite Hr, He, Bool.eqb_reflx, take_app_length.
  by rewrite bool_decide_true.
Qed.

Lemma uuid_not_hidden uuid ext : uuidText uuid = true -> hasPrefix "." (fileName uuid ext) = false.
Proof.
  unfold uuidText. intros [Hu Hn]%andb_true_iff. destruct uuid as [|a u]; [done|].
  cbn [stringAll] in Hu. apply andb_true_iff in Hu as [Ha _].
  unfold fileName. change (String a u +:+ keepRunes extChar 0 ext)
    with (String a (u +:+ keepRunes extChar 0 ext)).
  unfold hasPrefix. cbn [String.prefix]. destruct (Ascii.ascii_dec "." a) as [<-|]; [done|done].
Qed.

(** Stored media are swept as soon as, and not before, they are older than the days of
    retention. *)
Lemma media_swept_when_due s key prefix phone year month uuid ext content now cutoff :
  isRooted (ls_path s) = true -> isRooted (getFullPath s "" key) = true -> uuidText uuid = true ->
  elements (getFullPath s "" key) = elements (ls_path s) ++ keyElements prefix phone year month uuid ext ->
  expired (ls_path s) cutoff (getFullPath s "" key) (mkFile content now) = (now <? cutoff)%Z.
Proof.
  intros Hr Hp Hu He. unfold expired. erewrite under_below by (try exact He; by rewrite Hr, Hp).
  unfold Base. rewrite He. unfold keyElements. rewrite (assoc_L (++)).
  change [year; month; fileName uuid ext] with ([year; month] ++ [fileName uuid ext]).
  rewrite (assoc_L (++)), last_last. by rewrite uuid_not_hidden.
Qed.

(** What was deleted is not found. *)
Lemma deleted_not_served `{UnicodeLower} s key : serveFile (DeleteFile s "" key).1 key = BadRequest
  \/ serveFile (DeleteFile s "" key).1 key = NotFound.
Proof.
  unfold serveFile. destruct key as [|a k]; [by left|]. right. unfold DeleteFile, GetFile.
  destruct (ls_healthy s) eqn:Eh; cbn; [|by rewrite Eh].
  destruct (ls_files s !! _) eqn:Ef; cbn; rewrite ?Eh; cbn.
  - unfold getFullPath. cbn. by rewrite lookup_delete_eq.
  - by rewrite Ef.
Qed.

(** The type of an audio message with a parameter is none of the allowed ones. *)
Lemma voice_type_refused : getExtension Audio "audio/ogg; codecs=opus" = None.
Proof. done. Qed.

(** The route does not know the types of sound and film that the downloader stores. *)
Lemma film_served_untyped `{UnicodeLower} :
  Forall (fun m => exists e, lookupMime m = Some e /\ contentTypeOf e = "application/octet-stream")
    ["video/mp4"; "video/3gpp"; "audio/mpeg"; "audio/mp3"; "audio/aac"; "audio/ogg"].
Proof. repeat constructor; eexists; by split. Qed.

(** ** Instances *)

#[local] Instance asciiOnly : UnicodeLower := { unicodeLower s := s }.

Definition demoStore : LocalStorage := {|
  ls_path := "/var/lib/gateway/media"; ls_baseURL := "https://gw.example/files/";
  ls_retentionDays := 30; ls_healthy := true;
  ls_files := {["/var/lib/gateway/secret" := mkFile [Byte.x2a] 1]} |}.
Definition demoConfig : MediaConfig := mkMediaConfig true 4 "webhook/media".
Definition demoUuid : string := "0e7c1c58-0d0c-4f5e-9d59-8a1f3c2b7a10".


(** A request for [../../secret] reads a file outside the directory. *)
Lemma served_outside_example :
  serveFile demoStore "../secret" = Sent (mkFile [Byte.x2a] 1) "application/octet-stream".
Proof. vm_compute. reflexivity. Qed.
