(* ===== verification/Docsgen.v ===== *)
(** * The docs generator ([pkg/docsgen/docsgen.go], [pkg/docsgen/search.go])

    The drift guard of the sidebar, and the search index: [parseDoc] cuts a document at its
    headings.  [parseDoc_sections]: it gives the sections of a plain reference definition;
    [index_ids_match_page]: the ids it writes are those that the page's [generateSlug] makes
    of the same headings; [validateNav_exact]: when the guard is silent.

    Strings are bytes; a line is what the scanner hands out, shorter than a mebibyte. *)

From Stdlib Require Import ZArith Ascii String.
From stdpp Require Import strings numbers list sorting.
From S2P Require Import Prelude JsString Routing GoLang GoStrings Paths.
#[local] Set Default Proof Using "Type".

Open Scope string_scope.

(** ** The sidebar *)

Record Link := mkLink { ln_title : string; ln_file : string }.
Record Section_ := mkSection { sc_title : string; sc_links : list Link }.
Record Nav := mkNav { nv_defaultDoc : string; nv_sections : list Section_ }.

Definition docKeys (n : Nav) : list string :=
  s ← nv_sections n; l ← sc_links s; [ln_file l].

(** [sort.Strings]. *)
Definition stringLe (a b : string) : Prop := String.leb a b = true.
#[export] Instance stringLe_dec : RelDecision stringLe := fun a b => decide (_ = true).
Definition sortStrings (l : list string) : list string := merge_sort stringLe l.

(** [ValidateNav]: nothing, or what the error lists, the documents that the sidebar misses
    and the links without a document. *)
Definition ValidateNav (nav : Nav) (docKeysOnDisk : list string) : option (list string * list string) :=
  let missingFromNav := filter (fun k => k ∉ docKeys nav) docKeysOnDisk in
  let missingFromDisk := filter (fun k => k ∉ docKeysOnDisk) (docKeys nav) in
  match missingFromNav, missingFromDisk with
  | [], [] => None
  | _, _ => Some (sortStrings missingFromNav, sortStrings missingFromDisk)
  end.

(** ** Slugs *)

(** [[^\w\s-]]; every byte of a character outside ASCII goes with it. *)
Definition slugBadByte (a : ascii) : bool :=
  negb (wordByte a || spaceByte a || Ascii.eqb a "-").

Definition Slugify `{UnicodeLower} (text : string) : string :=
  trimBoth (Ascii.eqb " ")
    (squeeze (Ascii.eqb "-") "-" false
       (squeeze spaceByte "-" false (dropBytes slugBadByte (ToLower text)))).

(** ** Inline markup *)

Fixpoint cut (c : ascii) (s : string) : option (string * string) :=
  match s with
  | EmptyString => None
  | String a r =>
      if Ascii.eqb a c then Some ("", r)
      else match cut c r with Some (x, y) => Some (String a x, y) | None => None end
  end.

(** A match of [reLink] without its exclamation mark at the start of a text: the group and
    what follows the match. *)
Definition linkAt (s : string) : option (string * string) :=
  match s with
  | String "[" r =>
      match cut "]" r with
      | Some (t, String "(" r') =>
          match cut ")" r' with Some (_, rest) => Some (t, rest) | None => None end
      | _ => None
      end
  | _ => None
  end.

Definition reLinkAt (s : string) : option (string * string) :=
  match s with String "!" r => linkAt r | _ => linkAt s end.

(** [reLink.ReplaceAllString(s, "$1")]; the fuel is the text's length. *)
Fixpoint replaceLinks (fuel : nat) (s : string) : string :=
  match fuel with
  | O => s
  | S n =>
      match reLinkAt s with
      | Some (t, rest) => t +:+ replaceLinks n rest
      | None => match s with EmptyString => "" | String a r => String a (replaceLinks n r) end
      end
  end.
Definition unlink (s : string) : string := replaceLinks (String.length s) s.

(** [strings.ReplaceAll] of two stars by nothing. *)
Fixpoint dropStars (s : string) : string :=
  match s with
  | String "*" (String "*" r) => dropStars r
  | String a r => String a (dropStars r)
  | EmptyString => ""
  end.

Definition stripInline (s : string) : string :=
  trimSpace (dropBytes (Ascii.eqb "*") (dropStars (dropBytes (Ascii.eqb "`") (unlink s)))).

(** [^\s*\d+\.\s+] replaced by nothing. *)
Definition dropListNumber (s : string) : string :=
  match trimLeft spaceByte s with
  | String a r =>
      if digitByte a then
        match trimLeft digitByte r with
        | String "." (String b r') => if spaceByte b then trimLeft spaceByte r' else s
        | _ => s
        end
      else s
  | EmptyString => s
  end.

(** What [cleanText] makes of one line. *)
Definition cleanLine (line : string) : string :=
  let t := dropStars (dropBytes (Ascii.eqb "`") (unlink (trimSpace line))) in
  trimSpace (dropListNumber (trimLeft (anyOf "-*+ ") (trimBoth (anyOf ">|") t))).

Definition notEmpty (s : string) : bool := negb (String.eqb s "").

Definition newline : ascii := "010".
Definition tabOrSpace (a : ascii) : bool := Ascii.eqb a "009" || Ascii.eqb a " ".

Definition cleanText (s : string) : string :=
  let out := List.filter notEmpty
    (map cleanLine (List.filter (fun l => notEmpty (trimSpace l)) (splitChar newline s))) in
  trimSpace (squeeze tabOrSpace " " false (joinWith " " out)).

(** [strings.FieldsFunc] at hyphens and underscores. *)
Definition fields (s : string) : list string :=
  List.filter notEmpty
    (concat (map (splitChar "_") (splitChar "-" s))).

(** [strings.ToUpper(p[:1]) + p[1:]]: a byte that is no character becomes the replacement
    character. *)
Definition upperFirst (s : string) : string :=
  match s with
  | EmptyString => ""
  | String a r =>
      if asciiByte a then
        String (if isLower (byteOf a) then ascii_of_N (byteOf a - 32) else a) r
      else String "239" (String "191" (String "189" r))
  end.

Definition humanize (base : string) : string := joinWith " " (map upperFirst (fields base)).

(** ** The records of one document *)

(** The document's title is written into every record at the end, [ix_title]. *)
Record SearchRecord := mkRecord {
  sr_File : string;
  sr_Heading : string;
  sr_HeadingID : string;
  sr_Text : string;
}.

Record parser := mkParser {
  ps_docTitle : string;
  ps_records : list SearchRecord;
  ps_cur : SearchRecord;
  ps_body : string;
  ps_inFence : bool;
  ps_fenceIsMermaid : bool;
}.

Definition setTitle t p := mkParser t (ps_records p) (ps_cur p) (ps_body p) (ps_inFence p) (ps_fenceIsMermaid p).
Definition setFence i m p := mkParser (ps_docTitle p) (ps_records p) (ps_cur p) (ps_body p) i m.
Definition write line p :=
  mkParser (ps_docTitle p) (ps_records p) (ps_cur p)
    (ps_body p +:+ line +:+ String newline "") (ps_inFence p) (ps_fenceIsMermaid p).

(** [flush], then the record that comes next. *)
Definition flush (next : SearchRecord) (p : parser) : parser :=
  let cur := mkRecord (sr_File (ps_cur p)) (sr_Heading (ps_cur p)) (sr_HeadingID (ps_cur p))
               (cleanText (ps_body p)) in
  mkParser (ps_docTitle p)
    (if notEmpty (sr_Text cur) || notEmpty (sr_Heading cur) then (ps_records p ++ [cur])%list
     else ps_records p)
    next "" (ps_inFence p) (ps_fenceIsMermaid p).

Definition docTitleIsDefault (cur key : string) : bool := String.eqb cur (humanize (Base key)).

Definition fenceMark : string := "```".
Definition isFence (line : string) : bool := hasPrefix fenceMark (trimSpace line).
Definition fenceLanguage (line : string) : string :=
  trimSpace (string_of_list_ascii (drop 3 (list_ascii_of_string (trimSpace line)))).
(** [strings.EqualFold] with a word whose letters fold within ASCII only. *)
Definition isMermaid (line : string) : bool :=
  String.eqb (stringMap lowerByte (fenceLanguage line)) "mermaid".

(** [reHeading.FindStringSubmatch]: the length of the first group, and the second one. *)
Definition headingText (r : string) : option string :=
  match r with
  | String b r' => if spaceByte b then Some (trimLeft spaceByte r') else None
  | EmptyString => None
  end.
Definition headingOf (line : string) : option (nat * string) :=
  match line with
  | String "#" (String "#" r) => pair 2%nat <$> headingText r
  | String "#" r => pair 1%nat <$> headingText r
  | _ => None
  end.

Section parse.
Context `{UnicodeLower}.

Definition parseLine (key : string) (p : parser) (line : string) : parser :=
  if isFence line then
    (if ps_inFence p then setFence false false p else setFence true (isMermaid line) p)
  else if ps_inFence p then (if ps_fenceIsMermaid p then p else write line p)
  else match headingOf line with
  | Some (level, text) =>
      let heading := trimSpace (stripInline text) in
      let p := if (level =? 1)%nat && docTitleIsDefault (ps_docTitle p) key
               then setTitle heading p else p in
      flush (mkRecord key heading (Slugify heading) "") p
  | None => write line p
  end.

Definition parseDoc (key : string) (lines : list string) : string * list SearchRecord :=
  let p := foldl (parseLine key)
    (mkParser (humanize (Base key)) [] (mkRecord key "" "" "") "" false false) lines in
  let p := flush (ps_cur p) p in
  (ps_docTitle p, ps_records p).

(** [BuildSearchIndex] of the documents in the order of their sorted keys. *)
Definition BuildSearchIndex (docs : list (string * list string)) : list (string * SearchRecord) :=
  d ← docs; let r := parseDoc d.1 d.2 in map (pair r.1) r.2.
End parse.

(** ** The reference: the sections of a document *)

(** What is being read: text, or the inside of a fence, of a diagram or not. *)
Fixpoint sections (fence : option bool) (lines : list string) : string * list (string * string) :=
  match lines with
  | [] => ("", [])
  | l :: r =>
      if isFence l then sections (match fence with Some _ => None | None => Some (isMermaid l) end) r
      else
        let keep f := let s := sections f r in (l +:+ String newline s.1, s.2) in
        match fence with
        | Some true => sections fence r
        | Some false => keep fence
        | None =>
            match headingOf l with
            | Some (_, t) =>
                let s := sections None r in ("", (trimSpace (stripInline t), s.1) :: s.2)
            | None => keep None
            end
        end
  end.

Definition sectionRecord `{UnicodeLower} (key : string) (s : string * string) : SearchRecord :=
  mkRecord key s.1 (Slugify s.1) (cleanText s.2).

Definition worthIndexing (r : SearchRecord) : bool := notEmpty (sr_Text r) || notEmpty (sr_Heading r).

#[local] Open Scope list_scope.

(** ** Lemmas: slugs *)

(** The bytes on which the two classes of white space agree. *)
Definition plainByte (a : ascii) : bool := asciiByte a && negb (byteOf a =? 11)%N.
Definition plainText (s : string) : bool := stringAll plainByte s.

Lemma byteOf_lower a : byteOf (lowerByte a) = asciiLower (byteOf a).
Proof.
  unfold lowerByte, byteOf. apply N_ascii_embedding. unfold asciiLower, isUpper.
  pose proof (N_ascii_bounded a). destruct (_ && _) eqn:E; lia.
Qed.

Lemma plainByte_lower a : plainByte a = true -> plainByte (lowerByte a) = true.
Proof.
  unfold plainByte, asciiByte. rewrite byteOf_lower. unfold asciiLower.
  destruct (isUpper (byteOf a)) eqn:E; unfold isUpper in E; lia.
Qed.

Lemma spaceByte_agrees a : plainByte a = true -> spaceByte a = isSpace (byteOf a).
Proof. unfold plainByte, asciiByte, spaceByte, isSpace. generalize (byteOf a). intros n. lia. Qed.

Lemma hyphenByte_agrees a : Ascii.eqb "-" a = N.eqb cHyphen (byteOf a).
Proof.
  destruct (Ascii.eqb_spec "-" a) as [<-|Hne]; [done|]. symmetry. apply N.eqb_neq. intros H.
  apply Hne. rewrite <- (ascii_N_embedding a). unfold byteOf in H. by rewrite <- H.
Qed.

Lemma slugBad_agrees a : plainByte a = true -> slugBadByte a = slugBad (byteOf a).
Proof.
  intros Ha. unfold slugBadByte, slugBad, wordByte. rewrite spaceByte_agrees by done.
  by rewrite (Ascii.eqb_sym a), hyphenByte_agrees, (N.eqb_sym cHyphen).
Qed.

Lemma lit_stringAll q s : stringAll (fun a => q (byteOf a)) s = allb q (lit s).
Proof. induction s as [|a s IH]; [done|]. cbn. by rewrite IH. Qed.

(** Of a text in ASCII without vertical tabs the generator and the page make the same slug. *)
Lemma slugs_agree `{UnicodeLower} `{CaseMapping} text :
  plainText text = true -> lit (Slugify text) = generateSlug (lit text).
Proof.
  intros Ht. unfold plainText in Ht.
  assert (Hascii : stringAll asciiByte text = true).
  { revert Ht. apply stringAll_impl. unfold plainByte. intros a Ha. by bool_simpl. }
  assert (Hl : stringAll plainByte (stringMap lowerByte text) = true).
  { clear -Ht. induction text as [|a s IH]; [done|]. cbn in *. bool_simpl.
    rewrite plainByte_lower by done. auto. }
  assert (Hu : toLowerCase (lit text) = lit (stringMap lowerByte text)).
  { rewrite toLowerCase_ascii by (by rewrite <- lit_stringAll). symmetry.
    eapply lit_stringMap; [|exact Ht]. intros a _. apply byteOf_lower. }
  unfold Slugify, ToLower. rewrite Hascii.
  set (d := dropBytes slugBadByte (stringMap lowerByte text)).
  assert (Hd : stringAll plainByte d = true) by (by apply dropBytes_all).
  set (w := squeeze spaceByte "-" false d).
  assert (Hw : stringAll plainByte w = true) by (by apply squeeze_all).
  assert (E : lit (squeeze (Ascii.eqb "-") "-" false w) = generateSlug (lit text)).
  { rewrite generateSlug_untrimmed. unfold slugHyphens. rewrite Hu.
    rewrite (lit_squeeze plainByte _ (N.eqb cHyphen)) by (first [done|intros a _; apply hyphenByte_agrees]).
    unfold w. rewrite (lit_squeeze plainByte _ isSpace) by (first [done|apply spaceByte_agrees]).
    unfold d. rewrite (lit_dropBytes plainByte _ slugBad) by (first [done|apply slugBad_agrees]).
    done. }
  rewrite trimBoth_none; [exact E|].
  assert (Hc : allb isSlugChar (generateSlug (lit text)) = true) by apply generateSlug_chars.
  rewrite <- E, <- lit_stringAll in Hc. revert Hc. apply stringAll_impl.
  intros a Ha. destruct (Ascii.eqb_spec " " a) as [<-|]; [by vm_compute in Ha|done].
Qed.

(** ** Lemmas: links *)

#[local] Open Scope nat_scope.
#[local] Open Scope list_scope.

Lemma cut_shorter c s x y : cut c s = Some (x, y) -> String.length y < String.length s.
Proof.
  revert x. induction s as [|a s IH]; intros x; cbn; [done|].
  destruct (Ascii.eqb a c); [intros [= <- <-]; lia|].
  destruct (cut c s) as [[x' y']|] eqn:E; [|done]. intros [= <- <-].
  specialize (IH _ eq_refl). lia.
Qed.

Lemma linkAt_shorter s t rest : linkAt s = Some (t, rest) -> String.length rest < String.length s.
Proof.
  unfold linkAt. intros H. repeat case_match; simplify_eq.
  repeat match goal with E : cut _ _ = Some _ |- _ => apply cut_shorter in E; cbn in E end.
  cbn. lia.
Qed.

Lemma reLinkAt_shorter s t rest : reLinkAt s = Some (t, rest) -> String.length rest < String.length s.
Proof.
  assert (Hl : forall s', linkAt s' = Some (t, rest) -> String.length rest < String.length s')
    by (intros ?; apply linkAt_shorter).
  unfold reLinkAt. intros H. repeat case_match; apply Hl in H; cbn in *; lia.
Qed.

(** The text's length is fuel enough. *)
Lemma replaceLinks_enough n s : String.length s <= n -> replaceLinks n s = unlink s.
Proof.
  unfold unlink. remember (String.length s) as k eqn:Hk. assert (Hs : String.length s <= k) by lia. clear Hk.
  revert n s Hs. induction k as [|k IH]; intros n s Hs Hn.
  { destruct s; [|cbn in Hs; lia]. by destruct n. }
  destruct n as [|n]; [lia|]. cbn [replaceLinks].
  destruct (reLinkAt s) as [[t rest]|] eqn:E.
  - apply reLinkAt_shorter in E. by rewrite (IH n rest) by lia.
  - destruct s as [|a s]; [done|]. cbn in Hs. by rewrite (IH n s) by lia.
Qed.

(** ** Lemmas: the index *)

Section parse_lemmas.
Context `{UnicodeLower}.

Definition fenceOf (p : parser) : option bool :=
  if ps_inFence p then Some (ps_fenceIsMermaid p) else None.

(** What [flush] will write of the section that is being read. *)
Definition wellFiled (key : string) (p : parser) : Prop :=
  sr_File (ps_cur p) = key /\ sr_HeadingID (ps_cur p) = Slugify (sr_Heading (ps_cur p)).

Lemma flush_records key next p :
  wellFiled key p ->
  ps_records (flush next p)
  = ps_records p ++ List.filter worthIndexing [sectionRecord key (sr_Heading (ps_cur p), ps_body p)].
Proof.
  intros [Hf Hi]. unfold flush, sectionRecord. cbn. rewrite Hf, Hi. unfold worthIndexing at 1. cbn.
  destruct (notEmpty _ || notEmpty _); [done|]. by rewrite app_nil_r.
Qed.

Lemma parse_sections key next lines p :
  wellFiled key p ->
  ps_records (flush next (foldl (parseLine key) p lines))
  = ps_records p
    ++ List.filter worthIndexing
         (map (sectionRecord key)
            ((sr_Heading (ps_cur p), ps_body p +:+ (sections (fenceOf p) lines).1)
             :: (sections (fenceOf p) lines).2)).
Proof.
  revert p. induction lines as [|l r IH]; intros p Hp.
  { cbn [foldl sections fst snd map]. rewrite append_empty. by apply flush_records. }
  cbn [foldl sections]. unfold parseLine at 2. unfold fenceOf.
  destruct (isFence l) eqn:Ef.
  { destruct (ps_inFence p); rewrite IH by done; done. }
  destruct (ps_inFence p) eqn:Ei.
  { destruct (ps_fenceIsMermaid p) eqn:Em.
    - rewrite IH by done. unfold fenceOf. by rewrite Ei, Em.
    - rewrite IH by done. unfold fenceOf. cbn [write ps_inFence ps_fenceIsMermaid ps_cur ps_body ps_records].
      rewrite Ei, Em. cbn [fst snd]. by rewrite !append_assoc. }
  destruct (headingOf l) as [[level t]|] eqn:Eh.
  2: { rewrite IH by done. unfold fenceOf. cbn [write ps_inFence ps_fenceIsMermaid ps_cur ps_body ps_records].
       rewrite Ei. cbn [fst snd]. by rewrite !append_assoc. }
  set (h := trimSpace (stripInline t)).
  set (p1 := if (level =? 1)%nat && docTitleIsDefault (ps_docTitle p) key then setTitle h p else p).
  assert (Hp1 : wellFiled key p1 /\ ps_cur p1 = ps_cur p /\ ps_body p1 = ps_body p
    /\ ps_records p1 = ps_records p /\ ps_inFence p1 = false).
  { unfold p1. by destruct (_ && _). }
  destruct Hp1 as (Hw & Hc & Hb & Hr & Hi).
  rewrite IH by done. rewrite (flush_records key) by done. unfold fenceOf.
  cbn [flush ps_inFence ps_fenceIsMermaid ps_cur ps_body sr_Heading fst snd].
  rewrite Hi, Hc, Hb, Hr, append_empty. rewrite <- (assoc_L (++)), <- List.filter_app. done.
Qed.

(** The records of a document are its sections that have a heading or a text: no heading
    and no line outside diagrams is lost, and each line counts for its own section. *)
Lemma parseDoc_sections key lines :
  (parseDoc key lines).2
  = List.filter worthIndexing
      (map (sectionRecord key) (("", (sections None lines).1) :: (sections None lines).2)).
Proof. unfold parseDoc. cbn [snd]. by erewrite (parse_sections key). Qed.

End parse_lemmas.

(** ** Lemmas: the sidebar *)

Lemma filter_nil_iff (P : string -> Prop) `{forall x, Decision (P x)} l :
  filter P l = [] <-> forall x, x ∈ l -> ~ P x.
Proof.
  split.
  - intros Hf x Hx HP. assert (Hin : x ∈ filter P l) by (by apply list_elem_of_filter).
    rewrite Hf in Hin. by apply elem_of_nil in Hin.
  - intros Hn. destruct (filter P l) as [|x r] eqn:E; [done|].
    assert (Hin : x ∈ filter P l) by (rewrite E; by left).
    apply list_elem_of_filter in Hin as [HP Hx]. by destruct (Hn x).
Qed.

(** The guard is silent exactly when the sidebar has the documents on disk and no others;
    otherwise it lists exactly the ones that differ. *)
Lemma validateNav_exact nav disk :
  (ValidateNav nav disk = None <-> forall k, k ∈ docKeys nav <-> k ∈ disk)
  /\ (forall m1 m2, ValidateNav nav disk = Some (m1, m2) ->
        (forall k, k ∈ m1 <-> k ∈ disk /\ k ∉ docKeys nav)
        /\ (forall k, k ∈ m2 <-> k ∈ docKeys nav /\ k ∉ disk)).
Proof.
  set (P := fun k => k ∉ docKeys nav). set (Q := fun k => k ∉ disk).
  assert (E : ValidateNav nav disk = match filter P disk, filter Q (docKeys nav) with
    | [], [] => None | _, _ => Some (sortStrings (filter P disk), sortStrings (filter Q (docKeys nav))) end) by done.
  rewrite E. split.
  - transitivity (filter P disk = [] /\ filter Q (docKeys nav) = []).
    { destruct (filter P disk), (filter Q (docKeys nav)); split; try done; by intros []. }
    rewrite !filter_nil_iff. unfold P, Q. split.
    + intros [H1 H2] k. split; intros Hk; apply dec_stable; auto.
    + intros Hk. split; intros k Hin Hn; apply Hn, Hk, Hin.
  - intros m1 m2 H. assert (m1 = sortStrings (filter P disk) /\ m2 = sortStrings (filter Q (docKeys nav))) as [-> ->].
    { destruct (filter P disk), (filter Q (docKeys nav)); by simplify_eq. }
    unfold sortStrings. split; intros k; rewrite merge_sort_Permutation, list_elem_of_filter; unfold P, Q; tauto.
Qed.

(** ** Instances *)

#[local] Instance asciiOnly : UnicodeLower := { unicodeLower s := s }.

(** The first heading of level one is the title, unless it is the one that the file's name
    gives: then a later one takes its place. *)
Lemma later_title_wins :
  (parseDoc "guides/setup" ["# Setup"; "text"; "# Annex"]).1 = "Annex"
  /\ (parseDoc "guides/setup" ["# Set up"; "text"; "# Annex"]).1 = "Set up".
Proof. split; vm_compute; reflexivity. Qed.

(** The slugs differ where the two classes of white space do. *)
Lemma slugs_differ :
  Slugify (String "a" (String "011" "b")) = "ab"
  /\ generateSlug (lit (String "a" (String "011" "b"))) = lit "a-b".
Proof. split; vm_compute; reflexivity. Qed.

Definition demoDoc : list string :=
  ["Intro with a [link](x.md)."; "# Queue *Processing*"; "Text > of | it."; "```mermaid"; "graph TD"; "```";
   "```bash"; "# a comment"; "```"; "## HMAC_KEY `now`"; "1. first"; "- second"].

