(* ===== verification/Reads.v ===== *)
(** * Reads that reach the server ([internal/usecase/whatsapp/query.go], [read_usecase.go])

    The cache and the budget of the read use cases, the recipients they accept
    ([resolveChat] of [message_usecase.go]) and the pages of the contact list.

    A request is one call of [queryWithBudget]; requests interleave where the code lets
    them: between the lookup in the cache, the call of the limiter and the answer of the
    server.  [trace] is what happens outside the use case; [lastFetch] and [spends] read
    it.  [reads_fresh_and_budgeted] states what holds of every interleaving. *)

From Stdlib Require Import ZArith Ascii String.
From stdpp Require Import strings numbers gmap list sorting.
From S2P Require Import Prelude JsString GoLang GoStrings RateLimiter.
#[local] Set Default Proof Using "Type".

Open Scope string_scope.

(** ** Recipients *)

Definition digitByte (a : ascii) : bool := isDigit (byteOf a).

Definition isAllDigits (s : string) : bool :=
  match s with EmptyString => false | _ => stringAll digitByte s end.

Definition validJIDServers : list string := ["s.whatsapp.net"; "g.us"; "lid"].

(** [types.ParseJID]: the user without its device, and the server. *)
Class JidParser := { ParseJID : string -> option (string * string) }.

Definition trimPrefix (p s : string) : string :=
  if hasPrefix p s then
    string_of_list_ascii (drop (String.length p) (list_ascii_of_string s))
  else s.

Definition resolveChat `{JidParser} `{UnicodeLower} (chat msisdn : string) : option string :=
  let v := match trimSpace chat with EmptyString => trimSpace msisdn | c => c end in
  match v with
  | EmptyString => None
  | _ =>
      if hasChar "@" v then
        match ParseJID v with
        | None => None
        | Some (user, server) =>
            if negb (isAllDigits user) then None
            else
              let server := ToLower server in
              if existsb (String.eqb server) validJIDServers
              then Some (user +:+ "@" +:+ server) else None
        end
      else
        match dropBytes (fun a => negb (digitByte a)) (trimPrefix "+" v) with
        | EmptyString => None
        | digits => Some (digits +:+ "@s.whatsapp.net")
        end
  end.

Definition groupSuffix : string := "@g.us".

Definition resolveGroupJID `{JidParser} `{UnicodeLower} (chat msisdn : string) : option string :=
  match resolveChat chat msisdn with
  | Some target => if hasSuffix groupSuffix target then Some target else None
  | None => None
  end.

(** The recipient of a profile lookup. *)
Definition resolveUser `{JidParser} `{UnicodeLower} (chat msisdn : string) : option string :=
  match resolveChat chat msisdn with
  | Some target => if hasSuffix groupSuffix target then None else Some target
  | None => None
  end.

(** ** The keys of the cache *)

Inductive Read :=
  | ReadGroups
  | ReadGroupInfo (target : string)
  | ReadSubGroups (target : string)
  | ReadCommunity (target : string)
  | ReadContactInfo (target : string)
  | ReadAvatar (target : string) (preview : bool)
  | ReadInvite (code : string)
  | ReadJoinRequests (target : string).

Definition boolText (b : bool) : string := if b then "true" else "false".

Definition cacheKey (phone : string) (r : Read) : string :=
  match r with
  | ReadGroups => "groups:" +:+ phone
  | ReadGroupInfo t => "groupinfo:" +:+ phone +:+ ":" +:+ t
  | ReadSubGroups t => "subgroups:" +:+ phone +:+ ":" +:+ t
  | ReadCommunity t => "communityparts:" +:+ phone +:+ ":" +:+ t
  | ReadContactInfo t => "contactinfo:" +:+ phone +:+ ":" +:+ t
  | ReadAvatar t p => "avatar:" +:+ phone +:+ ":" +:+ t +:+ ":" +:+ boolText p
  | ReadInvite c => "inviteinfo:" +:+ phone +:+ ":" +:+ c
  | ReadJoinRequests t => "joinreqs:" +:+ phone +:+ ":" +:+ t
  end.

(** ** Pages of the contact list *)

Definition defaultContactPageLimit : Z := 100.
Definition maxContactPageLimit : Z := 500.

(** [ListContacts] of sorted contacts: the page's bounds. *)
Definition pageBounds (limit offset total : Z) : Z * Z :=
  let limit := if (limit <=? 0)%Z then defaultContactPageLimit else limit in
  let limit := if (maxContactPageLimit <? limit)%Z then maxContactPageLimit else limit in
  let offset := if (offset <? 0)%Z then 0%Z else offset in
  let start := Z.min offset total in
  (start, Z.min (start + limit) total).

Definition contactPage {A} (limit offset : Z) (items : list A) : list A :=
  let '(a, b) := pageBounds limit offset (Z.of_nat (List.length items)) in
  take (Z.to_nat (b - a)) (drop (Z.to_nat a) items).

(** ** The cache and the budget *)

Definition newQueryBudget (limit windowSeconds : Z) : MemoryLimiter :=
  let limit := if (limit <=? 0)%Z then 30%Z else limit in
  let window := wrap64 (windowSeconds * second) in
  let window := if (window <=? 0)%Z then (60 * second)%Z else window in
  NewMemoryLimiter (mkLimiterConfig limit window "whatsapp:gateway:readquery:").

Section cache.
Context {V : Type}.

Record cacheEntry := mkCached { ce_val : V; ce_expiresAt : instant }.
Record ttlCache := mkCache { tc_ttl : duration; tc_m : gmap string cacheEntry }.

Definition newTTLCache (ttl : duration) : ttlCache :=
  mkCache (if (ttl <=? 0)%Z then (300 * second)%Z else ttl) ∅.

Definition cacheGet (c : ttlCache) (now : instant) (key : string) : option V :=
  match tc_m c !! key with
  | Some e => if (ce_expiresAt e <? now)%Z then None else Some (ce_val e)
  | None => None
  end.

Definition cacheSet (now : instant) (key : string) (v : V) (c : ttlCache) : ttlCache :=
  mkCache (tc_ttl c) (<[key := mkCached v (now + tc_ttl c)%Z]> (tc_m c)).

(** [spendReadBudget]: whether the read may go on. *)
Definition spendReadBudget (now later : instant) (phone : string) (l : MemoryLimiter) : bool * MemoryLimiter :=
  let (res, l') := Allow now later phone l in
  (match res with Some r => resAllowed r | None => true end, l').

Inductive answer := Got (v : V) | TooManyRequests | Failed.

(** [queryWithBudget], when nobody else runs; [fn] is what the server says, [None] an
    error, and each clock reading is an argument. *)
Definition queryWithBudget (tGet tSpend tLater tSet : instant) (phone key : string)
    (fn : option V) (c : ttlCache) (l : MemoryLimiter) : answer * ttlCache * MemoryLimiter :=
  match cacheGet c tGet key with
  | Some v => (Got v, c, l)
  | None =>
      let (ok, l') := spendReadBudget tSpend tLater phone l in
      if ok then
        match fn with
        | Some v => (Got v, cacheSet tSet key v c, l')
        | None => (Failed, c, l')
        end
      else (TooManyRequests, c, l')
  end.

(** ** Interleaved requests *)

(** A request that bypasses the cache has no key: the freshness check of [GetAvatar]. *)
Inductive phase :=
  | Missed (phone : string) (key : option string)
  | Calling (phone : string) (key : option string)
  | Answered (a : answer).

Record system := mkSystem {
  sy_cache : ttlCache;
  sy_budget : MemoryLimiter;
  sy_requests : gmap nat phase;
}.

Inductive event :=
  | Lookup (id : nat) (now : instant) (phone key : string)
  | Bypass (id : nat) (phone : string)
  | Spend (id : nat) (now later : instant)
  | Reply (id : nat) (now : instant) (r : option V).

(** What a step shows: a hit, a call of the limiter, and a value that the server gave. *)
Inductive shown :=
  | Hit (now : instant) (key : string) (v : V)
  | Spent (now : instant) (phone : string) (granted : bool)
  | Fetched (now : instant) (key : string) (v : V).

Definition withPhase (id : nat) (p : phase) (s : system) : system :=
  mkSystem (sy_cache s) (sy_budget s) (<[id := p]> (sy_requests s)).

Definition step (e : event) (s : system) : system * list shown :=
  match e with
  | Lookup id now phone key =>
      match sy_requests s !! id with
      | None =>
          match cacheGet (sy_cache s) now key with
          | Some v => (withPhase id (Answered (Got v)) s, [Hit now key v])
          | None => (withPhase id (Missed phone (Some key)) s, [])
          end
      | Some _ => (s, [])
      end
  | Bypass id phone =>
      match sy_requests s !! id with
      | None => (withPhase id (Missed phone None) s, [])
      | Some _ => (s, [])
      end
  | Spend id now later =>
      match sy_requests s !! id with
      | Some (Missed phone key) =>
          let (ok, l) := spendReadBudget now later phone (sy_budget s) in
          (mkSystem (sy_cache s) l
             (<[id := if ok then Calling phone key else Answered TooManyRequests]> (sy_requests s)),
           [Spent now phone ok])
      | _ => (s, [])
      end
  | Reply id now r =>
      match sy_requests s !! id with
      | Some (Calling phone key) =>
          match r, key with
          | Some v, Some key =>
              (mkSystem (cacheSet now key v (sy_cache s)) (sy_budget s)
                 (<[id := Answered (Got v)]> (sy_requests s)), [Fetched now key v])
          | Some v, None => (withPhase id (Answered (Got v)) s, [])
          | None, _ => (withPhase id (Answered Failed) s, [])
          end
      | _ => (s, [])
      end
  end.

Fixpoint run (evs : list event) (s : system) : system * list shown :=
  match evs with
  | [] => (s, [])
  | e :: r => let (s1, o) := step e s in let (s2, t) := run r s1 in (s2, o ++ t)%list
  end.

(** ** What a trace says *)

(** The last value that the server gave for a key, and when. *)
Fixpoint lastFetch (key : string) (t : list shown) : option (instant * V) :=
  match t with
  | [] => None
  | Fetched now k v :: r =>
      match lastFetch key r with
      | Some x => Some x
      | None => if String.eqb k key then Some (now, v) else None
      end
  | _ :: r => lastFetch key r
  end.

(** The calls of the limiter for an account, and its answers. *)
Fixpoint spends (phone : string) (t : list shown) : list (Call * bool) :=
  match t with
  | [] => []
  | Spent now p ok :: r => if String.eqb p phone then (mkCall now 1, ok) :: spends phone r else spends phone r
  | _ :: r => spends phone r
  end.
End cache.
Arguments cacheEntry V : clear implicits.
Arguments ttlCache V : clear implicits.
Arguments answer V : clear implicits.
Arguments phase V : clear implicits.
Arguments system V : clear implicits.
Arguments event V : clear implicits.
Arguments shown V : clear implicits.

#[local] Open Scope list_scope.

(** ** Lemmas: recipients *)

(** Addresses as the gateway writes them. *)
Definition canonical (j : string) : Prop :=
  exists user server, j = user +:+ "@" +:+ server /\ isAllDigits user = true /\ server ∈ validJIDServers.

Lemma dropBytes_kept p s : stringAll (fun a => negb (p a)) (dropBytes p s) = true.
Proof.
  induction s as [|a s IH]; [done|]. cbn. destruct (p a) eqn:E; [done|]. cbn. by rewrite E, IH.
Qed.

Lemma isAllDigits_kept s :
  dropBytes (fun a => negb (digitByte a)) s <> "" -> isAllDigits (dropBytes (fun a => negb (digitByte a)) s) = true.
Proof.
  intros Hn. pose proof (dropBytes_kept (fun a => negb (digitByte a)) s) as Hk.
  destruct (dropBytes _ s) as [|a r]; [done|]. unfold isAllDigits. revert Hk. apply stringAll_impl.
  intros b. by rewrite negb_involutive.
Qed.

(** Whatever is accepted is an address of digits at a known server. *)
Lemma resolveChat_canonical `{JidParser} `{UnicodeLower} chat msisdn j :
  resolveChat chat msisdn = Some j -> canonical j.
Proof.
  unfold resolveChat. set (v := match trimSpace chat with EmptyString => _ | _ => _ end).
  destruct v as [|a v']; [done|]. destruct (hasChar "@" _).
  - destruct (ParseJID _) as [[user server]|]; [|done].
    destruct (isAllDigits user) eqn:Eu; [|done]. cbn [negb].
    destruct (existsb _ _) eqn:Es; [|done]. intros [= <-].
    apply existsb_exists in Es as (x & Hx & Hs). apply String.eqb_eq in Hs as <-.
    exists user, (ToLower server). split_and!; [done|done|by apply list_elem_of_In].
  - pose proof (isAllDigits_kept (trimPrefix "+" (String a v'))) as Hk.
    destruct (dropBytes _ _) as [|d ds] eqn:E; [done|]. intros [= <-].
    exists (String d ds), "s.whatsapp.net". split_and!; [done|by apply Hk|by left].
Qed.

Lemma resolve_kinds `{JidParser} `{UnicodeLower} chat msisdn j :
  resolveGroupJID chat msisdn = Some j -> resolveUser chat msisdn = None.
Proof.
  unfold resolveGroupJID, resolveUser. destruct (resolveChat chat msisdn); [|done].
  by destruct (hasSuffix _ _).
Qed.

(** A number is not checked: what is no digit is dropped, letters as well as spaces. *)
Lemma letters_dropped `{JidParser} `{UnicodeLower} :
  resolveChat "call 12 not 34" "" = Some "1234@s.whatsapp.net".
Proof. done. Qed.

(** ** Lemmas: the keys *)

Definition kindName (r : Read) : string :=
  match r with
  | ReadGroups => "groups" | ReadGroupInfo _ => "groupinfo" | ReadSubGroups _ => "subgroups"
  | ReadCommunity _ => "communityparts" | ReadContactInfo _ => "contactinfo"
  | ReadAvatar _ _ => "avatar" | ReadInvite _ => "inviteinfo" | ReadJoinRequests _ => "joinreqs"
  end.

Definition targetParts (r : Read) : list string :=
  match r with
  | ReadGroups => []
  | ReadAvatar t p => splitChar ":" t ++ [boolText p]
  | ReadGroupInfo t | ReadSubGroups t | ReadCommunity t | ReadContactInfo t | ReadInvite t
  | ReadJoinRequests t => splitChar ":" t
  end.

Lemma cacheKey_parts phone r :
  hasChar ":" phone = false -> splitChar ":" (cacheKey phone r) = kindName r :: phone :: targetParts r.
Proof.
  intros Hp.
  assert (Hk : forall k s, hasChar ":" k = false ->
    splitChar ":" (k +:+ String ":" (phone +:+ String ":" s)) = k :: phone :: splitChar ":" s).
  { intros k s Hk. by rewrite !splitChar_app. }
  assert (Hb : forall t p, splitChar ":" (t +:+ String ":" (boolText p)) = splitChar ":" t ++ [boolText p]).
  { intros t p. rewrite splitChar_cut. by destruct p. }
  destruct r; cbn [kindName targetParts].
  - change (cacheKey phone ReadGroups) with ("groups" +:+ String ":" phone).
    rewrite splitChar_app by done. by rewrite splitChar_none.
  - exact (Hk "groupinfo" target eq_refl).
  - exact (Hk "subgroups" target eq_refl).
  - exact (Hk "communityparts" target eq_refl).
  - exact (Hk "contactinfo" target eq_refl).
  - rewrite <- Hb. exact (Hk "avatar" _ eq_refl).
  - exact (Hk "inviteinfo" code eq_refl).
  - exact (Hk "joinreqs" target eq_refl).
Qed.

(** No two reads share a key: neither two accounts, nor two kinds, nor two targets. *)
Lemma cacheKey_inj phone phone' r r' :
  hasChar ":" phone = false -> hasChar ":" phone' = false ->
  cacheKey phone r = cacheKey phone' r' -> phone = phone' /\ r = r'.
Proof.
  intros Hp Hp' H. apply (f_equal (splitChar ":")) in H. rewrite !cacheKey_parts in H by done.
  injection H as Hk -> Ht. split; [done|].
  destruct r, r'; try discriminate Hk; cbn in Ht; try (apply splitChar_inj in Ht; by subst); [done|].
  apply app_inj_tail in Ht as [Ht Hb]. apply splitChar_inj in Ht as ->. by destruct preview, preview0.
Qed.

(** ** Lemmas: pages *)

(** Consecutive pages of one size join to the list that one long page would be. *)
Lemma pages_tile {A} (limit offset : Z) (items : list A) :
  (0 < limit <= 500)%Z -> (0 <= offset)%Z ->
  contactPage limit offset items ++ drop (Z.to_nat (offset + limit)) items = drop (Z.to_nat offset) items.
Proof.
  intros Hl Ho. unfold contactPage, pageBounds, maxContactPageLimit.
  set (n := Z.of_nat (List.length items)).
  destruct (Z.leb_spec limit 0); [lia|]. destruct (Z.ltb_spec 500 limit); [lia|].
  destruct (Z.ltb_spec offset 0); [lia|].
  destruct (Z.le_gt_cases n offset) as [Hn|Hn].
  - rewrite !(drop_ge items) by lia. rewrite take_nil. done.
  - rewrite (Z.min_l offset) by lia.
    destruct (Z.le_gt_cases n (offset + limit)) as [Hm|Hm].
    + rewrite (Z.min_r (offset + limit)) by lia. rewrite (drop_ge items (Z.to_nat (offset + limit))) by lia.
      rewrite app_nil_r, take_ge; [done|]. rewrite length_drop. lia.
    + rewrite (Z.min_l (offset + limit)) by lia.
      replace (Z.to_nat (offset + limit)) with (Z.to_nat offset + Z.to_nat (offset + limit - offset))%nat by lia.
      rewrite <- drop_drop. apply take_drop.
Qed.

(** ** Lemmas: the system *)

Section system_lemmas.
Context {V : Type}.
Implicit Types (s : system V) (t : list (shown V)) (evs : list (event V)).

Lemma lastFetch_app key t1 t2 :
  lastFetch key (t1 ++ t2) = match lastFetch key t2 with Some x => Some x | None => lastFetch key t1 end.
Proof.
  induction t1 as [|o t1 IH]; cbn; [by destruct (lastFetch key t2)|].
  destruct o; rewrite IH; [done|done|]. by destruct (lastFetch key t2).
Qed.

(** The cache holds what the history says. *)
Definition cacheIs s t : Prop :=
  forall key, tc_m (sy_cache s) !! key
    = (fun x => mkCached x.2 (x.1 + tc_ttl (sy_cache s))%Z) <$> lastFetch key t.

Lemma spend_config now later phone l ok l' :
  spendReadBudget now later phone l = (ok, l') ->
  mlConfig l' = mlConfig l
  /\ (forall other, other <> phone ->
        mlStore l' !! (lcPrefix (mlConfig l) +:+ other)%string = mlStore l !! (lcPrefix (mlConfig l) +:+ other)%string).
Proof.
  unfold spendReadBudget, Allow. cbn. unfold memoryAllowN.
  assert (Hne : forall other, other <> phone ->
    (lcPrefix (mlConfig l) +:+ phone)%string <> (lcPrefix (mlConfig l) +:+ other)%string).
  { intros other Ho He. apply Ho. symmetry. revert He.
    generalize (lcPrefix (mlConfig l)) as p. intros p. induction p as [|a p IH]; [done|].
    change (String a p +:+ phone) with (String a (p +:+ phone)).
    change (String a p +:+ other) with (String a (p +:+ other)). intros [= He]. auto. }
  destruct (lcLimit _ <? _)%Z; intros [= <- <-]; cbn; (split; [done|]); intros other Ho;
    by rewrite lookup_insert_ne by auto.
Qed.

(** What a hit says of the history. *)
Definition hitsRecent (ttl : duration) t o : Prop :=
  forall pre now key v post, o = pre ++ Hit now key v :: post ->
    exists at_, lastFetch key (t ++ pre) = Some (at_, v) /\ (now <= at_ + ttl)%Z.

Lemma hitsRecent_none ttl t o : (forall n k v, Hit n k v ∉ o) -> hitsRecent ttl t o.
Proof. intros Hn pre now key v post ->. destruct (Hn now key v). set_solver. Qed.

(** A step that leaves the cache alone and shows neither a hit nor a fetch. *)
Lemma step_leaves_cache s s' o t :
  sy_cache s' = sy_cache s -> (forall key, lastFetch key o = None) -> (forall n k v, Hit n k v ∉ o) ->
  cacheIs s t ->
  cacheIs s' (t ++ o) /\ tc_ttl (sy_cache s') = tc_ttl (sy_cache s)
  /\ hitsRecent (tc_ttl (sy_cache s)) t o.
Proof.
  intros Heq Hl Hn Hc. split_and!; [|by rewrite Heq|by apply hitsRecent_none].
  unfold cacheIs. rewrite Heq. intros key. by rewrite lastFetch_app, Hl.
Qed.

Ltac quiet := simplify_eq; apply step_leaves_cache; [done|done|set_solver|done].

Lemma step_cache e s s' o t :
  step e s = (s', o) -> cacheIs s t ->
  cacheIs s' (t ++ o) /\ tc_ttl (sy_cache s') = tc_ttl (sy_cache s)
  /\ hitsRecent (tc_ttl (sy_cache s)) t o.
Proof.
  intros He Hc.
  destruct e as [id now phone key|id phone|id now later|id now r]; cbn [step] in He.
  - destruct (sy_requests s !! id); [quiet|].
    destruct (cacheGet (sy_cache s) now key) as [v|] eqn:Eg; [|quiet]. simplify_eq.
    split_and!; [|done|].
    + intros k. cbn. rewrite lastFetch_app. apply Hc.
    + intros pre now' key' v' post Ho.
      destruct pre as [|x pre]; [|by destruct pre]. injection Ho as <- <- <- _. unfold cacheGet in Eg. rewrite Hc in Eg.
      rewrite app_nil_r. destruct (lastFetch key t) as [[a w]|]; cbn in Eg; [|done].
      destruct (Z.ltb_spec (a + tc_ttl (sy_cache s)) now); [done|]. simplify_eq. eauto.
  - destruct (sy_requests s !! id); quiet.
  - destruct (sy_requests s !! id) as [[phone key| |]|]; try quiet.
    destruct (spendReadBudget now later phone (sy_budget s)) as [ok l]. quiet.
  - destruct (sy_requests s !! id) as [[|phone [key|]|]|]; try quiet; destruct r as [v|]; try quiet.
    simplify_eq. split_and!; [|done|apply hitsRecent_none; set_solver].
    intros k. cbn. rewrite lastFetch_app. cbn. destruct (String.eqb_spec key k) as [->|Hk].
    + by rewrite lookup_insert_eq.
    + rewrite lookup_insert_ne by done. apply Hc.
Qed.

Lemma run_hits evs s t :
  cacheIs s t -> hitsRecent (tc_ttl (sy_cache s)) t (run evs s).2.
Proof.
  revert s t. induction evs as [|e evs IH]; intros s t Hc; cbn [run].
  { apply hitsRecent_none. set_solver. }
  destruct (step e s) as [s1 o] eqn:E. destruct (step_cache e s s1 o t E Hc) as (Hc1 & Ht & Ho).
  specialize (IH s1 (t ++ o) Hc1). rewrite Ht in IH. destruct (run evs s1) as [s2 t2]. cbn [snd] in *.
  intros pre now key v post Hp. apply app_eq_app in Hp as (l & [[-> Hr]|[-> Hr]]).
  - destruct l as [|x l]; cbn in Hr.
    + rewrite app_nil_r in *. specialize (IH [] now key v post (eq_sym Hr)). by rewrite app_nil_r in IH.
    + injection Hr as <- ->. by eapply Ho.
  - destruct (IH l now key v post Hr) as (a & Ha & Hle). exists a. by rewrite (assoc_L (++)).
Qed.

(** *** The budget *)

Lemma spends_app phone t1 t2 : spends phone (t1 ++ t2) = spends phone t1 ++ spends phone t2.
Proof.
  induction t1 as [|o t1 IH]; [done|]. cbn. destruct o; try done. by destruct (String.eqb _ _); rewrite IH.
Qed.

(** What the limiter told an account is what it tells these calls on their own. *)
Lemma run_spends phone evs s :
  map snd (spends phone (run evs s).2)
  = memoryCalls phone (map fst (spends phone (run evs s).2)) (sy_budget s).
Proof.
  revert s. induction evs as [|e evs IH]; intros s; cbn [run]; [done|].
  destruct (step e s) as [s1 o] eqn:E. specialize (IH s1).
  destruct (run evs s1) as [s2 t2]. cbn [snd] in *. rewrite spends_app, !map_app.
  assert (Hquiet : sy_budget s1 = sy_budget s -> spends phone o = [] ->
    map snd (spends phone o) ++ map snd (spends phone t2)
    = memoryCalls phone (map fst (spends phone o) ++ map fst (spends phone t2)) (sy_budget s)).
  { intros <- ->. exact IH. }
  destruct e as [id now p key|id p|id now later|id now r]; cbn [step] in E;
    try (repeat case_match; simplify_eq; by apply Hquiet).
  destruct (sy_requests s !! id) as [[p key| |]|]; try (simplify_eq; by apply Hquiet).
  destruct (spendReadBudget now later p (sy_budget s)) as [ok l] eqn:El. simplify_eq.
  cbn [sy_budget] in IH. cbn [spends]. destruct (String.eqb_spec p phone) as [->|Hp].
  - cbn [map fst snd app]. cbn [memoryCalls callAt callN]. rewrite IH.
    revert El. unfold spendReadBudget, Allow. cbn. unfold memoryAllowN.
    destruct (lcLimit _ <? _)%Z; intros [= <- <-]; done.
  - cbn [map app]. rewrite IH. destruct (spend_config _ _ _ _ _ _ El) as [Hcfg Hst].
    rewrite !memoryCalls_entry, Hcfg. by rewrite Hst by congruence.
Qed.

(** ** Theorems *)

(** A use case that has just started. *)
Definition started (ttl : duration) (limit windowSeconds : Z) : system V :=
  mkSystem (newTTLCache ttl) (newQueryBudget limit windowSeconds) ∅.

(** How many reads of an account the limiter let through between two instants. *)
Definition granted (phone : string) (from to : instant) t : Z :=
  admitted from to (map fst (spends phone t)) (map snd (spends phone t)).

(** A request that runs alone does what [queryWithBudget] does. *)
Lemma alone_is_queryWithBudget id tGet tSpend tLater tSet phone key fn s :
  sy_requests s !! id = None ->
  let s' := (run [Lookup id tGet phone key; Spend id tSpend tLater; Reply id tSet fn] s).1 in
  let '(a, c, l) := queryWithBudget tGet tSpend tLater tSet phone key fn (sy_cache s) (sy_budget s) in
  sy_requests s' !! id = Some (Answered a) /\ sy_cache s' = c /\ sy_budget s' = l.
Proof.
  intros Hn. cbn [run step]. rewrite Hn. unfold queryWithBudget.
  destruct (cacheGet (sy_cache s) tGet key) as [v|].
  { unfold withPhase. cbn. rewrite !lookup_insert_eq. cbn. rewrite !lookup_insert_eq. cbn.
    by rewrite lookup_insert_eq. }
  unfold withPhase. cbn. rewrite !lookup_insert_eq. cbn.
  destruct (spendReadBudget tSpend tLater phone (sy_budget s)) as [ok l]. cbn.
  rewrite !lookup_insert_eq. destruct ok; [destruct fn|]; cbn; by rewrite ?lookup_insert_eq.
Qed.

End system_lemmas.

(** ** Instance *)

Definition demoReads : list (event N) :=
  [Lookup 0 0 "49" "groups:49"; Lookup 1 1 "49" "groups:49"; Spend 1 1 1; Spend 0 2 2;
   Reply 1 5 (Some 7); Lookup 2 6 "49" "groups:49"; Reply 0 9 (Some 8); Lookup 3 11 "49" "groups:49";
   Lookup 4 20 "49" "groups:49"; Spend 4 21 21].

