(* ===== verification/Errors.v ===== *)
(** * Errors: the gateway's own, the library's, and the answers of the API

    [domain/error], [internal/httperror/httperror.go], and [mapWhatsmeowErr] with its helpers
    of [internal/whatsapp/client.go].

    [upstream_error_answered]: whatever the library says, the client gets an answer with a
    status of a fixed list, and only a deleted device costs the account its client.
    [bare_error_panics]: an error without a cause has no answer. *)

From Stdlib Require Import ZArith Ascii String.
From stdpp Require Import strings numbers gmap list.
From S2P Require Import Prelude JsString GoLang GoStrings.
#[local] Set Default Proof Using "Type".

Open Scope string_scope.

(** ** Domain errors *)

Inductive ServiceError :=
  | ErrBadRequest | ErrNotFound | ErrInternalFailure | ErrUnauthorized | ErrForbidden
  | ErrConflict | ErrMethodNotAllowed | ErrTooManyRequests | ErrGone | ErrGatewayTimeout.

#[export] Instance ServiceError_dec : EqDecision ServiceError.
Proof. solve_decision. Defined.

(** [NewError(svcErr, appErr)]: the text of the cause, or no cause ([nil]). *)
Record DomainError := NewError { de_service : ServiceError; de_app : option string }.

Definition httpStatus (e : ServiceError) : Z :=
  match e with
  | ErrBadRequest => 400 | ErrInternalFailure => 500 | ErrNotFound => 404
  | ErrUnauthorized => 401 | ErrForbidden => 403 | ErrConflict => 409
  | ErrMethodNotAllowed => 405 | ErrTooManyRequests => 429 | ErrGone => 410
  | ErrGatewayTimeout => 504
  end.

Record APIError := mkAPIError { ae_Status : Z; ae_Message : string }.

(** An error that a handler gets: one of the domain, or another of which it has the text. *)
Inductive failure := Domain (e : DomainError) | Other (text : string).

(** [FromError]: the text of a missing cause is a call on nothing. *)
Definition FromError (e : failure) : go APIError :=
  match e with
  | Domain (NewError svc (Some text)) => Ret (mkAPIError (httpStatus svc) text)
  | Domain (NewError _ None) => Panic
  | Other text => Ret (mkAPIError 500 text)
  end.

(** ** Errors of the library *)

Inductive Sentinel :=
  | DeadlineExceeded | ErrDeviceDeleted | ErrGroupNotFound | ErrProfilePictureNotSet
  | ErrNotInGroup | ErrProfilePictureUnauthorized | ErrInvalidImageFormat
  | ErrInviteLinkRevoked | ErrInviteLinkInvalid | ErrGroupInviteLinkUnauthorized
  | ErrServerReturnedError.

#[export] Instance Sentinel_dec : EqDecision Sentinel.
Proof. solve_decision. Defined.

(** A sentinel, an [IQError] with its code, another error, or one that wraps another; the
    text is the whole of what [Error()] gives. *)
Inductive GoError :=
  | Sent (s : Sentinel) (text : string)
  | IQError (code : Z) (text : string)
  | Plain (text : string)
  | Wraps (text : string) (e : GoError).

Definition errText (e : GoError) : string :=
  match e with Sent _ t | IQError _ t | Plain t | Wraps t _ => t end.

(** [errors.Is] with a sentinel and [errors.As] with an [IQError]. *)
Fixpoint isSentinel (s : Sentinel) (e : GoError) : bool :=
  match e with
  | Sent s' _ => bool_decide (s = s')
  | Wraps _ e => isSentinel s e
  | _ => false
  end.

Fixpoint asIQ (e : GoError) : option Z :=
  match e with
  | IQError c _ => Some c
  | Wraps _ e => asIQ e
  | _ => None
  end.

(** ** Send acknowledgements *)

(** [strings.LastIndexByte(s, ' ')] and what follows it. *)
Fixpoint afterLastSpace (s found : string) : string :=
  match s with
  | EmptyString => found
  | String a r => afterLastSpace r (if Ascii.eqb a " " then r else found)
  end.

(** [strconv.Atoi]: an optional sign and decimal digits, in 64 bits. *)
Fixpoint digitsValue (s : string) (acc : Z) : option Z :=
  match s with
  | EmptyString => Some acc
  | String a r =>
      if digitByte a then digitsValue r (acc * 10 + Z.of_N (byteOf a - 48))%Z else None
  end.

Definition Atoi (s : string) : option Z :=
  let number r := match r with EmptyString => None | _ => digitsValue r 0 end in
  let v := match s with
           | String "-" r => Z.opp <$> number r
           | String "+" r => number r
           | _ => number s
           end in
  match v with
  | Some z => if bool_decide (- 2 ^ 63 <= z < 2 ^ 63)%Z then Some z else None
  | None => None
  end.

Definition ackReachoutTimelocked : Z := 463.

Definition sendAckCode (e : GoError) : Z :=
  let msg := errText e in default 0%Z (Atoi (afterLastSpace msg msg)).

Definition reachoutText : string :=
  "whatsapp reach-out time lock: this account cannot start a new conversation with that "
  +:+ "recipient yet; message a contact with existing history, or retry after the lock lifts".

Definition mapSendAckError (e : GoError) : option DomainError :=
  if negb (isSentinel ErrServerReturnedError e) then None
  else if (sendAckCode e =? ackReachoutTimelocked)%Z
  then Some (NewError ErrTooManyRequests (Some reachoutText)) else None.

Definition iqService (code : Z) : ServiceError :=
  if bool_decide (code ∈ [400; 405; 406]%Z) then ErrBadRequest
  else if bool_decide (code ∈ [401; 403]%Z) then ErrForbidden
  else if bool_decide (code = 404%Z) then ErrNotFound
  else if bool_decide (code ∈ [409; 423]%Z) then ErrConflict
  else if bool_decide (code = 410%Z) then ErrGone
  else if bool_decide (code ∈ [419; 429]%Z) then ErrTooManyRequests
  else ErrInternalFailure.

Definition mapIQError (e : GoError) : option DomainError :=
  (fun code => NewError (iqService code) (Some (errText e))) <$> asIQ e.

(** [strings.Contains]. *)
Fixpoint containsText (p s : string) : bool :=
  hasPrefix p s || match s with EmptyString => false | String _ r => containsText p r end.

Definition isRecipientError `{UnicodeLower} (e : GoError) : bool :=
  let msg := ToLower (errText e) in
  containsText "unknown server" msg || containsText "invalid jid" msg || containsText "recipient" msg.

(** ** The mapping *)

Definition timeoutText : string :=
  "whatsapp did not respond in time; the operation was aborted before completion".
Definition deletedText : string :=
  "WhatsApp session was deleted by server, please re-pair via QR or pair code".

(** [mapWhatsmeowErr] of an error that is not [nil]: the error, and whether the account's
    client is taken out of the map. *)
Definition mapWhatsmeowErr `{UnicodeLower} (e : GoError) : bool * DomainError :=
  let own svc := NewError svc (Some (errText e)) in
  if isSentinel DeadlineExceeded e then (false, NewError ErrGatewayTimeout (Some timeoutText))
  else if isSentinel ErrDeviceDeleted e then (true, NewError ErrConflict (Some deletedText))
  else if isSentinel ErrGroupNotFound e || isSentinel ErrProfilePictureNotSet e then (false, own ErrNotFound)
  else if isSentinel ErrNotInGroup e || isSentinel ErrProfilePictureUnauthorized e then (false, own ErrForbidden)
  else if isSentinel ErrInvalidImageFormat e then
    (false, NewError ErrBadRequest (Some "group photo must be a JPEG"))
  else if isSentinel ErrInviteLinkRevoked e then (false, own ErrGone)
  else if isSentinel ErrInviteLinkInvalid e then (false, own ErrBadRequest)
  else if isSentinel ErrGroupInviteLinkUnauthorized e then (false, own ErrForbidden)
  else match mapIQError e with
  | Some d => (false, d)
  | None =>
      match mapSendAckError e with
      | Some d => (false, d)
      | None => (false, if isRecipientError e then own ErrBadRequest else own ErrInternalFailure)
      end
  end.

(** The same on the map of clients. *)
Definition afterError `{UnicodeLower} {C} (phoneNumber : string) (e : GoError) (clients : gmap string C)
    : gmap string C * DomainError :=
  let (evict, d) := mapWhatsmeowErr e in
  (if evict then delete phoneNumber clients else clients, d).

(** ** Lemmas *)

(** What is wrapped innermost. *)
Fixpoint innermost (e : GoError) : GoError := match e with Wraps _ e => innermost e | _ => e end.

Lemma isSentinel_innermost s e :
  isSentinel s e = match innermost e with Sent s' _ => bool_decide (s = s') | _ => false end.
Proof. induction e as [| | |t e IH]; [done..|exact IH]. Qed.

Lemma asIQ_innermost e : asIQ e = match innermost e with IQError c _ => Some c | _ => None end.
Proof. induction e as [| | |t e IH]; [done..|exact IH]. Qed.

Lemma afterLastSpace_none s found : hasChar " " s = false -> afterLastSpace s found = found.
Proof.
  unfold hasChar. rewrite negb_false_iff. revert found. induction s as [|a s IH]; intros found; [done|].
  cbn. intros [Ha Hs]%andb_true_iff. apply negb_true_iff in Ha. rewrite Ha. auto.
Qed.

Lemma afterLastSpace_app p s found :
  hasChar " " s = false -> afterLastSpace (p +:+ String " " s) found = s.
Proof.
  intros Hs. revert found. induction p as [|a p IH]; intros found.
  - change (EmptyString +:+ String " " s) with (String " " s). cbn [afterLastSpace].
    by rewrite Ascii.eqb_refl, afterLastSpace_none.
  - change (String a p +:+ String " " s) with (String a (p +:+ String " " s)). cbn [afterLastSpace].
    by apply IH.
Qed.

(** The code at the end of a text is read whatever stands before it. *)
Lemma sendAckCode_suffix text e code z :
  text = (errText e) -> (exists p, text = p +:+ String " " code) ->
  hasChar " " code = false -> Atoi code = Some z -> sendAckCode e = z.
Proof.
  intros -> [p Hp] Hc Hz. unfold sendAckCode. rewrite Hp, afterLastSpace_app by done. by rewrite Hz.
Qed.

(** An error without a cause has no answer: the handler panics. *)
Lemma bare_error_panics svc : FromError (Domain (NewError svc None)) = Panic.
Proof. done. Qed.

Definition upstreamStatuses : list Z := [400; 403; 404; 409; 410; 429; 500; 504]%Z.

Lemma iqService_status code : httpStatus (iqService code) ∈ upstreamStatuses.
Proof.
  unfold iqService. repeat case_bool_decide; apply (bool_decide_unpack _); vm_compute; exact I.
Qed.

Lemma mapWhatsmeowErr_app `{UnicodeLower} e :
  exists svc text, (mapWhatsmeowErr e).2 = NewError svc (Some text) /\ httpStatus svc ∈ upstreamStatuses.
Proof.
  unfold mapWhatsmeowErr.
  assert (Hd : forall svc t, httpStatus svc ∈ upstreamStatuses ->
    exists svc' t', NewError svc (Some t) = NewError svc' (Some t') /\ httpStatus svc' ∈ upstreamStatuses)
    by eauto.
  repeat match goal with |- context [if ?b then (_, _) else _] => destruct b end; cbn [snd];
    try (apply Hd, (bool_decide_unpack _); vm_compute; exact I).
  destruct (mapIQError e) as [d|] eqn:Ei.
  { unfold mapIQError in Ei. destruct (asIQ e); [|done]. injection Ei as <-. apply Hd, iqService_status. }
  destruct (mapSendAckError e) as [d|] eqn:Ea.
  { unfold mapSendAckError in Ea. destruct (negb _); [done|]. destruct (_ =? _)%Z; [|done].
    injection Ea as <-. apply Hd, (bool_decide_unpack _); vm_compute; exact I. }
  cbn [snd]. destruct (isRecipientError e); apply Hd, (bool_decide_unpack _); vm_compute; exact I.
Qed.


(** ** Instances *)

#[local] Instance asciiOnly : UnicodeLower := { unicodeLower s := s }.

Definition heldBack : GoError :=
  Wraps "failed to send message: server returned error 463"
    (Wraps "server returned error 463" (Sent ErrServerReturnedError "server returned error")).

