(* ===== verification/Auth.v ===== *)
(** * Authentication ([pkg/auth/jwt.go], [internal/usecase/auth], [internal/middleware])

    The tokens of the API: registration behind its limiter, signing, the check of the
    bearer token, and the guard of the operator's plane ([admin.go]).

    Parameters: the JWT library ([JwtLibrary]) - signing, parsing with a key function, the
    rounding of dates - with its documented behaviour as laws.

    [token_admits_until_expiry]: a token that was handed out admits its number until it
    expires.  [admitted_was_registered]: nothing else admits a number, when the library
    accepts only what was signed. *)

From Stdlib Require Import ZArith Ascii String.
From stdpp Require Import strings numbers gmap list.
From S2P Require Import Prelude JsString GoLang GoStrings RateLimiter Errors.
#[local] Set Default Proof Using "Type".
#[local] Open Scope Z_scope.

(** ** Tokens *)

Record AuthClaims := mkClaims {
  ac_PhoneNumber : string;
  ac_Issuer : string;
  ac_Subject : string;
  ac_IssuedAt : instant;
  ac_ExpiresAt : option instant;
}.

Inductive JwtError := JwtExpired | JwtSignatureInvalid | JwtOther.

(** [jwt.NewNumericDate], [SignedString] with HS256, and [jwt.ParseWithClaims] at an
    instant; the key function is told whether the token's method is an HMAC. *)
Class JwtLibrary := {
  NewNumericDate : instant -> instant;
  SignedString : string -> AuthClaims -> option string;
  ParseWithClaims : (bool -> option string) -> instant -> string -> JwtError + AuthClaims;
}.

Definition asciiOnlyString (s : string) : bool := stringAll asciiByte s.

(** Dates are cut to seconds.  A signed token has no space, and is read back with its key
    until it has expired - texts that are ASCII survive it; one that has expired is not
    accepted. *)
Class JwtLaws `{JwtLibrary} := {
  numericDate_second t : (t - second < NewNumericDate t <= t)%Z;
  signed_no_space key c t : SignedString key c = Some t -> hasChar " " t = false;
  signed_parses key c t keyfunc now :
    SignedString key c = Some t -> keyfunc true = Some key ->
    asciiOnlyString (ac_PhoneNumber c) = true -> asciiOnlyString (ac_Issuer c) = true ->
    asciiOnlyString (ac_Subject c) = true ->
    ParseWithClaims keyfunc now t =
      match ac_ExpiresAt c with
      | Some e => if now <? e then inr c else inl JwtExpired
      | None => inr c
      end;
  accepted_unexpired keyfunc now t c e :
    ParseWithClaims keyfunc now t = inr c -> ac_ExpiresAt c = Some e -> now < e;
}.

Record JWTManager := mkJWTManager {
  jm_secretKey : string;
  jm_issuer : string;
  jm_tokenDuration : option duration;
}.

Inductive TokenError := ErrTokenExpired | ErrTokenInvalid | ErrMissingClaims.

Section auth.
Context `{JwtLibrary}.

(** [GenerateTokens]: it reads the clock for the issue and for the expiry. *)
Definition claimsFor (m : JWTManager) (issued expiry : instant) (phoneNumber : string) : AuthClaims :=
  mkClaims phoneNumber (jm_issuer m) phoneNumber (NewNumericDate issued)
    ((fun d => NewNumericDate (expiry + d)) <$> jm_tokenDuration m).

Definition GenerateTokens (m : JWTManager) (issued expiry : instant) (phoneNumber : string) : option string :=
  SignedString (jm_secretKey m) (claimsFor m issued expiry phoneNumber).

(** [ValidateToken]: only HMAC methods get the key. *)
Definition keyFunc (secretKey : string) (hmac : bool) : option string :=
  if hmac then Some secretKey else None.

Definition ValidateToken (m : JWTManager) (now : instant) (tokenString : string) : TokenError + AuthClaims :=
  match ParseWithClaims (keyFunc (jm_secretKey m)) now tokenString with
  | inl JwtExpired => inl ErrTokenExpired
  | inl _ => inl ErrTokenInvalid
  | inr claims =>
      if negb (String.eqb (ac_Issuer claims) (jm_issuer m)) then inl ErrTokenInvalid
      else if String.eqb (ac_PhoneNumber claims) "" then inl ErrMissingClaims
      else inr claims
  end.

(** ** The middleware *)

Definition AuthorizationTypeBearer : string := "Bearer".

(** [strings.EqualFold] with [Bearer], whose letters fold to no others than their own. *)
Definition isBearer (s : string) : bool := String.eqb (stringMap lowerByte s) "bearer".

Definition unauthorized (text : string) : DomainError := NewError ErrUnauthorized (Some text).

(** [extractBearerToken]; a missing header is empty. *)
Definition extractBearerToken (authHeader : string) : DomainError + string :=
  if String.eqb authHeader "" then inl (unauthorized "authorization required")
  else
    match splitChar " " authHeader with
    | [scheme; token] =>
        if isBearer scheme then inr token
        else inl (unauthorized "invalid authorization header format (must be Bearer token)")
    | _ => inl (unauthorized "invalid authorization header format (must be Bearer token)")
    end.

Definition tokenMessage (e : TokenError) : string :=
  match e with ErrTokenExpired => "Token has expired" | _ => "Invalid token" end.

(** [JWTAuthentication]: an answer, or the number that the handlers get. *)
Definition JWTAuthentication (m : JWTManager) (now : instant) (authHeader : string) : go APIError + string :=
  match extractBearerToken authHeader with
  | inl e => inl (FromError (Domain e))
  | inr token =>
      match ValidateToken m now token with
      | inl e => inl (FromError (Domain (unauthorized (tokenMessage e))))
      | inr claims => inr (ac_PhoneNumber claims)
      end
  end.

(** [NewAdminAuth]: whether a request goes on; and the plane, which an empty secret leaves
    out. *)
Definition NewAdminAuth (secret authHeader : string) : bool :=
  String.eqb authHeader ("Bearer " +:+ secret).

Inductive AdminAnswer := AdminNotFound | AdminUnauthorized | AdminNext.

Definition adminPlane (secret authHeader : string) : AdminAnswer :=
  if String.eqb secret "" then AdminNotFound
  else if NewAdminAuth secret authHeader then AdminNext else AdminUnauthorized.

(** ** Registration *)

Record RegistrationRequest := mkRegistration { rr_PhoneNumber : string; rr_SecretKey : string }.

(** [AuthUsecase.Register] *)
Definition Register (m : JWTManager) (basicAuthSecretKey : string) (issued expiry : instant)
    (req : RegistrationRequest) : DomainError + string :=
  if negb (String.eqb (rr_SecretKey req) basicAuthSecretKey)
  then inl (NewError ErrForbidden (Some "invalid secret key"%string))
  else
    match GenerateTokens m issued expiry (rr_PhoneNumber req) with
    | None => inl (NewError ErrInternalFailure (Some "failed to generate token"%string))
    | Some token => inr token
    end.

(** [NewRegisterRateLimiter]: no limiter, or one with the defaults for what is not
    positive. *)
Definition registerLimiter (enabled : bool) (requests seconds : Z) : option MemoryLimiter :=
  if negb enabled then None
  else
    let window := wrap64 (seconds * second) in
    Some (NewMemoryLimiter (mkLimiterConfig (if requests <=? 0 then 5 else requests)
            (if window <=? 0 then 60 * second else window) "whatsapp:gateway:register:")).

Inductive RegisterAnswer :=
  | TooManyRegistrations (retryAfter : Z)
  | BadRegistration
  | RefusedRegistration (e : go APIError)
  | Registered (token : string).

(** The instants at which a registration reads the clock. *)
Record RegTimes := mkRegTimes { rt_limit : instant; rt_answer : instant; rt_issued : instant; rt_expiry : instant }.

(** [POST /register]: the limiter (by address), the body ([None] is one that cannot be
    parsed), the use case. *)
Definition register (m : JWTManager) (basicAuthSecretKey : string) (ts : RegTimes) (ip : string)
    (body : option RegistrationRequest) (limiter : option MemoryLimiter)
    : RegisterAnswer * option MemoryLimiter :=
  let go :=
    match body with
    | None => BadRegistration
    | Some req =>
        match Register m basicAuthSecretKey (rt_issued ts) (rt_expiry ts) req with
        | inl e => RefusedRegistration (FromError (Domain e))
        | inr token => Registered token
        end
    end in
  match limiter with
  | None => (go, None)
  | Some l =>
      let (res, l) := Allow (rt_limit ts) (rt_answer ts) ip l in
      match res with
      | Some r =>
          if resAllowed r then (go, Some l)
          else (TooManyRegistrations (Z.quot (resRetryAfter r) second + 1), Some l)
      | None => (go, Some l)
      end
  end.

(** ** Histories *)

(** A registration, or a request with a header. *)
Inductive AuthEvent :=
  | Registers (ts : RegTimes) (ip : string) (body : option RegistrationRequest)
  | Requests (now : instant) (authHeader : string).

(** What the gateway has signed, and the limiter. *)
Record AuthState := mkAuthState { as_signed : list AuthClaims; as_limiter : option MemoryLimiter }.

Definition authStep (m : JWTManager) (basicAuthSecretKey : string) (s : AuthState) (e : AuthEvent) : AuthState :=
  match e with
  | Requests _ _ => s
  | Registers ts ip body =>
      let (a, l) := register m basicAuthSecretKey ts ip body (as_limiter s) in
      mkAuthState
        (match a, body with
         | Registered _, Some req =>
             claimsFor m (rt_issued ts) (rt_expiry ts) (rr_PhoneNumber req) :: as_signed s
         | _, _ => as_signed s
         end) l
  end.

Definition authRun (m : JWTManager) (basicAuthSecretKey : string) (l : list AuthEvent) (s : AuthState) : AuthState :=
  foldl (authStep m basicAuthSecretKey) s l.
End auth.

(** ** Lemmas *)

Lemma bearer_parts scheme token :
  isBearer scheme = true -> hasChar " " scheme = false -> hasChar " " token = false ->
  extractBearerToken (scheme +:+ String " " token) = inr token.
Proof.
  intros Hb Hs Ht. unfold extractBearerToken. destruct scheme as [|a scheme]; [done|].
  change (String.eqb (String a scheme +:+ String " " token) "") with false. cbv iota.
  rewrite splitChar_app, splitChar_none by done. by rewrite Hb.
Qed.

Lemma unauthorized_401 text : FromError (Domain (unauthorized text)) = Ret (mkAPIError 401 text).
Proof. done. Qed.

Section facts.
Context {L : JwtLibrary} {W : JwtLaws}.

(** A request that is not admitted is answered 401, with a text. *)
Lemma refusal_is_401 m now header a :
  JWTAuthentication m now header = inl a -> exists text, a = Ret (mkAPIError 401 text).
Proof.
  unfold JWTAuthentication, extractBearerToken.
  repeat case_match; intros [= <-]; eauto; simplify_eq; eauto.
Qed.

Lemma validate_signed m issued expiry phone token now :
  GenerateTokens m issued expiry phone = Some token ->
  asciiOnlyString phone = true -> asciiOnlyString (jm_issuer m) = true ->
  ValidateToken m now token =
    match jm_tokenDuration m with
    | Some d =>
        if now <? NewNumericDate (expiry + d) then
          if String.eqb phone "" then inl ErrMissingClaims else inr (claimsFor m issued expiry phone)
        else inl ErrTokenExpired
    | None => if String.eqb phone "" then inl ErrMissingClaims else inr (claimsFor m issued expiry phone)
    end.
Proof using W.
  intros Hg Hp Hi. unfold ValidateToken.
  rewrite (signed_parses _ _ _ (keyFunc (jm_secretKey m)) now Hg) by done.
  cbn [claimsFor ac_ExpiresAt]. destruct (jm_tokenDuration m) as [d|]; cbn [fmap option_fmap option_map].
  - destruct (now <? _); [|done]. cbn [claimsFor ac_Issuer ac_PhoneNumber].
    rewrite String.eqb_refl. by destruct (String.eqb phone "").
  - cbn [claimsFor ac_Issuer ac_PhoneNumber]. rewrite String.eqb_refl. by destruct (String.eqb phone "").
Qed.

(** Everything that was signed was asked for with the right secret. *)
Lemma signed_registered m basic l s c :
  c ∈ as_signed (authRun m basic l s) ->
  c ∈ as_signed s \/ exists ts ip phone, Registers ts ip (Some (mkRegistration phone basic)) ∈ l
                       /\ c = claimsFor m (rt_issued ts) (rt_expiry ts) phone.
Proof.
  revert s. induction l as [|e l IH]; intros s Hc; [by left|].
  cbn [authRun foldl] in Hc. apply IH in Hc as [Hc|(ts & ip & phone & Hin & ->)].
  2: { right. exists ts, ip, phone. split; [by apply list_elem_of_further|done]. }
  destruct e as [ts ip body|now header]; [|by left].
  unfold authStep in Hc. destruct (register m basic ts ip body (as_limiter s)) as [a l'] eqn:Er.
  destruct a; try (by left). destruct body as [req|]; [|by left].
  cbn [as_signed] in Hc. apply elem_of_cons in Hc as [->|Hc]; [|by left]. right.
  assert (Hk : rr_SecretKey req = basic).
  { unfold register, Register in Er. destruct (String.eqb_spec (rr_SecretKey req) basic) as [|Hne]; [done|].
    cbn [negb] in Er. destruct (as_limiter s); [|done].
    destruct (Allow _ _ _ _) as [[r|] l2]; [destruct (resAllowed r); done|done]. }
  destruct req as [phone key]. cbn [rr_SecretKey rr_PhoneNumber] in *. subst key.
  exists ts, ip, phone. split; [apply list_elem_of_here|done].
Qed.

(** A token for no number is handed out and never admits anything: the body's rules of
    [RegistrationRequest] are not asked. *)
Lemma empty_number_useless m issued expiry token now :
  GenerateTokens m issued expiry "" = Some token -> asciiOnlyString (jm_issuer m) = true ->
  exists e, ValidateToken m now token = inl e.
Proof using W.
  intros Hg Hi. rewrite (validate_signed _ _ _ _ _ now Hg) by done.
  destruct (jm_tokenDuration m); [destruct (_ <? _)|]; eauto.
Qed.
End facts.

(** The operator's plane answers 404 without a secret, and is open to exactly the header
    with its secret otherwise. *)
Lemma admin_plane_spec secret header :
  (adminPlane secret header = AdminNotFound <-> secret = "")
  /\ (adminPlane secret header = AdminNext <-> secret <> "" /\ header = "Bearer " +:+ secret).
Proof.
  unfold adminPlane, NewAdminAuth. destruct (String.eqb_spec secret "") as [->|Hs]; [naive_solver|].
  destruct (String.eqb_spec header ("Bearer " +:+ secret)) as [->|Hh]; naive_solver.
Qed.

(** ** Properties *)

(** C22: a token that was handed out admits its number until it expires.  Presented as a
    bearer token, in any spelling of the scheme, it admits exactly the number that it was
    made for while a second is left of its duration, and is answered with 401 and "Token
    has expired" from the end of its duration on. *)
Theorem token_admits_until_expiry `{JwtLaws} (m : JWTManager) (d : duration)
    (issued expiry now : instant) (phone scheme token : string) :
  jm_tokenDuration m = Some d ->
  GenerateTokens m issued expiry phone = Some token ->
  phone <> "" -> asciiOnlyString phone = true -> asciiOnlyString (jm_issuer m) = true ->
  isBearer scheme = true -> hasChar " " scheme = false ->
  let answer := JWTAuthentication m now (scheme +:+ String " " token) in
  (now + second <= expiry + d -> answer = inr phone)
  /\ (expiry + d <= now -> answer = inl (Ret (mkAPIError 401 "Token has expired"))).
Proof.
  intros Hd Hg Hne Hp Hi Hb Hs answer. unfold answer, JWTAuthentication.
  rewrite bearer_parts by (done || by eapply signed_no_space).
  rewrite (validate_signed m issued expiry phone token now Hg Hp Hi), Hd.
  pose proof (numericDate_second (expiry + d)) as Hn.
  destruct (String.eqb_spec phone "") as [|_]; [done|]. split; intros Hnow.
  - replace (now <? NewNumericDate (expiry + d)) with true by lia. done.
  - replace (now <? NewNumericDate (expiry + d)) with false by lia. done.
Qed.

(** C21: only registered numbers are admitted.  After any registrations and requests, when
    the token that a request presents is accepted by the library only if the gateway signed
    its claims (or someone else did, under another issuer), a number that is admitted is not
    empty and was registered with the gateway's secret key, less than the tokens' duration
    ago. *)
Theorem admitted_was_registered `{JwtLaws} (m : JWTManager) (basicAuthSecretKey : string)
    (limiter : option MemoryLimiter) (l : list AuthEvent) (now : instant) (header phone : string) :
  let s := authRun m basicAuthSecretKey l (mkAuthState [] limiter) in
  (forall token claims, extractBearerToken header = inr token ->
     ParseWithClaims (keyFunc (jm_secretKey m)) now token = inr claims ->
     claims ∈ as_signed s \/ ac_Issuer claims <> jm_issuer m) ->
  JWTAuthentication m now header = inr phone ->
  phone <> ""
  /\ exists ts ip, Registers ts ip (Some (mkRegistration phone basicAuthSecretKey)) ∈ l
     /\ forall d, jm_tokenDuration m = Some d -> now < rt_expiry ts + d.
Proof.
  intros s Hsigned Ha. unfold JWTAuthentication in Ha.
  destruct (extractBearerToken header) as [e|token] eqn:Et; [done|].
  unfold ValidateToken in Ha.
  destruct (ParseWithClaims (keyFunc (jm_secretKey m)) now token) as [[]|claims] eqn:Ep; [done..|].
  destruct (String.eqb_spec (ac_Issuer claims) (jm_issuer m)) as [Hi|]; [cbn [negb] in Ha|done].
  destruct (String.eqb_spec (ac_PhoneNumber claims) "") as [|Hne]; [done|]. injection Ha as <-.
  split; [done|]. destruct (Hsigned token claims eq_refl Ep) as [Hs|]; [|done].
  apply signed_registered in Hs as [Hno|(ts & ip & phone & Hin & ->)]; [by apply elem_of_nil in Hno|].
  exists ts, ip. split; [done|]. intros d Hd.
  pose proof (accepted_unexpired _ _ _ _ (NewNumericDate (rt_expiry ts + d)) Ep) as He.
  cbn [claimsFor ac_ExpiresAt] in He. rewrite Hd in He. specialize (He eq_refl).
  pose proof (numericDate_second (rt_expiry ts + d)). lia.
Qed.

(** ** Instances *)

(** A library that writes the key and the claims in binary: it keeps the laws. *)
Fixpoint bitsOf (p : positive) : string :=
  match p with xH => "" | xO p => String "0" (bitsOf p) | xI p => String "1" (bitsOf p) end.

Fixpoint ofBits (s : string) : option positive :=
  match s with
  | EmptyString => Some xH
  | String a r =>
      if Ascii.eqb a "0" then xO <$> ofBits r else if Ascii.eqb a "1" then xI <$> ofBits r else None
  end.

Lemma ofBits_bitsOf p : ofBits (bitsOf p) = Some p.
Proof. induction p as [p IH|p IH|]; cbn; by rewrite ?IH. Qed.

Lemma bitsOf_no_space p : hasChar " " (bitsOf p) = false.
Proof. unfold hasChar. rewrite negb_false_iff. induction p as [p IH|p IH|]; cbn; by rewrite ?IH. Qed.

Definition claimParts (key : string) (c : AuthClaims) : string * string * string * string * Z * option Z :=
  (key, ac_PhoneNumber c, ac_Issuer c, ac_Subject c, ac_IssuedAt c, ac_ExpiresAt c).

Definition plainParse (keyfunc : bool -> option string) (now : instant) (t : string) : JwtError + AuthClaims :=
  match ofBits t ≫= decode with
  | None => inl JwtOther
  | Some (key, phone, issuer, subject, iat, exp) =>
      if bool_decide (keyfunc true = Some key) then
        match exp with
        | Some e => if now <? e then inr (mkClaims phone issuer subject iat exp) else inl JwtExpired
        | None => inr (mkClaims phone issuer subject iat exp)
        end
      else inl JwtSignatureInvalid
  end.

#[local] Instance plainJwt : JwtLibrary := {
  NewNumericDate t := (t / second) * second;
  SignedString key c := Some (bitsOf (encode (claimParts key c)));
  ParseWithClaims := plainParse;
}.

#[local] Instance plainJwt_laws : JwtLaws.
Proof.
  split.
  - intros t. cbn. pose proof (Z.div_mod t second ltac:(unfold second; lia)).
    pose proof (Z.mod_pos_bound t second ltac:(unfold second; lia)). lia.
  - intros key c t [= <-]. apply bitsOf_no_space.
  - intros key [phone iss sub iat exp] t keyfunc now [= <-] Hk _ _ _. cbn. unfold plainParse.
    rewrite ofBits_bitsOf. cbn [mbind option_bind]. rewrite decode_encode. cbn.
    by rewrite bool_decide_eq_true_2.
  - intros keyfunc now t c e Hp He. cbn in Hp. unfold plainParse in Hp.
    destruct (_ ≫= _) as [[[[[[key phone] iss] sub] iat] exp]|]; [|done].
    destruct (bool_decide _); [|done]. destruct exp as [e'|].
    + destruct (now <? e') eqn:E; [|done]. injection Hp as <-. cbn in He. injection He as ->. lia.
    + injection Hp as <-. done.
Defined.

Definition sampleManager : JWTManager := mkJWTManager "k" "gw" (Some (60 * second)).

Definition sampleToken : string := default "" (GenerateTokens sampleManager 0 0 "621").

Lemma token_admits_until_expiry_witness :
  JWTAuthentication sampleManager (59 * second) ("bEaReR" +:+ String " " sampleToken) = inr "621"
  /\ JWTAuthentication sampleManager (60 * second) ("bEaReR" +:+ String " " sampleToken)
     = inl (Ret (mkAPIError 401 "Token has expired")).
Proof.
  assert (Hg : GenerateTokens sampleManager 0 0 "621" = Some sampleToken) by (vm_compute; reflexivity).
  split.
  - apply (token_admits_until_expiry sampleManager (60 * second) 0 0 (59 * second) "621" "bEaReR" sampleToken
             eq_refl Hg); [discriminate|reflexivity..|unfold second; lia].
  - apply (token_admits_until_expiry sampleManager (60 * second) 0 0 (60 * second) "621" "bEaReR" sampleToken
             eq_refl Hg); [discriminate|reflexivity..|unfold second; lia].
Defined.

Definition sampleHistory : list AuthEvent :=
  [Registers (mkRegTimes 0 0 0 0) "10.0.0.1" (Some (mkRegistration "621" "wrong"));
   Requests 1 "Bearer x"; Registers (mkRegTimes 2 2 2 2) "10.0.0.1" (Some (mkRegistration "621" "basic"))].

Lemma admitted_was_registered_witness :
  JWTAuthentication sampleManager second ("Bearer" +:+ String " " sampleToken) = inr "621"
  /\ exists ts ip, Registers ts ip (Some (mkRegistration "621" "basic")) ∈ sampleHistory
     /\ second < rt_expiry ts + 60 * second.
Proof.
  assert (Ha : JWTAuthentication sampleManager second ("Bearer" +:+ String " " sampleToken) = inr "621")
    by (vm_compute; reflexivity).
  split; [exact Ha|].
  destruct (admitted_was_registered sampleManager "basic" (registerLimiter true 5 60) sampleHistory second
    ("Bearer" +:+ String " " sampleToken) "621") as [_ (ts & ip & Hin & Hd)].
  - intros token claims Ht Hc. left. revert Ht Hc.
    replace (extractBearerToken ("Bearer" +:+ String " " sampleToken)) with (inr sampleToken : DomainError + string)
      by (vm_compute; reflexivity).
    intros [= <-] Hc. vm_compute in Hc. injection Hc as <-. vm_compute. apply list_elem_of_here.
  - exact Ha.
  - exists ts, ip. split; [exact Hin|]. apply Hd. reflexivity.
Defined.
