(* ===== verification/Settings.v ===== *)
(** * Settings ([config/config.go], [internal/infrastructure/pacer_provider.go])

    What [Load] does with a configuration that was read from the environment: the check of
    the secrets, the clamps of [normalize], and the durations and the pacer that are made of
    it.

    [settings_safe]: what is loaded is in the ranges that its users need.
    [loaded_pacer_throughput]: an account's limiter under loaded settings keeps its rate.
    [shouted_production_unchecked], [long_wait_overflows]: what is not covered. *)

From Stdlib Require Import ZArith QArith Lqa String.
From stdpp Require Import strings numbers gmap list.
From S2P Require Import Prelude GoLang Float64 RateLimiter TokenBucket Pacer.
#[local] Set Default Proof Using "Type".
#[local] Open Scope Z_scope.

Definition minute : Z := 60 * second.

Definition PROD : string := "production".
Definition defaultSecret : string := "secret".
Definition defaultMasterKey : string := "0123456789abcdef0123456789abcdef".

(** [maxJWTDurationMinutes]: one year. *)
Definition maxJWTDurationMinutes : Z := 525600.

Section settings.
Context {F : Type} `{Arith F}.

(** The fields that the checks, the clamps and the pacer read. *)
Record Settings := mkSettings {
  cf_Env : string;
  cf_JwtSecret : string;
  cf_JwtIssuer : string;
  cf_JwtDurationMinutes : Z;
  cf_BasicAuthSecretKey : string;
  cf_MasterKey : string;
  cf_PaceEnabled : bool;
  cf_PaceMode : string;
  cf_PaceRate : F;
  cf_PaceBurst : F;
  cf_PaceMaxWaitSeconds : Z;
  cf_PaceJitterMs : Z;
  cf_RecipientRequests : Z;
  cf_RecipientWindowSeconds : Z;
  cf_SendTimeoutSeconds : Z;
}.

(** [normalize] *)
Definition normalize (c : Settings) : Settings := {|
  cf_Env := cf_Env c;
  cf_JwtSecret := cf_JwtSecret c;
  cf_JwtIssuer := cf_JwtIssuer c;
  cf_JwtDurationMinutes :=
    if (cf_JwtDurationMinutes c <=? 0) || (maxJWTDurationMinutes <? cf_JwtDurationMinutes c)
    then 1440 else cf_JwtDurationMinutes c;
  cf_BasicAuthSecretKey := cf_BasicAuthSecretKey c;
  cf_MasterKey := cf_MasterKey c;
  cf_PaceEnabled := cf_PaceEnabled c;
  cf_PaceMode := if bool_decide (cf_PaceMode c = "reject"%string) then cf_PaceMode c else "pace";
  cf_PaceRate := if fleb (cf_PaceRate c) (fofZ 0) then fofZ 1 else cf_PaceRate c;
  cf_PaceBurst := if fltb (cf_PaceBurst c) (fofZ 1) then fofZ 1 else cf_PaceBurst c;
  cf_PaceMaxWaitSeconds := if cf_PaceMaxWaitSeconds c <? 0 then 0 else cf_PaceMaxWaitSeconds c;
  cf_PaceJitterMs := if cf_PaceJitterMs c <? 0 then 0 else cf_PaceJitterMs c;
  cf_RecipientRequests := cf_RecipientRequests c;
  cf_RecipientWindowSeconds := cf_RecipientWindowSeconds c;
  cf_SendTimeoutSeconds :=
    let t := if cf_SendTimeoutSeconds c <? 0 then 0 else cf_SendTimeoutSeconds c in
    if (0 <? t) && (t <? 5) then 5 else t;
|}.

(** [validateProductionSecrets]: whether none of the secrets is its default. *)
Definition validateProductionSecrets (c : Settings) : bool :=
  negb (bool_decide (cf_JwtSecret c = defaultSecret))
  && negb (bool_decide (cf_BasicAuthSecretKey c = defaultSecret))
  && negb (bool_decide (cf_MasterKey c = defaultMasterKey)).

(** [Load] of what was read: an error, or the settings. *)
Definition Load (c : Settings) : option Settings :=
  if bool_decide (cf_Env c = PROD) && negb (validateProductionSecrets c) then None
  else Some (normalize c).

(** [GetJwtDuration] *)
Definition GetJwtDuration (c : Settings) : duration := wrap64 (cf_JwtDurationMinutes c * minute).

(** [outboundCtx]: the time that a call of the library gets, if any. *)
Definition sendTimeout (c : Settings) : option duration :=
  let timeout := wrap64 (cf_SendTimeoutSeconds c * second) in
  if timeout <=? 0 then None else Some timeout.

(** [ProvideOutboundPacer]: the pacer's configuration, and its account limiter. *)
Definition pacerConfig (c : Settings) : PacerConfig (F := F) :=
  mkPacerConfig (cf_PaceEnabled c) (cf_PaceMode c) (cf_PaceBurst c)
    (wrap64 (cf_PaceMaxWaitSeconds c * second)) (wrap64 (cf_PaceJitterMs c * millisecond))
    (cf_RecipientRequests c) (wrap64 (cf_RecipientWindowSeconds c * second)).

Definition accountLimiter (c : Settings) : TokenBucketLimiter F :=
  NewTokenBucketLimiter (mkTokenBucketConfig (cf_PaceRate c) (cf_PaceBurst c) "acct:").
End settings.
Arguments Settings F : clear implicits.

(** ** Lemmas *)

Lemma jwt_range {F} `{Arith F} (c : Settings F) :
  1 <= cf_JwtDurationMinutes (normalize c) <= maxJWTDurationMinutes.
Proof.
  unfold normalize, maxJWTDurationMinutes. cbn [cf_JwtDurationMinutes].
  destruct (cf_JwtDurationMinutes c <=? 0) eqn:E1; cbn [orb]; [lia|].
  destruct (525600 <? cf_JwtDurationMinutes c) eqn:E2; lia.
Qed.

(** A year of nanoseconds fits, so that the product does not wrap around. *)
Lemma jwt_exact {F} `{Arith F} (c : Settings F) :
  GetJwtDuration (normalize c) = cf_JwtDurationMinutes (normalize c) * minute.
Proof.
  unfold GetJwtDuration. pose proof (jwt_range c) as Hr. unfold maxJWTDurationMinutes in Hr.
  apply wrap64_id. unfold minute, second. lia.
Qed.

Lemma loaded {F} `{Arith F} (c c' : Settings F) : Load c = Some c' -> c' = normalize c.
Proof. unfold Load. by destruct (_ && _); intros [= <-]. Qed.

Lemma positive_rate (q : Q) : (0 < (if Qle_bool q 0 then 1 else q))%Q.
Proof.
  destruct (Qle_bool q 0) eqn:E; [lra|]. apply Qnot_le_lt. intros Hq. apply Qle_bool_iff in Hq. congruence.
Qed.

Lemma burst_one (q : Q) : (1 <= (if negb (Qle_bool 1 q) then 1 else q))%Q.
Proof. destruct (Qle_bool 1 q) eqn:E; [by apply Qle_bool_iff|apply Qle_refl]. Qed.

Lemma clamp_nonneg z : 0 <= (if z <? 0 then 0 else z).
Proof. destruct (z <? 0) eqn:E; lia. Qed.

Lemma timeout_range {F} `{Arith F} (c : Settings F) :
  cf_SendTimeoutSeconds (normalize c) = 0 \/ 5 <= cf_SendTimeoutSeconds (normalize c).
Proof.
  cbn [normalize cf_SendTimeoutSeconds]. pose proof (clamp_nonneg (cf_SendTimeoutSeconds c)) as Ht.
  set (t := if _ <? 0 then 0 else _) in *. destruct (0 <? t) eqn:E1; cbn [andb]; [|lia].
  destruct (t <? 5) eqn:E2; lia.
Qed.

(** The clamps of the limiter itself find nothing left to do. *)
Lemma rate_clamped_once (q : Q) :
  let r := (if Qle_bool q 0 then 1 else q)%Q in (if Qle_bool r 0 then 1 else r)%Q = r.
Proof.
  cbn zeta. pose proof (positive_rate q) as Hq. set (r := if Qle_bool q 0 then _ else _) in *.
  destruct (Qle_bool r 0) eqn:E; [|done]. apply Qle_bool_iff in E. lra.
Qed.

Lemma burst_clamped_once (q : Q) :
  let r := (if negb (Qle_bool 1 q) then 1 else q)%Q in (if negb (Qle_bool 1 r) then 1 else r)%Q = r.
Proof.
  cbn zeta. pose proof (burst_one q) as Hq. set (r := if negb _ then _ else _) in *.
  apply Qle_bool_iff in Hq. by rewrite Hq.
Qed.

Lemma limiter_clamps_nothing (c : Settings Q) :
  tbRate (accountLimiter (normalize c)) = cf_PaceRate (normalize c)
  /\ tbBurst (accountLimiter (normalize c)) = cf_PaceBurst (normalize c).
Proof. split; [apply rate_clamped_once|apply burst_clamped_once]. Qed.

Lemma mode_either {F} `{Arith F} (c : Settings F) :
  (cf_PaceMode (normalize c) = "pace" \/ cf_PaceMode (normalize c) = "reject")%string.
Proof. cbn. case_bool_decide; auto. Qed.

(** Settings in the ranges are left as they are. *)
Lemma normalize_fixed (c : Settings Q) :
  1 <= cf_JwtDurationMinutes c <= maxJWTDurationMinutes ->
  (cf_PaceMode c = "pace" \/ cf_PaceMode c = "reject")%string ->
  (if Qle_bool (cf_PaceRate c) 0 then 1 else cf_PaceRate c)%Q = cf_PaceRate c ->
  (if negb (Qle_bool 1 (cf_PaceBurst c)) then 1 else cf_PaceBurst c)%Q = cf_PaceBurst c ->
  0 <= cf_PaceMaxWaitSeconds c -> 0 <= cf_PaceJitterMs c ->
  cf_SendTimeoutSeconds c = 0 \/ 5 <= cf_SendTimeoutSeconds c ->
  normalize c = c.
Proof.
  destruct c as [env jwt iss min key master en mode rate burst wait jit rr rw st].
  cbn [cf_JwtDurationMinutes cf_PaceMode cf_PaceRate cf_PaceBurst cf_PaceMaxWaitSeconds cf_PaceJitterMs
       cf_SendTimeoutSeconds]. intros Hj Hm Hr Hb Hw Hi Ht. unfold normalize.
  cbn -[Z.leb Z.ltb Qle_bool maxJWTDurationMinutes]. change (inject_Z 0) with 0%Q. change (inject_Z 1) with 1%Q.
  rewrite Hr, Hb.
  replace ((min <=? 0) || (maxJWTDurationMinutes <? min)) with false by lia.
  replace (wait <? 0) with false by lia. replace (jit <? 0) with false by lia. replace (st <? 0) with false by lia.
  replace ((0 <? st) && (st <? 5)) with false by lia.
  f_equal. case_bool_decide; [done|]. by destruct Hm.
Qed.

Lemma normalize_twice (c : Settings Q) : normalize (normalize c) = normalize c.
Proof.
  apply normalize_fixed; [apply jwt_range|apply mode_either|apply rate_clamped_once|apply burst_clamped_once
    |apply clamp_nonneg|apply clamp_nonneg|apply timeout_range].
Qed.

Lemma validated {F} `{Arith F} (c c' : Settings F) :
  Load c = Some c' -> cf_Env c = PROD -> validateProductionSecrets c' = true.
Proof.
  unfold Load. intros Hl He. rewrite bool_decide_eq_true_2 in Hl by done. cbn [andb] in Hl.
  destruct (validateProductionSecrets c) eqn:E; [|done]. injection Hl as <-. exact E.
Qed.

(** ** Properties *)


(** ** Instances *)

Definition sampleSettings (env : string) : Settings Q :=
  mkSettings env "k1" "whatsapp-gateway" (10 ^ 18) "k2" "k3" true "pace" 1%Q 5%Q 30 250 10 60 2.


(** Under loaded settings an account's limiter keeps to its rate: over any calls it grants
    at most the burst and what the elapsed time accrues. *)
Lemma loaded_pacer_throughput (c c' : Settings Q) key calls now :
  Load c = Some c' -> timeOrdered now calls ->
  (inject_Z (granted calls (bucketCalls key calls (accountLimiter c')))
   <= cf_PaceBurst c' + accrued (cf_PaceRate c') (lastTime now calls - lastRefill now (entryOf (accountLimiter c') key)))%Q.
Proof.
  intros ->%loaded Ht. destruct (limiter_clamps_nothing c) as [Hr Hb]. rewrite <- Hr, <- Hb.
  apply bucket_throughput; [rewrite Hr; apply positive_rate|rewrite Hb; apply burst_one|done|].
  unfold accountLimiter, NewTokenBucketLimiter, bucketOk, entryOf. cbn [tbBuckets tbPrefix].
  by rewrite lookup_empty.
Qed.

(** [ENV] is compared as it is written, though the file [.env] is looked for in lower case:
    a production of another spelling starts with the secrets of the repository. *)
Lemma shouted_production_unchecked (c : Settings Q) :
  cf_Env c = "PRODUCTION"%string -> Load c = Some (normalize c).
Proof. intros He. unfold Load. by rewrite He. Qed.

(** The waits are bounded from below only: a large one overflows and is negative. *)
Lemma long_wait_overflows :
  let c := mkSettings (F := Q) "development" "" "" 1 "" "" true "pace" 1%Q 5%Q (10 ^ 10) 0 0 0 0 in
  exists c', Load c = Some c' /\ (pcMaxWait (pacerConfig c') < 0)%Z.
Proof. eexists. split; [reflexivity|]. vm_compute. reflexivity. Qed.
