(* ===== verification/Sending.v ===== *)
(** * Send requests ([internal/usecase/whatsapp/message_usecase.go], [interaction_usecase.go])

    What becomes of a request to send: it is checked, and then either published as a job or
    handed to the manager at once.  The worker of [OutgoingHandler] makes the manager's call
    of a job ([workerCall], the [switch] of [outgoing_message_handler.go] with the arguments
    of every call).

    [queue_agrees_with_direct]: the job of a request makes the worker call the manager with
    exactly what the direct way calls it with.  [request_sends_once]: a request is published
    or sent, not both, when the broker has nothing that it did not confirm;
    [unconfirmed_sends_twice]: otherwise it is both.  [early_worker_status_lost]: a worker
    that is faster than the request's own bookkeeping leaves the job [queued]. *)

From Stdlib Require Import ZArith Ascii String.
From stdpp Require Import strings numbers gmap list.
From S2P Require Import Prelude JsString GoLang GoStrings Subscriptions Dedup RetryQueue.
From S2P Require Import Cipher OutgoingHandler RateLimiter Reads Errors.
#[local] Set Default Proof Using "Type".

Open Scope string_scope.

(** Results that may be an error, in the style of the code's early returns. *)
Abbreviation res A := (DomainError + A)%type.
Notation "'try!' x ':=' m 'in' k" := (match m with inl e => inl e | inr x => k end)
  (at level 200, x pattern, right associativity) : gateway_scope.

(** [http.DetectContentType]. *)
Class Sniffer := { DetectContentType : string -> string }.

(** ** Limits *)

Definition maxTextMessageLen : nat := 65536.
Definition maxCaptionLen : nat := 4096.
Definition maxEmojiLen : nat := 64.
Definition maxLocationName : nat := 256.
Definition maxLocationAddress : nat := 512.
Definition maxPollQuestion : nat := 256.
Definition maxPollOptionLen : nat := 100.
Definition maxPollOptions : nat := 12.

Definition badRequest (what : string) : DomainError := NewError ErrBadRequest (Some what).
Definition internal (what : string) : DomainError := NewError ErrInternalFailure (Some what).

(** [len] counts bytes. *)
Definition validateLength (field name : string) (max : nat) : res unit :=
  if (max <? String.length field)%nat then inl (badRequest name) else inr tt.

Definition mediaMimeAllowlists : list (string * list string) :=
  [("image", ["image/jpeg"; "image/png"; "image/webp"]);
   ("sticker", ["image/webp"]);
   ("audio", ["audio/ogg"; "audio/mpeg"; "audio/mp4"; "audio/aac"; "audio/x-aac"; "audio/amr";
              "audio/3gpp"; "audio/3gpp2"; "audio/webm"; "audio/x-m4a"; "application/ogg"]);
   ("video", ["video/mp4"; "video/3gpp"; "video/webm"])].

Definition validateMediaSize (maxUploadBytes size : Z) : res unit :=
  if (0 <? maxUploadBytes)%Z && (maxUploadBytes <? size)%Z then inl (badRequest "media size") else inr tt.

Definition validateMediaMime (kind detectedMime : string) : res unit :=
  match snd <$> List.find (fun p => String.eqb p.1 kind) mediaMimeAllowlists with
  | None => inr tt
  | Some allow =>
      if String.eqb detectedMime "" || existsb (String.eqb detectedMime) allow then inr tt
      else inl (badRequest "mime type")
  end.

(** ** Jobs and calls of the manager *)

Record MessageContext := mkContext {
  mx_ReplyToID : string;
  mx_ReplyToSender : string;
  mx_ReplyToText : string;
  mx_Mentions : list string;
}.

Section sending.
(** The numbers of a location, which are only passed on, and their zero. *)
Context {F : Type} (zeroF : F).

(** [OutgoingMessageJob], with the fields of the message's context together. *)
Record Job := mkFullJob {
  jo_JobID : string;
  jo_PhoneNumber : string;
  jo_Type : string;
  jo_To : string;
  jo_Text : string;
  jo_ImageData : string;
  jo_MimeType : string;
  jo_Caption : string;
  jo_IsViewOnce : bool;
  jo_MessageID : string;
  jo_Emoji : string;
  jo_SenderMsisdn : string;
  jo_NewText : string;
  jo_FileName : string;
  jo_IsPTT : bool;
  jo_IsGif : bool;
  jo_Latitude : F;
  jo_Longitude : F;
  jo_LocationName : string;
  jo_LocationAddress : string;
  jo_Question : string;
  jo_Options : list string;
  jo_SelectableCount : Z;
  jo_Context : MessageContext;
}.

(** The calls of the manager. *)
Inductive ManagerCall :=
  | CallText (phone to text : string) (ctx : MessageContext)
  | CallImage (phone to bytes mime caption : string) (viewOnce : bool) (ctx : MessageContext)
  | CallAudio (phone to bytes mime : string) (ptt viewOnce : bool) (ctx : MessageContext)
  | CallVideo (phone to bytes mime caption : string) (gif viewOnce : bool) (ctx : MessageContext)
  | CallDocument (phone to bytes mime fileName caption : string) (ctx : MessageContext)
  | CallLocation (phone to : string) (latitude longitude : F) (name address : string) (ctx : MessageContext)
  | CallPoll (phone to question : string) (options : list string) (selectable : Z) (ctx : MessageContext)
  | CallSticker (phone to bytes mime : string) (ctx : MessageContext)
  | CallReact (phone to sender messageID emoji : string)
  | CallDelete (phone to messageID : string)
  | CallEdit (phone to messageID newText : string)
  | CallMarkRead (phone to sender : string) (messageIDs : list string)
  | CallPresence (phone to state media : string).

(** The call that the worker makes of a job; nothing is called for media that do not decode
    and for unknown types. *)
Definition workerCall (j : Job) : option ManagerCall :=
  let phone := jo_PhoneNumber j in
  let to := jo_To j in
  let ctx := jo_Context j in
  let media := DecodeString (jo_ImageData j) in
  if String.eqb (jo_Type j) "text" then Some (CallText phone to (jo_Text j) ctx)
  else if String.eqb (jo_Type j) "image" then
    (fun b => CallImage phone to b (jo_MimeType j) (jo_Caption j) (jo_IsViewOnce j) ctx) <$> media
  else if String.eqb (jo_Type j) "audio" then
    (fun b => CallAudio phone to b (jo_MimeType j) (jo_IsPTT j) (jo_IsViewOnce j) ctx) <$> media
  else if String.eqb (jo_Type j) "video" then
    (fun b => CallVideo phone to b (jo_MimeType j) (jo_Caption j) (jo_IsGif j) (jo_IsViewOnce j) ctx) <$> media
  else if String.eqb (jo_Type j) "document" then
    (fun b => CallDocument phone to b (jo_MimeType j) (jo_FileName j) (jo_Caption j) ctx) <$> media
  else if String.eqb (jo_Type j) "location" then
    Some (CallLocation phone to (jo_Latitude j) (jo_Longitude j) (jo_LocationName j) (jo_LocationAddress j) ctx)
  else if String.eqb (jo_Type j) "poll" then
    Some (CallPoll phone to (jo_Question j) (jo_Options j) (jo_SelectableCount j) ctx)
  else if String.eqb (jo_Type j) "sticker" then
    (fun b => CallSticker phone to b (jo_MimeType j) ctx) <$> media
  else if String.eqb (jo_Type j) "react" then
    Some (CallReact phone to (jo_SenderMsisdn j) (jo_MessageID j) (jo_Emoji j))
  else if String.eqb (jo_Type j) "delete" then Some (CallDelete phone to (jo_MessageID j))
  else if String.eqb (jo_Type j) "edit" then Some (CallEdit phone to (jo_MessageID j) (jo_NewText j))
  else None.

(** What the handler itself reads of a job. *)
Definition slim (j : Job) : OutgoingJob :=
  mkJob (jo_JobID j) (jo_PhoneNumber j) (jo_Type j) (jo_To j) (jo_ImageData j) (jo_MessageID j) (jo_Text j).

(** A job with the fields that every kind sets; the others are zero. *)
Definition newJob (id phone type to : string) (ctx : MessageContext) : Job :=
  mkFullJob id phone type to "" "" "" "" false "" "" "" "" "" false false zeroF zeroF "" "" "" [] 0 ctx.

Definition withText (text : string) (j : Job) : Job :=
  mkFullJob (jo_JobID j) (jo_PhoneNumber j) (jo_Type j) (jo_To j) text (jo_ImageData j) (jo_MimeType j)
    (jo_Caption j) (jo_IsViewOnce j) (jo_MessageID j) (jo_Emoji j) (jo_SenderMsisdn j) (jo_NewText j)
    (jo_FileName j) (jo_IsPTT j) (jo_IsGif j) (jo_Latitude j) (jo_Longitude j) (jo_LocationName j)
    (jo_LocationAddress j) (jo_Question j) (jo_Options j) (jo_SelectableCount j) (jo_Context j).

(** The fields of a media job. *)
Definition withMedia (bytes mime caption fileName : string) (viewOnce ptt gif : bool) (j : Job) : Job :=
  mkFullJob (jo_JobID j) (jo_PhoneNumber j) (jo_Type j) (jo_To j) (jo_Text j) (EncodeToString bytes) mime
    caption viewOnce (jo_MessageID j) (jo_Emoji j) (jo_SenderMsisdn j) (jo_NewText j)
    fileName ptt gif (jo_Latitude j) (jo_Longitude j) (jo_LocationName j)
    (jo_LocationAddress j) (jo_Question j) (jo_Options j) (jo_SelectableCount j) (jo_Context j).

Definition withLocation (latitude longitude : F) (name address : string) (j : Job) : Job :=
  mkFullJob (jo_JobID j) (jo_PhoneNumber j) (jo_Type j) (jo_To j) (jo_Text j) (jo_ImageData j) (jo_MimeType j)
    (jo_Caption j) (jo_IsViewOnce j) (jo_MessageID j) (jo_Emoji j) (jo_SenderMsisdn j) (jo_NewText j)
    (jo_FileName j) (jo_IsPTT j) (jo_IsGif j) latitude longitude name address
    (jo_Question j) (jo_Options j) (jo_SelectableCount j) (jo_Context j).

Definition withPoll (question : string) (options : list string) (selectable : Z) (j : Job) : Job :=
  mkFullJob (jo_JobID j) (jo_PhoneNumber j) (jo_Type j) (jo_To j) (jo_Text j) (jo_ImageData j) (jo_MimeType j)
    (jo_Caption j) (jo_IsViewOnce j) (jo_MessageID j) (jo_Emoji j) (jo_SenderMsisdn j) (jo_NewText j)
    (jo_FileName j) (jo_IsPTT j) (jo_IsGif j) (jo_Latitude j) (jo_Longitude j) (jo_LocationName j)
    (jo_LocationAddress j) question options selectable (jo_Context j).
End sending.
Arguments Job F : clear implicits.
Arguments ManagerCall F : clear implicits.

(** ** Requests *)

(** An uploaded file: its declared size and name, and its bytes when it can be read. *)
Record Upload := mkUpload { up_Size : Z; up_Filename : string; up_bytes : option string }.

Inductive Content (F : Type) :=
  | CText (message : string)
  | CImage (file : Upload) (caption : string) (viewOnce : bool)
  | CAudio (file : Upload) (ptt viewOnce : bool)
  | CVideo (file : Upload) (caption : string) (gif viewOnce : bool)
  | CDocument (file : Upload) (fileName caption : string)
  | CLocation (latitude longitude : F) (name address : string)
  | CPoll (question : string) (options : list string) (selectable : Z)
  | CSticker (file : Upload).
Arguments CText {F} _.
Arguments CImage {F} _ _ _.
Arguments CAudio {F} _ _ _.
Arguments CVideo {F} _ _ _ _.
Arguments CDocument {F} _ _ _.
Arguments CLocation {F} _ _ _ _.
Arguments CPoll {F} _ _ _.
Arguments CSticker {F} _.

Record Request (F : Type) := mkRequest {
  rq_Chat : string;
  rq_Msisdn : string;
  rq_ReplyToID : string;
  rq_ReplyToSender : string;
  rq_ReplyToText : string;
  rq_Mentions : list string;
  rq_Content : Content F;
}.
Arguments mkRequest {F} _ _ _ _ _ _ _.
Arguments rq_Chat {F} _.
Arguments rq_Msisdn {F} _.
Arguments rq_ReplyToID {F} _.
Arguments rq_ReplyToSender {F} _.
Arguments rq_ReplyToText {F} _.
Arguments rq_Mentions {F} _.
Arguments rq_Content {F} _.

Section requests.
Context {F : Type} (zeroF : F) `{JidParser} `{UnicodeLower} `{Sniffer}.
Context (maxUploadBytes : Z).

Definition resolved (chat msisdn : string) : res string :=
  match resolveChat chat msisdn with Some j => inr j | None => inl (badRequest "recipient") end.

Fixpoint resolveMentions (mentions : list string) : res (list string) :=
  match mentions with
  | [] => inr []
  | m :: r =>
      if String.eqb (trimSpace m) "" then resolveMentions r
      else try! jid := resolved m "" in
           try! rest := resolveMentions r in inr (jid :: rest)
  end.

Definition buildMessageContext (replyToID replyToSender replyToText : string) (mentions : list string)
    : res MessageContext :=
  try! sender := match trimSpace replyToSender with "" => inr "" | s => resolved s "" end in
  try! jids := resolveMentions mentions in
  inr (mkContext (trimSpace replyToID) sender replyToText jids).

Fixpoint validateOptions (options : list string) : res unit :=
  match options with
  | [] => inr tt
  | o :: r => try! _ := validateLength o "option" maxPollOptionLen in validateOptions r
  end.

(** What each kind checks before the context is built. *)
Definition checkLengths (c : Content F) : res unit :=
  match c with
  | CText message => validateLength message "message" maxTextMessageLen
  | CImage _ caption _ | CVideo _ caption _ _ | CDocument _ _ caption =>
      validateLength caption "caption" maxCaptionLen
  | CAudio _ _ _ | CSticker _ => inr tt
  | CLocation _ _ name address =>
      try! _ := validateLength name "name" maxLocationName in
      validateLength address "address" maxLocationAddress
  | CPoll question options _ =>
      try! _ := validateLength question "question" maxPollQuestion in
      if (List.length options <? 2)%nat then inl (badRequest "too few options")
      else if (maxPollOptions <? List.length options)%nat then inl (badRequest "too many options")
      else validateOptions options
  end.

(** The bytes of a file of a size that is accepted; a file that cannot be read is an error
    of the given kind. *)
Definition readUpload (unreadable : DomainError) (file : Upload) : res string :=
  try! _ := validateMediaSize maxUploadBytes (up_Size file) in
  match up_bytes file with Some b => inr b | None => inl unreadable end.

(** The job and the direct call of each kind, for a recipient and a context. *)
Section kinds.
Context (jobID phone to : string) (ctx : MessageContext).
Let job (type : string) : Job F := newJob zeroF jobID phone type to ctx.

Definition prepareText (message : string) : res (Job F * ManagerCall F) :=
  inr (withText message (job "text"), CallText phone to message ctx).

Definition prepareImage (file : Upload) (caption : string) (viewOnce : bool) : res (Job F * ManagerCall F) :=
  try! b := readUpload (internal "file") file in
  let mime := DetectContentType b in
  try! _ := validateMediaMime "image" mime in
  inr (withMedia b mime caption "" viewOnce false false (job "image"),
       CallImage phone to b mime caption viewOnce ctx).

Definition prepareAudio (file : Upload) (ptt viewOnce : bool) : res (Job F * ManagerCall F) :=
  try! b := readUpload (internal "file") file in
  let mime := DetectContentType b in
  let mime := if ptt && negb (hasPrefix "audio/" mime) then "" else mime in
  try! _ := validateMediaMime "audio" mime in
  inr (withMedia b mime "" "" viewOnce ptt false (job "audio"), CallAudio phone to b mime ptt viewOnce ctx).

Definition prepareVideo (file : Upload) (caption : string) (gif viewOnce : bool) : res (Job F * ManagerCall F) :=
  try! b := readUpload (internal "file") file in
  let mime := DetectContentType b in
  try! _ := validateMediaMime "video" mime in
  inr (withMedia b mime caption "" viewOnce false gif (job "video"),
       CallVideo phone to b mime caption gif viewOnce ctx).

Definition prepareDocument (file : Upload) (fileName caption : string) : res (Job F * ManagerCall F) :=
  let fileName := match fileName with "" => up_Filename file | n => n end in
  let fileName := match fileName with "" => "file" | n => n end in
  try! b := readUpload (internal "file") file in
  let mime := DetectContentType b in
  inr (withMedia b mime caption fileName false false false (job "document"),
       CallDocument phone to b mime fileName caption ctx).

Definition prepareLocation (latitude longitude : F) (name address : string) : res (Job F * ManagerCall F) :=
  inr (withLocation latitude longitude name address (job "location"),
       CallLocation phone to latitude longitude name address ctx).

Definition preparePoll (question : string) (options : list string) (selectable : Z) : res (Job F * ManagerCall F) :=
  inr (withPoll question options selectable (job "poll"), CallPoll phone to question options selectable ctx).

Definition prepareSticker (file : Upload) : res (Job F * ManagerCall F) :=
  try! b := readUpload (badRequest "file") file in
  let mime := DetectContentType b in
  try! _ := validateMediaMime "sticker" mime in
  inr (withMedia b mime "" "" false false false (job "sticker"), CallSticker phone to b mime ctx).

Definition prepare (c : Content F) : res (Job F * ManagerCall F) :=
  match c with
  | CText message => prepareText message
  | CImage file caption viewOnce => prepareImage file caption viewOnce
  | CAudio file ptt viewOnce => prepareAudio file ptt viewOnce
  | CVideo file caption gif viewOnce => prepareVideo file caption gif viewOnce
  | CDocument file fileName caption => prepareDocument file fileName caption
  | CLocation latitude longitude name address => prepareLocation latitude longitude name address
  | CPoll question options selectable => preparePoll question options selectable
  | CSticker file => prepareSticker file
  end.
End kinds.

(** The part of every [Send...Message] before the queue is asked: the recipient, the job
    and the call. *)
Definition accept (jobID phone : string) (r : Request F) : res (string * Job F * ManagerCall F) :=
  try! to := resolved (rq_Chat r) (rq_Msisdn r) in
  try! _ := checkLengths (rq_Content r) in
  try! ctx := buildMessageContext (rq_ReplyToID r) (rq_ReplyToSender r) (rq_ReplyToText r) (rq_Mentions r) in
  try! p := prepare jobID phone to ctx (rq_Content r) in
  inr (to, p.1, p.2).

(** ** Sending *)

(** What the queue answers to a publication: whether the caller gets an error, and whether
    the broker has the message. *)
Record Publication := mkPublication { pb_error : bool; pb_stored : bool }.

Record SendEnv := mkSendEnv {
  se_queue : option bool;
  se_publish : Publication;
  se_pace : Pace;
  se_dbOk : bool;
  se_manager : ManagerCall F -> res string;
  se_statusEvents : bool;
  se_jid : string -> go (option string);
  se_subs : string -> option (list WebhookSubscription);
}.

Record System := mkSystem {
  sy_queue : list (Job F);
  sy_jobs : JobTable;
  sy_calls : list (ManagerCall F);
  sy_hooks : list Hook;
}.

Inductive Reply := RQueued (jobID chat : string) | RSent (messageID chat : string) | RFailed (e : DomainError).

(** [pace]: a limit is a 429, another error a 500. *)
Definition pace (p : Pace) : res unit :=
  match p with
  | PaceOk => inr tt
  | PaceLimited _ => inl (NewError ErrTooManyRequests (Some "rate limited"))
  | PaceFailed => inl (internal "pacer")
  end.

(** [dispatchDirectStatusWebhook]: what reaches the sender. *)
Definition dispatchDirectStatusWebhook (env : SendEnv) (phone event jobID : string) : go (list Hook) :=
  if negb (se_statusEvents env) then Ret []
  else goBind (se_jid env phone) (fun found =>
       match found with
       | None => Ret []
       | Some jid =>
           match se_subs env jid with
           | None => Ret []
           | Some subs => Ret (map (fun s => mkHook event jobID (subUrl s)) (recipients event subs))
           end
       end).

(** The end of a request: the webhooks, then the reply. *)
Definition announcing (hooks : go (list Hook)) (r : Reply) (s : System) : go Reply * System :=
  match hooks with
  | Panic => (Panic, s)
  | Ret l => (Ret r, mkSystem (sy_queue s) (sy_jobs s) (sy_calls s) (sy_hooks s ++ l)%list)
  end.

Definition sendDirect (env : SendEnv) (phone to : string) (call : ManagerCall F) (s : System)
    : go Reply * System :=
  match pace (se_pace env) with
  | inl e => (Ret (RFailed e), s)
  | inr _ =>
      let s := mkSystem (sy_queue s) (sy_jobs s) (sy_calls s ++ [call])%list (sy_hooks s) in
      match se_manager env call with
      | inl e => announcing (dispatchDirectStatusWebhook env phone EventMessageFailed "") (RFailed e) s
      | inr messageID =>
          announcing (dispatchDirectStatusWebhook env phone EventMessageSent "") (RSent messageID to) s
      end
  end.

(** Every [Send...Message]; the database and the job's id are as the environment gives them. *)
Definition SendMessage (env : SendEnv) (now : instant) (jobID phone : string) (r : Request F) (s : System)
    : go Reply * System :=
  match accept jobID phone r with
  | inl e => (Ret (RFailed e), s)
  | inr (to, job, call) =>
      if default false (se_queue env) then
        let queue := if pb_stored (se_publish env) then (sy_queue s ++ [job])%list else sy_queue s in
        let s := mkSystem queue (sy_jobs s) (sy_calls s) (sy_hooks s) in
        if pb_error (se_publish env) then sendDirect env phone to call s
        else
          let jobs := if se_dbOk env then (jobCreate now jobID "queued" phone (sy_jobs s)).2 else sy_jobs s in
          announcing (dispatchDirectStatusWebhook env phone EventMessageQueued jobID) (RQueued jobID to)
            (mkSystem (sy_queue s) jobs (sy_calls s) (sy_hooks s))
      else sendDirect env phone to call s
  end.

(** ** Actions: reactions, deletions, edits, receipts and typing; they are never queued *)

Inductive Action :=
  | AReact (senderMsisdn messageID emoji : string)
  | ADelete (messageID : string)
  | AEdit (messageID newMessage : string)
  | AMarkRead (sender : string) (messageIDs : list string)
  | APresence (state : string).

Definition resolvePresenceState (s : string) : res (string * string) :=
  let w := ToLower (trimSpace s) in
  if existsb (String.eqb w) ["composing"; "typing"] then inr ("composing", "")
  else if String.eqb w "recording" then inr ("composing", "audio")
  else if existsb (String.eqb w) ["paused"; "stop"] then inr ("paused", "")
  else inl (badRequest "presence state").

(** The checks of an action on a resolved chat, and the call that it makes. *)
Definition prepareReact (phone to sender messageID emoji : string) : res (ManagerCall F) :=
  try! jid := (if String.eqb (trimSpace sender) "" then inr "" else resolved "" sender) in
  try! _ := validateLength emoji "emoji" maxEmojiLen in
  inr (CallReact phone to jid messageID emoji).

Definition prepareEdit (phone to messageID newMessage : string) : res (ManagerCall F) :=
  try! _ := validateLength newMessage "new_message" maxTextMessageLen in
  inr (CallEdit phone to messageID newMessage).

Definition prepareMarkRead (phone to sender : string) (messageIDs : list string) : res (ManagerCall F) :=
  if (List.length messageIDs =? 0)%nat then inl (badRequest "message_ids is required")
  else if hasSuffix groupSuffix to && String.eqb (trimSpace sender) ""
  then inl (badRequest "sender is required for group chats")
  else
    try! jid := (if String.eqb (trimSpace sender) "" then inr "" else resolved sender "") in
    inr (CallMarkRead phone to jid messageIDs).

Definition preparePresence (phone to state : string) : res (ManagerCall F) :=
  try! p := resolvePresenceState state in inr (CallPresence phone to p.1 p.2).

Definition prepareAction (phone to : string) (a : Action) : res (ManagerCall F) :=
  match a with
  | AReact sender messageID emoji => prepareReact phone to sender messageID emoji
  | ADelete messageID => inr (CallDelete phone to messageID)
  | AEdit messageID newMessage => prepareEdit phone to messageID newMessage
  | AMarkRead sender messageIDs => prepareMarkRead phone to sender messageIDs
  | APresence state => preparePresence phone to state
  end.

(** [ReactToMessage], [DeleteMessage], [EditMessage], [MarkRead], [SendChatPresence]: the
    answer, and the calls that were made. *)
Definition Act (env : SendEnv) (phone chat msisdn : string) (a : Action) : res unit * list (ManagerCall F) :=
  match resolved chat msisdn with
  | inl e => (inl e, [])
  | inr to =>
      match prepareAction phone to a with
      | inl e => (inl e, [])
      | inr call =>
          match pace (se_pace env) with
          | inl e => (inl e, [])
          | inr _ => (match se_manager env call with inl e => inl e | inr _ => inr tt end, [call])
          end
      end
  end.
End requests.
Arguments SendEnv F : clear implicits.
Arguments System F : clear implicits.

(** ** The status of a job *)

(** [GetJobStatus]; the table is [None] when the database cannot be asked. *)
Definition GetJobStatus (db : option JobTable) (phoneNumber jobID : string) : res MessageJob :=
  if String.eqb jobID "" then inl (NewError ErrBadRequest None)
  else match db with
  | None => inl (internal "database")
  | Some t =>
      match jobGet jobID t with
      | None => inl (NewError ErrNotFound None)
      | Some job =>
          if String.eqb (mjPhone job) phoneNumber then inr job else inl (NewError ErrForbidden None)
      end
  end.

(** ** Lemmas *)

Ltac unfold_kinds H :=
  unfold prepareText, prepareImage, prepareAudio, prepareVideo, prepareDocument, prepareLocation,
    preparePoll, prepareSticker in H.
Ltac split_res :=
  repeat match goal with
  | H : context [match ?m with inl _ => _ | inr _ => _ end] |- _ => destruct m eqn:?; try discriminate H
  end.

Section facts.
Context {F : Type} (zeroF : F) `{JidParser} `{UnicodeLower} `{Sniffer}.
Context (maxUploadBytes : Z).

(** What a job keeps of its bytes is what the worker reads of it. *)
Lemma workerCall_media type id phone to ctx b mime caption name viewOnce ptt gif :
  let j := withMedia b mime caption name viewOnce ptt gif (newJob zeroF id phone type to ctx) in
  DecodeString (jo_ImageData j) = Some b.
Proof. apply base64_roundtrip. Qed.

Lemma prepare_job id phone to ctx (c : Content F) job call :
  prepare zeroF maxUploadBytes id phone to ctx c = inr (job, call) ->
  jo_JobID job = id /\ jo_PhoneNumber job = phone /\ jo_To job = to /\ jo_Context job = ctx
  /\ workerCall job = Some call.
Proof.
  intros Hp. destruct c; cbn [prepare] in Hp; unfold_kinds Hp; split_res; injection Hp as <- <-; split_and!; try done;
    unfold workerCall; rewrite ?workerCall_media; done.
Qed.

Lemma accept_job id phone (r : Request F) to job call :
  accept zeroF maxUploadBytes id phone r = inr (to, job, call) ->
  jo_JobID job = id /\ jo_PhoneNumber job = phone /\ jo_To job = to /\ workerCall job = Some call.
Proof.
  unfold accept. intros Ha. split_res. injection Ha as <- <- <-.
  match goal with Hp : prepare _ _ _ _ _ _ _ = inr ?p |- _ =>
    destruct p as [job call]; apply prepare_job in Hp as (? & ? & ? & ? & ?) end.
  by split_and!.
Qed.

(** [OutgoingHandler.sendJob] calls the manager for a job exactly when [workerCall] says
    what with. *)
Lemma sendJob_calls (env : OutEnv) (j : Job F) :
  (forall t, is_Some (oeDecode env t) <-> is_Some (DecodeString t)) ->
  (sendJob env (slim j)).2 = true <-> is_Some (workerCall j).
Proof.
  intros Hd. unfold sendJob, workerCall. cbn [slim jbType jbImageData].
  specialize (Hd (jo_ImageData j)).
  repeat match goal with
  | |- context [String.eqb (jo_Type j) ?t] =>
      destruct (String.eqb_spec (jo_Type j) t) as [->|]
  end;
  repeat first [rewrite bool_decide_eq_true_2 by (apply (bool_decide_unpack _); vm_compute; exact I)
               |rewrite bool_decide_eq_false_2 by (apply (bool_decide_unpack _); vm_compute; exact I)];
  try (cbn; split; intros; first [done|by eexists]).
  all: try (rewrite fmap_is_Some, <- Hd; destruct (oeDecode env _); cbn; split; intros;
            first [done|by eexists|by edestruct is_Some_None]).
  rewrite !bool_decide_eq_false_2 by (unfold plainTypes, mediaTypes, actionTypes; rewrite !elem_of_cons, elem_of_nil; tauto).
  cbn. split; [done|by intros [? ?]].
Qed.

(** Every job of a request is of a type that the worker's [switch] knows. *)
Lemma accept_type id phone (r : Request F) to job call :
  accept zeroF maxUploadBytes id phone r = inr (to, job, call) ->
  jo_Type job ∈ plainTypes \/ jo_Type job ∈ mediaTypes.
Proof.
  unfold accept. intros Ha. split_res. injection Ha as <- <- <-.
  match goal with Hp : prepare _ _ _ _ _ _ _ = inr _ |- _ => rename Hp into Hprep end.
  destruct (rq_Content r); cbn [prepare] in Hprep; unfold_kinds Hprep; split_res; injection Hprep as <-; cbn;
    first [left; apply (bool_decide_unpack _); vm_compute; exact I
          |right; apply (bool_decide_unpack _); vm_compute; exact I].
Qed.

(** The bounds that an accepted request keeps. *)
Definition withinLimits (c : Content F) : Prop :=
  match c with
  | CText m => String.length m <= maxTextMessageLen
  | CImage f cap _ | CVideo f cap _ _ | CDocument f _ cap =>
      String.length cap <= maxCaptionLen /\ (0 < maxUploadBytes -> up_Size f <= maxUploadBytes)%Z
  | CAudio f _ _ | CSticker f => (0 < maxUploadBytes -> up_Size f <= maxUploadBytes)%Z
  | CLocation _ _ name address =>
      String.length name <= maxLocationName /\ String.length address <= maxLocationAddress
  | CPoll q options _ =>
      String.length q <= maxPollQuestion /\ 2 <= List.length options <= maxPollOptions
      /\ Forall (fun o => String.length o <= maxPollOptionLen) options
  end%nat.

Lemma validateLength_ok field name max u : validateLength field name max = inr u -> (String.length field <= max)%nat.
Proof. unfold validateLength. destruct (_ <? _)%nat eqn:E; [done|]. apply Nat.ltb_ge in E. by intros. Qed.

Lemma validateMediaSize_ok size u :
  validateMediaSize maxUploadBytes size = inr u -> (0 < maxUploadBytes -> size <= maxUploadBytes)%Z.
Proof.
  unfold validateMediaSize. destruct (0 <? maxUploadBytes)%Z eqn:E1; cbn.
  - destruct (maxUploadBytes <? size)%Z eqn:E2; [done|]. lia.
  - lia.
Qed.

Lemma readUpload_ok e f b :
  readUpload maxUploadBytes e f = inr b ->
  up_bytes f = Some b /\ (0 < maxUploadBytes -> up_Size f <= maxUploadBytes)%Z.
Proof.
  unfold readUpload. intros Hr. split_res. destruct (up_bytes f); [|done]. injection Hr as <-.
  split; [done|]. by eapply validateMediaSize_ok.
Qed.

Lemma validateOptions_ok options u :
  validateOptions options = inr u -> Forall (fun o => String.length o <= maxPollOptionLen)%nat options.
Proof.
  revert u. induction options as [|o r IH]; intros u Hv; [by constructor|]. cbn in Hv. split_res.
  constructor; [by eapply validateLength_ok|by eapply IH].
Qed.

Lemma accept_limits id phone (r : Request F) x :
  accept zeroF maxUploadBytes id phone r = inr x -> withinLimits (rq_Content r).
Proof.
  unfold accept. intros Ha. split_res. clear Ha.
  repeat match goal with Hr : resolved _ _ = _ |- _ => clear Hr | Hb : buildMessageContext _ _ _ _ = _ |- _ => clear Hb end.
  match goal with Hp : prepare _ _ _ _ _ _ _ = inr _ |- _ => rename Hp into Hprep end.
  destruct (rq_Content r); cbn [prepare checkLengths withinLimits] in *; unfold_kinds Hprep; split_res;
    repeat match goal with
    | Hv : validateLength _ _ _ = inr _ |- _ => apply validateLength_ok in Hv
    | Hv : readUpload _ _ _ = inr _ |- _ => apply readUpload_ok in Hv as [? ?]
    end; try done.
  destruct (_ <? 2)%nat eqn:E1; [done|]. destruct (_ <? _)%nat eqn:E2 in Heqs0; [done|].
  apply Nat.ltb_ge in E1, E2. split_and!; try done. by eapply validateOptions_ok.
Qed.

(** *** What a request adds *)

(** [s'] has these jobs and calls more than [s]. *)
Definition adds (jobs : list (Job F)) (calls : list (ManagerCall F)) (s s' : System F) : Prop :=
  sy_queue s' = (sy_queue s ++ jobs)%list /\ sy_calls s' = (sy_calls s ++ calls)%list.

Lemma adds_nothing s : adds [] [] s s.
Proof. unfold adds. by rewrite !app_nil_r. Qed.

Lemma announcing_adds hooks r s x s' :
  announcing hooks r s = (x, s') ->
  adds [] [] s s' /\ sy_jobs s' = sy_jobs s /\ (x = Ret r \/ x = Panic).
Proof.
  unfold announcing. destruct hooks; intros [= <- <-]; (split; [|by auto]);
    unfold adds; cbn; by rewrite !app_nil_r.
Qed.

(** A direct send: refused by the pacer, or exactly one call. *)
Lemma sendDirect_adds (env : SendEnv F) phone to call s x s' :
  sendDirect env phone to call s = (x, s') ->
  sy_jobs s' = sy_jobs s
  /\ ((adds [] [] s s' /\ exists e, x = Ret (RFailed e) /\ pace (se_pace env) = inl e)
      \/ (adds [] [call] s s'
          /\ (x = Panic
              \/ (exists e, x = Ret (RFailed e) /\ se_manager env call = inl e)
              \/ (exists messageID, x = Ret (RSent messageID to) /\ se_manager env call = inr messageID)))).
Proof.
  unfold sendDirect. destruct (pace (se_pace env)) as [e|].
  { intros [= <- <-]. split; [done|left]. split; [apply adds_nothing|by eauto]. }
  destruct (se_manager env call) as [e|messageID]; intros Ha;
    apply announcing_adds in Ha as ((Hq & Hc) & Hj & Hx); cbn in *; rewrite app_nil_r in Hq, Hc;
    (split; [done|right; split; [by split; rewrite ?app_nil_r|destruct Hx; eauto]]).
Qed.

(** The queue has what the caller was told. *)
Definition confirmed (p : Publication) : Prop := pb_stored p = negb (pb_error p).

Lemma SendMessage_adds env now id phone r s x s' :
  confirmed (se_publish env) ->
  SendMessage zeroF maxUploadBytes env now id phone r s = (x, s') ->
  match accept zeroF maxUploadBytes id phone r with
  | inl e => x = Ret (RFailed e) /\ s' = s
  | inr (to, job, call) =>
      (adds [job] [] s s' /\ (x = Ret (RQueued id to) \/ x = Panic)
       /\ sy_jobs s' = (if se_dbOk env then (jobCreate now id "queued" phone (sy_jobs s)).2 else sy_jobs s))
      \/ sendDirect env phone to call s = (x, s')
  end.
Proof.
  unfold confirmed, SendMessage. intros Hp. destruct (accept _ _ _ _ _) as [e|[[to job] call]].
  { by intros [= <- <-]. }
  destruct (default false (se_queue env)); [|by right].
  rewrite Hp. destruct (pb_error (se_publish env)); cbn [negb].
  - right. by destruct s.
  - intros Ha. left. apply announcing_adds in Ha as ((Hq & Hc) & Hj & Hx). cbn in *. rewrite app_nil_r in Hq, Hc.
    split_and!; try done. split; cbn; [done|by rewrite app_nil_r].
Qed.
End facts.

(** ** Properties *)

(** C18: the two ways of sending agree.  When a request is accepted, the job that the queue
    would carry makes the worker call the manager with exactly what the request itself
    would call it with - the same account, chat, text, bytes, type, caption, flags, numbers,
    options and context - and it is of a type that the worker knows; and what is accepted
    is within the limits of lengths, options and sizes. *)
Theorem queue_agrees_with_direct {F} (zeroF : F) `{JidParser} `{UnicodeLower} `{Sniffer} (maxUploadBytes : Z)
    (id phone to : string) (r : Request F) (job : Job F) (call : ManagerCall F) :
  accept zeroF maxUploadBytes id phone r = inr (to, job, call) ->
  workerCall job = Some call
  /\ jo_JobID job = id /\ jo_PhoneNumber job = phone /\ jo_To job = to
  /\ (jo_Type job ∈ plainTypes \/ jo_Type job ∈ mediaTypes)
  /\ withinLimits maxUploadBytes (rq_Content r).
Proof.
  intros Ha. pose proof (accept_job _ _ _ _ _ _ _ _ Ha) as (? & ? & ? & ?).
  pose proof (accept_type _ _ _ _ _ _ _ _ Ha). pose proof (accept_limits _ _ _ _ _ _ Ha). by split_and!.
Qed.

(** C17: a request is carried out once.  When the broker has a message exactly if it said so,
    a request adds at most one of a queued job and a call of the manager; it answers
    [queued] only when exactly its job was queued, which will make the worker do the call
    of the request, and records it; it answers [sent] only when exactly its call was made and the
    message got that id; and when it answers an error nothing was queued or recorded. *)
Theorem request_sends_once {F} (zeroF : F) `{JidParser} `{UnicodeLower} `{Sniffer} (maxUploadBytes : Z)
    (env : SendEnv F) (now : instant) (id phone : string) (r : Request F) (s s' : System F) (x : go Reply) :
  confirmed (se_publish env) ->
  SendMessage zeroF maxUploadBytes env now id phone r s = (x, s') ->
  exists jobs calls, adds jobs calls s s' /\ (List.length jobs + List.length calls <= 1)%nat
  /\ (forall jobID chat, x = Ret (RQueued jobID chat) ->
        jobID = id /\ calls = []
        /\ (exists job call, jobs = [job] /\ accept zeroF maxUploadBytes id phone r = inr (chat, job, call)
              /\ workerCall job = Some call)
        /\ (se_dbOk env = true -> sy_jobs s !! id = None -> statusOf (sy_jobs s') id = Some "queued"))
  /\ (forall messageID chat, x = Ret (RSent messageID chat) ->
        jobs = [] /\ exists job call, calls = [call] /\ se_manager env call = inr messageID
        /\ accept zeroF maxUploadBytes id phone r = inr (chat, job, call))
  /\ (forall e, x = Ret (RFailed e) -> jobs = [] /\ sy_jobs s' = sy_jobs s).
Proof.
  intros Hp Hs. pose proof (SendMessage_adds _ _ _ _ _ _ _ _ _ _ Hp Hs) as Ha.
  destruct (accept _ _ _ _ _) as [e|[[to job] call]] eqn:Hacc.
  { destruct Ha as [-> ->]. exists [], []. split_and!; try done; [apply adds_nothing|cbn; lia]. }
  destruct Ha as [(Hadd & Hx & Hj)|Hd].
  - exists [job], []. split; [done|]. split; [cbn; lia|]. split_and!.
    + intros jobID chat Hr. destruct Hx as [-> | ->]; [|done]. injection Hr as <- <-.
      split_and!; [done..|by exists job, call; destruct (accept_job _ _ _ _ _ _ _ _ Hacc) as (_ & _ & _ & ?)|].
      intros Hdb Hn. rewrite Hj, Hdb. unfold jobCreate, statusOf. rewrite Hn. cbn. by rewrite lookup_insert_eq.
    + intros messageID chat Hr. by destruct Hx as [-> | ->].
    + intros e Hr. by destruct Hx as [-> | ->].
  - apply sendDirect_adds in Hd as (Hj & [(Hadd & e & -> & _)|(Hadd & Hx)]).
    { exists [], []. split; [done|]. split; [cbn; lia|]. by split_and!. }
    exists [], [call]. split; [done|]. split; [cbn; lia|].
    destruct Hx as [->|[(e & -> & _)|(m & -> & Hm)]]; split_and!; try done.
    intros messageID chat [= <- <-]. split; [done|by exists job, call].
Qed.

(** ** Instances *)

#[local] Instance plainSniffer : Sniffer := { DetectContentType b := if hasPrefix "PNG" b then "image/png" else "text/plain" }.

#[local] Instance plainParser : JidParser := { ParseJID s := Some (s, "s.whatsapp.net") }.
#[local] Instance asciiLower : UnicodeLower := { unicodeLower s := s }.

Definition helloRequest : Request unit := mkRequest "" "622" "" "" "" [] (CText "hello").
Definition photoRequest : Request unit :=
  mkRequest "" "622" "" "" "" [] (CImage (mkUpload 4 "a.png" (Some "PNG!")) "a" false).

Definition sampleSendEnv (queue : option bool) (p : Publication) : SendEnv unit :=
  mkSendEnv queue p PaceOk true (fun _ => inr "m1") false (fun _ => Ret None) (fun _ => None).

Definition emptySystem : System unit := mkSystem [] ∅ [] [].

Definition photoCall : ManagerCall unit :=
  CallImage "621" "622@s.whatsapp.net" "PNG!" "image/png" "a" false (mkContext "" "" "" []).

Lemma queue_agrees_with_direct_witness :
  exists job, accept tt 100 "j1" "621" photoRequest = inr ("622@s.whatsapp.net", job, photoCall)
  /\ workerCall job = Some photoCall.
Proof.
  eexists. split; [vm_compute; reflexivity|].
  refine (proj1 (queue_agrees_with_direct tt 100 "j1" "621" "622@s.whatsapp.net" photoRequest _ photoCall _)).
  vm_compute. reflexivity.
Defined.

Lemma request_sends_once_witness :
  exists s', SendMessage tt 100 (sampleSendEnv (Some true) (mkPublication false true)) 5 "j1" "621" helloRequest
               emptySystem = (Ret (RQueued "j1" "622@s.whatsapp.net"), s')
  /\ exists jobs calls, adds jobs calls emptySystem s' /\ (List.length jobs + List.length calls <= 1)%nat
     /\ calls = [] /\ statusOf (sy_jobs s') "j1" = Some "queued".
Proof.
  eexists. split; [vm_compute; reflexivity|].
  edestruct (request_sends_once tt 100 (sampleSendEnv (Some true) (mkPublication false true)) 5 "j1" "621"
    helloRequest emptySystem) as (jobs & calls & Ha & Hl & Hq & _);
    [reflexivity|vm_compute; reflexivity|].
  exists jobs, calls. destruct (Hq _ _ eq_refl) as (_ & Hc & _ & Hj). split_and!; [done..|]. by apply Hj.
Defined.

(** ** What the queue and the worker make of it *)

(** A broker that kept a message without confirming it in time ([WaitContext]): the request
    falls back to a direct send, and its job is still in the queue, for the worker to send
    again; the two have no id in common. *)
Lemma unconfirmed_sends_twice {F} (zeroF : F) `{JidParser} `{UnicodeLower} `{Sniffer} maxUploadBytes
    (env : SendEnv F) now id phone r s x s' to job call :
  se_queue env = Some true -> se_publish env = mkPublication true true -> se_pace env = PaceOk ->
  accept zeroF maxUploadBytes id phone r = inr (to, job, call) ->
  SendMessage zeroF maxUploadBytes env now id phone r s = (x, s') ->
  adds [job] [call] s s' /\ workerCall job = Some call.
Proof.
  intros Hq Hp Hpace Ha. unfold SendMessage. rewrite Ha, Hq, Hp. cbn.
  intros Hs. apply sendDirect_adds in Hs as (_ & [(_ & e & _ & Hl)|[Hadd _]]).
  { unfold pace in Hl. by rewrite Hpace in Hl. }
  destruct Hadd as [Hq' Hc]. cbn in *. rewrite app_nil_r in Hq'.
  split; [by split|by eapply accept_job].
Qed.

Lemma updateJob_unknown env now id st m e : updateJob env now id st m e ∅ = ∅.
Proof. unfold updateJob, jobUpdateStatus. rewrite lookup_empty. by destruct (oeDbOk env). Qed.

(** The request publishes the job before it creates its row.  When the worker has finished
    the job in between, its updates have no row to change: the message is sent, and the
    status stays [queued] for good. *)
Lemma early_worker_status_lost (job : OutgoingJob) (env : OutEnv) (ts : OutTimes) (now : instant) (messageID : string) :
  oePace env = PaceOk -> (sendJob env job).1 = Some messageID -> oeStatusEvents env = false ->
  let s := mkOutState None ∅ [] [] in
  let worked := Handle env ts (Some job) s in
  worked.1 = HOk /\ List.length (osSent worked.2) = 1%nat
  /\ statusOf (jobCreate now (jbJobID job) "queued" (jbPhoneNumber job) (osJobs worked.2)).2 (jbJobID job)
     = Some "queued".
Proof.
  intros Hp Hs He. cbn zeta. unfold Handle. cbn [IsDuplicate osDedup]. rewrite Hp.
  destruct (sendJob env job) as [so co]. cbn [fst] in Hs. subst so.
  unfold sendStatusWebhook. rewrite He. cbn [negb notifying fst snd osSent osJobs List.length].
  rewrite !updateJob_unknown. split_and!; [done..|].
  unfold jobCreate, statusOf. rewrite lookup_empty. cbn [snd]. by rewrite lookup_insert_eq.
Qed.

(** The status of a job is shown only to the account that made it, and as it is stored. *)
Lemma job_status_own db phone id job :
  GetJobStatus db phone id = inr job ->
  exists t, db = Some t /\ t !! id = Some job /\ mjPhone job = phone.
Proof.
  unfold GetJobStatus, jobGet. destruct (String.eqb id ""); [done|]. destruct db as [t|]; [|done].
  destruct (t !! id) as [j|] eqn:Ej; [|done]. destruct (String.eqb (mjPhone j) phone) eqn:Ep; [|done].
  intros [= <-]. apply String.eqb_eq in Ep. eauto.
Qed.

(** Every refusal of it has no cause, and with that no answer: [FromError] panics where a
    404 or a 403 was meant. *)
Lemma job_status_refusal_panics t phone id e :
  GetJobStatus (Some t) phone id = inl e -> FromError (Domain e) = Panic.
Proof.
  unfold GetJobStatus. destruct (String.eqb id ""); [by intros [= <-]|].
  destruct (jobGet id t); [|by intros [= <-]]. destruct (String.eqb _ _); [done|by intros [= <-]].
Qed.

(** An action is refused or makes one call, of the resolved chat. *)
Lemma act_calls_once `{JidParser} `{UnicodeLower} {F} (env : SendEnv F) phone chat msisdn a :
  let r := Act env phone chat msisdn a in
  (r.2 = [] /\ exists e, r.1 = inl e)
  \/ exists to call, resolved chat msisdn = inr to /\ prepareAction phone to a = inr call /\ r.2 = [call]
     /\ (r.1 = inr tt <-> exists m, se_manager env call = inr m).
Proof.
  cbn zeta. unfold Act. destruct (resolved chat msisdn) as [e|to]; [left; by eauto|].
  destruct (prepareAction phone to a) as [e|call] eqn:Ec; [left; by eauto|].
  destruct (pace (se_pace env)) as [e|]; [left; by eauto|]. right. exists to, call. split_and!; [done..|]. cbn.
  destruct (se_manager env call) as [e|m]; split; try done; [by intros [? ?]|by eauto].
Qed.
