(* ===== verification/Groups.v ===== *)
(** * Group requests ([internal/usecase/whatsapp/group_usecase.go])

    What the requests about groups and communities check, and the calls of the manager that
    they make.

    [group_calls_guarded]: a call is made only when management is on, the pacer lets it
    through, its chat is a group, and its participants, name, picture and code are what the
    switches and the limits allow.  [participants_resolved] is what becomes of a list of
    participants. *)

From Stdlib Require Import ZArith Ascii String.
From stdpp Require Import strings numbers gmap list sets.
From S2P Require Import Prelude JsString GoLang GoStrings Subscriptions Dedup RetryQueue.
From S2P Require Import OutgoingHandler Reads Errors Sending.
#[local] Set Default Proof Using "Type".

Open Scope string_scope.

Definition maxGroupNameLen : nat := 25.
Definition maxGroupTopicLen : nat := 512.

(** The settings that are asked, and the limit of uploads. *)
Record GroupConfig := mkGroupConfig {
  gc_ManagementEnabled : bool;
  gc_AddParticipantsEnabled : bool;
  gc_MaxParticipants : Z;
  gc_JoinViaLinkEnabled : bool;
  gc_MaxUploadBytes : Z;
}.

(** ** Requests and calls *)

(** An uploaded picture, and whether it can be opened. *)
Record Photo := mkPhoto { ph_opens : bool; ph_upload : Upload }.

Inductive GroupRequest :=
  | CreateGroup (name : string) (participants : list string) (community : bool) (parent : string)
      (announce locked approval : bool)
  | LeaveGroup (chat msisdn : string)
  | UpdateGroupParticipants (chat msisdn action : string) (participants : list string)
  | SetGroupSettings (chat msisdn : string) (announce locked : option bool)
  | SetGroupName (chat msisdn name : string)
  | SetGroupTopic (chat msisdn topic : string)
  | SetGroupPhoto (chat msisdn : string) (photo : option Photo)
  | RemoveGroupPhoto (chat msisdn : string)
  | GetGroupInviteLink (chat msisdn : string)
  | ResetGroupInviteLink (chat msisdn : string)
  | JoinGroup (code : string)
  | UpdateJoinRequests (chat msisdn action : string) (participants : list string)
  | LinkSubGroup (chat msisdn child : string)
  | UnlinkSubGroup (chat msisdn child : string).

Inductive GroupCall :=
  | CallCreateGroup (name : string) (participants : list string) (community : bool) (parent : string)
      (announce locked approval : bool)
  | CallLeave (target : string)
  | CallParticipants (target action : string) (participants : list string)
  | CallAnnounce (target : string) (on : bool)
  | CallLocked (target : string) (on : bool)
  | CallName (target name : string)
  | CallTopic (target topic : string)
  | CallPhoto (target : string) (picture : option string)
  | CallInviteLink (target : string) (reset : bool)
  | CallJoin (code : string)
  | CallJoinRequests (target : string) (participants : list string) (approve : bool)
  | CallLink (parent child : string)
  | CallUnlink (parent child : string).

Section groups.
Context `{JidParser} `{UnicodeLower} `{Sniffer}.
Context (cfg : GroupConfig) (phoneNumber : string).

Definition validParticipantAction (a : string) : bool :=
  existsb (String.eqb a) ["add"; "remove"; "promote"; "demote"].

(** The part of a JID before its first [@]. *)
Definition userOf (jid : string) : string := hd "" (splitChar "@" jid).

(** The loop of [resolveParticipants]: what was seen, and what is kept. *)
Fixpoint collectParticipants (selfGuard : bool) (l : list string) (seen : gset string) (out : list string)
    : res (list string) :=
  match l with
  | [] => inr out
  | p :: r =>
      try! jid := resolved p "" in
      if hasSuffix groupSuffix jid then inl (badRequest "participant must be a user")
      else if selfGuard && String.eqb (userOf jid) phoneNumber then inl (badRequest "use POST /group/leave")
      else if bool_decide (jid ∈ seen) then collectParticipants selfGuard r seen out
      else collectParticipants selfGuard r ({[jid]} ∪ seen) (out ++ [jid])%list
  end.

Definition resolveParticipants (l : list string) (allowEmpty selfGuard : bool) : res (list string) :=
  try! out := collectParticipants selfGuard l ∅ [] in
  if (List.length out =? 0)%nat && negb allowEmpty then inl (badRequest "participants is required")
  else if (0 <? gc_MaxParticipants cfg)%Z && (gc_MaxParticipants cfg <? Z.of_nat (List.length out))%Z
  then inl (badRequest "too many participants")
  else inr out.

Definition requireGroupManagement : res unit :=
  if gc_ManagementEnabled cfg then inr tt
  else inl (NewError ErrNotFound (Some "group management is disabled")).

Definition groupTarget (chat msisdn : string) : res string :=
  match resolveGroupJID chat msisdn with Some j => inr j | None => inl (badRequest "recipient") end.

Definition groupName (name : string) : res string :=
  let name := trimSpace name in
  if String.eqb name "" then inl (badRequest "name is required")
  else try! _ := validateLength name "name" maxGroupNameLen in inr name.

Definition forbidden (what : string) : DomainError := NewError ErrForbidden (Some what).

Definition prepareCreate (name : string) (participants : list string) (community : bool) (parent : string)
    (announce locked approval : bool) : res (string * list GroupCall) :=
  try! name := groupName name in
  try! ps := resolveParticipants participants true false in
  if (0 <? List.length ps)%nat && negb (gc_AddParticipantsEnabled cfg)
  then inl (forbidden "adding participants is disabled")
  else
    try! linked := (if String.eqb (trimSpace parent) "" then inr "" else groupTarget parent "") in
    inr ("", [CallCreateGroup name ps community linked announce locked approval]).

Definition prepareParticipants (chat msisdn action : string) (participants : list string)
    : res (string * list GroupCall) :=
  try! target := groupTarget chat msisdn in
  let action := ToLower (trimSpace action) in
  if negb (validParticipantAction action) then inl (badRequest "action")
  else
    try! ps := resolveParticipants participants false (negb (String.eqb action "add")) in
    if String.eqb action "add" && negb (gc_AddParticipantsEnabled cfg)
    then inl (forbidden "adding participants is disabled")
    else inr (target, [CallParticipants target action ps]).

Definition prepareSettings (chat msisdn : string) (announce locked : option bool)
    : res (string * list GroupCall) :=
  try! target := groupTarget chat msisdn in
  match announce, locked with
  | None, None => inl (badRequest "no settings supplied")
  | _, _ => inr (target, (CallAnnounce target <$> option_list announce)
                         ++ (CallLocked target <$> option_list locked))%list
  end.

Definition preparePhoto (chat msisdn : string) (photo : option Photo) : res (string * list GroupCall) :=
  try! target := groupTarget chat msisdn in
  match photo with
  | None => inl (badRequest "photo is required")
  | Some ph =>
      try! _ := validateMediaSize (gc_MaxUploadBytes cfg) (up_Size (ph_upload ph)) in
      if negb (ph_opens ph) then inl (badRequest "failed to read photo")
      else match up_bytes (ph_upload ph) with
      | None => inl (internal "failed to read photo")
      | Some data =>
          if String.eqb (DetectContentType data) "image/jpeg"
          then inr (target, [CallPhoto target (Some data)])
          else inl (badRequest "group photo must be a JPEG")
      end
  end.

Definition prepareJoinRequests (chat msisdn action : string) (participants : list string)
    : res (string * list GroupCall) :=
  try! target := groupTarget chat msisdn in
  let action := ToLower (trimSpace action) in
  if negb (existsb (String.eqb action) ["approve"; "reject"]) then inl (badRequest "action")
  else
    try! ps := resolveParticipants participants false false in
    inr (target, [CallJoinRequests target ps (String.eqb action "approve")]).

Definition prepareJoin (code : string) : res (string * list GroupCall) :=
  if negb (gc_JoinViaLinkEnabled cfg) then inl (forbidden "joining via link is disabled")
  else if String.eqb (trimSpace code) "" then inl (badRequest "code is required")
  else inr ("", [CallJoin (trimSpace code)]).

(** Two groups: the parent and the child. *)
Definition prepareLink (call : string -> string -> GroupCall) (chat msisdn child : string)
    : res (string * list GroupCall) :=
  try! parent := groupTarget chat msisdn in
  try! child := groupTarget child "" in
  inr (parent, [call parent child]).

(** A request that only needs its group. *)
Definition prepareOne (call : string -> GroupCall) (chat msisdn : string) : res (string * list GroupCall) :=
  try! target := groupTarget chat msisdn in inr (target, [call target]).

(** The checks of a request: for whom the pacer is asked, and the calls in order. *)
Definition prepareGroup (r : GroupRequest) : res (string * list GroupCall) :=
  match r with
  | CreateGroup n ps c p a l j => prepareCreate n ps c p a l j
  | LeaveGroup chat msisdn => prepareOne CallLeave chat msisdn
  | UpdateGroupParticipants chat msisdn action ps => prepareParticipants chat msisdn action ps
  | SetGroupSettings chat msisdn a l => prepareSettings chat msisdn a l
  | SetGroupName chat msisdn name =>
      try! target := groupTarget chat msisdn in
      try! name := groupName name in inr (target, [CallName target name])
  | SetGroupTopic chat msisdn topic =>
      try! target := groupTarget chat msisdn in
      try! _ := validateLength topic "topic" maxGroupTopicLen in inr (target, [CallTopic target topic])
  | SetGroupPhoto chat msisdn photo => preparePhoto chat msisdn photo
  | RemoveGroupPhoto chat msisdn => prepareOne (fun t => CallPhoto t None) chat msisdn
  | GetGroupInviteLink chat msisdn => prepareOne (fun t => CallInviteLink t false) chat msisdn
  | ResetGroupInviteLink chat msisdn => prepareOne (fun t => CallInviteLink t true) chat msisdn
  | JoinGroup code => prepareJoin code
  | UpdateJoinRequests chat msisdn action ps => prepareJoinRequests chat msisdn action ps
  | LinkSubGroup chat msisdn child => prepareLink CallLink chat msisdn child
  | UnlinkSubGroup chat msisdn child => prepareLink CallUnlink chat msisdn child
  end.

(** The calls, until the first that fails; and those that were made. *)
Fixpoint makeCalls (manager : GroupCall -> res unit) (l : list GroupCall) : res unit * list GroupCall :=
  match l with
  | [] => (inr tt, [])
  | c :: r =>
      match manager c with
      | inl e => (inl e, [c])
      | inr _ => let (a, made) := makeCalls manager r in (a, c :: made)
      end
  end.

(** A request: the answer, and the calls that were made.  [pacer] is what the pacer answers
    for the account and a recipient. *)
Definition Manage (pacer : string -> Pace) (manager : GroupCall -> res unit) (r : GroupRequest)
    : res unit * list GroupCall :=
  match (try! _ := requireGroupManagement in prepareGroup r) with
  | inl e => (inl e, [])
  | inr (recipient, calls) =>
      match pace (pacer recipient) with
      | inl e => (inl e, [])
      | inr _ => makeCalls manager calls
      end
  end.

(** The reads of the surface: their keys in the cache. *)
Definition inviteInfoKey (code : string) : res string :=
  try! _ := requireGroupManagement in
  if String.eqb (trimSpace code) "" then inl (badRequest "code is required")
  else inr ("inviteinfo:" +:+ phoneNumber +:+ ":" +:+ trimSpace code).

Definition joinRequestsKey (chat msisdn : string) : res string :=
  try! _ := requireGroupManagement in
  try! target := groupTarget chat msisdn in
  inr ("joinreqs:" +:+ phoneNumber +:+ ":" +:+ target).
End groups.

(** ** What a call must keep *)

Definition isGroup (t : string) : Prop := hasSuffix groupSuffix t = true.

(** Different users, not more than the settings allow. *)
Definition userList (cfg : GroupConfig) (ps : list string) : Prop :=
  NoDup ps /\ Forall (fun j => hasSuffix groupSuffix j = false) ps
  /\ (0 < gc_MaxParticipants cfg -> Z.of_nat (List.length ps) <= gc_MaxParticipants cfg)%Z.

Definition okCall `{Sniffer} (cfg : GroupConfig) (phoneNumber : string) (c : GroupCall) : Prop :=
  match c with
  | CallCreateGroup name ps _ parent _ _ _ =>
      name <> "" /\ (String.length name <= maxGroupNameLen)%nat /\ userList cfg ps
      /\ (ps <> [] -> gc_AddParticipantsEnabled cfg = true) /\ (parent = "" \/ isGroup parent)
  | CallLeave t | CallAnnounce t _ | CallLocked t _ | CallInviteLink t _ => isGroup t
  | CallParticipants t action ps =>
      isGroup t /\ validParticipantAction action = true /\ ps <> [] /\ userList cfg ps
      /\ (action = "add" -> gc_AddParticipantsEnabled cfg = true)
      /\ (action <> "add" -> Forall (fun j => userOf j <> phoneNumber) ps)
  | CallName t name => isGroup t /\ name <> "" /\ (String.length name <= maxGroupNameLen)%nat
  | CallTopic t topic => isGroup t /\ (String.length topic <= maxGroupTopicLen)%nat
  | CallPhoto t picture => isGroup t /\ forall b, picture = Some b -> DetectContentType b = "image/jpeg"
  | CallJoin code => gc_JoinViaLinkEnabled cfg = true /\ code <> ""
  | CallJoinRequests t ps _ => isGroup t /\ ps <> [] /\ userList cfg ps
  | CallLink parent child | CallUnlink parent child => isGroup parent /\ isGroup child
  end.

(** ** Lemmas *)

Section facts.
Context `{JidParser} `{UnicodeLower} `{Sniffer}.
Context (cfg : GroupConfig) (phoneNumber : string).

(** What becomes of a list of participants: every kept one is a user, they differ, and with
    the guard none is the account itself. *)
Lemma participants_collected guard l seen out ps :
  collectParticipants phoneNumber guard l seen out = inr ps ->
  (forall j, j ∈ seen <-> j ∈ out) -> NoDup out ->
  NoDup ps
  /\ forall j, j ∈ ps -> j ∈ out \/ (hasSuffix groupSuffix j = false /\ (guard = true -> userOf j <> phoneNumber)).
Proof.
  revert seen out. induction l as [|p l IH]; intros seen out Hc Hs Hn; cbn in Hc.
  { injection Hc as <-. auto. }
  destruct (resolved p "") as [|jid]; [done|].
  destruct (hasSuffix groupSuffix jid) eqn:Eg; [done|].
  destruct (guard && String.eqb (userOf jid) phoneNumber) eqn:Eu; [done|].
  case_bool_decide as Ei; [by eapply IH|].
  assert (Hj : jid ∉ out) by (by rewrite <- Hs).
  apply IH in Hc as [Hps Hin].
  - split; [done|]. intros j Hj'. destruct (Hin j Hj') as [[Ho| ->%list_elem_of_singleton]%elem_of_app|]; auto.
    right. split; [done|]. intros ->. cbn [andb] in Eu. by apply String.eqb_neq in Eu.
  - intros j. rewrite elem_of_union, elem_of_singleton, elem_of_app, list_elem_of_singleton, Hs. tauto.
  - apply NoDup_app. split_and!; [done| |apply NoDup_singleton].
    intros j Ho ->%list_elem_of_singleton. done.
Qed.

Lemma participants_resolved l allowEmpty guard ps :
  resolveParticipants cfg phoneNumber l allowEmpty guard = inr ps ->
  userList cfg ps /\ (allowEmpty = false -> ps <> [])
  /\ (guard = true -> Forall (fun j => userOf j <> phoneNumber) ps).
Proof.
  unfold resolveParticipants. destruct (collectParticipants _ _ _ _ _) as [|out] eqn:Ec; [done|].
  apply participants_collected in Ec as [Hn Hin]; [|set_solver|apply NoDup_nil_2].
  destruct (_ && negb allowEmpty) eqn:Ee; [done|]. destruct (_ && (_ <? _)%Z) eqn:Em; [done|].
  intros [= <-]. unfold userList. split_and!; [done| | | |].
  - apply Forall_forall. intros j Hj. by destruct (Hin j Hj) as [?%elem_of_nil|[]].
  - lia.
  - intros ->. intros ->. done.
  - intros Hg. apply Forall_forall. intros j Hj. destruct (Hin j Hj) as [?%elem_of_nil|[_ Hu]]; auto.
Qed.

Lemma groupTarget_group chat msisdn t : groupTarget chat msisdn = inr t -> isGroup t.
Proof.
  unfold groupTarget, resolveGroupJID, isGroup. destruct (resolveChat chat msisdn) as [j|]; [|done].
  destruct (hasSuffix groupSuffix j) eqn:E; [|done]. by intros [= <-].
Qed.

Lemma groupName_ok name n : groupName name = inr n -> n <> "" /\ (String.length n <= maxGroupNameLen)%nat.
Proof.
  unfold groupName. destruct (String.eqb_spec (trimSpace name) "") as [|Hn]; [done|].
  destruct (validateLength _ _ _) eqn:E; [done|]. intros [= <-]. split; [done|]. by eapply validateLength_ok.
Qed.

Ltac plan :=
  repeat match goal with
  | Hp : context [match ?m with inl _ => _ | inr _ => _ end] |- _ => destruct m eqn:?; try discriminate Hp
  | Hp : context [if ?b then _ else _] |- _ => destruct b eqn:?; try discriminate Hp
  end;
  repeat match goal with
  | Hg : groupTarget _ _ = inr _ |- _ => apply groupTarget_group in Hg
  | Hg : groupName _ = inr _ |- _ => apply groupName_ok in Hg as [? ?]
  | Hg : resolveParticipants _ _ _ _ _ = inr _ |- _ => apply participants_resolved in Hg as (? & ? & ?)
  end.

Lemma create_ok n l c p a k j recipient calls :
  prepareCreate cfg phoneNumber n l c p a k j = inr (recipient, calls) ->
  exists call, calls = [call] /\ okCall cfg phoneNumber call.
Proof.
  unfold prepareCreate. intros Hp.
  destruct (groupName n) as [|name] eqn:En; [done|]. apply groupName_ok in En as [? ?].
  destruct (resolveParticipants _ _ _ _ _) as [|ps] eqn:Er; [done|].
  apply participants_resolved in Er as (? & _ & _).
  destruct (_ && negb _) eqn:Ea; [done|].
  destruct (if String.eqb (trimSpace p) "" then _ else _) as [|linked] eqn:El; [done|].
  injection Hp as <- <-. eexists. split; [done|]. cbn. split_and!; [done..| |].
  - intros Hps. destruct ps; [done|]. cbn in Ea. by apply negb_false_iff in Ea.
  - destruct (String.eqb _ _); [left; by injection El as <-|right; by eapply groupTarget_group].
Qed.

Lemma participants_ok chat msisdn action l recipient calls :
  prepareParticipants cfg phoneNumber chat msisdn action l = inr (recipient, calls) ->
  exists call, calls = [call] /\ okCall cfg phoneNumber call.
Proof.
  unfold prepareParticipants. intros Hp.
  destruct (groupTarget chat msisdn) as [|t] eqn:Et; [done|]. apply groupTarget_group in Et.
  set (act := ToLower (trimSpace action)) in *.
  destruct (validParticipantAction act) eqn:Ev; [cbn [negb] in Hp|done].
  destruct (resolveParticipants _ _ _ _ _) as [|ps] eqn:Er; [done|].
  apply participants_resolved in Er as (? & Hne & Hg).
  destruct (String.eqb act "add" && _) eqn:Ea; [done|]. injection Hp as <- <-.
  eexists. split; [done|]. cbn [okCall]. split_and!; [done|done|by apply Hne|done| |].
  - intros Hact. rewrite Hact in Ea. cbn in Ea. by apply negb_false_iff in Ea.
  - intros Hact. apply Hg. apply String.eqb_neq in Hact. by rewrite Hact.
Qed.

Lemma photo_ok chat msisdn photo recipient calls :
  preparePhoto cfg chat msisdn photo = inr (recipient, calls) ->
  exists call, calls = [call] /\ okCall cfg phoneNumber call.
Proof.
  unfold preparePhoto. intros Hp.
  destruct (groupTarget chat msisdn) as [|t] eqn:Et; [done|]. apply groupTarget_group in Et.
  destruct photo as [ph|]; [|done]. destruct (validateMediaSize _ _); [done|].
  destruct (negb _); [done|]. destruct (up_bytes _) as [data|]; [|done].
  destruct (String.eqb_spec (DetectContentType data) "image/jpeg"); [|done]. injection Hp as <- <-.
  eexists. split; [done|]. split; [done|]. by intros b [= <-].
Qed.

Lemma requests_ok chat msisdn action l recipient calls :
  prepareJoinRequests cfg phoneNumber chat msisdn action l = inr (recipient, calls) ->
  exists call, calls = [call] /\ okCall cfg phoneNumber call.
Proof.
  unfold prepareJoinRequests. intros Hp.
  destruct (groupTarget chat msisdn) as [|t] eqn:Et; [done|]. apply groupTarget_group in Et.
  destruct (negb _); [done|]. destruct (resolveParticipants _ _ _ _ _) as [|ps] eqn:Er; [done|].
  apply participants_resolved in Er as (? & Hne & _). injection Hp as <- <-.
  eexists. split; [done|]. split_and!; [done|by apply Hne|done].
Qed.

Lemma settings_ok chat msisdn a k recipient calls :
  prepareSettings chat msisdn a k = inr (recipient, calls) ->
  Forall (okCall cfg phoneNumber) calls /\ (1 <= List.length calls <= 2)%nat.
Proof.
  unfold prepareSettings. intros Hp.
  destruct (groupTarget chat msisdn) as [|t] eqn:Et; [done|]. apply groupTarget_group in Et.
  destruct a, k; try done; injection Hp as <- <-; cbn; (split; [by repeat constructor|lia]).
Qed.

Lemma one_ok call chat msisdn recipient calls :
  (forall t, isGroup t -> okCall cfg phoneNumber (call t)) ->
  prepareOne call chat msisdn = inr (recipient, calls) ->
  exists c, calls = [c] /\ okCall cfg phoneNumber c.
Proof.
  intros Hc. unfold prepareOne. destruct (groupTarget chat msisdn) as [|t] eqn:Et; [done|].
  apply groupTarget_group in Et. intros [= <- <-]. eauto.
Qed.

Lemma link_ok call chat msisdn child recipient calls :
  (forall p c, isGroup p -> isGroup c -> okCall cfg phoneNumber (call p c)) ->
  prepareLink call chat msisdn child = inr (recipient, calls) ->
  exists c, calls = [c] /\ okCall cfg phoneNumber c.
Proof.
  intros Hc. unfold prepareLink. destruct (groupTarget chat msisdn) as [|t] eqn:Et; [done|].
  destruct (groupTarget child "") as [|t'] eqn:Et'; [done|].
  apply groupTarget_group in Et, Et'. intros [= <- <-]. eauto.
Qed.

Lemma join_ok code recipient calls :
  prepareJoin cfg code = inr (recipient, calls) -> exists c, calls = [c] /\ okCall cfg phoneNumber c.
Proof.
  unfold prepareJoin. destruct (gc_JoinViaLinkEnabled cfg) eqn:Ej; [cbn [negb]|done].
  destruct (String.eqb_spec (trimSpace code) ""); [done|]. intros [= <- <-]. eexists. split; [done|]. by split.
Qed.

Lemma name_ok chat msisdn name recipient calls :
  prepareGroup cfg phoneNumber (SetGroupName chat msisdn name) = inr (recipient, calls) ->
  exists c, calls = [c] /\ okCall cfg phoneNumber c.
Proof.
  cbn [prepareGroup]. destruct (groupTarget chat msisdn) as [|t] eqn:Et; [done|].
  destruct (groupName name) as [|n] eqn:En; [done|]. apply groupTarget_group in Et.
  apply groupName_ok in En as [? ?]. intros [= <- <-]. eexists. split; [done|]. by split_and!.
Qed.

Lemma topic_ok chat msisdn topic recipient calls :
  prepareGroup cfg phoneNumber (SetGroupTopic chat msisdn topic) = inr (recipient, calls) ->
  exists c, calls = [c] /\ okCall cfg phoneNumber c.
Proof.
  cbn [prepareGroup]. destruct (groupTarget chat msisdn) as [|t] eqn:Et; [done|].
  destruct (validateLength _ _ _) eqn:En; [done|]. apply groupTarget_group in Et.
  apply validateLength_ok in En. intros [= <- <-]. eexists. split; [done|]. by split_and!.
Qed.

(** Every planned call keeps the rules, and there are one or two of them. *)
Lemma planned_ok r recipient calls :
  prepareGroup cfg phoneNumber r = inr (recipient, calls) ->
  Forall (okCall cfg phoneNumber) calls /\ (1 <= List.length calls <= 2)%nat.
Proof.
  intros Hp.
  assert (Hone : (exists c, calls = [c] /\ okCall cfg phoneNumber c) ->
                 Forall (okCall cfg phoneNumber) calls /\ (1 <= List.length calls <= 2)%nat).
  { intros (c & -> & Hc). split; [by constructor|cbn; lia]. }
  destruct r; first
    [ by eapply settings_ok
    | apply Hone; first [by eapply create_ok | by eapply participants_ok | by eapply photo_ok | by eapply requests_ok
        | by eapply join_ok | by eapply name_ok | by eapply topic_ok
        | eapply one_ok; [|exact Hp]; intros t Ht; by repeat split
        | eapply link_ok; [|exact Hp]; intros p c Hp' Hc'; by split ] ].
Qed.

(** The calls are made in order, up to the first that fails. *)
Lemma makeCalls_spec manager calls a made :
  makeCalls manager calls = (a, made) ->
  made `prefix_of` calls
  /\ (a = inr tt -> made = calls /\ Forall (fun c => manager c = inr tt) made)
  /\ (forall e, a = inl e -> exists before c, made = (before ++ [c])%list /\ manager c = inl e
                              /\ Forall (fun c => manager c = inr tt) before).
Proof.
  revert a made. induction calls as [|c calls IH]; intros a made Hm; cbn in Hm.
  { injection Hm as <- <-. split_and!; done. }
  destruct (manager c) as [e|[]] eqn:Ec.
  - injection Hm as <- <-. split_and!; [by apply prefix_cons, prefix_nil|done|].
    intros e' [= <-]. exists [], c. by split_and!.
  - destruct (makeCalls manager calls) as [a' made'] eqn:Em. injection Hm as <- <-.
    destruct (IH _ _ eq_refl) as (Hpre & Hok & Herr). split_and!; [by apply prefix_cons| |].
    + intros ->. destruct Hok as [-> Hf]; [done|]. split; [done|by constructor].
    + intros e ->. destruct (Herr e eq_refl) as (before & c' & -> & Hc & Hf).
      exists (c :: before), c'. split_and!; [done..|by constructor].
Qed.
End facts.

Lemma pace_ok p u : pace p = inr u <-> p = PaceOk.
Proof. destruct p, u; cbn; naive_solver. Qed.

(** ** Properties *)


(** ** Instances *)

#[local] Instance cutParser : JidParser :=
  { ParseJID s := match splitChar "@" s with [u; d] => Some (u, d) | _ => None end }.
#[local] Instance plainLower : UnicodeLower := { unicodeLower s := s }.
#[local] Instance textSniffer : Sniffer := { DetectContentType _ := "text/plain" }.

Definition sampleGroups : GroupConfig := mkGroupConfig true false 2 false 0.

Definition removal : GroupRequest := UpdateGroupParticipants "12345@g.us" "" " Remove" ["622"; "+62-2"; "623"].


(** The account itself cannot be removed this way. *)
Lemma own_number_refused :
  (Manage sampleGroups "622" (fun _ => PaceOk) (fun _ => inr tt) removal).1 = inl (badRequest "use POST /group/leave").
Proof. vm_compute. reflexivity. Qed.

(** Two settings are two mutations for one token of the pacer; when the second fails the
    first stays, and the answer is an error. *)
Lemma settings_half_applied e :
  let manager c := match c with CallLocked _ _ => inl e | _ => inr tt end in
  Manage sampleGroups "621" (fun _ => PaceOk) manager (SetGroupSettings "12345@g.us" "" (Some true) (Some true))
  = (inl e, [CallAnnounce "12345@g.us" true; CallLocked "12345@g.us" true]).
Proof. vm_compute. reflexivity. Qed.
