(* ===== verification/DocsSession.v ===== *)
(** * The session of the documentation ([internal/middleware/docs_session_auth.go])

    The handler in front of the documentation: the cookie, the login form, the redirects.
    [served_after_login]: nothing is served without a login of the last day, whatever
    requests and sweeps there are; [redirect_stays]: where a redirect leads. *)

From Stdlib Require Import ZArith Ascii String.
From stdpp Require Import strings numbers gmap list.
From S2P Require Import Prelude GoLang.
#[local] Set Default Proof Using "Type".

Open Scope string_scope.

Definition day : duration := (24 * 3600 * 10 ^ 9)%Z.

(** [url.QueryEscape], of which nothing is relied on. *)
Class Escaper := { QueryEscape : string -> string }.

Record DocumentationSession := mkSession {
  ds_sessions : gmap string instant;
  ds_username : string;
  ds_password : string;
}.

Definition NewDocsSessionAuth (username password : string) : DocumentationSession :=
  mkSession ∅ username password.

(** What the handler reads of a request; a field that is missing is empty. *)
Record Request := mkRequest {
  rq_method : string;
  rq_path : string;
  rq_cookie : string;
  rq_redirect : string;
  rq_username : string;
  rq_password : string;
}.

(** What the handler does: serve what is asked for, the login page, or a redirect, which can
    set the cookie. *)
Inductive outcome := Next | LoginPage | Redirect (url : string) (cookie : option string).

(** [strings.Contains]. *)
Fixpoint contains (p s : string) : bool :=
  hasPrefix p s || match s with EmptyString => false | String _ r => contains p r end.

Definition getRedirectPath (basePath : string) (r : Request) : string :=
  match rq_redirect r with
  | "" => ""
  | redirect =>
      if negb (hasPrefix basePath redirect) then ""
      else if contains "://" redirect then ""
      else redirect
  end.

Definition createSession (now : instant) (token : string) (s : DocumentationSession) : DocumentationSession :=
  mkSession (<[token := (now + day)%Z]> (ds_sessions s)) (ds_username s) (ds_password s).

Definition isValidSession (now : instant) (token : string) (s : DocumentationSession) : bool :=
  match ds_sessions s !! token with Some expiry => (now <? expiry)%Z | None => false end.

(** One tick of [cleanupExpiredSessions]. *)
Definition sweep (now : instant) (s : DocumentationSession) : DocumentationSession :=
  mkSession (filter (fun te => (te.2 <? now)%Z = false) (ds_sessions s)) (ds_username s) (ds_password s).

Section handler.
Context `{Escaper} (basePath : string).

Definition handleLogin (now : instant) (token : string) (r : Request) (s : DocumentationSession)
    : DocumentationSession * outcome :=
  if String.eqb (rq_username r) (ds_username s) && String.eqb (rq_password r) (ds_password s) then
    (createSession now token s,
     Redirect (match getRedirectPath basePath r with "" => basePath | p => p end) (Some token))
  else
    (s, Redirect
          (basePath +:+ "/login?error=1"
           +:+ match getRedirectPath basePath r with "" => "" | p => "&redirect=" +:+ QueryEscape p end)
          None).

(** [Handler], with the clock and a fresh token. *)
Definition Handler (now : instant) (token : string) (r : Request) (s : DocumentationSession)
    : DocumentationSession * outcome :=
  if negb (String.eqb (rq_cookie r) "") && isValidSession now (rq_cookie r) s then (s, Next)
  else
    let loginPath := basePath +:+ "/login" in
    if String.eqb (rq_method r) "POST" && String.eqb (rq_path r) loginPath then
      handleLogin now token r s
    else if String.eqb (rq_path r) loginPath then (s, LoginPage)
    else (s, Redirect (loginPath +:+ "?redirect=" +:+ QueryEscape (rq_path r)) None).

(** What happens to the server, in order: requests, each with the token that it would
    issue, and ticks of the sweep. *)
Inductive tick := Asked (now : instant) (token : string) (r : Request) | Swept (now : instant).

Fixpoint history (ticks : list tick) (s : DocumentationSession) : list outcome * DocumentationSession :=
  match ticks with
  | [] => ([], s)
  | Asked now token r :: rest =>
      let (s1, o) := Handler now token r s in
      let (os, s2) := history rest s1 in (o :: os, s2)
  | Swept now :: rest => history rest (sweep now s)
  end.

Definition wellNamed (s : DocumentationSession) (r : Request) : Prop :=
  rq_username r = ds_username s /\ rq_password r = ds_password s.
End handler.

#[local] Open Scope list_scope.

(** ** Lemmas *)

Section lemmas.
Context `{Escaper} (basePath : string).

(** A login that succeeds. *)
Definition loggedIn (username password : string) (r : Request) : Prop :=
  rq_method r = "POST" /\ rq_path r = basePath +:+ "/login"
  /\ rq_username r = username /\ rq_password r = password.

Lemma Handler_names now token r s :
  ds_username (Handler basePath now token r s).1 = ds_username s
  /\ ds_password (Handler basePath now token r s).1 = ds_password s.
Proof. unfold Handler, handleLogin. repeat case_match; done. Qed.

Lemma Handler_files now token r s :
  ds_sessions (Handler basePath now token r s).1 = ds_sessions s
  \/ ds_sessions (Handler basePath now token r s).1 = <[token := (now + day)%Z]> (ds_sessions s).
Proof. unfold Handler, handleLogin. repeat case_match; auto. Qed.

(** A request changes the sessions only by a successful login, which files its token. *)
Lemma Handler_sessions now token r s key expiry :
  ds_sessions (Handler basePath now token r s).1 !! key = Some expiry ->
  ds_sessions s !! key = Some expiry
  \/ (key = token /\ expiry = (now + day)%Z /\ loggedIn (ds_username s) (ds_password s) r).
Proof.
  unfold Handler, handleLogin.
  destruct (negb _ && _); [by left|].
  destruct (String.eqb_spec (rq_method r) "POST") as [Hm|];
    destruct (String.eqb_spec (rq_path r) (basePath +:+ "/login")) as [Hp|]; cbn [andb]; try by left.
  destruct (String.eqb_spec (rq_username r) (ds_username s)) as [Hu|];
    destruct (String.eqb_spec (rq_password r) (ds_password s)) as [Hw|]; cbn [andb]; try by left.
  cbn. destruct (decide (key = token)) as [->|Hk].
  - rewrite lookup_insert_eq. intros [= <-]. by right.
  - rewrite lookup_insert_ne by done. by left.
Qed.

Lemma history_sessions ticks s key expiry :
  ds_sessions (history basePath ticks s).2 !! key = Some expiry ->
  ds_sessions s !! key = Some expiry
  \/ exists now r, Asked now key r ∈ ticks /\ expiry = (now + day)%Z
                   /\ loggedIn (ds_username s) (ds_password s) r.
Proof.
  revert s. induction ticks as [|[now token r|now] ticks IH]; intros s; [by left| |]; cbn [history].
  - destruct (Handler basePath now token r s) as [s1 o] eqn:E.
    pose proof (Handler_names now token r s) as [Hu Hp]. rewrite E in Hu, Hp. cbn in Hu, Hp.
    pose proof (fun e => Handler_sessions now token r s key e) as Hs. rewrite E in Hs. cbn in Hs.
    specialize (IH s1). destruct (history basePath ticks s1) as [os s2]. cbn in *.
    intros Hk. destruct (IH Hk) as [H1|(now0 & r0 & Hin & He & Hl)].
    + destruct (Hs _ H1) as [H2|(-> & -> & Hl)]; [by left|]. right. exists now, r.
      split; [by left|done].
    + right. exists now0, r0. rewrite Hu, Hp in Hl. split; [by right|done].
  - intros Hk. destruct (IH _ Hk) as [H1|(now0 & r0 & Hin & He & Hl)].
    + left. cbn in H1. by apply map_lookup_filter_Some in H1 as [? _].
    + right. exists now0, r0. split; [by right|done].
Qed.

(** The sweep takes no session that is still valid, now or later. *)
Lemma sweep_valid now later token s :
  (now <= later)%Z -> isValidSession later token (sweep now s) = isValidSession later token s.
Proof.
  intros Hle. unfold isValidSession, sweep. cbn.
  destruct (ds_sessions s !! token) as [e|] eqn:E.
  - destruct (Z.ltb_spec e now) as [Hlt|Hge].
    + rewrite map_lookup_filter_None_2; [symmetry; apply Z.ltb_ge; lia|].
      right. intros x Hx. rewrite E in Hx. injection Hx as <-. cbn. intros Hf. lia.
    + by rewrite (map_lookup_filter_Some_2 _ _ _ _ E) by (cbn; lia).
  - rewrite map_lookup_filter_None_2; [done|by left].
Qed.

(** ** Theorems *)

(** C33: whatever requests and sweeps came before, the documentation is served only to a
    request whose cookie was issued by a login with the right name and password less than
    a day ago. *)
Theorem served_after_login username password before now token r :
  (Handler basePath now token r
     (history basePath before (NewDocsSessionAuth username password)).2).2 = Next ->
  exists at_ login, Asked at_ (rq_cookie r) login ∈ before
    /\ loggedIn username password login /\ (now < at_ + day)%Z.
Proof.
  unfold Handler at 1. set (s := (history basePath before (NewDocsSessionAuth username password)).2).
  destruct (negb _ && _) eqn:E.
  2: { unfold handleLogin. by repeat case_match. }
  intros _. bool_simpl. match goal with H : isValidSession _ _ _ = true |- _ => rename H into Hv end.
  unfold isValidSession in Hv. destruct (ds_sessions s !! rq_cookie r) as [expiry|] eqn:Es; [|done].
  apply history_sessions in Es as [Hno|(at_ & login & Hin & -> & Hl)]; [cbn in Hno; by rewrite lookup_empty in Hno|].
  exists at_, login. split_and!; [done|apply Hl..|lia].
Qed.

(** A login holds for a day: neither later requests nor sweeps end it. *)
Lemma login_lasts ticks s token at_ now :
  ds_sessions s !! token = Some (at_ + day)%Z -> (now < at_ + day)%Z ->
  Forall (fun t => match t with
                   | Asked n tok _ => (at_ <= n)%Z
                   | Swept n => (n <= now)%Z end) ticks ->
  isValidSession now token (history basePath ticks s).2 = true.
Proof.
  intros Hs Hnow Ht.
  assert (Hgo : exists e, ds_sessions s !! token = Some e /\ (at_ + day <= e)%Z) by (by exists (at_ + day)%Z).
  clear Hs. revert s Hgo. induction Ht as [|x ticks Hx _ IH]; intros s (e & He & Hle).
  { unfold isValidSession. cbn. rewrite He. lia. }
  destruct x as [n tok r|n]; cbn [history].
  - destruct (Handler basePath n tok r s) as [s1 o] eqn:E. specialize (IH s1).
    destruct (history basePath ticks s1) as [os s2]. cbn in *. apply IH.
    destruct (Handler_files n tok r s) as [Hs|Hs]; rewrite E in Hs; cbn in Hs; rewrite Hs;
      [by exists e|].
    destruct (decide (token = tok)) as [->|Hne].
    + exists (n + day)%Z. rewrite lookup_insert_eq. split; [done|lia].
    + exists e. by rewrite lookup_insert_ne by done.
  - apply IH. exists e. split; [|done]. cbn. apply map_lookup_filter_Some_2; [done|]. cbn. lia.
Qed.

(** A redirect after the login stays under the documentation's path. *)
Lemma redirect_stays r :
  getRedirectPath basePath r <> "" ->
  hasPrefix basePath (getRedirectPath basePath r) = true
  /\ contains "://" (getRedirectPath basePath r) = false.
Proof.
  unfold getRedirectPath. destruct (rq_redirect r) as [|a u]; [done|].
  destruct (hasPrefix basePath _) eqn:E; [|done]. cbn [negb].
  by destruct (contains "://" _) eqn:Ec.
Qed.
End lemmas.

(** ** Instances *)

#[local] Instance noEscape : Escaper := { QueryEscape s := s }.

Definition loginRequest : Request := mkRequest "POST" "/docs/login" "" "/docs/#docs:a" "ann" "pw".
Definition pageRequest : Request := mkRequest "GET" "/docs" "t1" "" "" "".

Lemma served_after_login_witness :
  (Handler "/docs" 100 "t2" pageRequest
     (history "/docs" [Asked 5 "t1" loginRequest; Swept 50] (NewDocsSessionAuth "ann" "pw")).2).2 = Next
  /\ exists at_ login, Asked at_ "t1" login ∈ [Asked 5 "t1" loginRequest; Swept 50]
    /\ loggedIn "/docs" "ann" "pw" login /\ (100 < at_ + day)%Z.
Proof.
  split; [vm_compute; reflexivity|].
  apply (served_after_login "/docs" "ann" "pw" [Asked 5 "t1" loginRequest; Swept 50] 100 "t2" pageRequest).
  vm_compute. reflexivity.
Defined.

(** With the documentation at the root (an empty base path) every address is a prefix, and
    a redirect can leave the site. *)
Lemma root_redirect_leaves :
  (handleLogin "" 0 "t" (mkRequest "POST" "/login" "" "//elsewhere.example" "ann" "pw")
     (NewDocsSessionAuth "ann" "pw")).2 = Redirect "//elsewhere.example" (Some "t").
Proof. vm_compute. reflexivity. Qed.
