(* ===== verification/Sessions.v ===== *)
(** * Sessions: the client store, the lifecycle events and the inventory

    [internal/whatsapp/client_store.go], [handler.go] (the event switch and the fan-out of
    its webhooks), [session_inventory.go], the session-status table of [repository.go] and
    the registration of a client ([client.go], [manager.go]).  What whatsmeow does to its
    clients (pairing, connecting, losing the device id on logout) is a step of its own. *)

From Stdlib Require Import ZArith Ascii String.
From stdpp Require Import relations strings sorting numbers gmap list.
From S2P Require Import Prelude GoLang Subscriptions IncomingBuffer Jid MessagePayload WebhookSender.
#[local] Set Default Proof Using "Type".
#[local] Open Scope Z_scope.

(** ** State *)

(** A whatsmeow client as the code looks at it: its store (which may be nil) and the
    device id in it, and its connection. *)
Record Cli := mkCli { cliStore : option (option string); cliConnected : bool; cliLoggedIn : bool }.

Definition storeID (c : Cli) : option string := mjoin (cliStore c).

Record SessionStatus := mkStatus {
  ssState : string;
  ssReason : string;
  ssBanExpiresAt : option instant;
  ssUpdatedAt : instant;
}.

(** How a webhook left: through the queue, in a goroutine of the sender, or not at all
    because its semaphore was full. *)
Inductive Route := Published | SentAsync | Dropped.

Record HookOut := mkHookOut { hoRoute : Route; hoUrl : string; hoEvent : string; hoPayload : Payload }.

(** What happened to a received message: queued, handed to a delivery goroutine, or
    dropped because that semaphore was full. *)
Inductive MessageOut := MsgQueued (jid id : string) | MsgDirect (jid : string) (e : Event) | MsgDropped (jid : string).

Record Gateway := mkGateway {
  gwClients : gmap string Cli;
  gwJids : gmap string string;
  gwStatus : gmap string SessionStatus;
  gwSubs : list SubRow;
  gwBuffers : gmap string (incomingBuffer IncomingMessage);
  gwSenderSem : Z;
  gwWebhookSem : Z;
  gwHooks : list HookOut;
  gwMessages : list MessageOut;
}.

Definition withClients c s := mkGateway c (gwJids s) (gwStatus s) (gwSubs s) (gwBuffers s) (gwSenderSem s) (gwWebhookSem s) (gwHooks s) (gwMessages s).
Definition withJids j s := mkGateway (gwClients s) j (gwStatus s) (gwSubs s) (gwBuffers s) (gwSenderSem s) (gwWebhookSem s) (gwHooks s) (gwMessages s).
Definition withStatus t s := mkGateway (gwClients s) (gwJids s) t (gwSubs s) (gwBuffers s) (gwSenderSem s) (gwWebhookSem s) (gwHooks s) (gwMessages s).
Definition withBuffers b s := mkGateway (gwClients s) (gwJids s) (gwStatus s) (gwSubs s) b (gwSenderSem s) (gwWebhookSem s) (gwHooks s) (gwMessages s).
Definition withHook sem h s := mkGateway (gwClients s) (gwJids s) (gwStatus s) (gwSubs s) (gwBuffers s) sem (gwWebhookSem s) (gwHooks s ++ [h]) (gwMessages s).
Definition withMessage sem m s := mkGateway (gwClients s) (gwJids s) (gwStatus s) (gwSubs s) (gwBuffers s) (gwSenderSem s) sem (gwHooks s) (gwMessages s ++ [m]).

(** ** The client store *)

Definition SetJID (phoneNumber jid : string) (s : Gateway) : Gateway :=
  if bool_decide (jid = ""%string) then s else withJids (<[phoneNumber := jid]> (gwJids s)) s.

Definition JID (phoneNumber : string) (s : Gateway) : string := default ""%string (gwJids s !! phoneNumber).

Definition deleteClient (phoneNumber : string) (s : Gateway) : Gateway :=
  withClients (delete phoneNumber (gwClients s)) s.

Definition setClient (phoneNumber : string) (c : Cli) (s : Gateway) : Gateway :=
  withClients (<[phoneNumber := c]> (gwClients s)) s.

(** [sessionJID]: the live client's id, which it caches, or else the cached one. *)
Definition sessionJID (phoneNumber : string) (s : Gateway) : string * Gateway :=
  match gwClients s !! phoneNumber ≫= storeID with
  | Some id => (id, SetJID phoneNumber id s)
  | None => (JID phoneNumber s, s)
  end.

(** [GetJIDFromPhoneNumber]: dereferencing an absent id panics. *)
Definition GetJIDFromPhoneNumber (phoneNumber : string) (s : Gateway) : go (option string) :=
  match gwClients s !! phoneNumber with
  | None => Ret None
  | Some c => match storeID c with Some id => Ret (Some id) | None => Panic end
  end.

(** ** Events *)

(** The events of the switch, with what the code reads of them. *)
Inductive WaEvent :=
  | EvMessage (isFromMe : bool) (e : Event)
  | EvLoggedOut (onConnect : bool) (reason : Z) (reasonText : string)
  | EvTemporaryBan (text : string) (code : Z) (codeText : string) (expire : duration)
  | EvConnectFailure (isLoggedOut : bool) (reason : Z) (reasonText message : string)
  | EvStreamReplaced
  | EvReachoutTimelock (isActive : bool) (enforcementType : string) (ends : option instant)
  | EvConnected
  | EvDisconnected
  | EvOther.

(** What an event finds: the clock at the first and the second reading, whether the
    status is written and the subscriptions are read, the queue ([None] for nil) and
    what it accepts. *)
Record HandlerEnv := mkEnv {
  heNow1 : instant;
  heNow2 : instant;
  heStatusDb : bool;
  heSubsDb : bool;
  heQueue : option bool;
  heMarshal : bool;
  hePublishEvent : bool;
  hePublishHook : string -> bool;
}.

Definition queueHealthy (env : HandlerEnv) : bool := match heQueue env with Some h => h | None => false end.

Definition seconds (t : instant) : Z := t / second.

Definition baseSessionPayload (env : HandlerEnv) (event phoneNumber jid : string) : Payload :=
  put "timestamp" (SInt (seconds (heNow2 env)))
    (put "jid" (SStr jid) (put "phone_number" (SStr phoneNumber) (put "event" (SStr event) ∅))).

Definition loggedOutPayload (env : HandlerEnv) (phoneNumber jid : string) (onConnect : bool) (reason : Z)
    (reasonText : string) : Payload :=
  put "reason_text" (SStr reasonText)
    (put "reason" (SInt reason)
    (put "on_connect" (SBool onConnect) (baseSessionPayload env EventSessionLoggedOut phoneNumber jid))).

Definition bannedPayload (env : HandlerEnv) (phoneNumber jid : string) (code : Z) (codeText : string)
    (expire : duration) : Payload :=
  put "expires_in" (SInt (Z.quot expire second))
    (put "reason_text" (SStr codeText)
    (put "code" (SInt code) (baseSessionPayload env EventSessionBanned phoneNumber jid))).

Definition connectFailurePayload (env : HandlerEnv) (phoneNumber jid : string) (reason : Z)
    (reasonText message : string) : Payload :=
  put "message" (SStr message)
    (put "reason_text" (SStr reasonText)
    (put "reason" (SInt reason) (baseSessionPayload env EventSessionConnectFailure phoneNumber jid))).

Definition reachoutTimelockReason (enforcementType : string) : string :=
  if bool_decide (enforcementType = ""%string) then "reachout_timelock"
  else "reachout_timelock:" +:+ enforcementType.

Definition reachoutTimelockPayload (env : HandlerEnv) (phoneNumber jid : string) (isActive : bool)
    (enforcementType : string) (ends : option instant) : Payload :=
  putOpt "time_enforcement_ends" (fun t => SInt (seconds t)) ends
    (putText "enforcement_type" enforcementType
    (put "is_active" (SBool isActive)
       (baseSessionPayload env EventSessionReachoutTimelocked phoneNumber jid))).

Definition loggedOutReason (onConnect : bool) (reasonText : string) : string :=
  if onConnect then reasonText else "stream_error".

(** [recordSessionStatus]: an upsert; a failure is only logged. *)
Definition recordSessionStatus (env : HandlerEnv) (phoneNumber state reason : string)
    (banExpiresAt : option instant) (s : Gateway) : Gateway :=
  if heStatusDb env
  then withStatus (<[phoneNumber := mkStatus state reason banExpiresAt (heNow2 env)]> (gwStatus s)) s
  else s.

Section handler.
(** The order of the database on urls, and the size of the buffers. *)
Context (urlLe : string -> string -> bool) (bufferSize : Z).

(** One subscription of the fan-out: the queue, else [SendAsync]. *)
Definition dispatchOne (env : HandlerEnv) (event : string) (payload : Payload) (s : Gateway)
    (sub : WebhookSubscription) : Gateway :=
  if queueHealthy env && hePublishHook env (subUrl sub)
  then withHook (gwSenderSem s) (mkHookOut Published (subUrl sub) event payload) s
  else
    let (ok, sem) := acquire (gwSenderSem s) in
    withHook sem (mkHookOut (if ok then SentAsync else Dropped) (subUrl sub) event payload) s.

Definition dispatch (env : HandlerEnv) (jid event : string) (payload : Payload) (s : Gateway) : Gateway :=
  if bool_decide (jid = ""%string) then s
  else if negb (heSubsDb env) then s
  else fold_left (dispatchOne env event payload) (recipients event (getSubs urlLe jid (gwSubs s))) s.

Definition asyncDeliverWebhook (jid : string) (e : Event) (s : Gateway) : Gateway :=
  let (ok, sem) := acquire (gwWebhookSem s) in
  withMessage sem (if ok then MsgDirect jid e else MsgDropped jid) s.

Definition getOrCreateBuffer (phoneNumber : string) (s : Gateway) : go (incomingBuffer IncomingMessage) :=
  match gwBuffers s !! phoneNumber with
  | Some b => Ret b
  | None => newIncomingBuffer bufferSize
  end.

Definition handleMessage (env : HandlerEnv) (phoneNumber : string) (isFromMe : bool) (e : Event)
    (s : Gateway) : go Gateway :=
  if isFromMe then Ret s
  else match gwClients s !! phoneNumber ≫= storeID with
  | None => Ret s
  | Some jid =>
      let s := SetJID phoneNumber jid s in
      goBind (getOrCreateBuffer phoneNumber s) (fun b =>
      goBind (Push (toIncomingMessage (Some e)) b) (fun b =>
      let s := withBuffers (<[phoneNumber := b]> (gwBuffers s)) s in
      if queueHealthy env && heMarshal env && hePublishEvent env
      then Ret (withMessage (gwWebhookSem s) (MsgQueued jid (evID e)) s)
      else Ret (asyncDeliverWebhook jid e s)))
  end.

(** [HandleEvent]. *)
Definition HandleEvent (env : HandlerEnv) (phoneNumber : string) (evt : WaEvent) (s : Gateway) : go Gateway :=
  match evt with
  | EvMessage fromMe e => handleMessage env phoneNumber fromMe e s
  | EvLoggedOut onConnect reason text =>
      let (jid, s) := sessionJID phoneNumber s in
      let s := recordSessionStatus env phoneNumber "logged_out" (loggedOutReason onConnect text) None s in
      let s := deleteClient phoneNumber s in
      Ret (dispatch env jid EventSessionLoggedOut (loggedOutPayload env phoneNumber jid onConnect reason text) s)
  | EvTemporaryBan text code codeText expire =>
      let (jid, s) := sessionJID phoneNumber s in
      let exp := if 0 <? expire then Some (heNow1 env + expire) else None in
      let s := recordSessionStatus env phoneNumber "banned" text exp s in
      let s := deleteClient phoneNumber s in
      Ret (dispatch env jid EventSessionBanned (bannedPayload env phoneNumber jid code codeText expire) s)
  | EvConnectFailure isLoggedOut reason text message =>
      let (jid, s) := sessionJID phoneNumber s in
      let s := if isLoggedOut
               then deleteClient phoneNumber (recordSessionStatus env phoneNumber "logged_out" text None s)
               else recordSessionStatus env phoneNumber "disconnected" ("connect_failure:" +:+ text) None s in
      Ret (dispatch env jid EventSessionConnectFailure
             (connectFailurePayload env phoneNumber jid reason text message) s)
  | EvStreamReplaced =>
      let (jid, s) := sessionJID phoneNumber s in
      let s := recordSessionStatus env phoneNumber "disconnected" "stream_replaced" None s in
      let s := deleteClient phoneNumber s in
      Ret (dispatch env jid EventSessionReplaced (baseSessionPayload env EventSessionReplaced phoneNumber jid) s)
  | EvReachoutTimelock isActive enforcement ends =>
      let (jid, s) := sessionJID phoneNumber s in
      let s := if isActive
               then recordSessionStatus env phoneNumber "reachout_timelocked" (reachoutTimelockReason enforcement)
                      ends s
               else recordSessionStatus env phoneNumber "connected" "reachout_timelock_cleared" None s in
      Ret (dispatch env jid EventSessionReachoutTimelocked
             (reachoutTimelockPayload env phoneNumber jid isActive enforcement ends) s)
  | EvConnected =>
      let (jid, s) := sessionJID phoneNumber s in
      Ret (dispatch env jid EventSessionConnected (baseSessionPayload env EventSessionConnected phoneNumber jid) s)
  | EvDisconnected =>
      let (jid, s) := sessionJID phoneNumber s in
      Ret (dispatch env jid EventSessionDisconnected
             (baseSessionPayload env EventSessionDisconnected phoneNumber jid) s)
  | EvOther => Ret s
  end.

(** [deliverWebhook]: what a delivery goroutine sends, in order; a panic here is not
    recovered. *)
Definition deliverWebhook (subsDb : bool) (validUrl : string -> bool) (dl : Downloader) (jid : string)
    (e : Event) (s : Gateway) : go (list (string * Payload)) :=
  if negb subsDb then Ret []
  else match getSubs urlLe jid (gwSubs s) with
  | [] => Ret []
  | subs =>
      goBind (buildDirectPayload dl e) (fun payload =>
      Ret (map (fun sub => (subUrl sub, payload))
             (List.filter (fun sub => validUrl (subUrl sub)) (recipients EventMessageIncoming subs))))
  end.
End handler.

(** ** Registration *)

(** A device of the store: the user of its JID and the JID's text, when it has one. *)
Abbreviation Device := (option (string * string)).

Fixpoint findDeviceByPhone (devices : list Device) (phoneNumber : string) : go (option string) :=
  match devices with
  | [] => Ret None
  | None :: rest => findDeviceByPhone rest phoneNumber
  | Some (user, jid) :: rest =>
      goBind (WhatsappDecomposeJID user) (fun p =>
      if bool_decide (p = phoneNumber) then Ret (Some jid) else findDeviceByPhone rest phoneNumber)
  end.

(** [RegisterClient] and [InitClient]: nothing when there is a client; else one on the
    stored device, or on a new one.  [devices] is [None] when they cannot be listed. *)
Definition RegisterClient (devices : option (list Device)) (phoneNumber : string) (s : Gateway) : go Gateway :=
  match gwClients s !! phoneNumber with
  | Some _ => Ret s
  | None =>
      goBind (match devices with Some ds => findDeviceByPhone ds phoneNumber | None => Ret None end)
        (fun id => Ret (setClient phoneNumber (mkCli (Some id) false false) s))
  end.

(** ** The inventory *)

Record clientState := mkClientState { csPaired : bool; csConnected : bool; csLoggedIn : bool }.

Record SessionInventoryItem := mkItem {
  siPhoneMasked : string;
  siState : string;
  siSource : string;
  siReason : string;
  siLastSeen : instant;
  siBanExpiresAt : option instant;
}.

Definition banUnexpired (st : SessionStatus) (now : instant) : bool :=
  bool_decide (ssState st = "banned"%string)
  && match ssBanExpiresAt st with None => true | Some t => now <? t end.

(** A missing device has the zero time. *)
Definition deriveItem (phone : string) (inMem : gmap string clientState) (devices : gmap string instant)
    (status : gmap string SessionStatus) (now zeroTime : instant) : SessionInventoryItem :=
  let item := mkItem (MaskedPhoneNumber phone) in
  let dead := match status !! phone with
              | Some st => if bool_decide (ssState st = "logged_out"%string) || banUnexpired st now
                           then Some st else None
              | None => None
              end in
  match dead with
  | Some st =>
      item (ssState st) "store"%string (ssReason st) (ssUpdatedAt st)
        (if banUnexpired st now then ssBanExpiresAt st else None)
  | None =>
      match inMem !! phone with
      | Some cs =>
          item (if negb (csPaired cs) then "never_paired"
                else if csConnected cs && csLoggedIn cs then "connected" else "disconnected")%string
            "in-memory"%string ""%string now None
      | None =>
          match status !! phone with
          | Some st =>
              if bool_decide (ssState st = "banned"%string)
              then item "disconnected"%string "store"%string "ban_expired"%string (ssUpdatedAt st) None
              else item (ssState st) "store"%string (ssReason st) (ssUpdatedAt st) None
          | None =>
              item "disconnected"%string "store"%string ""%string (default zeroTime (devices !! phone)) None
          end
      end
  end.

(** The set of phones, sorted. *)
Definition allPhones (inMem : gmap string clientState) (devices : gmap string instant)
    (status : gmap string SessionStatus) : list string :=
  merge_sort String.le (elements (dom inMem ∪ dom devices ∪ dom status)).

Definition mergeInventory (inMem : gmap string clientState) (devices : gmap string instant)
    (status : gmap string SessionStatus) (now zeroTime : instant) : list SessionInventoryItem :=
  map (fun p => deriveItem p inMem devices status now zeroTime) (allPhones inMem devices status).

Definition GetOneSession (phone : string) (inMem : gmap string clientState) (devices : gmap string instant)
    (status : gmap string SessionStatus) (now zeroTime : instant) : option SessionInventoryItem :=
  if bool_decide (phone ∈ dom inMem) || bool_decide (phone ∈ dom devices) || bool_decide (phone ∈ dom status)
  then Some (deriveItem phone inMem devices status now zeroTime) else None.

(** The clients as [sessionSources] projects them. *)
Definition inMemory (s : Gateway) : gmap string clientState :=
  (fun c => mkClientState (bool_decide (is_Some (storeID c))) (cliConnected c) (cliLoggedIn c)) <$> gwClients s.

(** [sessionSources]: the devices are seen now; [None] for an error of the database. *)
Fixpoint deviceTimes (now : instant) (devices : list Device) (m : gmap string instant)
    : go (gmap string instant) :=
  match devices with
  | [] => Ret m
  | None :: rest => deviceTimes now rest m
  | Some (user, _) :: rest =>
      goBind (WhatsappDecomposeJID user) (fun p => deviceTimes now rest (<[p := now]> m))
  end.

Definition SessionInventory (statusDb : bool) (devices : option (list Device)) (now zeroTime : instant)
    (s : Gateway) : go (option (list SessionInventoryItem)) :=
  if negb statusDb then Ret None
  else match devices with
  | None => Ret None
  | Some ds =>
      goBind (deviceTimes now ds ∅) (fun times =>
      Ret (Some (mergeInventory (inMemory s) times (gwStatus s) now zeroTime)))
  end.

(** [BanState]: until when the account is held, if it is; [holdSeconds] is
    [OutboundPaceBanDefaultHoldSeconds]. *)
Definition BanState (holdSeconds : Z) (db : bool) (now : instant) (phoneNumber : string) (s : Gateway)
    : option instant :=
  if negb db then None
  else match gwStatus s !! phoneNumber with
  | None => None
  | Some st =>
      if negb (bool_decide (ssState st = "banned"%string)) then None
      else
        let until := match ssBanExpiresAt st with
                     | Some t => t
                     | None => ssUpdatedAt st + holdSeconds * second
                     end in
        if now <? until then Some until else None
  end.

(** ** Steps *)

(** A goroutine of the sender, or of direct delivery, ends. *)
Definition senderDone (s : Gateway) : Gateway :=
  mkGateway (gwClients s) (gwJids s) (gwStatus s) (gwSubs s) (gwBuffers s) (release (gwSenderSem s))
    (gwWebhookSem s) (gwHooks s) (gwMessages s).

Definition deliveryDone (s : Gateway) : Gateway :=
  mkGateway (gwClients s) (gwJids s) (gwStatus s) (gwSubs s) (gwBuffers s) (gwSenderSem s)
    (release (gwWebhookSem s)) (gwHooks s) (gwMessages s).

(** The status an event records, if it records one. *)
Definition newStatus (env : HandlerEnv) (ev : WaEvent) : option SessionStatus :=
  let st state reason exp := Some (mkStatus state reason exp (heNow2 env)) in
  match ev with
  | EvLoggedOut onConnect _ text => st "logged_out"%string (loggedOutReason onConnect text) None
  | EvTemporaryBan text _ _ expire =>
      st "banned"%string text (if 0 <? expire then Some (heNow1 env + expire) else None)
  | EvConnectFailure true _ text _ => st "logged_out"%string text None
  | EvConnectFailure false _ text _ => st "disconnected"%string ("connect_failure:" +:+ text) None
  | EvStreamReplaced => st "disconnected"%string "stream_replaced"%string None
  | EvReachoutTimelock true enforcement ends =>
      st "reachout_timelocked"%string (reachoutTimelockReason enforcement) ends
  | EvReachoutTimelock false _ _ => st "connected"%string "reachout_timelock_cleared"%string None
  | _ => None
  end.

(** Whether an event records a status at all. *)
Definition records (ev : WaEvent) : bool :=
  match ev with
  | EvLoggedOut _ _ _ | EvTemporaryBan _ _ _ _ | EvConnectFailure _ _ _ _ | EvStreamReplaced
  | EvReachoutTimelock _ _ _ => true
  | _ => false
  end.

Section steps.
Context (urlLe : string -> string -> bool) (bufferSize : Z).

(** A step that concerns other accounts, or none that records a status of [phone]:
    messages, connections, registration of a client, what whatsmeow does to a client
    (pairing, connecting, logging in), eviction. *)
Inductive quietStep (phone : string) (s : Gateway) : Gateway -> Prop :=
  | QuietEvent env p ev s' :
      p <> phone \/ records ev = false -> HandleEvent urlLe bufferSize env p ev s = Ret s' ->
      quietStep phone s s'
  | QuietRegister devices p s' : RegisterClient devices p s = Ret s' -> quietStep phone s s'
  | QuietLibrary p c : is_Some (gwClients s !! p) -> quietStep phone s (setClient p c s)
  | QuietEvict p : quietStep phone s (deleteClient p s)
  | QuietSent : 0 < gwSenderSem s -> quietStep phone s (senderDone s)
  | QuietDelivered : 0 < gwWebhookSem s -> quietStep phone s (deliveryDone s).

(** *** Lemmas *)

Lemma dispatchOne_keeps env event payload s sub :
  let s' := dispatchOne env event payload s sub in
  gwClients s' = gwClients s /\ gwJids s' = gwJids s /\ gwStatus s' = gwStatus s
  /\ gwSubs s' = gwSubs s /\ gwBuffers s' = gwBuffers s /\ gwMessages s' = gwMessages s.
Proof. unfold dispatchOne. destruct (_ && _); [done|]. by destruct (acquire _). Qed.

Lemma dispatch_keeps env jid event payload s :
  let s' := dispatch urlLe env jid event payload s in
  gwClients s' = gwClients s /\ gwJids s' = gwJids s /\ gwStatus s' = gwStatus s
  /\ gwSubs s' = gwSubs s /\ gwBuffers s' = gwBuffers s /\ gwMessages s' = gwMessages s.
Proof.
  unfold dispatch. destruct (bool_decide _); [done|]. destruct (negb _); [done|]. cbv zeta.
  generalize (recipients event (getSubs urlLe jid (gwSubs s))) as l. intros l. revert s.
  induction l as [|sub l IH]; intros s; [done|]. cbn [fold_left].
  pose proof (dispatchOne_keeps env event payload s sub) as H1. cbv zeta in H1. conj_hyps.
  specialize (IH (dispatchOne env event payload s sub)). conj_hyps. split_and!; congruence.
Qed.

Lemma dispatch_status env jid event payload s : gwStatus (dispatch urlLe env jid event payload s) = gwStatus s.
Proof. apply dispatch_keeps. Qed.

Lemma dispatch_clients env jid event payload s : gwClients (dispatch urlLe env jid event payload s) = gwClients s.
Proof. apply dispatch_keeps. Qed.

Lemma dispatch_jids env jid event payload s : gwJids (dispatch urlLe env jid event payload s) = gwJids s.
Proof. apply dispatch_keeps. Qed.

(** The fan-out: one entry per recipient, in order, dropped only when the semaphore is
    full. *)
Lemma dispatch_hooks env jid event payload s :
  jid <> ""%string -> heSubsDb env = true -> gwSenderSem s <= maxConcurrentWebhooks ->
  exists hooks, gwHooks (dispatch urlLe env jid event payload s) = gwHooks s ++ hooks
  /\ map hoUrl hooks = map subUrl (recipients event (getSubs urlLe jid (gwSubs s)))
  /\ Forall (fun h => hoEvent h = event /\ hoPayload h = payload
             /\ (hoRoute h = Dropped ->
                 gwSenderSem (dispatch urlLe env jid event payload s) = maxConcurrentWebhooks)
             /\ (queueHealthy env && hePublishHook env (hoUrl h) = true <-> hoRoute h = Published)) hooks
  /\ gwSenderSem s <= gwSenderSem (dispatch urlLe env jid event payload s) <= maxConcurrentWebhooks.
Proof.
  intros Hj Hdb. unfold dispatch. rewrite bool_decide_eq_false_2 by done. rewrite Hdb. cbn [negb].
  generalize (recipients event (getSubs urlLe jid (gwSubs s))) as l. intros l. revert s.
  induction l as [|sub l IH]; intros s Hsem; cbn [fold_left map].
  { exists []. rewrite app_nil_r. split_and!; try done. }
  set (s1 := dispatchOne env event payload s sub).
  assert (H1 : exists h, gwHooks s1 = gwHooks s ++ [h] /\ hoUrl h = subUrl sub /\ hoEvent h = event
            /\ hoPayload h = payload /\ (hoRoute h = Dropped -> gwSenderSem s1 = maxConcurrentWebhooks)
            /\ (queueHealthy env && hePublishHook env (hoUrl h) = true <-> hoRoute h = Published)
            /\ gwSenderSem s <= gwSenderSem s1 <= maxConcurrentWebhooks).
  { unfold s1, dispatchOne. destruct (queueHealthy env && hePublishHook env (subUrl sub)) eqn:E.
    - eexists. split; [reflexivity|]. cbn. rewrite E. split_and!; try done.
    - unfold acquire. destruct (gwSenderSem s <? maxConcurrentWebhooks) eqn:Es;
        (eexists; split; [reflexivity|]; cbn; rewrite E; split_and!; try done; try lia). }
  destruct H1 as (h & Hh & Hu & He & Hp & Hd & Hq & Hs).
  destruct (IH s1 ltac:(lia)) as (hooks & Hhs & Hus & Hall & Hss).
  exists (h :: hooks). rewrite Hhs, Hh, <- app_assoc. split; [done|]. cbn [map]. rewrite Hu, Hus.
  split; [done|]. split; [|lia]. apply Forall_cons. split; [|done].
  split_and!; try done; try apply Hq. intros Hdr. specialize (Hd Hdr). lia.
Qed.

Lemma sessionJID_keeps phone s :
  let (jid, s1) := sessionJID phone s in
  gwClients s1 = gwClients s /\ gwStatus s1 = gwStatus s /\ gwSubs s1 = gwSubs s
  /\ gwSenderSem s1 = gwSenderSem s /\ gwWebhookSem s1 = gwWebhookSem s /\ gwHooks s1 = gwHooks s
  /\ JID phone s1 = jid \/ jid = ""%string /\ s1 = s.
Proof.
  unfold sessionJID. destruct (_ ≫= _) as [id|] eqn:E; [|left; by split_and!].
  unfold SetJID. case_bool_decide as Hid; [by right|].
  left. unfold JID. cbn. rewrite lookup_insert_eq. by split_and!.
Qed.

Lemma recordStatus_lookup env phone state reason exp s p :
  gwStatus (recordSessionStatus env phone state reason exp s) !! p
  = if heStatusDb env && bool_decide (p = phone)
    then Some (mkStatus state reason exp (heNow2 env)) else gwStatus s !! p.
Proof.
  unfold recordSessionStatus. destruct (heStatusDb env); [|done]. cbn [gwStatus withStatus andb].
  case_bool_decide as Hp; [by rewrite Hp, lookup_insert_eq|by rewrite lookup_insert_ne].
Qed.

Lemma sessionJID_status phone s : gwStatus (sessionJID phone s).2 = gwStatus s.
Proof. unfold sessionJID. destruct (_ ≫= _); [|done]. unfold SetJID. by destruct (bool_decide _). Qed.

Lemma handleMessage_status env phone fromMe e s s' :
  handleMessage bufferSize env phone fromMe e s = Ret s' -> gwStatus s' = gwStatus s.
Proof.
  unfold handleMessage. destruct fromMe; [by intros [= <-]|]. destruct (_ ≫= _) as [jid|]; [|by intros [= <-]].
  destruct (getOrCreateBuffer _ _ _) as [b|]; [|done]. cbn [goBind].
  destruct (Push _ b) as [b'|]; [|done]. cbn [goBind].
  assert (Hs : gwStatus (SetJID phone jid s) = gwStatus s) by (unfold SetJID; by destruct (bool_decide _)).
  destruct (_ && hePublishEvent env); [by intros [= <-]|].
  unfold asyncDeliverWebhook. destruct (acquire _). by intros [= <-].
Qed.

(** The status table after an event. *)
Lemma event_status env phone ev s s' p :
  HandleEvent urlLe bufferSize env phone ev s = Ret s' ->
  gwStatus s' !! p
  = if heStatusDb env && bool_decide (p = phone)
    then match newStatus env ev with Some st => Some st | None => gwStatus s !! p end
    else gwStatus s !! p.
Proof.
  pose proof (sessionJID_status phone s) as Hjs.
  destruct ev; cbn [HandleEvent newStatus];
    [intros H%handleMessage_status; rewrite H; by destruct (_ && _)
    |..|by intros [= <-]; destruct (_ && _)];
    destruct (sessionJID phone s) as [jid s1]; cbn [snd] in Hjs; intros [= <-]; rewrite dispatch_status;
    try (rewrite Hjs; by destruct (_ && _)).
  all: try (destruct isLoggedOut); try (destruct isActive); cbn [deleteClient withClients gwStatus];
    by rewrite recordStatus_lookup, Hjs.
Qed.

Lemma quiet_status phone s s' : quietStep phone s s' -> gwStatus s' !! phone = gwStatus s !! phone.
Proof.
  intros [env p ev s1 Hq H|devices p s1 H|p c _|p|_|_]; try done.
  - rewrite (event_status env p ev s s1 phone H). destruct (heStatusDb env); [|done].
    cbn [andb]. case_bool_decide as Hp; [|done]. destruct Hq as [Hq|Hq]; [done|]. by destruct ev.
  - unfold RegisterClient in H. destruct (gwClients s !! p); [by injection H as <-|].
    destruct (match devices with Some _ => _ | None => _ end); [|done]. by injection H as <-.
Qed.

Lemma quiet_status_run phone s s' :
  rtc (quietStep phone) s s' -> gwStatus s' !! phone = gwStatus s !! phone.
Proof. induction 1 as [|s s1 s' H1 _ IH]; [done|]. by rewrite IH, (quiet_status phone s s1). Qed.
End steps.

(** ** Properties *)

(** The events after which the client is gone, with the state they record and the
    webhook event they send. *)
Definition teardown (ev : WaEvent) : option (string * string) :=
  match ev with
  | EvLoggedOut _ _ _ => Some ("logged_out"%string, EventSessionLoggedOut)
  | EvTemporaryBan _ _ _ _ => Some ("banned"%string, EventSessionBanned)
  | EvConnectFailure true _ _ _ => Some ("logged_out"%string, EventSessionConnectFailure)
  | EvStreamReplaced => Some ("disconnected"%string, EventSessionReplaced)
  | _ => None
  end.

(** The JID an account's webhooks are addressed with: the live one, else the last known. *)
Definition knownJID (phone : string) (s : Gateway) : string := (sessionJID phone s).1.

(** A session does not die unnoticed.  When an event ends a session, the client is
    gone from the store, the state is recorded (database permitting), and every matching
    subscription of the account's last known JID gets the event exactly once, in order:
    through a healthy queue that accepts it, else from a goroutine, and not at all only
    when the fifty slots of the sender are taken.  Losing the device id meanwhile does
    not lose the address. *)
Theorem teardown_notified (urlLe : string -> string -> bool) (bufferSize : Z) (env : HandlerEnv)
    (phone : string) (ev : WaEvent) (s : Gateway) (state event : string) :
  teardown ev = Some (state, event) -> knownJID phone s <> ""%string -> heSubsDb env = true ->
  gwSenderSem s <= maxConcurrentWebhooks ->
  exists s' hooks, HandleEvent urlLe bufferSize env phone ev s = Ret s'
  /\ gwClients s' !! phone = None
  /\ JID phone s' = knownJID phone s
  /\ (heStatusDb env = true -> ssState <$> gwStatus s' !! phone = Some state)
  /\ gwHooks s' = gwHooks s ++ hooks
  /\ map hoUrl hooks = map subUrl (recipients event (getSubs urlLe (knownJID phone s) (gwSubs s)))
  /\ Forall (fun h => hoEvent h = event
             /\ (hoRoute h = Dropped -> gwSenderSem s' = maxConcurrentWebhooks)
             /\ (queueHealthy env && hePublishHook env (hoUrl h) = true <-> hoRoute h = Published)) hooks.
Proof.
  intros Ht Hj Hdb Hsem. unfold knownJID in *.
  pose proof (sessionJID_keeps phone s) as Hk. destruct (sessionJID phone s) as [jid s1] eqn:E.
  cbn [fst] in *. destruct Hk as [(Hc & Hst & Hsu & Hss & _ & Hh & Hjid)|[]]; [|done].
  assert (Hev : exists payload reason exp,
    HandleEvent urlLe bufferSize env phone ev s
    = Ret (dispatch urlLe env jid event payload
             (deleteClient phone (recordSessionStatus env phone state reason exp s1)))).
  { destruct ev as [| | |[] ? ? ?| | | | |]; try discriminate; injection Ht as <- <-; cbn [HandleEvent];
      rewrite E; by eexists _, _, _. }
  destruct Hev as (payload & reason & exp & ->).
  set (s2 := deleteClient _ _).
  assert (H2 : gwHooks s2 = gwHooks s /\ gwSubs s2 = gwSubs s /\ gwSenderSem s2 = gwSenderSem s
            /\ gwJids s2 = gwJids s1).
  { unfold s2, recordSessionStatus. by destruct (heStatusDb env). }
  destruct H2 as (H2h & H2s & H2m & H2j).
  destruct (dispatch_hooks urlLe env jid event payload s2 Hj Hdb ltac:(lia))
    as (hooks & Hhooks & Hurls & Hall & _).
  exists (dispatch urlLe env jid event payload s2), hooks. split; [done|].
  rewrite dispatch_clients, dispatch_status. unfold JID. rewrite dispatch_jids, H2j.
  rewrite Hhooks, H2h. rewrite H2s in Hurls. split_and!; try done.
  - unfold s2, deleteClient. cbn. apply lookup_delete_eq.
  - intros Hd. unfold s2. cbn [deleteClient withClients gwStatus].
    rewrite recordStatus_lookup, Hd, bool_decide_eq_true_2 by done. done.
  - eapply Forall_impl; [exact Hall|]. cbn. intros h (H1 & _ & H3 & H4). done.
Qed.

Definition sampleGateway : Gateway :=
  mkGateway {["621" := mkCli (Some None) false false]} {["621" := "621:3@s.whatsapp.net"]} ∅
    [mkSubRow "621:3@s.whatsapp.net" "https://a" "" "" 1;
     mkSubRow "621:3@s.whatsapp.net" "https://b" "" "message.sent" 2;
     mkSubRow "621:3@s.whatsapp.net" "https://c" "" "session.logged_out" 3]
    ∅ 50 0 [] [].

Definition sampleHandlerEnv : HandlerEnv := mkEnv 100 101 true true (Some true) true true (fun u => bool_decide (u = "https://a"%string)).

Lemma teardown_notified_witness :
  exists s' hooks,
    HandleEvent (fun _ _ => true) 5 sampleHandlerEnv "621" (EvLoggedOut false 401 "logged out") sampleGateway = Ret s'
  /\ gwClients s' !! "621" = None
  /\ JID "621" s' = knownJID "621" sampleGateway
  /\ (heStatusDb sampleHandlerEnv = true -> ssState <$> gwStatus s' !! "621" = Some "logged_out"%string)
  /\ gwHooks s' = gwHooks sampleGateway ++ hooks
  /\ map hoUrl hooks = map subUrl (recipients EventSessionLoggedOut
       (getSubs (fun _ _ => true) (knownJID "621" sampleGateway) (gwSubs sampleGateway)))
  /\ Forall (fun h => hoEvent h = EventSessionLoggedOut
             /\ (hoRoute h = Dropped -> gwSenderSem s' = maxConcurrentWebhooks)
             /\ (queueHealthy sampleHandlerEnv && hePublishHook sampleHandlerEnv (hoUrl h) = true
                 <-> hoRoute h = Published)) hooks.
Proof.
  apply (teardown_notified (fun _ _ => true) 5 sampleHandlerEnv "621" (EvLoggedOut false 401 "logged out")
    sampleGateway "logged_out" EventSessionLoggedOut); [done|by vm_compute|done|by vm_compute].
Defined.

(** The inventory keeps a logged-out account logged out.  Once [logged_out] is
    recorded, no sequence of messages, connections, registrations, pairings, logins or
    evictions changes what the inventory says of the account: [logged_out], from the
    store, even with its new client connected and logged in. *)
Theorem relogin_still_logged_out (urlLe : string -> string -> bool) (bufferSize : Z) (phone : string)
    (s s' : Gateway) (st : SessionStatus) (devices : gmap string instant) (now zeroTime : instant) :
  gwStatus s !! phone = Some st -> ssState st = "logged_out"%string ->
  rtc (quietStep urlLe bufferSize phone) s s' ->
  let item := deriveItem phone (inMemory s') devices (gwStatus s') now zeroTime in
  siState item = "logged_out"%string /\ siSource item = "store"%string /\ siLastSeen item = ssUpdatedAt st.
Proof.
  intros Hst Hlo Hrun. unfold deriveItem. rewrite (quiet_status_run urlLe bufferSize phone s s' Hrun), Hst.
  rewrite bool_decide_eq_true_2 by done. cbn [orb]. done.
Qed.

Definition loggedOutGateway : Gateway :=
  mkGateway ∅ {["621" := "621:3@s.whatsapp.net"]} {["621" := mkStatus "logged_out" "stream_error" None 7]}
    [] ∅ 0 0 [] [].

Definition reloggedGateway : Gateway :=
  setClient "621" (mkCli (Some (Some "621:4@s.whatsapp.net"%string)) true true)
    (setClient "621" (mkCli (Some None) false false) loggedOutGateway).

Lemma relogin_still_logged_out_witness :
  inMemory reloggedGateway !! "621" = Some (mkClientState true true true)
  /\ let item := deriveItem "621" (inMemory reloggedGateway) ∅ (gwStatus reloggedGateway) 900 0 in
     siState item = "logged_out"%string /\ siSource item = "store"%string
     /\ siLastSeen item = ssUpdatedAt (mkStatus "logged_out" "stream_error" None 7).
Proof.
  split; [by vm_compute|].
  apply (relogin_still_logged_out (fun _ _ => true) 5 "621" loggedOutGateway); [done|done|].
  eapply rtc_l; [eapply (QuietRegister _ _ _ _ (Some []) "621"); reflexivity|].
  eapply rtc_l; [apply (QuietLibrary _ _ _ _ "621" (mkCli (Some (Some "621:4@s.whatsapp.net"%string)) true true))|].
  { by eexists. }
  apply rtc_refl.
Defined.

(** The pacer's ban gate follows the last recorded event.  A temporary ban closes it
    until the ban's expiry, or for the default hold when none was given; any other event
    that records a status opens it at once, whatever was left of the ban (a transient
    connect failure, a replaced stream, a reach-out lock); the remaining events, and a
    database that fails, leave it as it is; other accounts are never affected. *)
Theorem ban_gate_follows_last_event (urlLe : string -> string -> bool) (bufferSize holdSeconds : Z)
    (env : HandlerEnv) (phone p : string) (ev : WaEvent) (s s' : Gateway) (now : instant) :
  HandleEvent urlLe bufferSize env phone ev s = Ret s' ->
  BanState holdSeconds true now p s'
  = if bool_decide (p = phone) && heStatusDb env then
      match ev with
      | EvTemporaryBan _ _ _ expire =>
          let until := if 0 <? expire then heNow1 env + expire else heNow2 env + holdSeconds * second in
          if now <? until then Some until else None
      | _ => if records ev then None else BanState holdSeconds true now p s
      end
    else BanState holdSeconds true now p s.
Proof.
  intros H. unfold BanState. cbn [negb]. rewrite (event_status urlLe bufferSize env phone ev s s' p H).
  destruct (heStatusDb env); [|by rewrite andb_false_r]. rewrite andb_true_r. cbn [andb].
  destruct (bool_decide (p = phone)); [|done].
  destruct ev as [| |text code codeText expire|[] ? ? ?| |[] ? ?| | |]; cbn [newStatus records]; try done.
  cbn. by destruct (0 <? expire).
Qed.

Lemma ban_gate_follows_last_event_witness :
  let s := mkGateway ∅ ∅ {["621" := mkStatus "banned" "spam" (Some 10000) 7]} [] ∅ 0 0 [] [] in
  exists s', HandleEvent (fun _ _ => true) 5 sampleHandlerEnv "621" (EvConnectFailure false 503 "service unavailable" "") s
             = Ret s'
  /\ BanState 60 true 200 "621" s = Some 10000
  /\ BanState 60 true 200 "621" s'
     = if bool_decide ("621"%string = "621"%string) && heStatusDb sampleHandlerEnv then None
       else BanState 60 true 200 "621" s.
Proof.
  eexists. split; [reflexivity|]. split; [by vm_compute|].
  apply (ban_gate_follows_last_event (fun _ _ => true) 5 60 sampleHandlerEnv "621" "621"
    (EvConnectFailure false 503 "service unavailable" "")). reflexivity.
Defined.

Lemma live_connected (cs : clientState) :
  (if negb (csPaired cs) then "never_paired"
   else if csConnected cs && csLoggedIn cs then "connected" else "disconnected")%string = "connected"%string
  <-> cs = mkClientState true true true.
Proof. destruct cs as [[] [] []]; cbn; split; try done; by intros [= ?]. Qed.

Definition deadStatus (status : gmap string SessionStatus) (p : string) (now : instant) : Prop :=
  exists st, status !! p = Some st /\ (ssState st = "logged_out"%string \/ banUnexpired st now = true).

Lemma connected_means inMem devices status now zeroTime p :
  siState (deriveItem p inMem devices status now zeroTime) = "connected"%string <->
  ~ deadStatus status p now
  /\ (inMem !! p = Some (mkClientState true true true)
      \/ (inMem !! p = None /\ exists st, status !! p = Some st /\ ssState st = "connected"%string)).
Proof.
  unfold deriveItem, deadStatus. destruct (status !! p) as [st|] eqn:Est.
  - destruct (bool_decide _ || banUnexpired st now) eqn:Ed.
    + cbn [siState]. split.
      * intros Hc. exfalso. bool_simpl. unfold banUnexpired in Ed.
        destruct Ed; bool_simpl; conj_hyps; bool_simpl; congruence.
      * intros [Hn _]. exfalso. apply Hn. exists st. split; [done|]. bool_simpl. destruct Ed; bool_simpl; auto.
    + assert (Hn : ~ exists st', Some st = Some st'
               /\ (ssState st' = "logged_out"%string \/ banUnexpired st' now = true)).
      { bool_simpl. intros (st' & [= <-] & [Hl|Hb]); congruence. }
      destruct (inMem !! p) as [cs|]; cbn [siState].
      * rewrite live_connected. split; [intros ->; auto|]. intros (_ & [[= ->]|[? _]]); done.
      * clear Ed. destruct (bool_decide (ssState st = "banned"%string)) eqn:Hbn; bool_simpl; cbn [siState].
        -- split; [done|]. intros [_ [Hx|(_ & st' & He & Hs)]]; [done|]. injection He as ->. congruence.
        -- split; [eauto 10|]. intros [_ [Hx|(_ & st' & He & Hs)]]; [done|]. by injection He as ->.
  - destruct (inMem !! p) as [cs|]; cbn [siState].
    + rewrite live_connected. split; [intros ->; split; [intros (? & ? & _); done|auto]|].
      intros (_ & [[= ->]|[? _]]); done.
    + split; [done|]. intros (_ & [?|(_ & st' & ? & _)]); done.
Qed.

(** The inventory lists every account once, and no other.  Its items are those of the
    phones known to the clients, the devices or the statuses, each once, in order of the
    phone; asking for one phone gives the item of the list, or nothing when the phone is
    in none of the three.  An account is said to be connected when it is not logged out
    or banned and its client is paired, connected and logged in, or, with no client at
    all, when the last recorded status says so. *)
Theorem inventory_accounts (inMem : gmap string clientState) (devices : gmap string instant)
    (status : gmap string SessionStatus) (now zeroTime : instant) :
  let phones := allPhones inMem devices status in
  let item p := deriveItem p inMem devices status now zeroTime in
  mergeInventory inMem devices status now zeroTime = map item phones
  /\ StronglySorted String.le phones /\ NoDup phones
  /\ (forall p, p ∈ phones <-> is_Some (inMem !! p) \/ is_Some (devices !! p) \/ is_Some (status !! p))
  /\ (forall p, GetOneSession p inMem devices status now zeroTime
         = if bool_decide (p ∈ phones) then Some (item p) else None)
  /\ (forall p, siState (item p) = "connected"%string <->
         ~ deadStatus status p now
         /\ (inMem !! p = Some (mkClientState true true true)
             \/ (inMem !! p = None /\ exists st, status !! p = Some st /\ ssState st = "connected"%string))).
Proof.
  cbv zeta. assert (Hin : forall p, p ∈ allPhones inMem devices status
            <-> is_Some (inMem !! p) \/ is_Some (devices !! p) \/ is_Some (status !! p)).
  { intros p. unfold allPhones. rewrite merge_sort_Permutation, elem_of_elements, !elem_of_union, !elem_of_dom.
    tauto. }
  split_and!.
  - done.
  - apply (StronglySorted_merge_sort _).
  - unfold allPhones. rewrite merge_sort_Permutation. apply NoDup_elements.
  - apply Hin.
  - intros p. unfold GetOneSession. rewrite <- !bool_decide_or.
    erewrite (bool_decide_ext (_ \/ _)); [reflexivity|]. rewrite Hin, !elem_of_dom. tauto.
  - intros p. apply connected_means.
Qed.
