(* ===== verification/QueueHandlers.v ===== *)
(** * The workers of incoming events, webhooks and dead letters

    [internal/queue/handlers/incoming_event_handler.go], [webhook_delivery_handler.go] and
    [dlq_handler.go], over the dedup cache they share with the outgoing worker. *)

From Stdlib Require Import ZArith Ascii String.
From stdpp Require Import strings numbers gmap list.
From S2P Require Import Prelude GoLang Jid Subscriptions Dedup RetryQueue OutgoingHandler MessagePayload WebhookSender.
#[local] Set Default Proof Using "Type".
#[local] Open Scope Z_scope.

(** ** Messages *)

(** [IncomingEventMessage]; the event is [None] when its JSON does not parse. *)
Record IncomingEventMessage := mkIncomingEvent {
  ieTraceID : string;
  iePhoneNumber : string;
  ieJID : string;
  ieEvent : option Event;
  ieMessageID : string;
  ieTimestamp : Z;
}.

Record WebhookDeliveryMessage := mkWebhookMessage {
  wmTraceID : string;
  wmWebhookURL : string;
  wmHmacSecret : string;
  wmPayload : Payload;
  wmMessageID : string;
}.

(** ** State *)

(** The dedup cache, the webhook messages published (oldest first), the webhooks that
    were received (oldest first), and the work the cache guards (newest first). *)
Record Pipeline := mkPipeline {
  plDedup : option DedupCache;
  plPublished : list WebhookDeliveryMessage;
  plReceived : list (string * string);
  plGuarded : list Guarded;
}.

Definition withDedup (d : option DedupCache) (p : Pipeline) : Pipeline :=
  mkPipeline d (plPublished p) (plReceived p) (plGuarded p).

Definition publishing (m : list WebhookDeliveryMessage) (p : Pipeline) : Pipeline :=
  mkPipeline (plDedup p) (plPublished p ++ m) (plReceived p) (plGuarded p).

(** [MarkProcessed] at the end of a handler. *)
Definition marking (scope id : string) (ts : OutTimes) (p : Pipeline) : Pipeline :=
  mkPipeline (MarkProcessed scope id (otMark1 ts) (otMark2 ts) (plDedup p)) (plPublished p) (plReceived p)
    (mkGuarded scope id (otCheck2 ts) (otMark2 ts) :: plGuarded p).

(** ** Incoming events *)

(** The loop over the subscriptions: the messages published before the first failure, and
    whether there was none. *)
Fixpoint publishAll (accepts : string -> bool) (ms : list WebhookDeliveryMessage)
    : list WebhookDeliveryMessage * bool :=
  match ms with
  | [] => ([], true)
  | m :: rest =>
      if accepts (wmWebhookURL m) then let (sent, ok) := publishAll accepts rest in (m :: sent, ok)
      else ([], false)
  end.

Definition webhookMessage (e : IncomingEventMessage) (payload : Payload) (sub : WebhookSubscription)
    : WebhookDeliveryMessage :=
  mkWebhookMessage "" (subUrl sub) (subHmacSecret sub) payload (ieMessageID e).

(** What the handler finds: the media downloader, the subscriptions of a JID ([None] when
    the database fails), and what the publisher accepts. *)
Record IncomingEnv := mkIncomingEnv {
  inDownloader : Downloader;
  inSubs : string -> option (list WebhookSubscription);
  inAccepts : string -> bool;
}.

Definition IncomingHandle (env : IncomingEnv) (ts : OutTimes) (body : option IncomingEventMessage)
    (p : Pipeline) : Outcome * Pipeline :=
  match body with
  | None => (HErr None, p)
  | Some m =>
      match ieEvent m with
      | None => (HErr None, p)
      | Some e =>
          let (dup, d) := IsDuplicate QueueIncomingEvents (ieMessageID m) (otCheck1 ts) (otCheck2 ts) (plDedup p) in
          let p := withDedup d p in
          if dup then (HOk, p)
          else
            match buildQueuedPayload (inDownloader env) e with
            | Panic => (HPanic, p)
            | Ret payload =>
                match inSubs env (ieJID m) with
                | None => (HErr None, p)
                | Some subs =>
                    let (sent, ok) := publishAll (inAccepts env)
                      (map (webhookMessage m payload) (recipients EventMessageIncoming subs)) in
                    let p := publishing sent p in
                    if ok then (HOk, marking QueueIncomingEvents (ieMessageID m) ts p) else (HErr None, p)
                end
            end
      end
  end.

(** ** Webhook deliveries *)

(** [send] is the sender: [Panic], an error, or done. *)
Definition WebhookHandle (send : WebhookDeliveryMessage -> go bool) (ts : OutTimes)
    (body : option WebhookDeliveryMessage) (p : Pipeline) : Outcome * Pipeline :=
  match body with
  | None => (HErr None, p)
  | Some m =>
      let key := webhookDedupKey (wmMessageID m) (wmWebhookURL m) in
      let (dup, d) := IsDuplicate QueueWebhookDelivery key (otCheck1 ts) (otCheck2 ts) (plDedup p) in
      let p := withDedup d p in
      if dup then (HOk, p)
      else
        match send m with
        | Panic => (HPanic, p)
        | Ret false => (HErr None, p)
        | Ret true =>
            let p := marking QueueWebhookDelivery key ts p in
            (HOk, mkPipeline (plDedup p) (plPublished p)
                    (plReceived p ++ [(wmMessageID m, wmWebhookURL m)]) (plGuarded p))
        end
  end.

(** ** Dead letters *)

(** An entry of [x-death], [None] when it is not a table; the header is [None] when it is
    absent or not a list. *)
Abbreviation Deaths := (option (list (option Table))).

Definition stringField (k : string) (t : Table) : option string :=
  match t !! k with Some (FString s) => Some s | _ => None end.

Fixpoint rejectedQueue (deaths : list (option Table)) : option string :=
  match deaths with
  | [] => None
  | None :: rest => rejectedQueue rest
  | Some death :: rest =>
      if negb (bool_decide (stringField "reason" death = Some "rejected"%string)) then rejectedQueue rest
      else match stringField "queue" death with Some q => Some q | None => rejectedQueue rest end
  end.

Definition dlqSourceQueue (deaths : Deaths) : string :=
  match deaths with
  | None => ""
  | Some ds =>
      match rejectedQueue ds with
      | Some q => q
      | None => match ds with
                | Some death :: _ => default "" (stringField "queue" death)
                | _ => ""
                end
      end
  end.

(** What the handler finds: its parsers, the status-webhook switch, the JID of a phone,
    the subscriptions, the time. *)
Record DlqEnv := mkDlqEnv {
  deParseJob : string -> option OutgoingJob;
  deParseEvent : string -> option IncomingEventMessage;
  deStatusEvents : bool;
  deJid : string -> go (option string);
  deSubs : string -> option (list WebhookSubscription);
  deNow : Z;
}.

(** [notifyDeadLettered]: the deliveries attempted, in order. *)
Definition notifyDeadLettered (env : DlqEnv) (phoneNumber jid : string) (payload : Payload)
    : go (list (string * Payload)) :=
  if negb (deStatusEvents env) then Ret []
  else
    goBind (if bool_decide (jid = ""%string) then deJid env phoneNumber else Ret (Some jid)) (fun found =>
    match found with
    | None => Ret []
    | Some jid =>
        match deSubs env jid with
        | None => Ret []
        | Some subs => Ret (map (fun sub => (subUrl sub, payload)) (recipients EventMessageFailed subs))
        end
    end).

Definition deadJobPayload (env : DlqEnv) (source : string) (job : OutgoingJob) : Payload :=
  <["metadata" := VMedia (<["source_queue" := SStr source]>
      (<["dead_lettered" := SBool true]> {["type" := SStr (jbType job)]}))]>
  (put "error" (SStr "message dead-lettered after exhausting retries")
  (put "timestamp" (SInt (deNow env))
  (put "phone_number" (SStr (jbPhoneNumber job))
  (put "to" (SStr (jbTo job))
  (put "job_id" (SStr (jbJobID job))
  (put "event" (SStr EventMessageFailed) ∅)))))).

Definition deadEventPayload (env : DlqEnv) (source : string) (m : IncomingEventMessage) : Payload :=
  <["metadata" := VMedia (<["source_queue" := SStr source]> {["dead_lettered" := SBool true]})]>
  (put "error" (SStr "incoming event dead-lettered after exhausting retries")
  (put "timestamp" (SInt (deNow env))
  (put "message_id" (SStr (ieMessageID m))
  (put "phone_number" (SStr (iePhoneNumber m))
  (put "event" (SStr EventMessageFailed) ∅))))).

Definition DlqHandle (env : DlqEnv) (body : string) (deaths : Deaths) : go (list (string * Payload)) :=
  let source := dlqSourceQueue deaths in
  if bool_decide (source = QueueOutgoingMessages) then
    match deParseJob env body with
    | None => Ret []
    | Some job => notifyDeadLettered env (jbPhoneNumber job) "" (deadJobPayload env source job)
    end
  else if bool_decide (source = QueueIncomingEvents) then
    match deParseEvent env body with
    | None => Ret []
    | Some m => notifyDeadLettered env (iePhoneNumber m) (ieJID m) (deadEventPayload env source m)
    end
  else Ret [].

(** [Handle] always returns nil, when it returns. *)
Definition dlqOutcome (r : go (list (string * Payload))) : Outcome :=
  match r with Ret _ => HOk | Panic => HPanic end.

(** ** Runs of the two workers *)

(** A delivery to one of the workers, with what it finds and its clock. *)
Inductive Step :=
  | Incoming (env : IncomingEnv) (ts : OutTimes) (body : option IncomingEventMessage)
  | Webhook (send : WebhookDeliveryMessage -> go bool) (ts : OutTimes) (body : option WebhookDeliveryMessage).

Definition stepTimes (s : Step) : OutTimes :=
  match s with Incoming _ ts _ | Webhook _ ts _ => ts end.

Definition runStep (s : Step) (p : Pipeline) : Outcome * Pipeline :=
  match s with
  | Incoming env ts body => IncomingHandle env ts body p
  | Webhook send ts body => WebhookHandle send ts body p
  end.

Fixpoint runSteps (ss : list Step) (p : Pipeline) : list Outcome * Pipeline :=
  match ss with
  | [] => ([], p)
  | s :: rest =>
      let (o, p1) := runStep s p in
      let (os, p2) := runSteps rest p1 in (o :: os, p2)
  end.

(** The clock does not go back. *)
Fixpoint timesOk (now : instant) (l : list OutTimes) : Prop :=
  match l with
  | [] => True
  | ts :: rest =>
      now <= otCheck1 ts /\ otCheck1 ts <= otCheck2 ts /\ otCheck2 ts <= otMark1 ts
      /\ otMark1 ts <= otMark2 ts /\ timesOk (otMark2 ts) rest
  end.

Definition startPipeline (ttl : duration) (start : instant) : Pipeline :=
  mkPipeline (Some (NewDedupCache ttl start)) [] [] [].

(** The webhook sends that succeeded, among the guarded work, oldest first. *)
Definition webhookKeys (l : list Guarded) : list string :=
  reverse (map gdId (List.filter (fun g => bool_decide (gdScope g = QueueWebhookDelivery)) l)).

Definition keyOf (r : string * string) : string := webhookDedupKey r.1 r.2.

Record pipeOk (ttl : duration) (now : instant) (p : Pipeline) : Prop := {
  po_guard : guardOk ttl now (plDedup p) (plGuarded p);
  po_keys : webhookKeys (plGuarded p) = map keyOf (plReceived p);
}.

Lemma step_ok ttl now s p :
  0 <= ttl -> now <= otCheck1 (stepTimes s) -> otCheck1 (stepTimes s) <= otCheck2 (stepTimes s) ->
  otCheck2 (stepTimes s) <= otMark1 (stepTimes s) -> otMark1 (stepTimes s) <= otMark2 (stepTimes s) ->
  pipeOk ttl now p -> pipeOk ttl (otMark2 (stepTimes s)) (runStep s p).2.
Proof.
  intros Ht H1 H2 H3 H4 [Hg Hk].
  assert (Hlater : pipeOk ttl (otMark2 (stepTimes s)) p)
    by (split; [by apply (guard_later ttl now); [lia|]|done]).
  pose proof (fun scope id Hsc => guard_step ttl now scope id _ _ _ _ _ _ Ht H1 H2 H3 H4 Hsc Hg) as Hstep.
  destruct s as [env ts [m|]|send ts [m|]]; cbn [runStep IncomingHandle WebhookHandle stepTimes] in *; try done.
  - destruct (ieEvent m) as [e|]; [|done].
    specialize (Hstep QueueIncomingEvents (ieMessageID m) eq_refl).
    destruct (IsDuplicate _ _ _ _ _) as [dup d]. destruct Hstep as [Hkeep Hmark].
    destruct dup; [by split|]. destruct (buildQueuedPayload _ e) as [payload|]; [|by split].
    destruct (inSubs env _) as [subs|]; [|by split]. destruct (publishAll _ _) as [sent ok].
    destruct ok; split; cbn [plDedup plGuarded plReceived marking publishing withDedup snd]; auto.
  - specialize (Hstep QueueWebhookDelivery (webhookDedupKey (wmMessageID m) (wmWebhookURL m)) eq_refl).
    destruct (IsDuplicate _ _ _ _ _) as [dup d]. destruct Hstep as [Hkeep Hmark].
    destruct dup; [by split|]. destruct (send m) as [[]|]; [|by split..].
    split; cbn [plDedup plGuarded plReceived marking withDedup snd]; [by apply Hmark|].
    unfold webhookKeys in *. cbn [List.filter gdScope]. rewrite bool_decide_eq_true_2 by done.
    cbn [map gdId]. rewrite reverse_cons, Hk, map_app. done.
Qed.

Lemma steps_ok ttl ss now p :
  0 <= ttl -> timesOk now (map stepTimes ss) -> pipeOk ttl now p ->
  exists now', pipeOk ttl now' (runSteps ss p).2.
Proof.
  intros Ht. revert now p. induction ss as [|s ss IH]; intros now p Hc Hp; [by exists now|].
  destruct Hc as (H1 & H2 & H3 & H4 & Hc). cbn [runSteps].
  pose proof (step_ok ttl now s p Ht H1 H2 H3 H4 Hp) as Hp1.
  destruct (runStep s p) as [o p1]. destruct (IH _ p1 Hc Hp1) as (now' & Hp').
  destruct (runSteps ss p1) as [os p2]. by exists now'.
Qed.


(** ** Fan-out *)

(** The webhook messages an event is worth. *)
Definition wanted (m : IncomingEventMessage) (payload : Payload) (subs : list WebhookSubscription)
    : list WebhookDeliveryMessage :=
  map (webhookMessage m payload) (recipients EventMessageIncoming subs).

Definition allAccepted (accepts : string -> bool) (l : list WebhookDeliveryMessage) : bool :=
  forallb (fun w => accepts (wmWebhookURL w)) l.

(** The messages published before the first refusal. *)
Definition published (accepts : string -> bool) (l : list WebhookDeliveryMessage)
    : list WebhookDeliveryMessage := (publishAll accepts l).1.

Lemma publishAll_spec accepts l :
  publishAll accepts l = (published accepts l, allAccepted accepts l)
  /\ (if allAccepted accepts l then published accepts l = l
      else exists w rest, l = published accepts l ++ w :: rest /\ accepts (wmWebhookURL w) = false).
Proof.
  unfold published, allAccepted. induction l as [|w l [IH1 IH2]]; cbn; [done|].
  destruct (accepts (wmWebhookURL w)) eqn:E; cbn; [|split; [done|by exists w, l]].
  destruct (publishAll accepts l) as [sent ok]. cbn in *. injection IH1 as ->. split; [done|].
  destruct (forallb _ l); cbn; [by rewrite IH2|].
  destruct IH2 as (w' & rest & Heq & Hw). exists w', rest. split; [|done]. by rewrite Heq at 1.
Qed.

(** A try at an event: what the publisher accepts, and the clock. *)
Abbreviation Try := ((string -> bool) * OutTimes)%type.

Section FanOut.
Context (ttl : duration) (m : IncomingEventMessage) (e : Event) (dl : Downloader)
  (payload : Payload) (subs : list WebhookSubscription).
Context (Httl : 0 <= ttl) (Hevent : ieEvent m = Some e)
  (Hpayload : buildQueuedPayload dl e = Ret payload).

Definition tryStep (t : Try) : Step :=
  Incoming (mkIncomingEnv dl (fun _ => Some subs) t.1) t.2 (Some m).

Definition unmarked (p : Pipeline) : Prop :=
  ieMessageID m <> ""%string ->
  lastMark QueueIncomingEvents (ieMessageID m) (marksOf (plGuarded p)) = None.

Lemma first_try_unmarked now p ts :
  now <= otCheck1 ts -> otCheck1 ts <= otCheck2 ts -> guardOk ttl now (plDedup p) (plGuarded p) ->
  unmarked p ->
  (IsDuplicate QueueIncomingEvents (ieMessageID m) (otCheck1 ts) (otCheck2 ts) (plDedup p)).1 = false.
Proof using Httl.
  intros H1 H2 (c & -> & Ha & _) Hu.
  destruct (query_agrees ttl now QueueIncomingEvents (ieMessageID m) (otCheck1 ts) (otCheck2 ts)
              (marksOf (plGuarded p)) c) as (c' & -> & _); try done.
  cbn. unfold isDuplicateSpec. destruct (decide (ieMessageID m = ""%string)) as [Hm|Hm].
  - by rewrite Hm, lastMark_empty by apply (ag_empty _ _ _ _ Ha).
  - by rewrite Hu.
Qed.

(** One try, when the event is not marked. *)
Lemma try_step now t p :
  now <= otCheck1 t.2 -> otCheck1 t.2 <= otCheck2 t.2 -> guardOk ttl now (plDedup p) (plGuarded p) ->
  unmarked p ->
  let (o, p1) := runStep (tryStep t) p in
  plPublished p1 = plPublished p ++ published t.1 (wanted m payload subs)
  /\ if allAccepted t.1 (wanted m payload subs)
     then o = HOk
          /\ plGuarded p1 = mkGuarded QueueIncomingEvents (ieMessageID m) (otCheck2 t.2) (otMark2 t.2)
                            :: plGuarded p
     else o = HErr None /\ plGuarded p1 = plGuarded p.
Proof using Httl Hevent Hpayload.
  intros H1 H2 Hg Hu. pose proof (first_try_unmarked now p t.2 H1 H2 Hg Hu) as Hd.
  cbn [runStep tryStep IncomingHandle]. rewrite Hevent. cbn [inDownloader inSubs inAccepts].
  destruct (IsDuplicate _ _ _ _ _) as [dup d]. cbn in Hd. subst dup. rewrite Hpayload.
  fold (wanted m payload subs). rewrite (proj1 (publishAll_spec t.1 (wanted m payload subs))).
  by destruct (allAccepted t.1 _).
Qed.

Lemma failed_tries now p tries :
  timesOk now (map snd tries) -> pipeOk ttl now p -> unmarked p ->
  Forall (fun t => allAccepted t.1 (wanted m payload subs) = false) tries ->
  let (os, p1) := runSteps (map tryStep tries) p in
  os = replicate (length tries) (HErr None)
  /\ plPublished p1 = plPublished p
       ++ List.concat (map (fun t => published t.1 (wanted m payload subs)) tries)
  /\ unmarked p1 /\ exists now', pipeOk ttl now' p1
       /\ forall rest, timesOk now (map snd tries ++ rest) -> timesOk now' rest.
Proof using Httl Hevent Hpayload.
  revert now p. induction tries as [|t tries IH]; intros now p Hc Hp Hu Hf.
  { cbn. rewrite app_nil_r. split_and!; [done..|]. by exists now. }
  apply Forall_cons in Hf as [Ht Hf]. destruct Hc as (H1 & H2 & H3 & H4 & Hc).
  pose proof (try_step now t p H1 H2 (po_guard _ _ _ Hp) Hu) as Hs.
  pose proof (step_ok ttl now (tryStep t) p Httl H1 H2 H3 H4 Hp) as Hp1.
  cbn [map runSteps]. destruct (runStep _ p) as [o p1]. rewrite Ht in Hs.
  destruct Hs as (Hpub & -> & Hg).
  specialize (IH _ p1 Hc Hp1 ltac:(unfold unmarked in *; by rewrite Hg) Hf).
  destruct (runSteps _ p1) as [os p2]. destruct IH as (-> & Hpub2 & Hu2 & now' & Hp2 & Hrest).
  split_and!; [done| |done|].
  - rewrite Hpub2, Hpub. cbn. by rewrite app_assoc.
  - exists now'. split; [done|]. intros rest (_ & _ & _ & _ & Hr). by apply Hrest.
Qed.

(** After the fan-out, within the TTL, a redelivery publishes nothing. *)
Lemma redelivery_skipped now p g ts :
  ieMessageID m <> ""%string -> pipeOk ttl now p ->
  head (plGuarded p) = Some (mkGuarded QueueIncomingEvents (ieMessageID m) g now) ->
  now <= otCheck1 ts -> otCheck1 ts <= otCheck2 ts -> otCheck2 ts < now + ttl ->
  forall env, (IncomingHandle env ts (Some m) p).1 = HOk
  /\ plPublished (IncomingHandle env ts (Some m) p).2 = plPublished p.
Proof using Httl Hevent.
  intros Hne [(c & Hc & Ha & _) _] Hh H1 H2 H3 env. cbn [IncomingHandle]. rewrite Hevent, Hc.
  destruct (query_agrees ttl now QueueIncomingEvents (ieMessageID m) (otCheck1 ts) (otCheck2 ts)
              (marksOf (plGuarded p)) c) as (c' & -> & _); try done.
  destruct (plGuarded p) as [|x l]; [done|]. injection Hh as ->.
  unfold isDuplicateSpec, marksOf. cbn [flat_map gdId gdScope gdMark].
  rewrite bool_decide_eq_false_2 by done. cbn [app lastMark].
  rewrite bool_decide_eq_true_2 by done. by rewrite (proj2 (Z.ltb_lt _ _) H3).
Qed.

End FanOut.

Lemma runSteps_app a b p :
  runSteps (a ++ b) p
  = let (os, p1) := runSteps a p in let (os', p2) := runSteps b p1 in (os ++ os', p2).
Proof.
  revert p. induction a as [|s a IH]; intros p; cbn [app runSteps]; [by destruct (runSteps b p)|].
  destruct (runStep s p) as [o p1]. rewrite IH. destruct (runSteps a p1) as [os p2].
  by destruct (runSteps b p2).
Qed.

Lemma published_prefix accepts l : published accepts l `prefix_of` l.
Proof.
  destruct (publishAll_spec accepts l) as [_ H]. destruct (allAccepted accepts l); [by rewrite H|].
  destruct H as (w & rest & Heq & _). by eexists.
Qed.


Definition sampleIncoming : IncomingEventMessage :=
  mkIncomingEvent "" "621" "621@s.whatsapp.net" (Some (sampleEvent sampleContact)) "m1" 7.

Definition twoSubs : list WebhookSubscription := [mkSub "https://a" "" ""; mkSub "https://b" "" ""].



(** ** Dead letters *)

(** The broker's entry for a message rejected from a queue, in front of what was there. *)
Definition rejection (queue : string) : Table :=
  <["reason" := FString "rejected"]> {["queue" := FString queue]}.

Definition isRejection (d : option Table) : bool :=
  match d with Some t => bool_decide (stringField "reason" t = Some "rejected"%string) | None => false end.

Lemma source_of_rejection queue before after :
  Forall (fun d => isRejection d = false) before ->
  dlqSourceQueue (Some (before ++ Some (rejection queue) :: after)) = queue.
Proof.
  intros Hb. unfold dlqSourceQueue.
  assert (rejectedQueue (before ++ Some (rejection queue) :: after) = Some queue) as ->; [|done].
  induction Hb as [|[d|] before Hd Hb IH]; cbn [app rejectedQueue]; [done| |done].
  cbn in Hd. by rewrite Hd.
Qed.

(** Who is told of a dead letter.  For a message that came, whatever retry queues it
    expired in, to be rejected by one of the work queues: a job's and an event's
    subscribers that listen to failures are all notified, in order, with a payload
    naming the work queue, when status events are on and the account and its
    subscriptions are found; a webhook's are not; and nothing is retried.  But when
    the account's client has no device (its [Store.ID] is nil, as after a logout
    through the API), the lookup panics: then the job itself panics instead of failing when it is tried,
    so it is dead-lettered without a retry, the dead-letter worker panics on it too, and
    rejects it from a queue that dead-letters nowhere: the client is never told. *)
Theorem dead_letters_notified (env : DlqEnv) (body : string) (before after : list (option Table))
    (cfg : WorkerConfig) (pub : PublishEnv) (fresh : string) (raw : list Byte.byte) :
  Forall (fun d => isRejection d = false) before -> deStatusEvents env = true ->
  let deaths source := Some (before ++ Some (rejection source) :: after) in
  (forall job jid subs, deParseJob env body = Some job -> deJid env (jbPhoneNumber job) = Ret (Some jid) ->
     deSubs env jid = Some subs ->
     DlqHandle env body (deaths QueueOutgoingMessages)
     = Ret (map (fun s => (subUrl s, deadJobPayload env QueueOutgoingMessages job))
              (recipients EventMessageFailed subs)))
  /\ (forall m subs, deParseEvent env body = Some m -> ieJID m <> ""%string -> deSubs env (ieJID m) = Some subs ->
     DlqHandle env body (deaths QueueIncomingEvents)
     = Ret (map (fun s => (subUrl s, deadEventPayload env QueueIncomingEvents m))
              (recipients EventMessageFailed subs)))
  /\ DlqHandle env body (deaths QueueWebhookDelivery) = Ret []
  /\ (forall job out ts s headers, deParseJob env body = Some job ->
       deJid env (jbPhoneNumber job) = Panic -> oeJid out (jbPhoneNumber job) = Panic ->
       oeStatusEvents out = true -> oePace out = PaceOk -> (sendJob out job).1 = None ->
       (IsDuplicate QueueOutgoingMessages (jbJobID job) (otCheck1 ts) (otCheck2 ts) (osDedup s)).1 = false ->
       processMessage cfg pub fresh QueueOutgoingMessages headers raw (fun _ => (Handle out ts (Some job) s).1)
         = (None, NackDead)
       /\ osHooks (Handle out ts (Some job) s).2 = osHooks s
       /\ deadLettered topology QueueOutgoingMessages = [DLQOutgoingMessages]
       /\ processMessage cfg pub fresh DLQOutgoingMessages headers raw
            (fun _ => dlqOutcome (DlqHandle env body (deaths QueueOutgoingMessages))) = (None, NackDead)
       /\ deadLettered topology DLQOutgoingMessages = []).
Proof.
  intros Hb Hs deaths. subst deaths.
  assert (Hsrc : forall q, dlqSourceQueue (Some (before ++ Some (rejection q) :: after)) = q)
    by (intros; by apply source_of_rejection).
  assert (Hpanic : forall job, deParseJob env body = Some job -> deJid env (jbPhoneNumber job) = Panic ->
            DlqHandle env body (Some (before ++ Some (rejection QueueOutgoingMessages) :: after)) = Panic).
  { intros job Hj Hp. unfold DlqHandle, notifyDeadLettered. rewrite Hsrc, Hj, Hs.
    rewrite !bool_decide_true by done. by rewrite Hp. }
  split_and!.
  - intros job jid subs Hj Hjid Hsubs. unfold DlqHandle, notifyDeadLettered. rewrite Hsrc, Hj, Hs.
    rewrite !bool_decide_true by done. rewrite Hjid. cbn [goBind negb]. by rewrite Hsubs.
  - intros m subs Hm Hne Hsubs. unfold DlqHandle, notifyDeadLettered. rewrite Hsrc, Hm, Hs.
    rewrite bool_decide_false, bool_decide_true, bool_decide_false by done. cbn [goBind negb]. by rewrite Hsubs.
  - unfold DlqHandle. by rewrite Hsrc.
  - intros job out ts s headers Hj Hp Hop Hoe Hpace Hsend Hdup.
    assert (Hh : (Handle out ts (Some job) s).1 = HPanic /\ osHooks (Handle out ts (Some job) s).2 = osHooks s).
    { cbn [Handle]. destruct (IsDuplicate _ _ _ _ _) as [dup d]. cbn in Hdup. subst dup. rewrite Hpace.
      destruct (sendJob out job) as [sent called]. cbn in Hsend. subst sent.
      unfold sendStatusWebhook. by rewrite Hoe, Hop. }
    destruct Hh as [Hh1 Hh2]. unfold processMessage. rewrite Hh1, (Hpanic job Hj Hp).
    split_and!; reflexivity || done.
Qed.

Definition sampleDlqEnv (jid : go (option string)) : DlqEnv :=
  mkDlqEnv (fun _ => Some sampleJob) (fun _ => Some sampleIncoming) true (fun _ => jid) (fun _ => Some twoSubs) 9.

Lemma dead_letters_notified_witness :
  let deaths := Some [None; Some (rejection QueueOutgoingMessages)] in
  DlqHandle (sampleDlqEnv (Ret (Some "621@s.whatsapp.net"%string))) "" deaths
  = Ret (map (fun s => (subUrl s,
                deadJobPayload (sampleDlqEnv (Ret (Some "621@s.whatsapp.net"%string))) QueueOutgoingMessages sampleJob))
           (recipients EventMessageFailed twoSubs))
  /\ (let out := mkOutEnv PaceOk (fun _ => None) (fun _ _ => None) true true (fun _ => Panic) (fun _ => None) in
      let s := mkOutState None ∅ [] [] in
      let job := Handle out (mkOutTimes 1 2 3 4) (Some sampleJob) s in
      processMessage (mkWorkerConfig 3 true) (mkPublishEnv false (Some true)) "" QueueOutgoingMessages None []
        (fun _ => job.1) = (None, NackDead)
      /\ osHooks job.2 = osHooks s
      /\ deadLettered topology QueueOutgoingMessages = [DLQOutgoingMessages]
      /\ processMessage (mkWorkerConfig 3 true) (mkPublishEnv false (Some true)) "" DLQOutgoingMessages None []
           (fun _ => dlqOutcome (DlqHandle (sampleDlqEnv Panic) "" deaths)) = (None, NackDead)
      /\ deadLettered topology DLQOutgoingMessages = []).
Proof.
  split.
  - eapply (proj1 (dead_letters_notified (sampleDlqEnv (Ret (Some "621@s.whatsapp.net"%string))) ""
      [None] [] (mkWorkerConfig 3 true) (mkPublishEnv false (Some true)) "" []
      ltac:(repeat constructor) eq_refl)); reflexivity.
  - eapply (proj2 (proj2 (proj2 (dead_letters_notified (sampleDlqEnv Panic) "" [None] []
      (mkWorkerConfig 3 true) (mkPublishEnv false (Some true)) "" []
      ltac:(repeat constructor) eq_refl)))); reflexivity.
Defined.
