(* ===== verification/Html.v ===== *)
(** * Templates

    The documents that the templates of [rapidoc-min.js] render to, as trees of
    elements, texts and generated HTML.  An attribute carries the string the template
    interpolates, a flag ([?name=]) or what a property or an event is bound to ([.name=],
    [@name=]), of a type [B] that the templates' users choose.

    A conditional piece that yields the empty string is the empty list of nodes.  White
    space around the pieces of a template, and the template's comments, are not kept.
    The observers read a document the way a query of the DOM does, in document order. *)

From stdpp Require Import strings numbers list sets.
From S2P Require Import Prelude JsString.

Open Scope N_scope.

(** ** Literals *)

(** A literal of the source, from its UTF-8 bytes to UTF-16 code units. *)
Fixpoint u8 (s : string) : jstr :=
  match s with
  | EmptyString => []
  | String a r =>
      let b := Ascii.N_of_ascii a in
      let tail c := Ascii.N_of_ascii c - 128 in
      if b <? 128 then b :: u8 r
      else match r with
      | String c1 r1 =>
          if b <? 224 then (b - 192) * 64 + tail c1 :: u8 r1
          else match r1 with
          | String c2 r2 =>
              if b <? 240 then (b - 224) * 4096 + tail c1 * 64 + tail c2 :: u8 r2
              else match r2 with
              | String c3 r3 =>
                  let v := (b - 240) * 262144 + tail c1 * 4096 + tail c2 * 64 + tail c3
                           - 65536 in
                  55296 + v / 1024 :: 56320 + v mod 1024 :: u8 r3
              | EmptyString => []
              end
          | EmptyString => []
          end
      | EmptyString => []
      end
  end.
#[global] Arguments u8 : simpl never.

Notation "a === b" := (bool_decide (a = b)) (at level 70) : gateway_scope.

Close Scope N_scope.

(** ** Joining and splitting *)

(** [l.join(sep)]. *)
Definition joinWith (sep : jstr) (l : list jstr) : jstr :=
  match l with [] => [] | x :: r => x ++ flat_map (fun y => sep ++ y) r end.

Lemma joinWith_cons s x y l : joinWith s (x :: y :: l) = x ++ s ++ joinWith s (y :: l).
Proof. simpl. by rewrite <- !app_assoc. Qed.

(** What is joined with a unit splits again, if no part has the unit. *)
Lemma splitOn_joinWith c l :
  l <> [] -> Forall (fun x => c ∉ x) l -> splitOn c (joinWith [c] l) = l.
Proof.
  intros Hne H. induction l as [|x l IH]; [done|]. apply Forall_cons in H as [Hx H].
  destruct l as [|y l]; [simpl; rewrite app_nil_r; by apply splitOn_none|].
  rewrite joinWith_cons. change (x ++ [c] ++ joinWith [c] (y :: l))
    with (x ++ c :: joinWith [c] (y :: l)).
  rewrite splitOn_app by done. by rewrite IH.
Qed.

(** ** Documents *)

Section html.
Context {B : Type}.

Inductive attr :=
| At (name : string) (value : jstr)
| Flag (name : string) (on : bool)
| Bind (name : string) (b : B).

Inductive node :=
| El (tag : string) (ats : list attr) (kids : list node)
| Txt (s : jstr)
| Raw (s : jstr).

Definition html : Type := list node.

Definition el (tag : string) (ats : list attr) (kids : html) : html := [El tag ats kids].
Definition txt (s : jstr) : html := match s with [] => [] | _ => [Txt s] end.
Definition raw (s : jstr) : html := [Raw s].
Definition when {A} (b : bool) (l : list A) : list A := if b then l else [].
Definition unless {A} (b : bool) (l : list A) : list A := if b then [] else l.

(** ** Observers *)

(** The elements of a node in document order. *)
Fixpoint elemsOf (n : node) : list (string * list attr) :=
  match n with
  | El t ats kids => (t, ats) :: flat_map elemsOf kids
  | Txt _ | Raw _ => []
  end.

Definition elems (h : html) : list (string * list attr) := flat_map elemsOf h.

(** The generated HTML of a node. *)
Fixpoint rawsOf (n : node) : list jstr :=
  match n with
  | El _ _ kids => flat_map rawsOf kids
  | Txt _ => []
  | Raw s => [s]
  end.

Definition raws (h : html) : list jstr := flat_map rawsOf h.

(** The text of a document, in document order. *)
Fixpoint textOf (n : node) : jstr :=
  match n with
  | El _ _ kids => flat_map textOf kids
  | Txt s => s
  | Raw _ => []
  end.

Definition text (h : html) : jstr := flat_map textOf h.

(** What an observer takes from the elements of a document, in document order. *)
Definition collect {X} (g : string -> list attr -> list X) (h : html) : list X :=
  flat_map (fun e => g e.1 e.2) (elems h).

Definition getAt (name tag : string) (ats : list attr) : list jstr :=
  flat_map (fun a => match a with
                     | At n v => if String.eqb n name then [v] else []
                     | _ => []
                     end) ats.

Definition getBind (name tag : string) (ats : list attr) : list B :=
  flat_map (fun a => match a with
                     | Bind n b => if String.eqb n name then [b] else []
                     | _ => []
                     end) ats.

(** The values of an attribute, and of a binding, over a document. *)
Definition attrs (name : string) (h : html) : list jstr := collect (getAt name) h.
Definition binds (name : string) (h : html) : list B := collect (getBind name) h.

Lemma text_app h k : text (h ++ k) = text h ++ text k.
Proof. apply flat_map_app. Qed.

Lemma text_el t ats kids : text (el t ats kids) = text kids.
Proof. apply app_nil_r. Qed.

Lemma text_txt s : text (txt s) = s.
Proof. destruct s; [done|]. apply app_nil_r. Qed.

(** ** Equations of the observers *)

Section collect.
Context {X : Type} (g : string -> list attr -> list X).

Lemma collect_app h k : collect g (h ++ k) = collect g h ++ collect g k.
Proof. unfold collect, elems. by rewrite !flat_map_app. Qed.

Lemma collect_el t ats kids : collect g (el t ats kids) = g t ats ++ collect g kids.
Proof. unfold collect, el, elems. simpl. by rewrite app_nil_r. Qed.

Lemma collect_txt s : collect g (txt s) = [].
Proof. by destruct s. Qed.

Lemma collect_flat_map {A} (f : A -> html) l :
  collect g (flat_map f l) = flat_map (fun x => collect g (f x)) l.
Proof. induction l as [|x l IH]; [done|]. simpl. by rewrite collect_app, IH. Qed.

(** The same equations for the tactic below, which puts the results together. *)
Lemma eq_app {h k v w} :
  collect g h = v -> collect g k = w -> collect g (h ++ k) = v ++ w.
Proof. intros <- <-. apply collect_app. Qed.
Lemma eq_app_l {h k v} : collect g h = v -> collect g k = [] -> collect g (h ++ k) = v.
Proof. intros <- H. by rewrite collect_app, H, app_nil_r. Qed.
Lemma eq_app_r {h k w} : collect g h = [] -> collect g k = w -> collect g (h ++ k) = w.
Proof. intros H <-. by rewrite collect_app, H. Qed.
Lemma eq_el {t ats k v w} :
  g t ats = v -> collect g k = w -> collect g (el t ats k) = v ++ w.
Proof. intros <- <-. apply collect_el. Qed.
Lemma eq_el_l {t ats k v} : g t ats = v -> collect g k = [] -> collect g (el t ats k) = v.
Proof. intros <- H. by rewrite collect_el, H, app_nil_r. Qed.
Lemma eq_el_r {t ats k w} : g t ats = [] -> collect g k = w -> collect g (el t ats k) = w.
Proof. intros H <-. by rewrite collect_el, H. Qed.
Lemma eq_when {b h v} : collect g h = v -> collect g (when b h) = when b v.
Proof. intros <-. by destruct b. Qed.
Lemma eq_when_nil {b h} : collect g h = [] -> collect g (when b h) = [].
Proof. by destruct b. Qed.
Lemma eq_unless {b h v} : collect g h = v -> collect g (unless b h) = unless b v.
Proof. intros <-. by destruct b. Qed.
Lemma eq_unless_nil {b h} : collect g h = [] -> collect g (unless b h) = [].
Proof. by destruct b. Qed.
Lemma eq_if {b : bool} {h k v w} :
  collect g h = v -> collect g k = w ->
  collect g (if b then h else k) = if b then v else w.
Proof. intros <- <-. by destruct b. Qed.
Lemma eq_if_nil {b : bool} {h k} :
  collect g h = [] -> collect g k = [] -> collect g (if b then h else k) = [].
Proof. by destruct b. Qed.
Lemma eq_opt {A} {o : option A} {f h v w} :
  (forall x, collect g (f x) = v x) -> collect g h = w ->
  collect g (match o with Some x => f x | None => h end)
  = match o with Some x => v x | None => w end.
Proof. intros H <-. by destruct o. Qed.
Lemma eq_opt_nil {A} {o : option A} {f h} :
  (forall x, collect g (f x) = []) -> collect g h = [] ->
  collect g (match o with Some x => f x | None => h end) = [].
Proof. intros H ?. by destruct o. Qed.
Lemma eq_flat_map {A} {f : A -> html} {l v} :
  (forall x, collect g (f x) = v x) -> collect g (flat_map f l) = flat_map v l.
Proof. intros H. rewrite collect_flat_map. by induction l; simpl; [|rewrite H, IHl]. Qed.
Lemma eq_flat_map_nil {A} {f : A -> html} {l} :
  (forall x, collect g (f x) = []) -> collect g (flat_map f l) = [].
Proof. intros H. rewrite collect_flat_map. by induction l; simpl; [|rewrite H, IHl]. Qed.
Lemma eq_flat_map_pair {A C} {f : A -> C -> html} {l v} :
  (forall x y, collect g (f x y) = v x y) ->
  collect g (flat_map (fun '(x, y) => f x y) l) = flat_map (fun '(x, y) => v x y) l.
Proof.
  intros H. rewrite collect_flat_map. by induction l as [|[]]; simpl; [|rewrite H, IHl].
Qed.
Lemma eq_flat_map_pair_nil {A C} {f : A -> C -> html} {l} :
  (forall x y, collect g (f x y) = []) -> collect g (flat_map (fun '(x, y) => f x y) l) = [].
Proof.
  intros H. rewrite collect_flat_map. by induction l as [|[]]; simpl; [|rewrite H, IHl].
Qed.

End collect.

End html.

#[global] Arguments attr : clear implicits.
#[global] Arguments node : clear implicits.
#[global] Arguments html : clear implicits.

Notation "n =: v" := (At n v) (at level 70) : gateway_scope.
Notation "n =! b" := (Flag n b) (at level 70) : gateway_scope.
Notation "n =@ b" := (Bind n b) (at level 70) : gateway_scope.

(** Documents stay folded; the observers go through the equations. *)
#[global] Arguments el : simpl never.
#[global] Arguments txt : simpl never.
#[global] Arguments collect : simpl never.
#[global] Arguments attrs : simpl never.
#[global] Arguments binds : simpl never.

(** What an observer finds in a part that a definition of its own renders. *)
Class Collects {B X} (g : string -> list (attr B) -> list X) (h : html B) (v : list X) :=
  collects : collect g h = v.
#[global] Hint Mode Collects - - ! ! - : typeclass_instances.

(** The proof that an observer yields a list on a document: it computes on the fixed
    parts of a template, keeps its conditions and repetitions, and drops the parts in
    which there is nothing to observe. *)
Ltac collect_result p := lazymatch type of p with _ = ?v => v end.

Ltac collect_eq g h :=
  lazymatch h with
  | [] => constr:(@eq_refl _ (collect g h) : collect g h = [])
  | txt ?s => constr:(collect_txt g s)
  | raw ?s => constr:(@eq_refl _ (collect g h) : collect g h = [])
  | ?a ++ ?b =>
      let p := collect_eq g a in let q := collect_eq g b in
      lazymatch type of p with
      | _ = [] => constr:(eq_app_r g p q)
      | _ => lazymatch type of q with
             | _ = [] => constr:(eq_app_l g p q)
             | _ => constr:(eq_app g p q)
             end
      end
  | el ?t ?ats ?k =>
      let q := collect_eq g k in
      let v := eval cbn [getAt getBind flat_map String.eqb Ascii.eqb Bool.eqb app]
                 in (g t ats) in
      let p := constr:(@eq_refl _ v : g t ats = v) in
      lazymatch v with
      | [] => constr:(eq_el_r g p q)
      | _ => lazymatch type of q with
             | _ = [] => constr:(eq_el_l g p q)
             | _ => constr:(eq_el g p q)
             end
      end
  | when ?b ?k =>
      let q := collect_eq g k in
      lazymatch type of q with
      | _ = [] => constr:(eq_when_nil g (b := b) q)
      | _ => constr:(eq_when g (b := b) q)
      end
  | unless ?b ?k =>
      let q := collect_eq g k in
      lazymatch type of q with
      | _ = [] => constr:(eq_unless_nil g (b := b) q)
      | _ => constr:(eq_unless g (b := b) q)
      end
  | if ?b then ?k1 else ?k2 =>
      let p := collect_eq g k1 in let q := collect_eq g k2 in
      lazymatch type of p with
      | _ = [] => lazymatch type of q with
                  | _ = [] => constr:(eq_if_nil g (b := b) p q)
                  | _ => constr:(eq_if g (b := b) p q)
                  end
      | _ => constr:(eq_if g (b := b) p q)
      end
  | match ?o with Some x => @?f x | None => ?k end =>
      let q := collect_eq g k in
      let p := collect_under g f in
      lazymatch type of p with
      | forall x, _ = [] => lazymatch type of q with
                            | _ = [] => constr:(eq_opt_nil g (o := o) p q)
                            | _ => constr:(eq_opt g (o := o) p q)
                            end
      | _ => constr:(eq_opt g (o := o) p q)
      end
  | flat_map (fun '(x, y) => @?f x y) ?l =>
      let p := collect_under2 g f in
      lazymatch type of p with
      | forall x y, _ = [] => constr:(eq_flat_map_pair_nil g (l := l) p)
      | _ => constr:(eq_flat_map_pair g (l := l) p)
      end
  | flat_map ?f ?l =>
      let p := collect_under g f in
      lazymatch type of p with
      | forall x, _ = [] => constr:(eq_flat_map_nil g (l := l) p)
      | _ => constr:(eq_flat_map g (l := l) p)
      end
  | _ =>
      match constr:(Set) with
      | _ =>
          let c := constr:(ltac:(eapply (collects (g := g) (h := h))) : collect g h = _) in
          let t := type of c in
          lazymatch t with
          | _ = ?v => constr:(c : collect g h = v)
          end
      | _ => constr:(@eq_refl _ (collect g h))
      end
  end
with collect_under g f :=
  lazymatch type of f with
  | forall x : ?A, _ =>
      let y := fresh "y" in
      constr:(fun y : A => ltac:(
        let h := eval cbv beta in (f y) in
        let p := collect_eq g h in exact p))
  end
with collect_under2 g f :=
  lazymatch type of f with
  | forall (x : ?A) (y : ?C), _ =>
      let u := fresh "u" in let w := fresh "w" in
      constr:(fun (u : A) (w : C) => ltac:(
        let h := eval cbv beta in (f u w) in
        let p := collect_eq g h in exact p))
  end.

(** Rewrites the observers of the goal. *)
Ltac collect_simpl :=
  unfold attrs, binds;
  repeat match goal with
  | |- context [collect ?g ?h] =>
      let p := collect_eq g h in
      lazymatch type of p with
      | _ = ?r =>
          tryif constr_eq r (collect g h) then fail else (
            let E := fresh in
            assert (E : collect g h = r) by exact p; rewrite E; clear E)
      end
  end.

Section lists.
Context {A C : Type}.

Lemma when_nil (b : bool) : when b [] = @nil A.
Proof. by destruct b. Qed.

Lemma unless_nil (b : bool) : unless b [] = @nil A.
Proof. by destruct b. Qed.

Lemma if_nil (b : bool) : (if b then [] else []) = @nil A.
Proof. by destruct b. Qed.

Lemma flat_map_nil (l : list C) : flat_map (fun _ => []) l = @nil A.
Proof. by induction l. Qed.

Lemma flat_map_single (f : C -> A) l : flat_map (fun x => [f x]) l = map f l.
Proof. induction l; simpl; by f_equal. Qed.

Lemma elem_of_when (x : A) (b : bool) l : x ∈ when b l <-> b = true /\ x ∈ l.
Proof. destruct b; simpl; set_solver. Qed.

Lemma elem_of_unless (x : A) (b : bool) l : x ∈ unless b l <-> b = false /\ x ∈ l.
Proof. destruct b; simpl; set_solver. Qed.

Lemma elem_of_flat_map (f : C -> list A) l y :
  y ∈ flat_map f l <-> exists x, x ∈ l /\ y ∈ f x.
Proof.
  rewrite list_elem_of_In, in_flat_map. by setoid_rewrite list_elem_of_In.
Qed.

Lemma flat_map_ext_in (f g : C -> list A) l :
  (forall x, x ∈ l -> f x = g x) -> flat_map f l = flat_map g l.
Proof.
  intros H. induction l as [|x l IH]; [done|]. simpl.
  rewrite H, IH; [done|set_solver|set_solver].
Qed.

End lists.
