(* ===== verification/RapidocUrl.v ===== *)
(** * RapiDoc: texts in URLs

    What the request of the API explorer uses of JavaScript and of the browser to put
    texts into a URL: [encodeURIComponent], the serialisation of [URLSearchParams], and,
    to state what the receiver of a URL reads, the parsing of a query. *)

From stdpp Require Import strings numbers list sets.
From S2P Require Import Prelude JsString Html.

Open Scope N_scope.

(** ** UTF-8 *)

Definition isHigh (c : N) : bool := (55296 <=? c) && (c <? 56320).
Definition isLow (c : N) : bool := (56320 <=? c) && (c <? 57344).

(** The code points of a string; a surrogate on its own is U+FFFD. *)
Fixpoint scalars (s : jstr) : list N :=
  match s with
  | [] => []
  | h :: r =>
      if isHigh h then
        match r with
        | l :: r' =>
            if isLow l then 65536 + (h - 55296) * 1024 + (l - 56320) :: scalars r'
            else 65533 :: scalars r
        | [] => [65533]
        end
      else if isLow h then 65533 :: scalars r
      else h :: scalars r
  end.

(** No surrogate stands on its own. *)
Fixpoint wellFormed (s : jstr) : bool :=
  match s with
  | [] => true
  | h :: r =>
      if isHigh h then match r with l :: r' => isLow l && wellFormed r' | [] => false end
      else negb (isLow h) && wellFormed r
  end.

Definition utf8Char (c : N) : list N :=
  if c <? 128 then [c]
  else if c <? 2048 then [192 + c / 64; 128 + c mod 64]
  else if c <? 65536 then [224 + c / 4096; 128 + (c / 64) mod 64; 128 + c mod 64]
  else [240 + c / 262144; 128 + (c / 4096) mod 64; 128 + (c / 64) mod 64; 128 + c mod 64].

Definition utf8 (s : jstr) : list N := flat_map utf8Char (scalars s).

(** A list of UTF-16 code units. *)
Definition units (s : jstr) : bool := forallb (fun c => c <? 65536) s.

(** ** Escapes *)

Definition hexDigit (d : N) : N := if d <? 10 then 48 + d else 55 + d.
Definition pct (b : N) : jstr := [37; hexDigit (b / 16); hexDigit (b mod 16)].

Definition isAlnum (c : N) : bool := isUpper c || isLower c || isDigit c.

(** What [encodeURIComponent] leaves: letters, digits and [-_.!~*'()]. *)
Definition unreserved (c : N) : bool :=
  isAlnum c || existsb (N.eqb c) [45; 95; 46; 33; 126; 42; 39; 40; 41].

(** [encodeURIComponent(s)]; it throws on a surrogate on its own. *)
Definition encodeURIComponent (s : jstr) : option jstr :=
  if wellFormed s then Some (flat_map (fun b => if unreserved b then [b] else pct b) (utf8 s))
  else None.

(** The serialisation of [URLSearchParams] leaves letters, digits and [*-._], and writes
    a space as [+]. *)
Definition formByte (b : N) : jstr :=
  if b =? 32 then [43]
  else if isAlnum b || existsb (N.eqb b) [42; 45; 46; 95] then [b] else pct b.

Definition formText (s : jstr) : jstr := flat_map formByte (utf8 s).

Definition formPair (p : jstr * jstr) : jstr := formText p.1 ++ [61] ++ formText p.2.

(** [new URLSearchParams(l).toString()]. *)
Definition formString (l : list (jstr * jstr)) : jstr := joinWith [38] (map formPair l).

(** ** The receiver *)

Definition hexVal (c : N) : option N :=
  if isDigit c then Some (c - 48)
  else if (65 <=? c) && (c <=? 70) then Some (c - 55)
  else if (97 <=? c) && (c <=? 102) then Some (c - 87)
  else None.

(** The bytes of a component, [+] being a space. *)
Fixpoint unescape (s : jstr) : list N :=
  match s with
  | [] => []
  | c :: r =>
      if c =? 43 then 32 :: unescape r
      else if c =? 37 then
        match r with
        | a :: b :: r' =>
            match hexVal a, hexVal b with
            | Some x, Some y => 16 * x + y :: unescape r'
            | _, _ => c :: unescape r
            end
        | _ => c :: unescape r
        end
      else c :: unescape r
  end.

(** What is before and after the first [c]. *)
Fixpoint cutAt (c : N) (s : jstr) : jstr * option jstr :=
  match s with
  | [] => ([], None)
  | x :: r =>
      if x =? c then ([], Some r) else let p := cutAt c r in (x :: p.1, p.2)
  end.

Definition queryPair (s : jstr) : list N * list N :=
  let p := cutAt 61 s in (unescape p.1, unescape (default [] p.2)).

(** The names and values of a query, in bytes. *)
Definition parseQuery (s : jstr) : list (list N * list N) :=
  map queryPair (List.filter (fun e => match e with [] => false | _ => true end)
                   (splitOn 38 s)).

(** ** decodeURIComponent *)

(** The units of a text, and the bytes of its escapes; an escape that is none throws. *)
Fixpoint escapeItems (s : jstr) : option (list (N + N)) :=
  match s with
  | [] => Some []
  | c :: r =>
      if c =? 37 then
        match r with
        | a :: b :: r' =>
            x ← hexVal a; y ← hexVal b; l ← escapeItems r'; Some (inr (16 * x + y) :: l)
        | _ => None
        end
      else l ← escapeItems r; Some (inl c :: l)
  end.

Definition isTail (b : N) : bool := (128 <=? b) && (b <? 192).

Definition utf16 (c : N) : jstr :=
  if c <? 65536 then [c] else [55296 + (c - 65536) / 1024; 56320 + (c - 65536) mod 1024].

(** The characters of the bytes, which have to be UTF-8 in its shortest form. *)
Fixpoint itemsText (l : list (N + N)) : option jstr :=
  match l with
  | [] => Some []
  | inl c :: r => t ← itemsText r; Some (c :: t)
  | inr b :: r =>
      if b <? 128 then t ← itemsText r; Some (b :: t)
      else if (194 <=? b) && (b <? 224) then
        match r with
        | inr x :: r' =>
            if isTail x then t ← itemsText r'; Some ((b - 192) * 64 + (x - 128) :: t) else None
        | _ => None
        end
      else if (224 <=? b) && (b <? 240) then
        match r with
        | inr x :: inr y :: r' =>
            let c := (b - 224) * 4096 + (x - 128) * 64 + (y - 128) in
            if isTail x && isTail y && (2048 <=? c) && negb (isHigh c || isLow c)
            then t ← itemsText r'; Some (c :: t) else None
        | _ => None
        end
      else if (240 <=? b) && (b <? 245) then
        match r with
        | inr x :: inr y :: inr z :: r' =>
            let c := (b - 240) * 262144 + (x - 128) * 4096 + (y - 128) * 64 + (z - 128) in
            if isTail x && isTail y && isTail z && (65536 <=? c) && (c <? 1114112)
            then t ← itemsText r'; Some (utf16 c ++ t) else None
        | _ => None
        end
      else None
  end.

(** [decodeURIComponent(s)]; [None] is a [URIError]. *)
Definition decodeURIComponent (s : jstr) : option jstr := l ← escapeItems s; itemsText l.

(** ** Properties *)

(** Every code point has one, two or three units less to go through. *)
Lemma scalars_bound s : units s = true -> Forall (fun c => c < 1114112) (scalars s).
Proof.
  enough (forall n s, (length s <= n)%nat -> units s = true ->
            Forall (fun c => c < 1114112) (scalars s)) by eauto.
  clear s. induction n as [|n IH]; intros [|h r] Hn Hs; simpl in *; try constructor; [lia|].
  apply andb_true_iff in Hs as [Hh Hr]. apply N.ltb_lt in Hh.
  assert (IHr : Forall (fun c => c < 1114112) (scalars r)) by (apply IH; [lia|done]).
  destruct (isHigh h) eqn:E1; [|by destruct (isLow h); constructor; try lia].
  destruct r as [|l r']; [constructor; [lia|constructor]|].
  unfold isHigh in E1. apply andb_true_iff in E1 as [E1 E2].
  apply N.leb_le in E1. apply N.ltb_lt in E2.
  destruct (isLow l) eqn:E3; [|by constructor; [lia|]].
  unfold isLow in E3. apply andb_true_iff in E3 as [E3 E4].
  apply N.leb_le in E3. apply N.ltb_lt in E4.
  constructor; [lia|]. apply IH; simpl in *; [lia|].
  by apply andb_true_iff in Hr as [_ Hr].
Qed.

Lemma utf8Char_bytes c : c < 1114112 -> Forall (fun b => b < 256) (utf8Char c).
Proof.
  intros Hc. unfold utf8Char.
  destruct (N.ltb_spec c 128); [repeat constructor; lia|].
  destruct (N.ltb_spec c 2048); [|destruct (N.ltb_spec c 65536)];
    repeat constructor; Z.div_mod_to_equations; lia.
Qed.

Lemma utf8_bytes s : units s = true -> Forall (fun b => b < 256) (utf8 s).
Proof.
  intros Hs. unfold utf8. induction (scalars_bound s Hs) as [|c l Hc Hl IH]; simpl; [constructor|].
  apply Forall_app. split; [by apply utf8Char_bytes|done].
Qed.

(** *** An escape is read back *)

Lemma hexVal_hexDigit d : d < 16 -> hexVal (hexDigit d) = Some d.
Proof.
  intros H. unfold hexDigit, hexVal, isDigit.
  destruct (N.ltb_spec d 10).
  - rewrite (proj2 (N.leb_le _ _)), (proj2 (N.leb_le _ _)) by lia. simpl. f_equal. lia.
  - rewrite (proj2 (N.leb_gt (55 + d) 57)), andb_false_r by lia.
    rewrite (proj2 (N.leb_le _ _)), (proj2 (N.leb_le _ _)) by lia. simpl. f_equal. lia.
Qed.

Lemma unescape_pct b r : b < 256 -> unescape (pct b ++ r) = b :: unescape r.
Proof.
  intros H. unfold pct. cbn [app unescape]. simpl (37 =? 43). simpl (37 =? 37). cbv iota.
  rewrite !hexVal_hexDigit by (Z.div_mod_to_equations; lia). f_equal.
  symmetry. rewrite (N.div_mod b 16) at 1 by done. done.
Qed.

Lemma unescape_plain c r : c <> 43 -> c <> 37 -> unescape (c :: r) = c :: unescape r.
Proof. intros H1 H2. simpl. by rewrite (proj2 (N.eqb_neq _ _) H1), (proj2 (N.eqb_neq _ _) H2). Qed.

(** A map of bytes to texts that are read back is read back. *)
Lemma unescape_flat_map (f : N -> jstr) :
  (forall b r, b < 256 -> unescape (f b ++ r) = b :: unescape r) ->
  forall l r, Forall (fun b => b < 256) l -> unescape (flat_map f l ++ r) = l ++ unescape r.
Proof.
  intros Hf l r. induction 1 as [|b l Hb Hl IH]; simpl; [done|].
  by rewrite <- app_assoc, Hf, IH.
Qed.

Lemma isAlnum_spec c :
  isAlnum c = true -> (48 <= c /\ c <= 57) \/ (65 <= c /\ c <= 90) \/ (97 <= c /\ c <= 122).
Proof.
  unfold isAlnum, isUpper, isLower, isDigit. rewrite !orb_true_iff, !andb_true_iff, !N.leb_le.
  lia.
Qed.

Lemma unescape_formByte b r : b < 256 -> unescape (formByte b ++ r) = b :: unescape r.
Proof.
  intros H. unfold formByte. destruct (N.eqb_spec b 32) as [->|Hb]; [done|].
  destruct (_ || _) eqn:E; [|by apply unescape_pct].
  apply unescape_plain; intros ->; done.
Qed.

Lemma unescape_formText s : units s = true -> unescape (formText s) = utf8 s.
Proof.
  intros H. unfold formText. rewrite <- (app_nil_r (flat_map _ _)).
  rewrite unescape_flat_map by (apply unescape_formByte || by apply utf8_bytes).
  by rewrite app_nil_r.
Qed.

(** [encodeURIComponent] is read back, also where [+] is a space. *)
Lemma unescape_component s t :
  units s = true -> encodeURIComponent s = Some t -> unescape t = utf8 s.
Proof.
  unfold encodeURIComponent. intros H. destruct (wellFormed s); [|done]. intros [= <-].
  rewrite <- (app_nil_r (flat_map _ _)). rewrite unescape_flat_map; [by rewrite app_nil_r| |by apply utf8_bytes].
  intros b r Hb. destruct (unreserved b) eqn:E; [|by apply unescape_pct].
  apply unescape_plain; intros ->; done.
Qed.

(** *** What an encoded text is made of *)

Lemma hexDigit_alnum d : d < 16 -> isAlnum (hexDigit d) = true.
Proof.
  intros H. unfold hexDigit, isAlnum, isUpper, isLower, isDigit.
  destruct (N.ltb_spec d 10); rewrite !orb_true_iff, !andb_true_iff, !N.leb_le; lia.
Qed.

(** A unit that is neither kept nor part of an escape is not there. *)
Lemma encoded_avoids (keep : N -> bool) (f : N -> jstr) c l :
  (forall b, b < 256 -> forall x, x ∈ f b -> keep x = true) ->
  keep c = false -> Forall (fun b => b < 256) l -> c ∉ flat_map f l.
Proof.
  intros Hf Hc. induction 1 as [|b l Hb Hl IH]; simpl; [set_solver|].
  rewrite elem_of_app. intros [H|H]; [|done]. apply Hf in H; [|done]. congruence.
Qed.

Definition formUnit (c : N) : bool := isAlnum c || existsb (N.eqb c) [37; 43; 42; 45; 46; 95].
Definition componentUnit (c : N) : bool := unreserved c || (c =? 37).

Lemma pct_units b x : b < 256 -> x ∈ pct b -> isAlnum x = true \/ x = 37.
Proof.
  intros Hb. unfold pct. rewrite !elem_of_cons, elem_of_nil.
  intros [->|[->|[->|[]]]]; [by right|left..]; apply hexDigit_alnum; Z.div_mod_to_equations; lia.
Qed.

Lemma formText_avoids s c : units s = true -> formUnit c = false -> c ∉ formText s.
Proof.
  intros Hs Hc. apply encoded_avoids with formUnit; [|done|by apply utf8_bytes].
  intros b Hb x. unfold formByte. destruct (b =? 32); [by rewrite list_elem_of_singleton; intros ->|].
  destruct (_ || _) eqn:E.
  - rewrite list_elem_of_singleton. intros ->. unfold formUnit. apply orb_true_iff in E as [->|E]; [done|].
    apply orb_true_iff. right. simpl in E |- *. bool_simpl. repeat match goal with H : _ \/ _ |- _ => destruct H end;
    try done; rewrite H; by rewrite ?orb_true_r.
  - intros Hx. unfold formUnit. destruct (pct_units b x Hb Hx) as [->| ->]; done.
Qed.

Lemma component_avoids s t c :
  units s = true -> encodeURIComponent s = Some t -> componentUnit c = false -> c ∉ t.
Proof.
  unfold encodeURIComponent. intros Hs. destruct (wellFormed s); [|done]. intros [= <-] Hc.
  apply encoded_avoids with componentUnit; [|done|by apply utf8_bytes].
  intros b Hb x. unfold componentUnit. destruct (unreserved b) eqn:E.
  - rewrite list_elem_of_singleton. by intros ->; rewrite E.
  - intros Hx. destruct (pct_units b x Hb Hx) as [H| ->]; [|by rewrite orb_true_r].
    unfold unreserved. by rewrite H.
Qed.

(** *** A query is read back *)

Lemma cutAt_app c a b : c ∉ a -> cutAt c (a ++ c :: b) = (a, Some b).
Proof.
  induction a as [|x a IH]; simpl; intros H; [by rewrite N.eqb_refl|].
  apply not_elem_of_cons in H as [Hx H]. rewrite (proj2 (N.eqb_neq x c)) by done.
  by rewrite IH.
Qed.

Definition pairUnits (p : jstr * jstr) : bool := units p.1 && units p.2.

Lemma queryPair_formPair p : pairUnits p = true -> queryPair (formPair p) = (utf8 p.1, utf8 p.2).
Proof.
  intros H. apply andb_true_iff in H as [H1 H2]. unfold queryPair, formPair. simpl ([61] ++ _).
  rewrite cutAt_app by (by apply formText_avoids). simpl.
  by rewrite !unescape_formText.
Qed.

(** A query of parts that are not empty and have no [&] is read part by part. *)
Lemma parseQuery_parts l :
  Forall (fun e => e <> [] /\ 38 ∉ e) l -> parseQuery (joinWith [38] l) = map queryPair l.
Proof.
  intros H. destruct l as [|x l]; [done|]. unfold parseQuery.
  rewrite splitOn_joinWith; [|done|by eapply Forall_impl; [exact H|intros ? []]].
  f_equal. revert H. generalize (x :: l). clear.
  induction 1 as [|y l [Hy _] Hl IH]; simpl; [done|]. by destruct y; [|rewrite IH].
Qed.

Lemma formPair_part p : pairUnits p = true -> formPair p <> [] /\ 38 ∉ formPair p.
Proof.
  intros H. apply andb_true_iff in H as [H1 H2]. unfold formPair. split.
  - by destruct (formText p.1).
  - rewrite !elem_of_app, list_elem_of_singleton.
    intros [H|[H|H]]; [by eapply formText_avoids in H| done |by eapply formText_avoids in H].
Qed.

(** The pairs that [URLSearchParams] serialises are the pairs that are read. *)
Lemma parseQuery_formString l :
  forallb pairUnits l = true ->
  parseQuery (formString l) = map (fun p => (utf8 p.1, utf8 p.2)) l.
Proof.
  intros H. unfold formString. rewrite parseQuery_parts.
  - rewrite map_map. induction l as [|p l IH]; [done|]. simpl in *. bool_simpl.
    by rewrite queryPair_formPair, IH.
  - induction l as [|p l IH]; simpl in *; [constructor|]. bool_simpl.
    constructor; [by apply formPair_part|auto].
Qed.
