(* ===== verification/RapidocSpec.v ===== *)
(** * RapiDoc: the loaded specification

    The API explorer of the documentation page is RapiDoc, [rapidoc-min.js].  This file
    has the data it keeps of a loaded OpenAPI document ([resolvedSpec]) and how [hR]
    builds it from the parsed document: the path filter, the operations grouped by tag,
    the components, the security schemes and the servers.

    Objects used as maps are association lists in the order JavaScript enumerates them.
    A field that may be undefined is an [option] where the code tells the difference. *)

From stdpp Require Import strings numbers list sets sorting.
From S2P Require Import Prelude JsString Html.

Open Scope nat_scope.

(** ** JavaScript values *)

(** A JSON value; a number is the string JavaScript prints for it. *)
Inductive json :=
| JNull
| JBool (b : bool)
| JNum (repr : jstr)
| JStr (s : jstr)
| JArr (l : list json)
| JObj (l : list (jstr * json)).

Section maps.
Context {A : Type}.

(** [o[k]] and [o[k] = v] on an object used as a map. *)
Fixpoint assoc (k : jstr) (o : list (jstr * A)) : option A :=
  match o with
  | [] => None
  | (k', v) :: r => if k === k' then Some v else assoc k r
  end.

Fixpoint assocSet (k : jstr) (v : A) (o : list (jstr * A)) : list (jstr * A) :=
  match o with
  | [] => [(k, v)]
  | (k', v') :: r => if k === k' then (k, v) :: r else (k', v') :: assocSet k v r
  end.

Definition assocDelete (k : jstr) (o : list (jstr * A)) : list (jstr * A) :=
  List.filter (fun p => negb (k === p.1)) o.

Lemma assoc_set k v o : assoc k (assocSet k v o) = Some v.
Proof.
  induction o as [|[k' v'] o IH]; simpl; [by rewrite bool_decide_true|].
  destruct (k === k') eqn:E; simpl; [by rewrite bool_decide_true|by rewrite E].
Qed.

Lemma assoc_set_ne k k' v o : k <> k' -> assoc k' (assocSet k v o) = assoc k' o.
Proof.
  intros Hk. induction o as [|[k1 v1] o IH]; simpl.
  - by rewrite bool_decide_false.
  - destruct (k === k1) eqn:E; simpl; [|by rewrite IH].
    apply bool_decide_eq_true in E as <-. by rewrite bool_decide_false.
Qed.

Lemma assoc_delete_ne k k' o : k <> k' -> assoc k' (assocDelete k o) = assoc k' o.
Proof.
  intros Hk. induction o as [|[k1 v1] o IH]; simpl; [done|].
  destruct (bool_decide_reflect (k = k1)) as [<-|Hn]; simpl.
  - rewrite IH. by rewrite bool_decide_false.
  - by rewrite IH.
Qed.

Lemma assoc_delete k o : assoc k (assocDelete k o) = None.
Proof.
  induction o as [|[k1 v1] o IH]; simpl; [done|].
  destruct (k === k1) eqn:E; simpl; [done|]. by rewrite E.
Qed.

Lemma assoc_elem k v o : assoc k o = Some v -> (k, v) ∈ o.
Proof.
  induction o as [|[k' v'] o IH]; simpl; [done|].
  case_bool_decide; [intros [= ->]; subst; set_solver|set_solver].
Qed.

Lemma assoc_None k (o : list (jstr * A)) : assoc k o = None -> k ∉ o.*1.
Proof.
  induction o as [|[k' v'] o IH]; csimpl; [set_solver|].
  case_bool_decide; [done|]. intros ?. apply not_elem_of_cons. auto.
Qed.

End maps.

(** A string that counts as true. *)
Definition truthy (s : jstr) : bool := match s with [] => false | _ => true end.
(** [a || b] on strings, [o || ""] on a string that may be undefined. *)
Definition sor (a b : jstr) : jstr := if truthy a then a else b.
Definition orE (o : option jstr) : jstr := default [] o.
Definition truthyO (o : option jstr) : bool := truthy (orE o).

(** [s.includes(t)]. *)
Definition includes (s t : jstr) : bool :=
  match indexOf t s 0 with Some _ => true | None => false end.

(** The mapping to upper case and the locale's order; lower case is [CaseMapping]. *)
Class Locale := {
  toUpperCase : jstr -> jstr;
  localeCompare : jstr -> jstr -> Z;
}.

(** The bundled markdown library. *)
Record Token := { tok_heading : bool; tok_depth : nat; tok_text : jstr }.

Class Marked := {
  lexer : jstr -> list Token;
  (** [new Slugger().slug(text)]. *)
  slug : jstr -> jstr;
  (** [Xe(text)], and [Xe(text, {renderer})] with the heading renderer of [IF], [gF] and
      [SF], whose headings have the ids [<prefix>--<slug>]. *)
  markdown : jstr -> jstr;
  markdownWith : jstr -> jstr -> jstr;
}.

(** ** The parsed document *)

Record Variable_ := mkVariable {
  var_enum : option (list jstr);
  var_default : option jstr;
  var_description : option jstr;
}.

Record Server := mkServer {
  srv_url : jstr;
  srv_description : option jstr;
  srv_variables : option (list (jstr * Variable_));
  srv_computedUrl : jstr;
}.

Record Param := mkParam { prm_name : jstr; prm_in : jstr; prm_rest : json }.

Record MediaType := mkMediaType {
  mt_schema : option json;
  mt_examples : option json;
  mt_example : option json;
}.

Record Header := mkHeader {
  hdr_type : option jstr;
  hdr_example : option jstr;
  hdr_description : option jstr;
}.

Record Response := mkResponse {
  rsp_description : option jstr;
  rsp_headers : list (jstr * Header);
  rsp_content : list (jstr * MediaType);
}.

(** A security requirement: scheme names with their scopes. *)
Abbreviation Requirement := (list (jstr * list jstr)).

Record ExternalDocs := mkExternalDocs {
  ed_url : option jstr;
  ed_description : option jstr;
}.

Record Badge := mkBadge { bdg_label : jstr; bdg_color : jstr }.

Record CodeSample := mkCodeSample {
  cs_lang : jstr;
  cs_label : option jstr;
  cs_source : jstr;
}.

Record CallbackOp := mkCallbackOp {
  cb_parameters : option (list Param);
  cb_requestBody : option json;
  cb_responses : option (list (jstr * Response));
}.

(** Name of the callback, expression, method. *)
Abbreviation Callbacks := (list (jstr * list (jstr * list (jstr * CallbackOp)))).

Record Operation := mkOperation {
  o_tags : list jstr;
  o_summary : option jstr;
  o_description : option jstr;
  o_operationId : option jstr;
  o_externalDocs : option ExternalDocs;
  o_servers : option (list Server);
  o_parameters : option (list Param);
  o_requestBody : option json;
  o_responses : list (jstr * Response);
  o_callbacks : option Callbacks;
  o_deprecated : bool;
  o_security : option (list Requirement);
  o_badges : option (list Badge);
  o_codeSamples : option (list CodeSample);
}.

(** What a key of a path item holds. *)
Inductive Entry :=
| EOp (o : Operation)
| EParams (l : list Param)
| EServers (l : list Server)
| EOther.

Abbreviation PathItem := (list (jstr * Entry)).

Record TagDef := mkTagDef {
  td_name : jstr;
  td_displayName : option jstr;
  td_description : option jstr;
  td_expanded : option bool;
}.

(** ** The resolved specification *)

Record Path := mkPath {
  p_expanded : bool;
  p_isWebhook : bool;
  p_summary : jstr;
  p_description : jstr;
  p_externalDocs : option ExternalDocs;
  p_shortSummary : jstr;
  p_method : jstr;
  p_path : jstr;
  p_operationId : option jstr;
  p_elementId : jstr;
  p_servers : list Server;
  p_parameters : list Param;
  p_requestBody : option json;
  p_responses : list (jstr * Response);
  p_callbacks : option Callbacks;
  p_deprecated : bool;
  p_security : option (list Requirement);
  p_xBadges : option (list Badge);
  p_xCodeSamples : option (list CodeSample);
}.

Record Tag := mkTag {
  t_elementId : jstr;
  t_name : jstr;
  t_displayName : option jstr;
  t_description : jstr;
  t_headers : list Token;
  t_paths : list Path;
  t_expanded : bool;
  t_firstPathId : jstr;
}.

Record SubComponent := mkSub {
  sub_id : jstr;
  sub_name : jstr;
  sub_component : option json;
  sub_expanded : option bool;
}.

Record Component := mkComponent {
  c_name : jstr;
  c_description : jstr;
  c_subComponents : list SubComponent;
}.

Record Flow := mkFlow {
  fl_authorizationUrl : option jstr;
  fl_tokenUrl : option jstr;
  fl_refreshUrl : option jstr;
  fl_scopes : option (list (jstr * jstr));
  fl_clientId : option jstr;
  fl_clientSecret : option jstr;
  fl_defaultScopes : option (list jstr);
  fl_receiveTokenIn : option jstr;
  fl_receiveTokenInOptions : option (list jstr);
  fl_pkceOnly : bool;
}.

Record SecurityScheme := mkScheme {
  ss_id : jstr;
  ss_type : option jstr;
  ss_scheme : option jstr;
  ss_description : option jstr;
  ss_name : option jstr;
  ss_in : option jstr;
  ss_user : jstr;
  ss_password : jstr;
  ss_value : jstr;
  ss_finalKeyValue : jstr;
  ss_typeDisplay : jstr;
  ss_flows : list (jstr * Flow);
  ss_clientId : option jstr;
  ss_clientSecret : option jstr;
  ss_defaultScopes : option (list jstr);
  ss_receiveTokenIn : option jstr;
  ss_receiveTokenInOptions : option (list jstr);
}.

Record Contact := mkContact {
  ct_name : option jstr;
  ct_email : option jstr;
  ct_url : option jstr;
}.

Record License := mkLicense { li_name : jstr; li_url : option jstr }.

Record Info := mkInfo {
  i_title : option jstr;
  i_version : option jstr;
  i_description : option jstr;
  i_contact : option Contact;
  i_license : option License;
  i_termsOfService : option jstr;
}.

Record Spec := mkSpec {
  specLoadError : bool;
  isSpecLoading : bool;
  s_info : option Info;
  infoDescriptionHeaders : list Token;
  s_tags : list Tag;
  s_components : list Component;
  securitySchemes : list SecurityScheme;
  s_servers : list Server;
}.

Record OpenApi := mkOpenApi {
  a_info : option Info;
  a_tags : list TagDef;
  a_paths : list (jstr * PathItem);
  a_webhooks : list (jstr * PathItem);
  a_components : option (list (jstr * list (jstr * json)));
  a_securitySchemes : list (jstr * SecurityScheme);
  a_servers : list Server;
}.

(** What a property or an event of the templates is bound to. *)
Inductive bound :=
| BJson (v : option json)
| BBool (b : bool)
| BSchema (v : option json)
| BSecurity (v : option (list Requirement))
| BParams (v : option (list Param))
| BSchemes (v : list SecurityScheme)
| BServers (v : list Server)
| BResponses (v : option (list (jstr * Response)))
| onSearchChange | onClearSearch | onShowSearchModalClicked
| onSpecUrlChange | onSpecFileChange | onFileLoadClick | onClose
| call_PF
| call_LF (e : Path)
| call_BF (action : jstr)
| call_yF
| call_DR (id : jstr) | call_IR (id : jstr) | call_jR
| call_MR (id flowName authUrl tokenUrl : jstr)
| call_kF (url : jstr) | call_AF
| call_gt (url name : jstr) | call_yt (url : jstr) | call_ht (text : jstr)
| toggleTag (elementId : jstr)
| handleHref
| selectTab
| onAdvancedSearch (delay : nat)
| goToMatch
| selectStatus (status : jstr)
| selectMime
| onSelectExample
| selectSchemaTab
| toggleExpandOrCopy.

(** ** Loading: [hR] *)

(** The class [[\s#:?&={}]] of [pt]. *)
Definition pt (c : N) : bool :=
  isSpace c || existsb (fun d => (c =? d)%N) (u8 "#:?&={}").

#[global] Arguments pt : simpl never.

(** [s.replace(pt, "-")]. *)
Definition dashed (s : jstr) : jstr := map (fun c => if pt c then cHyphen else c) s.

Definition methods : list jstr :=
  [u8 "get"; u8 "put"; u8 "post"; u8 "delete"; u8 "patch"; u8 "head"; u8 "options"].

(** [s.split(sep)[0]]: the text before the first separator. *)
Fixpoint firstPiece (s : jstr) : jstr :=
  match s with
  | [] => []
  | c :: r =>
      if existsb (fun d => (c =? d)%N) (u8 ".|!?") && match r with d :: _ => isSpace d | [] => false end
      then [] 
      else if ((c =? 13) || (c =? 63) || (c =? 10))%N then []
      else c :: firstPiece r
  end.

(** [s.replace(/^\/+|\/+$/g, "")]. *)
Definition stripSlashes (s : jstr) : jstr := trim_with (fun c => (c =? cSlash)%N) s.

(** A stable sort by a comparator, as [Array.prototype.sort] is. *)
Section sort.
Context {A : Type} (cmp : A -> A -> Z).

Fixpoint insertBy (x : A) (l : list A) : list A :=
  match l with
  | [] => [x]
  | y :: r => if (cmp x y <=? 0)%Z then x :: l else y :: insertBy x r
  end.

Definition sortBy (l : list A) : list A := foldr insertBy [] l.

Lemma insertBy_perm x l : Permutation (x :: l) (insertBy x l).
Proof.
  induction l as [|y r IH]; simpl; [done|].
  destruct (cmp x y <=? 0)%Z; [done|].
  rewrite <- IH. apply Permutation_swap.
Qed.

Lemma sortBy_perm l : Permutation l (sortBy l).
Proof. induction l as [|x l IH]; simpl; [done|]. by rewrite <- insertBy_perm, <- IH. Qed.

Lemma sortBy_elem y l : y ∈ sortBy l <-> y ∈ l.
Proof. by rewrite <- (sortBy_perm l). Qed.

End sort.

Section load.
Context {CM : CaseMapping} {LC : Locale} {MK : Marked}.

(** [mR]: the headings of a description, down to the second level. *)
Definition mR (e : jstr) : list Token :=
  List.filter (fun t => tok_heading t && (tok_depth t <=? 2)) (lexer e).

(** *** The path filter *)

Definition badgeHidden (hidden : list jstr) (e : Entry) : bool :=
  match e with
  | EOp o => existsb (fun b => existsb (fun h => h === toLowerCase (bdg_label b)) hidden)
               (default [] (o_badges o))
  | _ => false
  end.

(** [regex] is [new RegExp(pattern, "i").test], given the pattern and the text. *)
Definition pathMatches (regex : jstr -> jstr -> bool) (pattern matchType path method : jstr)
    : bool :=
  if negb (truthy pattern) then true
  else if matchType === u8 "regex" then regex pattern (toLowerCase pattern)
  else includes (toLowerCase (method ++ u8 " " ++ path)) (toLowerCase pattern).

Definition filterSpec (regex : jstr -> jstr -> bool) (pattern matchType badges : jstr)
    (paths : list (jstr * PathItem)) : list (jstr * PathItem) :=
  let hidden := List.filter truthy
                  (map (fun e => toLowerCase (trim e)) (splitOn 44%N badges)) in
  flat_map (fun p =>
    let kept := List.filter (fun e => pathMatches regex pattern matchType p.1 e.1
                                && negb (badgeHidden hidden e.2)) p.2 in
    when (negb (length kept =? 0)) [(p.1, kept)]) paths.

(** *** Operations by tag *)

Definition itemParams (it : PathItem) : option (list Param) :=
  match assoc (u8 "parameters") it with Some (EParams l) => Some l | _ => None end.
Definition itemServers (it : PathItem) : list Server :=
  match assoc (u8 "servers") it with Some (EServers l) => l | _ => [] end.
Definition itemOp (m : jstr) (it : PathItem) : option Operation :=
  match assoc m it with Some (EOp o) => Some o | _ => None end.

(** The tags an operation is listed under. *)
Definition opTags (generate : bool) (path : jstr) (o : Operation) : list jstr :=
  match o_tags o with
  | [] => if generate then
            let e := stripSlashes path in
            [match indexOf [cSlash] e 0 with
             | None => e
             | Some r => slice 0 r e
             end]
          else [u8 "General ⦂"]
  | c => c
  end.

Definition shortSummaryOf (method path : jstr) (o : Operation) : jstr :=
  let h := trim (sor (orE (o_summary o)) (sor (orE (o_description o))
             (toUpperCase method ++ u8 " " ++ path))) in
  if 100 <? length h then firstPiece h else h.

(** An operation's parameters override the path's with the same name and place. *)
Definition mergeParams (s own : option (list Param)) : list Param :=
  match s, own with
  | Some s, Some own =>
      List.filter (fun e => negb (existsb (fun t =>
        (prm_name e === prm_name t) && (prm_in e === prm_in t)) own)) s ++ own
  | Some s, None => s
  | None, Some own => own
  | None, None => []
  end.

Definition elementIdOf (method path : jstr) : jstr := method ++ u8 "-" ++ dashed path.

Definition mkPathOf (webhook : bool) (path method : jstr) (it : PathItem) (o : Operation)
    : Path := {|
  p_expanded := false;
  p_isWebhook := webhook;
  p_summary := orE (o_summary o);
  p_description := orE (o_description o);
  p_externalDocs := o_externalDocs o;
  p_shortSummary := shortSummaryOf method path o;
  p_method := method;
  p_path := path;
  p_operationId := o_operationId o;
  p_elementId := elementIdOf method path;
  p_servers := match o_servers o with
               | Some l => itemServers it ++ l
               | None => itemServers it
               end;
  p_parameters := mergeParams (itemParams it) (o_parameters o);
  p_requestBody := o_requestBody o;
  p_responses := o_responses o;
  p_callbacks := o_callbacks o;
  p_deprecated := o_deprecated o;
  p_security := o_security o;
  p_xBadges := o_badges o;
  p_xCodeSamples := o_codeSamples o;
|}.

Definition tagOfDef (e : TagDef) : Tag := {|
  t_elementId := u8 "tag--" ++ dashed (td_name e);
  t_name := td_name e;
  t_displayName := Some (sor (orE (td_displayName e)) (td_name e));
  t_description := orE (td_description e);
  t_headers := if truthyO (td_description e) then mR (orE (td_description e)) else [];
  t_paths := [];
  t_expanded := negb (bool_decide (td_expanded e = Some false));
  t_firstPathId := [];
|}.

(** A tag that only operations name; its definition may differ in case. *)
Definition newTag (defs : list TagDef) (r : jstr) : Tag :=
  let p := List.find (fun e => toLowerCase (td_name e) === toLowerCase r) defs in
  let descr := orE (p ← p; td_description p) in
  {| t_elementId := u8 "tag--" ++ dashed r;
     t_name := r;
     t_displayName := None;
     t_description := descr;
     t_headers := if truthy descr then mR descr else [];
     t_paths := [];
     t_expanded := match p with
                   | None => true
                   | Some p => negb (bool_decide (td_expanded p = Some false))
                   end;
     t_firstPathId := []; |}.

Definition setPaths (l : list Path) (t : Tag) : Tag :=
  {| t_elementId := t_elementId t; t_name := t_name t; t_displayName := t_displayName t;
     t_description := t_description t; t_headers := t_headers t; t_paths := l;
     t_expanded := t_expanded t; t_firstPathId := t_firstPathId t |}.

(** Appends an operation to the first tag of a name, or to a new one. *)
Fixpoint addToTag (defs : list TagDef) (r : jstr) (p : Path) (i : list Tag) : list Tag :=
  match i with
  | [] => [setPaths [p] (newTag defs r)]
  | t :: rest => if t_name t === r then setPaths (t_paths t ++ [p]) t :: rest
                 else t :: addToTag defs r p rest
  end.

(** The operations in the order they are met: path by path, method by method, and
    for each operation its tags in order. *)
Definition placements (generate : bool) (items : list (jstr * (bool * PathItem)))
    : list (jstr * Path) :=
  flat_map (fun '(path, (webhook, it)) =>
    flat_map (fun m =>
      match itemOp m it with
      | Some o => map (fun r => (r, mkPathOf webhook path m it o)) (opTags generate path o)
      | None => []
      end) methods) items.

Definition withWebhooks (d : OpenApi) : list (jstr * (bool * PathItem)) :=
  foldl (fun o w => assocSet w.1 (true, w.2) o)
    (map (fun p => (p.1, (false, p.2))) (a_paths d)) (a_webhooks d).

(** The position of a method, compared as text. *)
Definition methodIndex (e : Path) : jstr :=
  match list_find (fun m => m = p_method e) methods with
  | Some (i, _) => [48 + N.of_nat i]%N
  | None => u8 "-1"
  end.

Definition sortPaths (by_ : jstr) (l : list Path) : list Path :=
  if by_ === u8 "method" then sortBy (fun e t => localeCompare (methodIndex e) (methodIndex t)) l
  else if by_ === u8 "summary" then
    sortBy (fun e t => localeCompare (p_shortSummary e) (p_shortSummary t)) l
  else if by_ === u8 "path" then sortBy (fun e t => localeCompare (p_path e) (p_path t)) l
  else l.

Definition finishTag (by_ : jstr) (t : Tag) : Tag :=
  let l := sortPaths by_ (t_paths t) in
  {| t_elementId := t_elementId t; t_name := t_name t; t_displayName := t_displayName t;
     t_description := t_description t; t_headers := t_headers t; t_paths := l;
     t_expanded := t_expanded t;
     t_firstPathId := match l with p :: _ => p_elementId p | [] => [] end |}.

Definition groupTags (d : OpenApi) (generate : bool) : list Tag :=
  foldl (fun i rp => addToTag (a_tags d) rp.1 rp.2 i) (map tagOfDef (a_tags d))
    (placements generate (withWebhooks d)).

Definition buildTags (d : OpenApi) (by_ : jstr) (generate sortTags : bool) : list Tag :=
  let a := map (finishTag by_)
             (List.filter (fun t => negb (length (t_paths t) =? 0)) (groupTags d generate)) in
  if sortTags then sortBy (fun e t => localeCompare (t_name e) (t_name t)) a else a.

(** *** Components *)

Definition componentTitle (s : jstr) : jstr :=
  if s === u8 "schemas" then u8 "Schemas"
  else if s === u8 "responses" then u8 "Responses"
  else if s === u8 "parameters" then u8 "Parameters"
  else if s === u8 "examples" then u8 "Examples"
  else if s === u8 "requestBodies" then u8 "Request Bodies"
  else if s === u8 "headers" then u8 "Headers"
  else if s === u8 "securitySchemes" then u8 "Security Schemes"
  else if s === u8 "links" then u8 "Links"
  else if s === u8 "callbacks" then u8 "Callbacks"
  else s.

(** The fixed description of a kind of component. *)
Definition componentDescription (s : jstr) : jstr :=
  if s === u8 "schemas" then
    u8 "Schemas allows the definition of input and output data types. These types can be objects, but also primitives and arrays."
  else if s === u8 "responses" then
    u8 "Describes responses from an API Operation, including design-time, static links to operations based on the response."
  else if s === u8 "parameters" then
    u8 "Describes operation parameters. A unique parameter is defined by a combination of a name and location."
  else if s === u8 "examples" then
    u8 "List of Examples for operations, can be requests, responses and objects examples."
  else if s === u8 "requestBodies" then
    u8 "Describes common request bodies that are used across the API operations."
  else if s === u8 "headers" then
    u8 "Headers follows the structure of the Parameters but they are explicitly in " ++ [34%N] ++ u8 "header" ++ [34%N]
  else if s === u8 "securitySchemes" then
    u8 "Defines a security scheme that can be used by the operations. Supported schemes are HTTP authentication, an API key (either as a header, a cookie parameter or as a query parameter), OAuth2's common flows(implicit, password, client credentials and authorization code) as defined in RFC6749, and OpenID Connect Discovery."
  else if s === u8 "links" then
    u8 "Links represent a possible design-time link for a response. The presence of a link does not guarantee the caller's ability to successfully invoke it, rather it provides a known relationship and traversal mechanism between responses and other operations."
  else if s === u8 "callbacks" then
    u8 "A map of possible out-of band callbacks related to the parent operation. Each value in the map is a Path Item Object that describes a set of requests that may be initiated by the API provider and the expected responses. The key value used to identify the path item object is an expression, evaluated at runtime, that identifies a URL to use for the callback operation."
  else s.

Definition subOf (s : jstr) (e : jstr * json) : SubComponent := {|
  sub_id := dashed (toLowerCase s ++ u8 "-" ++ toLowerCase e.1);
  sub_name := e.1;
  sub_component := Some e.2;
  sub_expanded := None;
|}.

Definition buildComponents (d : OpenApi) (sortSchemas : bool) : list Component :=
  map (fun '(s, l) =>
    let n := map (subOf s) l in
    let n := if (s === u8 "schemas") && sortSchemas
             then sortBy (fun e t => localeCompare (sub_name e) (sub_name t)) n else n in
    {| c_name := componentTitle s; c_description := componentDescription s; c_subComponents := n |})
    (default [] (a_components d)).

(** *** Security schemes *)

Definition rapidocKey : jstr := u8 "_rapidoc_api_key".

Definition withType (id : jstr) (r : SecurityScheme) : SecurityScheme :=
  let ty := ss_type r in
  let keyed := bool_decide (ty = Some (u8 "apiKey")) || bool_decide (ty = Some (u8 "http")) in
  let oauth := bool_decide (ty = Some (u8 "oauth2")) in
  {| ss_id := id; ss_type := ss_type r; ss_scheme := ss_scheme r;
     ss_description := ss_description r;
     ss_name := if keyed then Some (sor (orE (ss_name r)) (u8 "Authorization"))
                else if oauth then Some (u8 "Authorization") else ss_name r;
     ss_in := if keyed then Some (sor (orE (ss_in r)) (u8 "header"))
              else if oauth then Some (u8 "header") else ss_in r;
     ss_user := if keyed then [] else ss_user r;
     ss_password := if keyed then [] else ss_password r;
     ss_value := []; ss_finalKeyValue := [];
     ss_typeDisplay := ss_typeDisplay r; ss_flows := ss_flows r;
     ss_clientId := ss_clientId r; ss_clientSecret := ss_clientSecret r;
     ss_defaultScopes := ss_defaultScopes r; ss_receiveTokenIn := ss_receiveTokenIn r;
     ss_receiveTokenInOptions := ss_receiveTokenInOptions r |}.

Definition typeDisplayOf (e : SecurityScheme) : jstr :=
  if ss_type e === Some (u8 "http") then
    (if ss_scheme e === Some (u8 "basic") then u8 "HTTP Basic" else u8 "HTTP Bearer")
  else if ss_type e === Some (u8 "apiKey") then u8 "API Key (" ++ interp (ss_name e) ++ u8 ")"
  else if ss_type e === Some (u8 "oauth2") then u8 "OAuth (" ++ ss_id e ++ u8 ")"
  else sor (orE (ss_type e)) (u8 "None").

Definition withDisplay (e : SecurityScheme) : SecurityScheme :=
  {| ss_id := ss_id e; ss_type := ss_type e; ss_scheme := ss_scheme e;
     ss_description := ss_description e; ss_name := ss_name e; ss_in := ss_in e;
     ss_user := ss_user e; ss_password := ss_password e; ss_value := ss_value e;
     ss_finalKeyValue := ss_finalKeyValue e; ss_typeDisplay := typeDisplayOf e;
     ss_flows := ss_flows e; ss_clientId := ss_clientId e;
     ss_clientSecret := ss_clientSecret e; ss_defaultScopes := ss_defaultScopes e;
     ss_receiveTokenIn := ss_receiveTokenIn e;
     ss_receiveTokenInOptions := ss_receiveTokenInOptions e |}.

(** The key given in the attributes of the element. *)
Definition attributeKey (name in_ value : jstr) : SecurityScheme := {|
  ss_id := rapidocKey; ss_type := Some (u8 "apiKey"); ss_scheme := None;
  ss_description := Some (u8 "api-key provided in rapidoc element attributes");
  ss_name := Some name; ss_in := Some in_; ss_user := []; ss_password := [];
  ss_value := value; ss_finalKeyValue := value; ss_typeDisplay := []; ss_flows := [];
  ss_clientId := None; ss_clientSecret := None; ss_defaultScopes := None;
  ss_receiveTokenIn := None; ss_receiveTokenInOptions := None;
|}.

Definition buildSchemes (d : OpenApi) (keyName keyIn keyValue : option jstr)
    : list SecurityScheme :=
  map withDisplay
    (map (fun e => withType e.1 e.2) (a_securitySchemes d)
     ++ when (truthyO keyName && truthyO keyIn && truthyO keyValue)
          [attributeKey (orE keyName) (orE keyIn) (orE keyValue)]).

(** *** Servers *)

(** [s.replace(new RegExp(t, "g"), rep)] for a text [t] without special characters and
    a replacement without [$]. *)
Fixpoint replaceGo (t rep : jstr) (skip : nat) (s : jstr) : jstr :=
  match s with
  | [] => []
  | c :: r => match skip with
              | S k => replaceGo t rep k r
              | O => if startsWith t s then rep ++ replaceGo t rep (pred (length t)) r
                     else c :: replaceGo t rep 0 r
              end
  end.

Definition replaceVar (name value url : jstr) : jstr :=
  replaceGo (u8 "{" ++ name ++ u8 "}") value 0 url.

Definition plainServer (url : jstr) : Server :=
  {| srv_url := url; srv_description := None; srv_variables := None; srv_computedUrl := url |}.

Definition resolveServer (origin : jstr) (e : Server) : Server :=
  let t := trim (srv_url e) in
  let url := if negb (startsWith (u8 "http") t || startsWith (u8 "//") t
                      || startsWith (u8 "{") t) && startsWith (u8 "http") origin
             then origin ++ srv_url e else srv_url e in
  let t := if url === srv_url e then t else url in
  {| srv_url := url; srv_description := srv_description e; srv_variables := srv_variables e;
     srv_computedUrl := foldl (fun t v => replaceVar v.1 (orE (var_default v.2)) t) t
                          (default [] (srv_variables e)) |}.

Definition buildServers (origin : jstr) (serverUrl : option jstr) (d : OpenApi)
    : list Server :=
  match a_servers d with
  | [] => if truthyO serverUrl then [plainServer (orE serverUrl)]
          else if startsWith (u8 "http") origin then [plainServer origin]
          else [plainServer (u8 "http://localhost")]
  | l => map (resolveServer origin) l
         ++ when (truthyO serverUrl) [plainServer (orE serverUrl)]
  end.

(** [hR] on a document that parsed: [getAttribute] reads the element's attributes, the
    other arguments are its properties. *)
Definition hR (origin : jstr) (regex : jstr -> jstr -> bool)
    (getAttribute : string -> option jstr)
    (generateMissingTags sortTags sortSchemas : bool) (matchPaths matchType badges : jstr)
    (d : OpenApi) : Spec :=
  let d := {| a_info := a_info d; a_tags := a_tags d;
              a_paths := filterSpec regex matchPaths matchType badges (a_paths d);
              a_webhooks := a_webhooks d; a_components := a_components d;
              a_securitySchemes := a_securitySchemes d; a_servers := a_servers d |} in
  let descr := orE (i ← a_info d; i_description i) in
  {| specLoadError := false;
     isSpecLoading := false;
     s_info := a_info d;
     infoDescriptionHeaders := if truthy descr then mR descr else [];
     s_tags := buildTags d (orE (getAttribute "sort-endpoints-by")) generateMissingTags sortTags;
     s_components := buildComponents d sortSchemas;
     securitySchemes := buildSchemes d (getAttribute "api-key-name")
                          (getAttribute "api-key-location") (getAttribute "api-key-value");
     s_servers := buildServers origin (getAttribute "server-url") d |}.

(** ** Searching *)

(** [mt]. *)
Definition mt (e : jstr) (t : Path) (r : jstr) : bool :=
  includes (toLowerCase (p_method t ++ u8 " " ++ p_path t ++ u8 " " ++ p_summary t ++ u8 " "
              ++ p_description t ++ u8 " " ++ orE (p_operationId t) ++ u8 " " ++ r))
    (toLowerCase e).

End load.

(** ** Properties of the loaded tags *)

Section tags.
Context {CM : CaseMapping} {LC : Locale} {MK : Marked}.

(** What the tags list, each operation with the tag's name. *)
Definition listed (i : list Tag) : list (jstr * Path) :=
  flat_map (fun t => map (pair (t_name t)) (t_paths t)) i.

#[local] Arguments listed : simpl never.

Lemma listed_cons t i : listed (t :: i) = map (pair (t_name t)) (t_paths t) ++ listed i.
Proof. done. Qed.

Lemma listed_app i j : listed (i ++ j) = listed i ++ listed j.
Proof. apply flat_map_app. Qed.

Lemma addToTag_listed defs r p i :
  Permutation (listed (addToTag defs r p i)) ((r, p) :: listed i).
Proof.
  induction i as [|t i IH]; simpl; [done|].
  destruct (bool_decide_reflect (t_name t = r)) as [<-|_].
  - rewrite listed_cons. simpl. rewrite map_app. simpl.
    rewrite <- app_assoc. symmetry. apply Permutation_middle.
  - rewrite !listed_cons, IH. symmetry. apply Permutation_middle.
Qed.

Lemma grouped_listed defs ps i :
  Permutation (listed (foldl (fun i rp => addToTag defs rp.1 rp.2 i) i ps))
    (ps ++ listed i).
Proof.
  revert i. induction ps as [|[r p] ps IH]; intros i; simpl; [done|].
  rewrite IH, addToTag_listed. symmetry. apply Permutation_middle.
Qed.

Lemma listed_tagOfDef l : listed (map tagOfDef l) = [].
Proof. by induction l. Qed.

Lemma listed_filter i :
  listed (List.filter (fun t => negb (length (t_paths t) =? 0)) i) = listed i.
Proof.
  induction i as [|t i IH]; simpl; [done|].
  destruct (t_paths t) as [|p l] eqn:E; simpl; [by rewrite listed_cons, E, IH|].
  by rewrite !listed_cons, IH.
Qed.

Lemma sortPaths_perm b l : Permutation l (sortPaths b l).
Proof. unfold sortPaths. repeat case_match; auto using sortBy_perm. Qed.

Lemma listed_finish b i : Permutation (listed (map (finishTag b) i)) (listed i).
Proof.
  induction i as [|t i IH]; simpl; [done|].
  rewrite !listed_cons, IH. apply Permutation_app_tail. simpl.
  by rewrite <- sortPaths_perm.
Qed.

Lemma listed_perm i j : Permutation i j -> Permutation (listed i) (listed j).
Proof. intros H. unfold listed. by apply Permutation_flat_map. Qed.


(** ** Well-formed specifications *)

(** No character of an id has to be replaced: it can stand in the address. *)
Definition addressable (s : jstr) : bool := forallb (fun c => negb (pt c)) s.

Definition wfPath (p : Path) : Prop :=
  p_method p ∈ methods /\ p_elementId p = elementIdOf (p_method p) (p_path p).

Definition wfTag (t : Tag) : Prop :=
  t_elementId t = u8 "tag--" ++ dashed (t_name t) /\ Forall wfPath (t_paths t).

Definition wfSpec (sp : Spec) : Prop :=
  Forall wfTag (s_tags sp)
  /\ Forall (fun c => Forall (fun e => addressable (sub_id e) = true) (c_subComponents c))
       (s_components sp).

Lemma addressable_dashed s : addressable (dashed s) = true.
Proof.
  unfold addressable, dashed. induction s as [|c s IH]; [done|].
  cbn [map forallb]. rewrite IH, andb_true_r. destruct (pt c) eqn:E; [reflexivity|rewrite E; reflexivity].
Qed.

Lemma addressable_app a b : addressable (a ++ b) = addressable a && addressable b.
Proof. apply forallb_app. Qed.

Lemma methods_addressable m : m ∈ methods -> addressable m = true.
Proof.
  assert (H : Forall (fun m => addressable m = true) methods) by repeat constructor.
  rewrite Forall_forall in H. auto.
Qed.

Lemma wfPath_addressable p : wfPath p -> addressable (p_elementId p) = true.
Proof.
  intros [Hm ->]. unfold elementIdOf.
  rewrite (addressable_app (p_method p)), (addressable_app (u8 "-")).
  rewrite methods_addressable, addressable_dashed; done.
Qed.

Lemma wfTag_addressable t : wfTag t -> addressable (t_elementId t) = true.
Proof. intros [-> _]. rewrite (addressable_app (u8 "tag--")), addressable_dashed. done. Qed.

Lemma placements_wf generate items :
  Forall (fun rp => wfPath rp.2) (placements generate items).
Proof.
  rewrite Forall_forall. intros rp. unfold placements. rewrite elem_of_flat_map.
  intros ([path [webhook it]] & _ & H). apply elem_of_flat_map in H as (m & Hm & H).
  destruct (itemOp m it) as [o|]; [|set_solver].
  by apply list_elem_of_fmap in H as (r & -> & _).
Qed.

Lemma addToTag_wf defs r p i :
  wfPath p -> Forall wfTag i -> Forall wfTag (addToTag defs r p i).
Proof.
  intros Hp. induction 1 as [|t i [Ht Hps] Hi IH]; simpl.
  - constructor; [|done]. split; [done|]. constructor; [done|constructor].
  - destruct (t_name t === r); constructor; try done.
    split; [done|]. simpl. rewrite Forall_app. auto.
Qed.

Lemma groupTags_wf d generate : Forall wfTag (groupTags d generate).
Proof.
  unfold groupTags.
  assert (Hi : Forall wfTag (map tagOfDef (a_tags d))).
  { apply Forall_map, Forall_forall. intros e _. by split; [|constructor]. }
  pose proof (placements_wf generate (withWebhooks d)) as H. revert Hi.
  generalize (map tagOfDef (a_tags d)) as i.
  induction H as [|[r p] l Hp Hl IH]; intros i Hi; simpl; [done|].
  apply IH. by apply addToTag_wf.
Qed.

Lemma finishTag_wf b t : wfTag t -> wfTag (finishTag b t).
Proof. intros [H1 H2]. split; [done|]. simpl. by rewrite <- sortPaths_perm. Qed.

Lemma buildTags_elem d by_ generate sortTags t :
  t ∈ buildTags d by_ generate sortTags ->
  exists t0, t = finishTag by_ t0 /\ wfTag t0 /\ t_paths t0 <> [].
Proof.
  unfold buildTags.
  assert (H : t ∈ map (finishTag by_) (List.filter
               (fun t => negb (length (t_paths t) =? 0)) (groupTags d generate)) ->
              exists t0, t = finishTag by_ t0 /\ wfTag t0 /\ t_paths t0 <> []).
  { intros (t0 & -> & H)%list_elem_of_fmap. exists t0. split; [done|].
    apply list_elem_of_In, filter_In in H as [H Hl]. apply list_elem_of_In in H.
    split; [|by destruct (t_paths t0)].
    pose proof (groupTags_wf d generate) as Hw. rewrite Forall_forall in Hw. auto. }
  destruct sortTags; [|done]. by rewrite sortBy_elem.
Qed.

Lemma buildTags_wf d by_ generate sortTags :
  Forall wfTag (buildTags d by_ generate sortTags).
Proof.
  apply Forall_forall. intros t (t0 & -> & H & _)%buildTags_elem. by apply finishTag_wf.
Qed.

Lemma buildComponents_wf d b :
  Forall (fun c => Forall (fun e => addressable (sub_id e) = true) (c_subComponents c))
    (buildComponents d b).
Proof.
  unfold buildComponents. apply Forall_map, Forall_forall. intros [s l] _. simpl.
  apply Forall_forall. intros e He.
  assert (H : e ∈ map (subOf s) l) by (case_match; [by rewrite sortBy_elem in He|done]).
  apply list_elem_of_fmap in H as (x & -> & _). apply addressable_dashed.
Qed.

Lemma hR_wf origin regex ga gen st ss mp mty bd d :
  wfSpec (hR origin regex ga gen st ss mp mty bd d).
Proof. split; [apply buildTags_wf|apply buildComponents_wf]. Qed.


(** ** What the options do not do *)

(** With [match-type="regex"] the pattern is tested on itself: whether an operation is
    kept does not depend on the operation. *)
Lemma regex_ignores_path regex pattern path method path' method' :
  pathMatches regex pattern (u8 "regex") path method
  = pathMatches regex pattern (u8 "regex") path' method'.
Proof. done. Qed.

(** Without the attribute [sort-endpoints-by] the operations of a tag are not sorted,
    although its default is [path]. *)
Lemma unset_sort_keeps_order l : sortPaths (orE None) l = l.
Proof. done. Qed.

End tags.
