(* ===== verification/RapidocElement.v ===== *)
(** * RapiDoc: the element

    The custom element [rapi-doc]: its attributes as [connectedCallback] leaves them, the
    state it keeps, and the element as the documentation page configures it. *)

From stdpp Require Import strings numbers pretty list sets.
From S2P Require Import Prelude JsString Html RapidocSpec.

Open Scope nat_scope.

(** A number in a template. *)
Definition dec (n : N) : jstr := u8 (pretty n).
Definition decN (n : nat) : jstr := dec (N.of_nat n).
Definition decB (b : bool) : jstr := if b then u8 "true" else u8 "false".

(** ** Attributes *)

Record Config := mkConfig {
  layout : jstr;
  renderStyle : jstr;
  schemaStyle : jstr;
  schemaDescriptionExpanded : jstr;
  schemaHideReadOnly : jstr;
  schemaHideWriteOnly : jstr;
  fillRequestFieldsWithExample : jstr;
  persistAuth : jstr;
  allowSearch : jstr;
  allowAdvancedSearch : jstr;
  allowTry : jstr;
  updateRoute : jstr;
  sortTags : jstr;
  sortSchemas : jstr;
  generateMissingTags : jstr;
  sortEndpointsBy : jstr;
  onNavTagClick : jstr;
  showMethodInNavBar : jstr;
  usePathInNavBar : jstr;
  navActiveItemMarker : jstr;
  showInfo : jstr;
  allowServerSelection : jstr;
  allowAuthentication : jstr;
  allowSchemaDescriptionExpandToggle : jstr;
  showSideNav : jstr;
  showComponents : jstr;
  infoDescriptionHeadingsInNavBar : jstr;
  fetchCredentials : jstr;
  scrollBehavior : jstr;
  matchType : jstr;
  theme : jstr;
  defaultSchemaTab : jstr;
  schemaExpandLevel : N;
  apiKeyValue : jstr;
  apiKeyLocation : jstr;
  apiKeyName : jstr;
  routePrefix : jstr;
  matchPaths : jstr;
  removeEndpointsWithBadgeLabelAs : jstr;
  cssClasses : jstr;
  headingText : jstr;
  specUrl : jstr;
  gotoPath : jstr;
  showHeader : jstr;
  showCurlBeforeTry : jstr;
  allowSpecUrlLoad : jstr;
  allowSpecFileLoad : jstr;
  allowSpecFileDownload : jstr;
  defaultApiServerUrl : jstr;
  serverUrl : jstr;
  pageDirection : jstr;
  navItemSpacing : jstr;
  fontSize : jstr;
  responseAreaHeight : jstr;
  monoFont : jstr;
  regularFont : jstr;
  bgColor : jstr;
  textColor : jstr;
  headerColor : jstr;
  primaryColor : jstr;
  navBgColor : jstr;
  navTextColor : jstr;
  navHoverBgColor : jstr;
  navHoverTextColor : jstr;
  navAccentColor : jstr;
  navAccentTextColor : jstr;
  showSummaryWhenCollapsed : bool;
}.

(** [v && list.includes(`${v},`) || (v = d)]. *)
Definition oneOf (list d : string) (v : option jstr) : jstr :=
  if truthyO v && includes (u8 list) (orE v ++ u8 ",") then orE v else u8 d.

(** [v && list.includes(v) || (v = d)]. *)
Definition within (list d : string) (v : option jstr) : jstr :=
  if truthyO v && includes (u8 list) (orE v) then orE v else u8 d.

(** [connectedCallback]: [a] gives the attributes that are set, [level] the value of
    [schema-expand-level] as a whole number. *)
Definition connectedCallback (prefersLight : bool) (level : option N)
    (a : string -> option jstr) : Config := {|
  layout := oneOf "row, column," "row" (a "layout");
  renderStyle := oneOf "read, view, focused," "focused" (a "render-style");
  schemaStyle := oneOf "tree, table," "tree" (a "schema-style");
  schemaDescriptionExpanded := oneOf "true, false," "false" (a "schema-description-expanded");
  schemaHideReadOnly := oneOf "default, never," "default" (a "schema-hide-read-only");
  schemaHideWriteOnly := oneOf "default, never," "default" (a "schema-hide-write-only");
  fillRequestFieldsWithExample :=
    oneOf "true, false," "true" (a "fill-request-fields-with-example");
  persistAuth := oneOf "true, false," "false" (a "persist-auth");
  allowSearch := oneOf "true, false," "true" (a "allow-search");
  allowAdvancedSearch := oneOf "true, false," "true" (a "allow-advanced-search");
  allowTry := oneOf "true, false," "true" (a "allow-try");
  updateRoute := oneOf "true, false," "true" (a "update-route");
  sortTags := oneOf "true, false," "false" (a "sort-tags");
  sortSchemas := oneOf "true, false," "false" (a "sort-schemas");
  generateMissingTags := oneOf "true, false," "false" (a "generate-missing-tags");
  sortEndpointsBy := oneOf "method, path, summary, none," "path" (a "sort-endpoints-by");
  onNavTagClick :=
    oneOf "expand-collapse, show-description," "expand-collapse" (a "on-nav-tag-click");
  showMethodInNavBar :=
    oneOf "false, as-plain-text, as-colored-text, as-colored-block," "false" (a "show-method-in-nav-bar");
  usePathInNavBar := oneOf "true, false," "false" (a "use-path-in-nav-bar");
  navActiveItemMarker := oneOf "left-bar, colored-block" "left-bar" (a "nav-active-item-marker");
  showInfo := oneOf "true, false," "true" (a "show-info");
  allowServerSelection := oneOf "true, false," "true" (a "allow-server-selection");
  allowAuthentication := oneOf "true, false," "true" (a "allow-authentication");
  allowSchemaDescriptionExpandToggle :=
    oneOf "true, false," "true" (a "allow-schema-description-expand-toggle");
  showSideNav := within "true false" "true" (a "show-side-nav");
  showComponents := within "true false" "false" (a "show-components");
  infoDescriptionHeadingsInNavBar :=
    oneOf "true, false," "false" (a "info-description-headings-in-navbar");
  fetchCredentials := oneOf "omit, same-origin, include," "" (a "fetch-credentials");
  scrollBehavior := oneOf "smooth, auto," "auto" (a "scroll-behavior");
  matchType := within "includes regex" "includes" (a "match-type");
  theme := oneOf "light, dark," (if prefersLight then "light" else "dark") (a "theme");
  defaultSchemaTab :=
    let t := oneOf "example, schema, model," "example" (a "default-schema-tab") in
    if t === u8 "model" then u8 "schema" else t;
  schemaExpandLevel := match level with
                        | Some (Npos _ as n) => n
                        | _ => 99999%N
                        end;
  apiKeyValue := sor (orE (a "api-key-value")) (u8 "-");
  apiKeyLocation := sor (orE (a "api-key-location")) (u8 "header");
  apiKeyName := sor (orE (a "api-key-name")) (u8 "");
  routePrefix := sor (orE (a "route-prefix")) (u8 "#");
  matchPaths := sor (orE (a "match-paths")) (u8 "");
  removeEndpointsWithBadgeLabelAs := sor (orE (a "remove-endpoints-with-badge-label-as")) (u8 "");
  cssClasses := sor (orE (a "css-classes")) (u8 "");
  headingText := orE (a "heading-text");
  specUrl := orE (a "spec-url");
  gotoPath := orE (a "goto-path");
  showHeader := orE (a "show-header");
  showCurlBeforeTry := orE (a "show-curl-before-try");
  allowSpecUrlLoad := orE (a "allow-spec-url-load");
  allowSpecFileLoad := orE (a "allow-spec-file-load");
  allowSpecFileDownload := orE (a "allow-spec-file-download");
  defaultApiServerUrl := orE (a "default-api-server");
  serverUrl := orE (a "server-url");
  pageDirection := orE (a "page-direction");
  navItemSpacing := oneOf "compact, relaxed, default," "default" (a "nav-item-spacing");
  fontSize := oneOf "default, large, largest," "default" (a "font-size");
  responseAreaHeight := sor (orE (a "response-area-height")) (u8 "400px");
  monoFont := orE (a "mono-font");
  regularFont := orE (a "regular-font");
  bgColor := orE (a "bg-color");
  textColor := orE (a "text-color");
  headerColor := orE (a "header-color");
  primaryColor := orE (a "primary-color");
  navBgColor := orE (a "nav-bg-color");
  navTextColor := orE (a "nav-text-color");
  navHoverBgColor := orE (a "nav-hover-bg-color");
  navHoverTextColor := orE (a "nav-hover-text-color");
  navAccentColor := orE (a "nav-accent-color");
  navAccentTextColor := orE (a "nav-accent-text-color");
  showSummaryWhenCollapsed := true;
|}.

(** ** State *)

Record Match_ := mkMatch {
  m_elementId : jstr;
  m_method : jstr;
  m_path : jstr;
  m_summary : jstr;
  m_deprecated : bool;
}.

(** The element: its attributes, the loaded specification and what the handlers change.
    [storage] is the object kept in [localStorage] under [rapidoc]. *)
Record RapiDoc := mkRapiDoc {
  cfg :> Config;
  resolvedSpec : option Spec;
  selectedServer : option Server;
  loading : bool;
  loadFailed : bool;
  focusedElementId : jstr;
  searchVal : jstr;
  showAdvancedSearchDialog : bool;
  advancedSearchMatches : option (list Match_);
  storage : list (jstr * SecurityScheme);
}.

Definition withSpec (sp : option Spec) (this : RapiDoc) : RapiDoc :=
  {| cfg := cfg this; resolvedSpec := sp; selectedServer := selectedServer this;
     loading := loading this; loadFailed := loadFailed this;
     focusedElementId := focusedElementId this; searchVal := searchVal this;
     showAdvancedSearchDialog := showAdvancedSearchDialog this;
     advancedSearchMatches := advancedSearchMatches this; storage := storage this |}.

Definition withStorage (st : list (jstr * SecurityScheme)) (this : RapiDoc) : RapiDoc :=
  {| cfg := cfg this; resolvedSpec := resolvedSpec this; selectedServer := selectedServer this;
     loading := loading this; loadFailed := loadFailed this;
     focusedElementId := focusedElementId this; searchVal := searchVal this;
     showAdvancedSearchDialog := showAdvancedSearchDialog this;
     advancedSearchMatches := advancedSearchMatches this; storage := st |}.

Definition withServer (srv : option Server) (this : RapiDoc) : RapiDoc :=
  {| cfg := cfg this; resolvedSpec := resolvedSpec this; selectedServer := srv;
     loading := loading this; loadFailed := loadFailed this;
     focusedElementId := focusedElementId this; searchVal := searchVal this;
     showAdvancedSearchDialog := showAdvancedSearchDialog this;
     advancedSearchMatches := advancedSearchMatches this; storage := storage this |}.

Definition withFocus (id : jstr) (this : RapiDoc) : RapiDoc :=
  {| cfg := cfg this; resolvedSpec := resolvedSpec this; selectedServer := selectedServer this;
     loading := loading this; loadFailed := loadFailed this;
     focusedElementId := id; searchVal := searchVal this;
     showAdvancedSearchDialog := showAdvancedSearchDialog this;
     advancedSearchMatches := advancedSearchMatches this; storage := storage this |}.

Definition withSearch (v : jstr) (this : RapiDoc) : RapiDoc :=
  {| cfg := cfg this; resolvedSpec := resolvedSpec this; selectedServer := selectedServer this;
     loading := loading this; loadFailed := loadFailed this;
     focusedElementId := focusedElementId this; searchVal := v;
     showAdvancedSearchDialog := showAdvancedSearchDialog this;
     advancedSearchMatches := advancedSearchMatches this; storage := storage this |}.

Definition withDialog (b : bool) (this : RapiDoc) : RapiDoc :=
  {| cfg := cfg this; resolvedSpec := resolvedSpec this; selectedServer := selectedServer this;
     loading := loading this; loadFailed := loadFailed this;
     focusedElementId := focusedElementId this; searchVal := searchVal this;
     showAdvancedSearchDialog := b;
     advancedSearchMatches := advancedSearchMatches this; storage := storage this |}.

(** The element before a specification is loaded, and with one. *)
Definition created (c : Config) : RapiDoc :=
  {| cfg := c; resolvedSpec := None; selectedServer := None; loading := false;
     loadFailed := false; focusedElementId := []; searchVal := [];
     showAdvancedSearchDialog := false; advancedSearchMatches := None; storage := [] |}.

(** [afterSpecParsedAndValidated]: the server that is selected first. *)
Definition firstServer (this : RapiDoc) (sp : Spec) : option Server :=
  let chosen :=
    if truthy (defaultApiServerUrl this) then
      if defaultApiServerUrl this === serverUrl this then Some (plainServer (serverUrl this))
      else List.find (fun s => srv_url s === defaultApiServerUrl this) (s_servers sp)
    else None in
  match chosen with Some s => Some s | None => head (s_servers sp) end.

Definition afterSpecParsedAndValidated (sp : Spec) (this : RapiDoc) : RapiDoc :=
  withServer (firstServer this sp) (withSpec (Some sp) this).

(** The parts of the specification, empty while there is none. *)
Definition tags (this : RapiDoc) : list Tag :=
  match resolvedSpec this with Some sp => s_tags sp | None => [] end.
Definition schemes (this : RapiDoc) : list SecurityScheme :=
  match resolvedSpec this with Some sp => securitySchemes sp | None => [] end.

Definition updSchemes (f : list SecurityScheme -> list SecurityScheme) (this : RapiDoc)
    : RapiDoc :=
  match resolvedSpec this with
  | Some sp => withSpec (Some {|
      specLoadError := specLoadError sp; isSpecLoading := isSpecLoading sp;
      s_info := s_info sp; infoDescriptionHeaders := infoDescriptionHeaders sp;
      s_tags := s_tags sp; s_components := s_components sp;
      securitySchemes := f (securitySchemes sp); s_servers := s_servers sp |}) this
  | None => this
  end.

Definition updTags (f : list Tag -> list Tag) (this : RapiDoc) : RapiDoc :=
  match resolvedSpec this with
  | Some sp => withSpec (Some {|
      specLoadError := specLoadError sp; isSpecLoading := isSpecLoading sp;
      s_info := s_info sp; infoDescriptionHeaders := infoDescriptionHeaders sp;
      s_tags := f (s_tags sp); s_components := s_components sp;
      securitySchemes := securitySchemes sp; s_servers := s_servers sp |}) this
  | None => this
  end.

Definition updComponents (f : list Component -> list Component) (this : RapiDoc) : RapiDoc :=
  match resolvedSpec this with
  | Some sp => withSpec (Some {|
      specLoadError := specLoadError sp; isSpecLoading := isSpecLoading sp;
      s_info := s_info sp; infoDescriptionHeaders := infoDescriptionHeaders sp;
      s_tags := s_tags sp; s_components := f (s_components sp);
      securitySchemes := securitySchemes sp; s_servers := s_servers sp |}) this
  | None => this
  end.

(** ** The element of the documentation page *)

(** The attributes that [index.html] sets. *)
Definition pageAttributes (name : string) : option jstr :=
  let set := [
    ("render-style", "focused"); ("layout", "row"); ("schema-style", "table");
    ("schema-expand-level", "1"); ("show-method-in-nav-bar", "as-colored-block");
    ("use-path-in-nav-bar", "true"); ("allow-try", "true");
    ("allow-server-selection", "true"); ("allow-authentication", "true");
    ("show-header", "false"); ("show-info", "true"); ("theme", "dark");
    ("bg-color", "#000000"); ("text-color", "#ededed"); ("primary-color", "#3b82f6");
    ("nav-bg-color", "#000000"); ("nav-text-color", "#ededed");
    ("nav-hover-bg-color", "#0a0a0a"); ("nav-accent-color", "#3b82f6");
    ("font-size", "default"); ("response-area-height", "400px")] in
  match List.find (fun e => String.eqb e.1 name) set with
  | Some e => Some (u8 e.2)
  | None => None
  end.

Definition pageConfig : Config := connectedCallback false (Some 1%N) pageAttributes.

(** The value [colored-block] of [nav-active-item-marker] is not accepted: the list of the
    values lacks the comma that is looked for. *)
Lemma colored_block_refused light level a :
  a "nav-active-item-marker"%string = Some (u8 "colored-block") ->
  navActiveItemMarker (connectedCallback light level a) = u8 "left-bar".
Proof. intros H. simpl. rewrite H. vm_compute. reflexivity. Qed.
