(* ===== verification/RapidocAuth.v ===== *)
(** * RapiDoc: authentication

    The keys a visitor gives for the API's security schemes: applying and clearing them,
    keeping them in [localStorage], and the templates that show them: the section
    [BR] with the flows of [LR], and the security of an operation [qR].

    [base64] is the Base64 text of a string's UTF-8 bytes. *)

From stdpp Require Import strings numbers pretty list sets.
From S2P Require Import Prelude JsString Html RapidocSpec RapidocElement.

Open Scope nat_scope.

(** ** Applying keys *)

Section auth.
Context {CM : CaseMapping} {LC : Locale} {MK : Marked}.
Context (base64 : jstr -> jstr).

(** The first scheme of an id. *)
Fixpoint onScheme (id : jstr) (f : SecurityScheme -> SecurityScheme)
    (l : list SecurityScheme) : list SecurityScheme :=
  match l with
  | [] => []
  | e :: r => if ss_id e === id then f e :: r else e :: onScheme id f r
  end.

Definition findScheme (id : jstr) (l : list SecurityScheme) : option SecurityScheme :=
  List.find (fun e => ss_id e === id) l.

(** A scheme with another key. *)
Definition withKey (user password value final : jstr) (e : SecurityScheme)
    : SecurityScheme :=
  {| ss_id := ss_id e; ss_type := ss_type e; ss_scheme := ss_scheme e;
     ss_description := ss_description e; ss_name := ss_name e; ss_in := ss_in e;
     ss_user := user; ss_password := password; ss_value := value;
     ss_finalKeyValue := final; ss_typeDisplay := ss_typeDisplay e;
     ss_flows := ss_flows e; ss_clientId := ss_clientId e;
     ss_clientSecret := ss_clientSecret e; ss_defaultScopes := ss_defaultScopes e;
     ss_receiveTokenIn := ss_receiveTokenIn e;
     ss_receiveTokenInOptions := ss_receiveTokenInOptions e |}.

Definition cleared (e : SecurityScheme) : SecurityScheme := withKey [] [] [] [] e.

Definition schemeIs (s : jstr) (e : SecurityScheme) : bool :=
  bool_decide (toLowerCase <$> ss_scheme e = Some s).

(** The key that [OR] gives a scheme, and the value it keeps. *)
Definition keyFor (e : SecurityScheme) (user password token : jstr) : jstr * jstr :=
  if schemeIs (u8 "basic") e then
    (if truthy user then u8 "Basic " ++ base64 (user ++ u8 ":" ++ password) else [],
     ss_value e)
  else if truthy token then
    ((if schemeIs (u8 "bearer") e then u8 "Bearer " else []) ++ token, token)
  else ([], ss_value e).

Definition applyKey (user password token : jstr) (e : SecurityScheme) : SecurityScheme :=
  let '(final, value) := keyFor e user password token in
  withKey (ss_user e) (ss_password e) value
    (if truthy final then final else ss_finalKeyValue e) e.

(** [OR]: whether a key was applied, and the element after. *)
Definition OR (id user password token : jstr) (this : RapiDoc) : RapiDoc * bool :=
  match findScheme id (schemes this) with
  | None => (this, false)
  | Some o => (updSchemes (onScheme id (applyKey user password token)) this,
               truthy (keyFor o user password token).1)
  end.

(** [jR]: the button that clears every key. *)
Definition jR (this : RapiDoc) : RapiDoc := updSchemes (map cleared) this.

(** [CR]: the keys kept in the browser.  A scheme that was kept has a [user] and no
    [username], so that the user name is undefined here. *)
Definition CR (this : RapiDoc) : RapiDoc :=
  foldl (fun this e => (OR (ss_id e.2) [] (ss_password e.2) (ss_value e.2) this).1)
    this (storage this).

(** [IR]: the button of a scheme, with what its inputs hold; [shown] is whether the row
    of the scheme is in the document. *)
Definition IR (id user password token : jstr) (shown : bool) (this : RapiDoc) : RapiDoc :=
  match findScheme id (schemes this) with
  | None => this
  | Some r =>
      if negb shown then this
      else
        let this :=
          if bool_decide (ss_type r = Some (u8 "http")) && schemeIs (u8 "basic") r
          then (OR id (trim user) (trim password) [] this).1
          else (OR id [] [] (trim token) this).1 in
        if persistAuth this === u8 "true" then
          match findScheme id (schemes this) with
          | Some r => withStorage (assocSet id r (storage this)) this
          | None => this
          end
        else this
  end.

(** [_R]: a token that an OAuth flow obtained. *)
Definition _R (id token tokenType : jstr) (this : RapiDoc) : RapiDoc :=
  let ty := toLowerCase tokenType in
  let word := if ty === u8 "bearer" then u8 "Bearer"
              else if ty === u8 "mac" then u8 "MAC" else tokenType in
  updSchemes (onScheme id (fun s =>
    withKey (ss_user s) (ss_password s) (ss_value s) (word ++ u8 " " ++ token) s)) this.

(** [DR]: the button that removes a key. *)
Definition DR (id : jstr) (this : RapiDoc) : RapiDoc :=
  let this := updSchemes (onScheme id cleared) this in
  if persistAuth this === u8 "true" then withStorage (assocDelete id (storage this)) this
  else this.

(** The keys that [vF] and [NF] hand to the request of an operation. *)
Definition apiKeys (this : RapiDoc) (security : option (list Requirement))
    : list SecurityScheme :=
  List.filter (fun t => truthy (ss_finalKeyValue t)
      && existsb (fun e : Requirement => existsb (fun k => ss_id t === k.1) e)
           (default [] security)) (schemes this)
  ++ match List.find (fun e => (ss_id e === rapidocKey)
                        && negb (ss_value e === u8 "-")) (schemes this) with
     | Some g => [g]
     | None => []
     end.

(** ** The authentication section *)

Definition knownFlow (e : jstr) : bool :=
  (e === u8 "authorizationCode") || (e === u8 "clientCredentials")
  || (e === u8 "implicit") || (e === u8 "password").

Definition inList (s : jstr) (l : list jstr) : bool := existsb (fun x => x === s) l.
Definition offers (a : option (list jstr)) (s : jstr) : bool :=
  match a with None => true | Some l => inList s l end.

Definition flowTitle (e : jstr) : jstr :=
  if e === u8 "authorizationCode" then u8 "Authorization Code Flow"
  else if e === u8 "clientCredentials" then u8 "Client Credentials Flow"
  else if e === u8 "implicit" then u8 "Implicit Flow"
  else if e === u8 "password" then u8 "Password Flow"
  else e.

(** A URL of a flow against the origin of the selected server. *)
Definition isAbsolute (e : jstr) : bool :=
  match indexOf (u8 "://") e 0 with Some (S _) => true | _ => false end
  || startsWith (u8 "//") e.
Definition absolute (origin : jstr) (u : option jstr) : option jstr :=
  match u with
  | Some u => if truthy u && negb (isAbsolute u)
              then Some (origin ++ u8 "/" ++ match u with 47%N :: r => r | _ => u end)
              else Some u
  | None => None
  end.

(** [LR]; [m] is the origin of the selected server's address. *)
Definition LR (m : jstr) (e t r s : jstr) (n : Flow) (i : list jstr) (o : jstr)
    (a : option (list jstr)) : html bound :=
  let d := fl_pkceOnly n in
  let c := absolute m (fl_authorizationUrl n) in
  let p := absolute m (fl_tokenUrl n) in
  let u := absolute m (fl_refreshUrl n) in
  let f := flowTitle e in
  el "div" ["class" =: u8 "oauth-flow " ++ e;
        "style" =: u8 "padding: 12px 0; margin-bottom:12px;"] (
      el "div" ["class" =: u8 "tiny-title upper"; "style" =: u8 "margin-bottom:8px;"] (txt f) ++
      when (truthyO c) (el "div" ["style" =: u8 "margin-bottom:5px"] (
            el "span" ["style" =: u8 "width:75px; display: inline-block;"] (txt (u8 "Auth URL")) ++
            el "span" ["class" =: u8 "mono-font"] (txt (orE c)))) ++
      when (truthyO p) (el "div" ["style" =: u8 "margin-bottom:5px"] (
            el "span" ["style" =: u8 "width:75px; display: inline-block;"] (txt (u8 "Token URL")) ++
            el "span" ["class" =: u8 "mono-font"] (txt (orE p)))) ++
      when (truthyO u) (el "div" ["style" =: u8 "margin-bottom:5px"] (
            el "span" ["style" =: u8 "width:75px; display: inline-block;"] (txt (u8 "Refresh URL")) ++
            el "span" ["class" =: u8 "mono-font"] (txt (orE u)))) ++
      when (knownFlow e) (when (bool_decide (is_Some (fl_scopes n))) (el "span" [] (txt (u8 " Scopes ")) ++
            el "div" ["class" =: u8 "oauth-scopes";
                  "part" =: u8 "section-auth-scopes";
                  "style" =: u8 "width:100%; display:flex; flex-direction:column; flex-wrap:wrap; margin:0 0 10px 24px"] (
                flat_map (fun '(r, t) => el "div" ["class" =: u8 "m-checkbox";
                        "style" =: u8 "display:inline-flex; align-items:center"] (
                      el "input" ["type" =: u8 "checkbox";
                          "part" =: u8 "checkbox checkbox-auth-scope";
                          "class" =: u8 "scope-checkbox";
                          "id" =: s ++ e ++ decN r;
                          "checked" =! (inList t.1 i);
                          "value" =: t.1] [] ++
                      el "label" ["for" =: s ++ e ++ decN r;
                          "style" =: u8 "margin-left:5px; cursor:pointer"] (
                        el "span" ["class" =: u8 "mono-font"] (txt t.1) ++
                        txt (if t.1 === t.2 then [] else u8 " - " ++ t.2)))) (imap pair (default [] (fl_scopes n))))) ++
        when (e === u8 "password") (el "div" ["style" =: u8 "margin:5px 0"] (
                el "input" ["type" =: u8 "text";
                    "value" =: [];
                    "placeholder" =: u8 "username";
                    "spellcheck" =: u8 "false";
                    "class" =: u8 "oauth2 " ++ e ++ u8 " " ++ s ++ u8 " api-key-user";
                    "part" =: u8 "textbox textbox-username";
                    "id" =: u8 "input-" ++ s ++ u8 "-" ++ e ++ u8 "-api-key-user"] [] ++
                el "input" ["type" =: u8 "password";
                    "value" =: [];
                    "placeholder" =: u8 "password";
                    "spellcheck" =: u8 "false";
                    "class" =: u8 "oauth2 " ++ e ++ u8 " " ++ s ++ u8 " api-key-password";
                    "style" =: u8 "margin:0 5px;";
                    "part" =: u8 "textbox textbox-password";
                    "id" =: u8 "input-" ++ s ++ u8 "-" ++ e ++ u8 "-api-key-password"] [])) ++
        el "div" [] (
            when (e === u8 "authorizationCode") (el "div" ["style" =: u8 "margin: 16px 0 4px"] (
                  el "input" ["type" =: u8 "checkbox";
                      "part" =: u8 "checkbox checkbox-auth-scope";
                      "id" =: s ++ u8 "-pkce";
                      "checked" =: [];
                      "disabled" =! d] [] ++
                  el "label" ["for" =: s ++ u8 "-pkce";
                      "style" =: u8 "margin:0 16px 0 4px; line-height:24px; cursor:pointer"] (
                    txt (u8 "Send Proof Key for Code Exchange (PKCE)")))) ++
            el "input" ["type" =: u8 "text";
                "part" =: u8 "textbox textbox-auth-client-id";
                "value" =: t;
                "placeholder" =: u8 "client-id";
                "spellcheck" =: u8 "false";
                "class" =: u8 "oauth2 " ++ e ++ u8 " " ++ s ++ u8 " oauth-client-id"] [] ++
            when ((e === u8 "authorizationCode") || (e === u8 "clientCredentials") || (e === u8 "password")) (el "input" ["id" =: s ++ u8 "-" ++ e ++ u8 "-oauth-client-secret";
                    "type" =: u8 "password";
                    "part" =: u8 "textbox textbox-auth-client-secret";
                    "value" =: r;
                    "placeholder" =: u8 "client-secret";
                    "spellcheck" =: u8 "false";
                    "class" =: u8 "oauth2 " ++ e ++ u8 " " ++ s ++ u8 " oauth-client-secret";
                    "style" =: u8 "margin:0 5px;" ++ if d then u8 "display:none;" else []] [] ++
              el "select" ["style" =: u8 "margin-right:5px;" ++ if d then u8 "display:none;" else [];
                    "class" =: e ++ u8 " " ++ s ++ u8 " oauth-send-client-secret-in"] (
                  when (offers a (u8 "header")) (el "option" ["value" =: u8 "header"; ".selected" =@ (BBool (o === u8 "header"))] (
                        txt (u8 " Authorization Header "))) ++
                  when (offers a (u8 "request-body")) (el "option" ["value" =: u8 "request-body";
                          ".selected" =@ (BBool (o === u8 "request-body"))] (
                        txt (u8 " Request Body "))))) ++
            when (knownFlow e) (el "button" ["class" =: u8 "m-btn thin-border";
                    "part" =: u8 "btn btn-outline";
                    "click" =@ (call_MR s e (orE c) (orE p))] (
                  txt (u8 " GET TOKEN ")))) ++
        el "div" ["class" =: u8 "oauth-resp-display red-text small-font-size"] [])).

Definition lowerType (e : SecurityScheme) : jstr := toLowerCase (orE (ss_type e)).
Definition isApiKey (e : SecurityScheme) : bool := lowerType e === u8 "apikey".
Definition isHttp (scheme : jstr) (e : SecurityScheme) : bool :=
  (lowerType e === u8 "http") && schemeIs scheme e.

(** The flow of a scheme with the scheme's own settings as defaults. *)
Definition flowOf (m : jstr) (e : SecurityScheme) (f : jstr * Flow) : html bound :=
  let pick (a b : option jstr) := if truthyO a then a else b in
  LR m f.1 (orE (pick (fl_clientId f.2) (ss_clientId e)))
    (orE (pick (fl_clientSecret f.2) (ss_clientSecret e))) (ss_id e) f.2
    (default [] (match fl_defaultScopes f.2 with Some l => Some l | None => ss_defaultScopes e end))
    (default (u8 "header") (pick (fl_receiveTokenIn f.2) (ss_receiveTokenIn e)))
    (match fl_receiveTokenInOptions f.2 with Some l => Some l | None => ss_receiveTokenInOptions e end).

(** [BR]. *)
Definition BR (m : jstr) (this : RapiDoc) : html bound :=
  match resolvedSpec this with
  | None => []
  | Some sp =>
  let t := List.filter (fun e => truthy (ss_finalKeyValue e)) (securitySchemes sp) in
  el "section" ["id" =: u8 "auth";
        "part" =: u8 "section-auth";
        "style" =: u8 "text-align:left; direction:ltr; margin-top:24px; margin-bottom:24px;";
        "class" =: u8 "observe-me " ++ (if includes (u8 "read focused") (renderStyle this) then u8 "section-gap--read-mode" else u8 "section-gap ")] (
      el "div" ["class" =: u8 "sub-title regular-font"] (txt (u8 " AUTHENTICATION ")) ++
      el "div" ["class" =: u8 "small-font-size";
          "style" =: u8 "display:flex; align-items: center; min-height:30px"] (
        (if 0 <? length t then el "div" ["class" =: u8 "blue-text"] (
              txt (decN (length t)) ++
              txt (u8 " API key applied ")) ++
          el "div" ["style" =: u8 "flex:1"] [] ++
          el "button" ["class" =: u8 "m-btn thin-border";
                "part" =: u8 "btn btn-outline";
                "click" =@ call_jR] (
              txt (u8 "CLEAR ALL API KEYS"))
        else el "div" ["class" =: u8 "red-text"] (txt (u8 "No API key applied")))) ++
      when (0 <? length (securitySchemes sp)) (el "table" ["role" =: u8 "presentation";
              "id" =: u8 "auth-table";
              "class" =: u8 "m-table padded-12";
              "style" =: u8 "width:100%;"] (
            flat_map (fun e => el "tr" ["id" =: u8 "security-scheme-" ++ ss_id e; "class" =: lowerType e] (
                  el "td" ["style" =: u8 "max-width:500px; overflow-wrap: break-word;"] (
                    el "div" ["style" =: u8 "line-height:28px; margin-bottom:5px;"] (
                      el "span" ["style" =: u8 "font-weight:bold; font-size:var(--font-size-regular)"] (
                        txt (ss_typeDisplay e)) ++
                      when (truthy (ss_finalKeyValue e)) (el "span" ["class" =: u8 "blue-text"] (
                            when (truthy (ss_finalKeyValue e)) (txt (u8 "Key Applied"))) ++
                        el "button" ["class" =: u8 "m-btn thin-border small";
                              "part" =: u8 "btn btn-outline";
                              "click" =@ (call_DR (ss_id e))] (
                            txt (u8 "REMOVE")))) ++
                    when (truthyO (ss_description e)) (el "div" ["class" =: u8 "m-markdown"] (raw (markdown (orE (ss_description e))))) ++
                    when (isApiKey e || isHttp (u8 "bearer") e) (el "div" ["style" =: u8 "margin-bottom:5px"] (
                          (if isApiKey e then txt (u8 "Send ") ++
                            el "code" [] (txt (orE (ss_name e))) ++
                            txt (u8 " in ") ++
                            el "code" [] (txt (orE (ss_in e)))
                          else txt (u8 "Send ") ++
                            el "code" [] (txt (u8 "Authorization")) ++
                            txt (u8 " in ") ++
                            el "code" [] (txt (u8 "header")) ++
                            txt (u8 " containing the word ") ++
                            el "code" [] (txt (u8 "Bearer")) ++
                            txt (u8 " followed by a space and a Token String."))) ++
                      el "div" ["style" =: u8 "max-height:28px;"] (
                          (if negb (ss_in e === Some (u8 "cookie")) then el "input" ["type" =: u8 "text";
                                  "value" =: ss_value e;
                                  "class" =: orE (ss_type e) ++ u8 " " ++ ss_id e ++ u8 " api-key-input";
                                  "placeholder" =: u8 "api-token";
                                  "spellcheck" =: u8 "false";
                                  "id" =: orE (ss_type e) ++ u8 "-" ++ ss_id e ++ u8 "-api-key-input"] [] ++
                            el "button" ["class" =: u8 "m-btn thin-border";
                                  "style" =: u8 "margin-left:5px;";
                                  "part" =: u8 "btn btn-outline";
                                  "click" =@ (call_IR (ss_id e))] (
                                (if truthy (ss_finalKeyValue e) then txt (u8 "UPDATE")
                                else txt (u8 "SET")))
                          else el "span" ["class" =: u8 "gray-text";
                                  "style" =: u8 "font-size::var(--font-size-small)"] (
                                txt (u8 " cookies cannot be set from here"))))) ++
                    when (isHttp (u8 "basic") e) (el "div" ["style" =: u8 "margin-bottom:5px"] (
                          txt (u8 "Send ") ++
                          el "code" [] (txt (u8 "Authorization")) ++
                          txt (u8 " in ") ++
                          el "code" [] (txt (u8 "header")) ++
                          txt (u8 " containing the word ") ++
                          el "code" [] (txt (u8 "Basic")) ++
                          txt (u8 " followed by a space and a base64 encoded string of ") ++
                          el "code" [] (txt (u8 "username:password")) ++
                          txt (u8 ".")) ++
                      el "div" [] (
                          el "input" ["type" =: u8 "text";
                              "value" =: ss_user e;
                              "placeholder" =: u8 "username";
                              "spellcheck" =: u8 "false";
                              "class" =: orE (ss_type e) ++ u8 " " ++ ss_id e ++ u8 " api-key-user";
                              "style" =: u8 "width:100px";
                              "id" =: u8 "input-" ++ orE (ss_type e) ++ u8 "-" ++ ss_id e ++ u8 "-api-key-user"] [] ++
                          el "input" ["type" =: u8 "password";
                              "value" =: ss_password e;
                              "placeholder" =: u8 "password";
                              "spellcheck" =: u8 "false";
                              "class" =: orE (ss_type e) ++ u8 " " ++ ss_id e ++ u8 " api-key-password";
                              "style" =: u8 "width:100px; margin:0 5px;";
                              "id" =: u8 "input-" ++ orE (ss_type e) ++ u8 "-" ++ ss_id e ++ u8 "-api-key-password"] [] ++
                          el "button" ["class" =: u8 "m-btn thin-border";
                              "click" =@ (call_IR (ss_id e));
                              "part" =: u8 "btn btn-outline"] (
                            (if truthy (ss_finalKeyValue e) then txt (u8 "UPDATE")
                            else txt (u8 "SET"))))))) ++
              when (lowerType e === u8 "oauth2") (el "tr" [] (
                      el "td" ["style" =: u8 "border:none; padding-left:48px"] (
                        flat_map (flowOf m e) (ss_flows e))))) (List.filter (fun e => truthyO (ss_type e)) (securitySchemes sp)))) ++
      el "slot" ["name" =: u8 "auth"] [])
  end.

(** ** The security of an operation *)

Record SecurityDef := mkSecurityDef { sd_scheme : SecurityScheme; sd_scopes : jstr }.
Record SecurityAlt := mkSecurityAlt {
  st_types : option jstr;
  st_defs : list SecurityDef;
}.

(** One alternative of the requirements: its schemes that the document defines. *)
Definition securityAlt (this : RapiDoc) (e : Requirement) : SecurityAlt :=
  match e with
  | [] => {| st_types := Some (u8 "None"); st_defs := [] |}
  | _ =>
      let defs := flat_map (fun t => match findScheme t.1 (schemes this) with
                    | Some i => [{| sd_scheme := i; sd_scopes := joinWith (u8 ", ") t.2 |}]
                    | None => []
                    end) e in
      let s := map (fun d => ss_typeDisplay (sd_scheme d)) defs in
      {| st_types := if 1 <? length s
                     then Some (orE (head s) ++ u8 " + " ++ decN (length s - 1) ++ u8 " more")
                     else head s;
         st_defs := defs |}
  end.

Definition requiredScopes (t : SecurityDef) : html bound :=
  when (truthy (sd_scopes t)) (el "div" [] (
          el "b" [] (txt (u8 "Required scopes:")) ++
          el "br" [] [] ++
          el "div" ["style" =: u8 "margin-left:8px"] (
            flat_map (fun '(t, e) => unless (t =? 0) (txt (u8 "┃")) ++
              el "span" [] (txt e)) (imap pair (splitOn 44%N (sd_scopes t)))))).

(** One scheme of an alternative. *)
Definition securityDef (e : SecurityAlt) (r : nat) (t : SecurityDef) : html bound :=
  let s := requiredScopes t in
  (if ss_type (sd_scheme t) === Some (u8 "oauth2") then el "div" [] (
          (if 1 <? length (st_defs e) then el "b" [] (
                txt (decN (S r)) ++
                txt (u8 "."))
          else txt (u8 "Needs")) ++
          txt (u8 "OAuth Token ") ++
          el "span" ["style" =: u8 "font-family:var(--font-mono); color:var(--primary-color);"] (
            txt (ss_id (sd_scheme t))) ++
          txt (u8 " in ") ++
          el "b" [] (txt (u8 "Authorization header")) ++
          s)
    else (if ss_type (sd_scheme t) === Some (u8 "http") then el "div" [] (
            (if 1 <? length (st_defs e) then el "b" [] (
                  txt (decN (S r)) ++
                  txt (u8 "."))
            else txt (u8 "Requires")) ++
            (if ss_scheme (sd_scheme t) === Some (u8 "basic") then txt (u8 "Base 64 encoded username:password")
            else txt (u8 "Bearer Token")) ++
            txt (u8 " in ") ++
            el "b" [] (txt (u8 "Authorization header")) ++
            s)
      else el "div" [] (
            (if 1 <? length (st_defs e) then el "b" [] (
                  txt (decN (S r)) ++
                  txt (u8 "."))
            else txt (u8 "Requires")) ++
            txt (u8 "Token in ") ++
            el "b" [] (
              txt (orE (ss_name (sd_scheme t))) ++
              txt (orE (ss_in (sd_scheme t)))) ++
            s))).

(** [qR]. *)
Definition qR (this : RapiDoc) (e : option (list Requirement)) : html bound :=
  match resolvedSpec this, e with
  | Some _, Some ((_ :: _) as e) =>
  let defs := map (securityAlt this) e in
  el "div" ["style" =: u8 "position:absolute; top:3px; right:2px; font-size:var(--font-size-small); line-height: 1.5;"] (
      el "div" ["style" =: u8 "position:relative; display:flex; min-width:350px; max-width:700px; justify-content: flex-end;"] (
        el "svg" ["width" =: u8 "24";
            "height" =: u8 "24";
            "viewBox" =: u8 "0 0 24 24";
            "stroke-width" =: u8 "1.5";
            "fill" =: u8 "none";
            "style" =: u8 "stroke:var(--fg3)"] (
          el "rect" ["x" =: u8 "5";
              "y" =: u8 "11";
              "width" =: u8 "14";
              "height" =: u8 "10";
              "rx" =: u8 "2"] [] ++
          el "circle" ["cx" =: u8 "12"; "cy" =: u8 "16"; "r" =: u8 "1"] [] ++
          el "path" ["d" =: u8 "M8 11v-4a4 4 0 0 1 8 0v4"] []) ++
        flat_map (fun '(t, e) => when (truthyO (st_types e)) (when (negb (t =? 0)) (el "div" ["style" =: u8 "padding:3px 4px;"] (txt (u8 " OR "))) ++
              el "div" ["class" =: u8 "tooltip"] (
                  el "div" ["style" =: u8 "padding:2px 4px; white-space:nowrap; text-overflow:ellipsis;max-width:150px; overflow:hidden;"] (
                    (if (updateRoute this === u8 "true") && (allowAuthentication this === u8 "true") then el "a" ["part" =: u8 "anchor anchor-operation-security"; "href" =: u8 "#auth"] (
                          txt (orE (st_types e)))
                    else txt (orE (st_types e)))) ++
                  el "div" ["class" =: u8 "tooltip-text";
                      "style" =: u8 "position:absolute; color: var(--fg); top:26px; right:0; border:1px solid var(--border-color);padding:2px 4px; display:block;"] (
                    when (1 <? length (st_defs e)) (el "div" [] (
                          txt (u8 "Requires ") ++
                          el "b" [] (txt (u8 "all")) ++
                          txt (u8 " of the following "))) ++
                    el "div" ["style" =: u8 "padding-left: 8px"] (
                      flat_map (fun '(r, t) => securityDef e r t) (imap pair (st_defs e))))))) (imap pair defs)))
  | _, _ => []
  end.

End auth.

(** ** Properties *)

Section keys.
Context {CM : CaseMapping} {LC : Locale} {MK : Marked}.
Context (base64 : jstr -> jstr).
Implicit Types this : RapiDoc.

(** *** The list of schemes *)

Lemma find_onScheme id id' f l :
  (forall e, ss_id (f e) = ss_id e) ->
  findScheme id (onScheme id' f l)
  = if id === id' then f <$> findScheme id l else findScheme id l.
Proof.
  intros Hf. unfold findScheme. induction l as [|e l IH]; simpl.
  - by destruct (id === id').
  - destruct (bool_decide_reflect (ss_id e = id')) as [<-|Hn]; simpl.
    + rewrite Hf. destruct (bool_decide_reflect (ss_id e = id)) as [<-|Hn].
      * by rewrite bool_decide_true.
      * by rewrite bool_decide_false by congruence.
    + destruct (bool_decide_reflect (ss_id e = id)) as [<-|Hn']; [|done].
      by rewrite bool_decide_false.
Qed.

Lemma onScheme_none id f l : findScheme id l = None -> onScheme id f l = l.
Proof.
  unfold findScheme. induction l as [|e l IH]; simpl; [done|].
  destruct (ss_id e === id); [done|]. intros H. by rewrite IH.
Qed.

Lemma findScheme_id id l e : findScheme id l = Some e -> ss_id e = id.
Proof. intros [_ H]%List.find_some. by apply bool_decide_eq_true in H. Qed.

Lemma find_map_cleared id l : findScheme id (map cleared l) = cleared <$> findScheme id l.
Proof.
  unfold findScheme. induction l as [|e l IH]; simpl; [done|].
  by destruct (ss_id e === id).
Qed.

Lemma applyKey_id u p t e : ss_id (applyKey base64 u p t e) = ss_id e.
Proof. unfold applyKey. by destruct (keyFor _ _ _ _ _). Qed.

Lemma schemes_upd f this : f [] = [] -> schemes (updSchemes f this) = f (schemes this).
Proof. unfold schemes, updSchemes. by destruct (resolvedSpec this) eqn:E; simpl; [|rewrite E]. Qed.

Lemma storage_upd f this : storage (updSchemes f this) = storage this.
Proof. unfold updSchemes. by destruct (resolvedSpec this). Qed.

Lemma cfg_upd f this : cfg (updSchemes f this) = cfg this.
Proof. unfold updSchemes. by destruct (resolvedSpec this). Qed.

Lemma schemes_OR id u p t this :
  schemes (OR base64 id u p t this).1 = onScheme id (applyKey base64 u p t) (schemes this).
Proof.
  unfold OR. destruct (findScheme id (schemes this)) eqn:E; simpl.
  - by rewrite schemes_upd.
  - by rewrite onScheme_none.
Qed.

Lemma storage_OR id u p t this : storage (OR base64 id u p t this).1 = storage this.
Proof. unfold OR. case_match; simpl; [apply storage_upd|done]. Qed.

Lemma cfg_OR id u p t this : cfg (OR base64 id u p t this).1 = cfg this.
Proof. unfold OR. case_match; simpl; [apply cfg_upd|done]. Qed.

(** *** The keys that are kept *)

(** The kept keys applied to a list of schemes. *)
Definition restored (st : list (jstr * SecurityScheme)) (l : list SecurityScheme)
    : list SecurityScheme :=
  foldl (fun l e => onScheme (ss_id e.2)
                      (applyKey base64 [] (ss_password e.2) (ss_value e.2)) l) l st.

Lemma schemes_CR this : schemes (CR base64 this) = restored (storage this) (schemes this).
Proof.
  unfold CR, restored. generalize (storage this) as st. intros st. revert this.
  induction st as [|e st IH]; intros this; simpl; [done|]. by rewrite IH, schemes_OR.
Qed.

Lemma storage_CR this : storage (CR base64 this) = storage this.
Proof.
  unfold CR. cut (forall (st : list (jstr * SecurityScheme)) this, storage (foldl (fun this e =>
    (OR base64 (ss_id e.2) [] (ss_password e.2) (ss_value e.2) this).1) this st)
    = storage this); [eauto|].
  clear this. induction st as [|e st IH]; intros this; simpl; [done|].
  by rewrite IH, storage_OR.
Qed.

(** Every key is kept under the id of its scheme. *)
Definition storageWf (st : list (jstr * SecurityScheme)) : Prop :=
  NoDup st.*1 /\ Forall (fun e => ss_id e.2 = e.1) st.

Lemma restored_other id st l :
  Forall (fun e => ss_id e.2 <> id) st -> findScheme id (restored st l) = findScheme id l.
Proof.
  unfold restored. intros H. revert l. induction H as [|e st He Hst IH]; intros l; simpl; [done|].
  rewrite IH, find_onScheme; [|intros; apply applyKey_id].
  by rewrite bool_decide_false.
Qed.

Lemma restored_one id r st l :
  storageWf st -> assoc id st = Some r ->
  findScheme id (restored st l)
  = applyKey base64 [] (ss_password r) (ss_value r) <$> findScheme id l.
Proof.
  intros [Hnd Hid]. revert l. induction st as [|[k e] st IH]; intros l; simpl; [done|].
  apply NoDup_cons in Hnd as [Hk Hnd]. apply Forall_cons in Hid as [He Hid]. simpl in *.
  change (restored ((k, e) :: st) l) with
    (restored st (onScheme (ss_id e) (applyKey base64 [] (ss_password e) (ss_value e)) l)).
  destruct (bool_decide_reflect (id = k)) as [->|Hn].
  - intros [= ->]. rewrite restored_other.
    + rewrite find_onScheme by (intros; apply applyKey_id). by rewrite He, bool_decide_true.
    + apply Forall_forall. intros e Hin <-. apply Hk.
      rewrite Forall_forall in Hid. rewrite (Hid _ Hin).
      apply list_elem_of_fmap. eauto.
  - intros H. rewrite IH by done.
    rewrite find_onScheme by (intros; apply applyKey_id).
    by rewrite bool_decide_false by congruence.
Qed.

Lemma assocSet_keys {A} k (v : A) st :
  (assocSet k v st).*1 = st.*1 \/ (assocSet k v st).*1 = st.*1 ++ [k] /\ k ∉ st.*1.
Proof.
  induction st as [|[k' v'] st IH]; csimpl; [right; split; [done|set_solver]|].
  destruct (bool_decide_reflect (k = k')) as [<-|Hn]; csimpl; [by left|].
  destruct IH as [->|[-> Hk]]; [by left|right]. split; [done|]. set_solver.
Qed.

Lemma assocSet_elem {A} k (v : A) st x : x ∈ assocSet k v st -> x = (k, v) \/ x ∈ st.
Proof.
  induction st as [|[k' v'] st IH]; simpl; [set_solver|].
  destruct (k === k'); set_solver.
Qed.

Lemma storageWf_set id r st : storageWf st -> ss_id r = id -> storageWf (assocSet id r st).
Proof.
  intros [Hnd Hid] Hr. split.
  - destruct (assocSet_keys id r st) as [->|[-> Hk]]; [done|].
    apply NoDup_app. split; [done|]. split; [set_solver|apply NoDup_singleton].
  - rewrite Forall_forall in *. by intros e [->|?]%assocSet_elem; auto.
Qed.

Lemma storageWf_delete id st : storageWf st -> storageWf (assocDelete id st).
Proof.
  intros [Hnd Hid]. split.
  - unfold assocDelete. clear Hid. induction st as [|[k v] st IH]; simpl; [done|].
    apply NoDup_cons in Hnd as [Hk Hnd]. destruct (id === k); simpl; [auto|].
    apply NoDup_cons. split; [|auto]. intros Hin. apply Hk.
    apply list_elem_of_fmap in Hin as (x & -> & Hx). apply list_elem_of_fmap.
    exists x. split; [done|]. rewrite list_elem_of_In, filter_In, <- list_elem_of_In in Hx.
    tauto.
  - rewrite Forall_forall in *. intros e He. apply Hid. unfold assocDelete in He.
    rewrite list_elem_of_In, filter_In, <- list_elem_of_In in He. tauto.
Qed.

(** Setting and removing keys keeps the store well formed. *)
Lemma IR_storageWf id u p t shown this :
  storageWf (storage this) -> storageWf (storage (IR base64 id u p t shown this)).
Proof.
  intros H. unfold IR. destruct (findScheme id (schemes this)) as [r|]; [|done].
  destruct shown; simpl; [|done].
  set (this' := if _ && _ then _ else _).
  assert (Hs : storage this' = storage this)
    by (unfold this'; case_match; apply storage_OR).
  destruct (persistAuth this' === u8 "true"); [|by rewrite Hs].
  destruct (findScheme id (schemes this')) as [r'|] eqn:E; [|by rewrite Hs].
  simpl. rewrite Hs. apply storageWf_set; [done|]. by eapply findScheme_id.
Qed.

Lemma DR_storageWf id this :
  storageWf (storage this) -> storageWf (storage (DR id this)).
Proof.
  intros H. unfold DR. case_match; simpl; rewrite ?storage_upd; [|done].
  by apply storageWf_delete.
Qed.

(** *** What the buttons do *)

Lemma keyFor_token e token u p :
  schemeIs (u8 "basic") e = false -> truthy token = true ->
  keyFor base64 e u p token
  = ((if schemeIs (u8 "bearer") e then u8 "Bearer " else []) ++ token, token).
Proof. unfold keyFor. by intros -> ->. Qed.

Lemma truthy_app_r a b : truthy b = true -> truthy (a ++ b) = true.
Proof. by destruct a, b. Qed.

(** A token that is applied: the scheme's value and key. *)
Lemma applyKey_token e token u p :
  schemeIs (u8 "basic") e = false -> truthy token = true ->
  applyKey base64 u p token e
  = withKey (ss_user e) (ss_password e) token
      ((if schemeIs (u8 "bearer") e then u8 "Bearer " else []) ++ token) e.
Proof.
  intros Hb Ht. unfold applyKey. rewrite keyFor_token by done.
  by rewrite truthy_app_r.
Qed.

Lemma schemeIs_scheme s e e' : ss_scheme e = ss_scheme e' -> schemeIs s e = schemeIs s e'.
Proof. unfold schemeIs. by intros ->. Qed.

(** The state after the button of a scheme that takes a token. *)
Lemma IR_token id u p token r this :
  persistAuth this = u8 "true" -> findScheme id (schemes this) = Some r ->
  schemeIs (u8 "basic") r = false -> truthy (trim token) = true ->
  let this1 := IR base64 id u p token true this in
  let r1 := withKey (ss_user r) (ss_password r) (trim token)
              ((if schemeIs (u8 "bearer") r then u8 "Bearer " else []) ++ trim token) r in
  findScheme id (schemes this1) = Some r1
  /\ storage this1 = assocSet id r1 (storage this).
Proof.
  intros Hp Hr Hb Ht this1 r1. subst this1. unfold IR. rewrite Hr, Hb. simpl.
  rewrite andb_false_r.
  set (this' := (OR _ _ _ _ _ _).1).
  assert (Hf : findScheme id (schemes this') = Some r1).
  { unfold this'. rewrite schemes_OR, find_onScheme by (intros; apply applyKey_id).
    rewrite bool_decide_true, Hr by done. simpl. f_equal. by apply applyKey_token. }
  assert (Hs : storage this' = storage this) by apply storage_OR.
  assert (Hc : cfg this' = cfg this) by apply cfg_OR.
  rewrite Hc, Hp, bool_decide_true by done. rewrite Hf, Hs. by split.
Qed.

(** The key that the store of such a scheme gives back. *)
Lemma restored_token id r st token e0 :
  storageWf st -> assoc id st = Some r -> ss_value r = token -> truthy token = true ->
  findScheme id e0 <> None ->
  (forall e, findScheme id e0 = Some e -> schemeIs (u8 "basic") e = false) ->
  ss_finalKeyValue <$> findScheme id (restored st e0)
  = (fun e => (if schemeIs (u8 "bearer") e then u8 "Bearer " else []) ++ token)
      <$> findScheme id e0.
Proof.
  intros Hst Ha <- Ht Hn Hb. rewrite (restored_one _ r) by done.
  destruct (findScheme id e0) as [e|] eqn:E; [|done]. simpl.
  by rewrite applyKey_token by auto.
Qed.

(** C26: A key survives a reload: with [persist-auth], a token that is set for a scheme
    is kept in the browser, and on a page that is loaded later, with the same scheme and
    what the browser kept, rendering applies exactly the key that was applied before.
    (For a scheme of user name and password this fails: [basic_not_kept].) *)
Theorem kept_key_returns this fresh id u p token r e0 :
  storageWf (storage this) -> persistAuth this = u8 "true" ->
  findScheme id (schemes this) = Some r ->
  schemeIs (u8 "basic") r = false -> truthy (trim token) = true ->
  let this1 := IR base64 id u p token true this in
  storage fresh = storage this1 ->
  findScheme id (schemes fresh) = Some e0 -> ss_scheme e0 = ss_scheme r ->
  (ss_finalKeyValue <$> findScheme id (schemes (CR base64 fresh))
   = ss_finalKeyValue <$> findScheme id (schemes this1))
  /\ exists r1, findScheme id (schemes this1) = Some r1
                /\ truthy (ss_finalKeyValue r1) = true.
Proof.
  intros Hwf Hp Hr Hb Ht this1 Hs He Hsch.
  destruct (IR_token id u p token r this) as [H1 H2]; try done. fold this1 in H1, H2.
  rewrite H1. split; [|eexists; split; [done|]; by apply truthy_app_r].
  rewrite schemes_CR, Hs, H2.
  assert (Hb' : schemeIs (u8 "basic") e0 = false) by (by rewrite (schemeIs_scheme _ e0 r)).
  erewrite restored_token; [..|apply assoc_set|done|done| |].
  - rewrite He. simpl. by rewrite (schemeIs_scheme _ e0 r).
  - apply storageWf_set; [done|]. simpl. by eapply findScheme_id.
  - by rewrite He.
  - rewrite He. by intros e [= <-].
Qed.

(** The kept credentials of a scheme of user name and password are not applied: the
    store has the user under another name than the one that is read. *)
Lemma basic_not_kept this id e0 :
  storageWf (storage this) -> findScheme id (schemes this) = Some e0 ->
  schemeIs (u8 "basic") e0 = true ->
  ss_finalKeyValue <$> findScheme id (schemes (CR base64 this)) = Some (ss_finalKeyValue e0).
Proof.
  intros Hwf He Hb. rewrite schemes_CR. destruct (assoc id (storage this)) as [r|] eqn:E.
  - rewrite (restored_one _ r), He by done. simpl. unfold applyKey, keyFor. by rewrite Hb.
  - rewrite restored_other; [by rewrite He|]. destruct Hwf as [_ Hid].
    rewrite Forall_forall in *. intros x Hin Hx. rewrite (Hid _ Hin) in Hx. subst.
    apply assoc_None in E. apply E, list_elem_of_fmap. eauto.
Qed.

(** The button that clears every key leaves what the browser keeps, so that with
    [persist-auth] the next rendering applies the keys again. *)
Lemma cleared_key_returns this id u p token r :
  storageWf (storage this) -> persistAuth this = u8 "true" ->
  findScheme id (schemes this) = Some r ->
  schemeIs (u8 "basic") r = false -> truthy (trim token) = true ->
  let this1 := IR base64 id u p token true this in
  ss_finalKeyValue <$> findScheme id (schemes (CR base64 (jR this1)))
  = ss_finalKeyValue <$> findScheme id (schemes this1).
Proof.
  intros Hwf Hp Hr Hb Ht this1.
  destruct (IR_token id u p token r this) as [H1 H2]; try done. fold this1 in H1, H2.
  rewrite schemes_CR, H1. unfold jR at 1. rewrite storage_upd, H2.
  assert (He : findScheme id (schemes (jR this1)) = Some (cleared (withKey (ss_user r)
    (ss_password r) (trim token)
    ((if schemeIs (u8 "bearer") r then u8 "Bearer " else []) ++ trim token) r))).
  { unfold jR. by rewrite schemes_upd, find_map_cleared, H1. }
  erewrite restored_token; [..|apply assoc_set|done|done| |].
  - by rewrite He.
  - apply storageWf_set; [done|]. simpl. by eapply findScheme_id.
  - by rewrite He.
  - rewrite He. by intros e [= <-].
Qed.

(** Removing a key removes it for good and alone: its scheme has no key after the
    button, nor after the next rendering when keys are kept in the browser, and the key
    of every other scheme, applied or kept, is what it was. *)
Theorem removed_key_stays_removed this id :
  storageWf (storage this) ->
  findScheme id (schemes (DR id this)) = cleared <$> findScheme id (schemes this)
  /\ (persistAuth this = u8 "true" ->
      findScheme id (schemes (CR base64 (DR id this)))
      = cleared <$> findScheme id (schemes this))
  /\ forall id', id' <> id ->
      findScheme id' (schemes (DR id this)) = findScheme id' (schemes this)
      /\ assoc id' (storage (DR id this)) = assoc id' (storage this).
Proof.
  intros Hwf. set (this' := updSchemes (onScheme id cleared) this).
  assert (Hs : schemes (DR id this) = onScheme id cleared (schemes this)).
  { unfold DR. by case_match; [change (schemes this' = onScheme id cleared (schemes this))|];
      apply schemes_upd. }
  assert (Hst : storage (DR id this) = storage this
                \/ storage (DR id this) = assocDelete id (storage this)).
  { unfold DR. case_match; simpl; rewrite ?storage_upd; auto. }
  assert (Hone : findScheme id (schemes (DR id this)) = cleared <$> findScheme id (schemes this)).
  { rewrite Hs, find_onScheme by done. by rewrite bool_decide_true. }
  split; [done|]. split.
  - intros Hp. rewrite schemes_CR.
    assert (Hd : storage (DR id this) = assocDelete id (storage this)).
    { unfold DR. change (cfg (updSchemes (onScheme id cleared) this)) with (cfg this').
      unfold this'. rewrite cfg_upd, Hp, bool_decide_true by done. simpl.
      by rewrite storage_upd. }
    rewrite restored_other; [done|]. rewrite Hd. apply Forall_forall. intros e He Hid.
    unfold assocDelete in He. rewrite list_elem_of_In, filter_In, <- list_elem_of_In in He.
    destruct He as [He Hk]. destruct Hwf as [_ Hwf]. rewrite Forall_forall in Hwf.
    rewrite (Hwf _ He) in Hid. by rewrite Hid, bool_decide_true in Hk.
  - intros id' Hn. split.
    + rewrite Hs, find_onScheme by done. by rewrite bool_decide_false.
    + destruct Hst as [->| ->]; [done|]. by apply assoc_delete_ne.
Qed.

End keys.
