(* ===== verification/RapidocOperation.v ===== *)
(** * RapiDoc: operations

    The templates of one operation: its code samples [NR], its callbacks [UR], the
    expanded form [vF] of the read and focused modes, and the head [qF] and body [NF] of
    the collapsible form.  The elements [api-request] and [api-response] they contain are
    given what they are bound to.

    [highlight] is the bundled highlighter: the text of a known language as HTML. *)

From stdpp Require Import strings numbers pretty list sets.
From S2P Require Import Prelude JsString Html RapidocSpec RapidocElement RapidocAuth.

Open Scope nat_scope.

Section operation.
Context {CM : CaseMapping} {LC : Locale} {MK : Marked}.
Context (highlight : jstr -> jstr -> option jstr).

(** [NR]. *)
Definition NR (l : list CodeSample) : html bound :=
  el "section" ["class" =: u8 "table-title"; "style" =: u8 "margin-top:24px;"] (
      txt (u8 "CODE SAMPLES") ++
      el "div" ["part" =: u8 "tab-panel";
          "class" =: u8 "tab-panel col";
          "click" =@ selectTab] (
        el "div" ["part" =: u8 "tab-btn-row";
            "class" =: u8 "tab-buttons row";
            "style" =: u8 "width:100; overflow"] (
          flat_map (fun '(t, e) => el "button" ["part" =: u8 "tab-btn";
                  "class" =: u8 "tab-btn " ++ (if t =? 0 then u8 "active" else []);
                  "data-tab" =: cs_lang e ++ decN t] (
                txt (sor (orE (cs_label e)) (cs_lang e)))) (imap pair l)) ++
        flat_map (fun '(t, e) => el "div" ["class" =: u8 "tab-content m-markdown";
                "style" =: u8 "display:" ++ (if t =? 0 then u8 "block" else u8 "none");
                "data-tab" =: cs_lang e ++ decN t] (
              el "button" ["class" =: u8 "toolbar-btn";
                  "style" =: u8 "position:absolute; top:12px; right:8px";
                  "click" =@ (call_ht (cs_source e))] (
                txt (u8 " Copy ")) ++
              el "pre" [] (
                el "code" ["class" =: u8 "language"] (
                  match highlight (cs_source e) (toLowerCase (cs_lang e)) with Some h => raw h | None => txt (cs_source e) end)))) (imap pair l))).

Definition samples (e : Path) : html bound :=
  match p_xCodeSamples e with Some l => NR l | None => [] end.

(** [UR]: callbacks by name, expression and method. *)
Definition UR (this : RapiDoc) (l : Callbacks) : html bound :=
  el "div" ["class" =: u8 "req-res-title"; "style" =: u8 "margin-top:12px"] (
      txt (u8 "CALLBACKS")) ++
  flat_map (fun e => el "div" ["class" =: u8 "tiny-title";
            "style" =: u8 "padding: 12px; border:1px solid var(--light-border-color)"] (
          txt e.1 ++
          flat_map (fun e => el "div" ["class" =: u8 "mono-font small-font-size";
                  "style" =: u8 "display:flex; margin-left:16px;"] (
                el "div" ["style" =: u8 "width:100%"] (
                  flat_map (fun t => el "div" [] (
                        el "div" ["style" =: u8 "margin-top:12px;"] (
                          el "div" ["class" =: u8 "method method-fg " ++ t.1;
                              "style" =: u8 "width:70px; border:none; margin:0; padding:0; line-height:20px; vertical-align: baseline;text-align:left"] (
                            el "span" ["style" =: u8 "font-size:20px;"] (txt (u8 " ⥄ ")) ++
                            txt t.1) ++
                          el "span" ["style" =: u8 "line-height:20px; vertical-align: baseline;"] (txt e.1)) ++
                        el "div" ["class" =: u8 "expanded-req-resp-container"] (
                          el "api-request" ["class" =: renderStyle this ++ u8 "-mode callback";
                              "style" =: u8 "width:100%;";
                              "callback" =: u8 "true";
                              "method" =: t.1;
                              "path" =: e.1;
                              ".parameters" =@ (BParams (cb_parameters t.2));
                              ".request_body" =@ (BJson (cb_requestBody t.2));
                              "fill-request-fields-with-example" =: fillRequestFieldsWithExample this;
                              "allow-try" =: u8 "false";
                              "render-style" =: renderStyle this;
                              "schema-style" =: schemaStyle this;
                              "active-schema-tab" =: defaultSchemaTab this;
                              "schema-expand-level" =: dec (schemaExpandLevel this);
                              "schema-description-expanded" =: schemaDescriptionExpanded this;
                              "allow-schema-description-expand-toggle" =: allowSchemaDescriptionExpandToggle this;
                              "schema-hide-read-only" =: u8 "false";
                              "schema-hide-write-only" =: (if schemaHideWriteOnly this === u8 "never" then u8 "false" else u8 "true");
                              "fetch-credentials" =: fetchCredentials this;
                              "exportparts" =: u8 "wrap-request-btn:wrap-request-btn, btn:btn, btn-fill:btn-fill, btn-outline:btn-outline, btn-try:btn-try, btn-clear:btn-clear, btn-clear-resp:btn-clear-resp, tab-panel:tab-panel, tab-btn:tab-btn, tab-btn-row:tab-btn-row, tab-coontent:tab-content, file-input:file-input, textbox:textbox, textbox-param:textbox-param, textarea:textarea, textarea-param:textarea-param, anchor:anchor, anchor-param-example:anchor-param-example, schema-description:schema-description, schema-multiline-toggle:schema-multiline-toggle"] [] ++
                          el "api-response" ["style" =: u8 "width:100%;";
                              "class" =: renderStyle this ++ u8 "-mode";
                              "callback" =: u8 "true";
                              ".responses" =@ (BResponses (cb_responses t.2));
                              "render-style" =: renderStyle this;
                              "schema-style" =: schemaStyle this;
                              "active-schema-tab" =: defaultSchemaTab this;
                              "schema-expand-level" =: dec (schemaExpandLevel this);
                              "schema-description-expanded" =: schemaDescriptionExpanded this;
                              "allow-schema-description-expand-toggle" =: allowSchemaDescriptionExpandToggle this;
                              "schema-hide-read-only" =: (if schemaHideReadOnly this === u8 "never" then u8 "false" else u8 "true");
                              "schema-hide-write-only" =: u8 "false";
                              "exportparts" =: u8 "btn:btn, btn-response-status:btn-response-status, btn-selected-response-status:btn-selected-response-status, btn-fill:btn-fill, btn-copy:btn-copy, tab-panel:tab-panel, tab-btn:tab-btn, tab-btn-row:tab-btn-row, tab-coontent:tab-content, schema-description:schema-description, schema-multiline-toggle:schema-multiline-toggle"] []))) e.2))) e.2)) l.

(** The content types of the responses, each once, in order. *)
Definition insertNew (l : list jstr) (x : jstr) : list jstr :=
  if inList x l then l else l ++ [x].
Definition acceptOf (responses : list (jstr * Response)) : jstr :=
  joinWith (u8 ", ")
    (foldl insertNew [] (flat_map (fun r => map (fun c => trim c.1) (rsp_content r.2)) responses)).

Definition firstStatus (responses : list (jstr * Response)) : jstr :=
  match responses with r :: _ => r.1 | [] => [] end.

Definition docsUrl (e : Path) : option jstr := d ← p_externalDocs e; ed_url d.
Definition docsDescription (e : Path) : option jstr :=
  d ← p_externalDocs e; ed_description d.

(** [vF]: [t] and [r] are the name and the description of the tag. *)
Definition vF (this : RapiDoc) (e : Path) (t r : jstr) : html bound :=
  when (renderStyle this === u8 "read") (el "div" ["class" =: u8 "divider"; "part" =: u8 "operation-divider"] []) ++
  el "div" ["class" =: u8 "expanded-endpoint-body observe-me " ++ p_method e ++ u8 " " ++ (if p_deprecated e then u8 "deprecated" else []) ++ u8 " ";
        "part" =: u8 "section-operation " ++ p_elementId e;
        "id" =: p_elementId e] (
      when ((renderStyle this === u8 "focused") && negb (t === u8 "General ⦂")) (el "div" ["class" =: u8 "tag-container"; "part" =: u8 "section-operation-tag"] (
            el "span" ["class" =: u8 "upper"; "style" =: u8 "font-weight:bold; font-size:18px;"] (txt t) ++
            when (truthy r) (el "svg" ["class" =: u8 "tag-icon collapsed";
                    "width" =: u8 "24";
                    "height" =: u8 "24";
                    "viewBox" =: u8 "0 0 24 24";
                    "stroke-width" =: u8 "2";
                    "fill" =: u8 "none";
                    "style" =: u8 "stroke:var(--primary-color); vertical-align:top; cursor:pointer";
                    "click" =@ call_yF] (
                  el "path" ["d" =: u8 "M12 20h-6a2 2 0 0 1 -2 -2v-12a2 2 0 0 1 2 -2h8"] [] ++
                  el "path" ["d" =: u8 "M18 4v17"] [] ++
                  el "path" ["d" =: u8 "M15 18l3 3l3 -3"] []) ++
              el "div" ["class" =: u8 "tag-description collapsed";
                    "style" =: u8 "max-height:0px; overflow:hidden; margin-top:16px; border:1px solid var(--border-color)"] (
                  el "div" ["class" =: u8 "m-markdown"; "style" =: u8 "padding:8px"] (raw (markdown r)))))) ++
      when (p_deprecated e) (el "div" ["class" =: u8 "bold-text red-text"] (txt (u8 " DEPRECATED "))) ++
      when (0 <? length (default [] (p_xBadges e))) (el "div" ["style" =: u8 "display:flex; flex-wrap:wrap; margin-bottom: -24px; font-size: var(--font-size-small);"] (
              flat_map (fun e => unless (bdg_color e === u8 "none") (el "span" ["style" =: u8 "margin:1px; margin-right:5px; padding:1px 8px; font-weight:bold; border-radius:12px;  background-color: var(--light-" ++ bdg_color e ++ u8 ", var(--input-bg)); color:var(--" ++ bdg_color e ++ u8 "); border:1px solid var(--" ++ bdg_color e ++ u8 ")"] (
                      txt (bdg_label e)))) (default [] (p_xBadges e)))) ++
      el "h2" ["part" =: u8 "section-operation-summary"] (
          txt (sor (p_shortSummary e) (toUpperCase (p_method e) ++ u8 " " ++ p_path e))) ++
      (if p_isWebhook e then el "span" ["part" =: u8 "section-operation-webhook";
                "style" =: u8 "color:var(--primary-color); font-weight:bold; font-size: var(--font-size-regular);"] (
              txt (u8 " WEBHOOK "))
        else el "div" ["part" =: u8 "section-operation-webhook-method";
                "class" =: u8 "mono-font regular-font-size";
                "style" =: u8 "text-align:left; direction:ltr; padding: 8px 0; color:var(--fg3)"] (
              el "span" ["part" =: u8 "label-operation-method";
                  "class" =: u8 "regular-font upper method-fg bold-text " ++ p_method e] (
                txt (p_method e)) ++
              el "span" ["part" =: u8 "label-operation-path"] (txt (p_path e)))) ++
      el "slot" ["name" =: p_elementId e] [] ++
      when (truthy (p_description e)) (el "div" ["class" =: u8 "m-markdown"] (raw (markdown (p_description e)))) ++
      qR this (p_security e) ++
      when (truthyO (docsUrl e) || truthyO (docsDescription e)) (el "div" ["style" =: u8 "background-color:var(--bg3); padding:2px 8px 8px 8px; margin:8px 0; border-radius:var(--border-radius)"] (
            el "div" ["class" =: u8 "m-markdown"] (raw (markdown (orE (docsDescription e)))) ++
            when (truthyO (docsUrl e)) (el "a" ["style" =: u8 "font-family:var(--font-mono); font-size:var(--font-size-small)";
                    "href" =: orE (docsUrl e);
                    "target" =: u8 "_blank"] (
                  txt (orE (docsUrl e)) ++
                  el "div" ["style" =: u8 "transform: rotate(270deg) scale(1.5); display: inline-block; margin-left:5px"] (
                    txt (u8 "⇲")))))) ++
      samples e ++
      el "div" ["class" =: u8 "expanded-req-resp-container"] (
        el "api-request" ["class" =: renderStyle this ++ u8 "-mode";
            "style" =: u8 "width:100%;";
            "webhook" =: decB (p_isWebhook e);
            "method" =: p_method e;
            "path" =: p_path e;
            ".security" =@ (BSecurity (p_security e));
            ".parameters" =@ (BParams (Some (p_parameters e)));
            ".request_body" =@ (BJson (p_requestBody e));
            ".api_keys" =@ (BSchemes (apiKeys this (p_security e)));
            ".servers" =@ (BServers (p_servers e));
            "server-url" =: sor (orE (srv_url <$> head (p_servers e))) (orE (srv_computedUrl <$> selectedServer this));
            "fill-request-fields-with-example" =: fillRequestFieldsWithExample this;
            "allow-try" =: allowTry this;
            "show-curl-before-try" =: showCurlBeforeTry this;
            "accept" =: acceptOf (p_responses e);
            "render-style" =: renderStyle this;
            "schema-style" =: schemaStyle this;
            "active-schema-tab" =: defaultSchemaTab this;
            "schema-expand-level" =: dec (schemaExpandLevel this);
            "schema-description-expanded" =: schemaDescriptionExpanded this;
            "allow-schema-description-expand-toggle" =: allowSchemaDescriptionExpandToggle this;
            "schema-hide-read-only" =: (if (schemaHideReadOnly this === u8 "never") || p_isWebhook e then u8 "false" else u8 "true");
            "schema-hide-write-only" =: (if schemaHideWriteOnly this === u8 "never" then u8 "false" else (if p_isWebhook e then u8 "true" else u8 "false"));
            "fetch-credentials" =: fetchCredentials this;
            "exportparts" =: u8 "wrap-request-btn:wrap-request-btn, btn:btn, btn-fill:btn-fill, btn-outline:btn-outline, btn-try:btn-try, btn-clear:btn-clear, btn-clear-resp:btn-clear-resp, tab-panel:tab-panel, tab-btn:tab-btn, tab-btn-row:tab-btn-row, tab-coontent:tab-content, file-input:file-input, textbox:textbox, textbox-param:textbox-param, textarea:textarea, textarea-param:textarea-param, anchor:anchor, anchor-param-example:anchor-param-example, schema-description:schema-description, schema-multiline-toggle:schema-multiline-toggle"] [] ++
        match p_callbacks e with Some c => UR this c | None => [] end ++
        el "api-response" ["class" =: renderStyle this ++ u8 "-mode";
            "style" =: u8 "width:100%;";
            "webhook" =: decB (p_isWebhook e);
            ".responses" =@ (BResponses (Some (p_responses e)));
            "render-style" =: renderStyle this;
            "schema-style" =: schemaStyle this;
            "active-schema-tab" =: defaultSchemaTab this;
            "schema-expand-level" =: dec (schemaExpandLevel this);
            "schema-description-expanded" =: schemaDescriptionExpanded this;
            "allow-schema-description-expand-toggle" =: allowSchemaDescriptionExpandToggle this;
            "schema-hide-read-only" =: (if schemaHideReadOnly this === u8 "never" then u8 "false" else (if p_isWebhook e then u8 "true" else u8 "false"));
            "schema-hide-write-only" =: (if (schemaHideWriteOnly this === u8 "never") || p_isWebhook e then u8 "false" else u8 "true");
            "selected-status" =: firstStatus (p_responses e);
            "exportparts" =: u8 "btn:btn, btn-response-status:btn-response-status, btn-selected-response-status:btn-selected-response-status, btn-fill:btn-fill, btn-copy:btn-copy, tab-panel:tab-panel, tab-btn:tab-btn, tab-btn-row:tab-btn-row, tab-coontent:tab-content, schema-description:schema-description, schema-multiline-toggle:schema-multiline-toggle"] [])).

(** [qF]: [t] is whether every operation is expanded. *)
Definition qF (this : RapiDoc) (e : Path) (t : bool) : html bound :=
  el "summary" ["click" =@ (call_LF e);
        "part" =: u8 "section-endpoint-head-" ++ (if p_expanded e then u8 "expanded" else u8 "collapsed");
        "class" =: u8 "endpoint-head " ++ p_method e ++ u8 " " ++ (if p_deprecated e then u8 "deprecated" else []) ++ u8 " " ++ (if t || p_expanded e then u8 "expanded" else u8 "collapsed")] (
      el "div" ["part" =: u8 "section-endpoint-head-method";
          "class" =: u8 "method " ++ p_method e ++ u8 " " ++ (if p_deprecated e then u8 "deprecated" else [])] (
        txt (p_method e)) ++
      el "div" ["part" =: u8 "section-endpoint-head-path";
          "class" =: u8 "path " ++ (if p_deprecated e then u8 "deprecated" else [])] (
        txt (p_path e) ++
        when (p_isWebhook e) (el "span" ["style" =: u8 "font-family: var(--font-regular); font-size: var(--); font-size: var(--font-size-small); color:var(--primary-color); margin-left: 16px"] (
              txt (u8 " Webhook")))) ++
      when (p_deprecated e) (el "span" ["style" =: u8 "font-size:var(--font-size-small); text-transform:uppercase; font-weight:bold; color:var(--red); margin:2px 0 0 5px;"] (
            txt (u8 "deprecated"))) ++
      when (showSummaryWhenCollapsed this) (el "div" ["class" =: u8 "only-large-screen";
              "style" =: u8 "min-width:60px; flex:1"] [] ++
        el "div" ["part" =: u8 "section-endpoint-head-description"; "class" =: u8 "descr"] (
            txt (sor (p_summary e) (p_shortSummary e))))).

(** [NF]. *)
Definition NF (this : RapiDoc) (e : Path) : html bound :=
  el "div" ["part" =: u8 "section-endpoint-body-" ++ (if p_expanded e then u8 "expanded" else u8 "collapsed");
        "class" =: u8 "endpoint-body " ++ p_method e ++ u8 " " ++ (if p_deprecated e then u8 "deprecated" else [])] (
      el "div" ["class" =: u8 "summary"] (
        (if truthy (p_summary e) then el "div" ["class" =: u8 "title"; "part" =: u8 "section-endpoint-body-title"] (
              txt (p_summary e))
        else when (negb (p_shortSummary e === p_description e)) (el "div" ["class" =: u8 "title"; "part" =: u8 "section-endpoint-body-title"] (
                txt (p_shortSummary e)))) ++
        when (0 <? length (default [] (p_xBadges e))) (el "div" ["style" =: u8 "display:flex; flex-wrap:wrap;font-size: var(--font-size-small);"] (
              flat_map (fun e => unless (bdg_color e === u8 "none") (el "span" ["part" =: u8 "endpoint-badge";
                        "style" =: u8 "margin:1px; margin-right:5px; padding:1px 8px; font-weight:bold; border-radius:12px;  background-color: var(--light-" ++ bdg_color e ++ u8 ", var(--input-bg)); color:var(--" ++ bdg_color e ++ u8 "); border:1px solid var(--" ++ bdg_color e ++ u8 ")"] (
                      txt (bdg_label e)))) (default [] (p_xBadges e)))) ++
        when (truthy (p_description e)) (el "div" ["part" =: u8 "section-endpoint-body-description";
                "class" =: u8 "m-markdown"] (
              raw (markdown (p_description e)))) ++
        when (truthyO (docsUrl e) || truthyO (docsDescription e)) (el "div" ["style" =: u8 "background-color:var(--bg3); padding:2px 8px 8px 8px; margin:8px 0; border-radius:var(--border-radius)"] (
              el "div" ["class" =: u8 "m-markdown"] (raw (markdown (orE (docsDescription e)))) ++
              when (truthyO (docsUrl e)) (el "a" ["style" =: u8 "font-family:var(--font-mono); font-size:var(--font-size-small)";
                      "href" =: orE (docsUrl e);
                      "target" =: u8 "_blank"] (
                    txt (orE (docsUrl e)) ++
                    el "div" ["style" =: u8 "transform: rotate(270deg) scale(1.5); display: inline-block; margin-left:5px"] (
                      txt (u8 "⇲")))))) ++
        el "slot" ["name" =: p_elementId e] [] ++
        qR this (p_security e) ++
        samples e) ++
      el "div" ["class" =: u8 "req-resp-container"] (
        el "div" ["style" =: u8 "display:flex; flex-direction:column";
            "class" =: u8 "view-mode-request " ++ layout this ++ u8 "-layout"] (
          el "api-request" ["class" =: renderStyle this ++ u8 "-mode " ++ layout this ++ u8 "-layout";
              "style" =: u8 "width:100%;";
              "webhook" =: decB (p_isWebhook e);
              "method" =: p_method e;
              "path" =: p_path e;
              ".security" =@ (BSecurity (p_security e));
              ".parameters" =@ (BParams (Some (p_parameters e)));
              ".request_body" =@ (BJson (p_requestBody e));
              ".api_keys" =@ (BSchemes (apiKeys this (p_security e)));
              ".servers" =@ (BServers (p_servers e));
              "server-url" =: match p_servers e with srv :: _ => srv_url srv | [] => orE (srv_computedUrl <$> selectedServer this) end;
              "active-schema-tab" =: defaultSchemaTab this;
              "fill-request-fields-with-example" =: fillRequestFieldsWithExample this;
              "allow-try" =: allowTry this;
              "show-curl-before-try" =: showCurlBeforeTry this;
              "accept" =: acceptOf (p_responses e);
              "render-style" =: renderStyle this;
              "schema-style" =: schemaStyle this;
              "schema-expand-level" =: dec (schemaExpandLevel this);
              "schema-description-expanded" =: schemaDescriptionExpanded this;
              "allow-schema-description-expand-toggle" =: allowSchemaDescriptionExpandToggle this;
              "schema-hide-read-only" =: (if (schemaHideReadOnly this === u8 "never") || p_isWebhook e then u8 "false" else u8 "true");
              "schema-hide-write-only" =: (if schemaHideWriteOnly this === u8 "never" then u8 "false" else (if p_isWebhook e then u8 "true" else u8 "false"));
              "fetch-credentials" =: fetchCredentials this;
              "exportparts" =: u8 "wrap-request-btn:wrap-request-btn, btn:btn, btn-fill:btn-fill, btn-outline:btn-outline, btn-try:btn-try, btn-clear:btn-clear, btn-clear-resp:btn-clear-resp, tab-panel:tab-panel, tab-btn:tab-btn, tab-btn-row:tab-btn-row, tab-coontent:tab-content, file-input:file-input, textbox:textbox, textbox-param:textbox-param, textarea:textarea, textarea-param:textarea-param, anchor:anchor, anchor-param-example:anchor-param-example, schema-description:schema-description, schema-multiline-toggle:schema-multiline-toggle"] [] ++
          match p_callbacks e with Some c => UR this c | None => [] end) ++
        el "api-response" ["class" =: renderStyle this ++ u8 "-mode";
            "style" =: u8 "width:100%;";
            "webhook" =: decB (p_isWebhook e);
            ".responses" =@ (BResponses (Some (p_responses e)));
            "active-schema-tab" =: defaultSchemaTab this;
            "render-style" =: renderStyle this;
            "schema-style" =: schemaStyle this;
            "schema-expand-level" =: dec (schemaExpandLevel this);
            "schema-description-expanded" =: schemaDescriptionExpanded this;
            "allow-schema-description-expand-toggle" =: allowSchemaDescriptionExpandToggle this;
            "schema-hide-read-only" =: (if schemaHideReadOnly this === u8 "never" then u8 "false" else (if p_isWebhook e then u8 "true" else u8 "false"));
            "schema-hide-write-only" =: (if (schemaHideWriteOnly this === u8 "never") || p_isWebhook e then u8 "false" else u8 "true");
            "selected-status" =: firstStatus (p_responses e);
            "exportparts" =: u8 "btn:btn, btn-fill:btn-fill, btn-outline:btn-outline, btn-try:btn-try, file-input:file-input, textbox:textbox, textbox-param:textbox-param, textarea:textarea, textarea-param:textarea-param, anchor:anchor, anchor-param-example:anchor-param-example, btn-clear-resp:btn-clear-resp, tab-panel:tab-panel, tab-btn:tab-btn, tab-btn-row:tab-btn-row, tab-coontent:tab-content, schema-description:schema-description, schema-multiline-toggle:schema-multiline-toggle"] [])).

End operation.
