(* ===== verification/RapidocMain.v ===== *)
(** * RapiDoc: the content of the page

    What the element shows next to its navigation bar: the overview [EF], the servers
    [jF], the operations of the read mode [bF], of the view mode [UF] and of the focused
    mode [MF], the components, the header [zF] and the search dialog [VF]. *)

From stdpp Require Import strings numbers pretty list sets.
From S2P Require Import Prelude JsString Html RapidocSpec RapidocElement RapidocAuth.
From S2P Require Import RapidocOperation.

Open Scope nat_scope.

Section content.
Context {CM : CaseMapping} {LC : Locale} {MK : Marked}.
Context (highlight : jstr -> jstr -> option jstr).

(** A description, with addressable headings when the navigation bar lists them. *)
Definition describe (this : RapiDoc) (prefix s : jstr) : jstr :=
  if infoDescriptionHeadingsInNavBar this === u8 "true" then markdownWith prefix s
  else markdown s.

(** ** Operations of the read mode *)

(** [bF]. *)
Definition bF (this : RapiDoc) : html bound :=
  match resolvedSpec this with
  | None => []
  | Some sp =>
  flat_map (fun e => el "section" ["id" =: t_elementId e;
            "part" =: u8 "section-tag";
            "class" =: u8 "regular-font section-gap--read-mode observe-me";
            "style" =: u8 "border-top:1px solid var(--primary-color);"] (
          el "div" ["class" =: u8 "title tag";
              "part" =: u8 "section-tag-title label-tag-title"] (
            txt (sor (orE (t_displayName e)) (t_name e))) ++
          el "slot" ["name" =: t_elementId e] [] ++
          el "div" ["class" =: u8 "regular-font-size"] (
            el "div" ["class" =: u8 "m-markdown regular-font"] (raw (describe this (t_elementId e) (t_description e))))) ++
      el "section" ["class" =: u8 "regular-font section-gap--read-mode";
            "part" =: u8 "section-operations-in-tag"] (
          flat_map (fun e => vF highlight this e [] []) (t_paths e))) (s_tags sp)
  end.

(** ** Components *)

(** [xF]. *)
Definition xF (this : RapiDoc) (e : SubComponent) : html bound :=
  el "div" ["class" =: u8 "divider"] [] ++
  el "div" ["class" =: u8 "expanded-endpoint-body observe-me " ++ sub_name e;
        "id" =: u8 "cmp--" ++ sub_id e] (
      el "div" ["style" =: u8 "font-weight:bold"] (
        txt (sub_name e) ++
        el "span" ["style" =: u8 "color:var(--light-fg); font-size:var(--font-size-small); font-weight:400;"] (
          txt (u8 " Schema "))) ++
      (if schemaStyle this === u8 "table" then el "schema-table" [".data" =@ (BSchema (sub_component e));
              "schema-expand-level" =: dec (schemaExpandLevel this);
              "schema-description-expanded" =: schemaDescriptionExpanded this;
              "allow-schema-description-expand-toggle" =: allowSchemaDescriptionExpandToggle this;
              "schema-hide-read-only" =: u8 "false";
              "schema-hide-write-only" =: schemaHideWriteOnly this;
              "exportparts" =: u8 "schema-description:schema-description, schema-multiline-toggle:schema-multiline-toggle"] []
      else el "schema-tree" [".data" =@ (BSchema (sub_component e));
              "schema-expand-level" =: dec (schemaExpandLevel this);
              "schema-description-expanded" =: schemaDescriptionExpanded this;
              "allow-schema-description-expand-toggle" =: allowSchemaDescriptionExpandToggle this;
              "schema-hide-read-only" =: u8 "false";
              "schema-hide-write-only" =: schemaHideWriteOnly this;
              "exportparts" =: u8 "schema-description:schema-description, schema-multiline-toggle:schema-multiline-toggle"] [])).

(** [wF]. *)
Definition wF (this : RapiDoc) (e : SubComponent) (t : jstr) : html bound :=
  if includes (sub_id e) (u8 "schemas-") then xF this e else
  el "div" ["class" =: u8 "divider"] [] ++
  el "div" ["class" =: u8 "expanded-endpoint-body observe-me " ++ sub_name e;
        "id" =: u8 "cmp--" ++ sub_id e] (
      el "div" ["style" =: u8 "font-weight:bold"] (
          txt (sub_name e) ++
          el "span" ["style" =: u8 "color:var(--light-fg); font-size:var(--font-size-small); font-weight:400"] (
            txt t)) ++
      when (bool_decide (is_Some (sub_component e))) (el "div" ["class" =: u8 "mono-font regular-font-size";
                "style" =: u8 "padding: 8px 0; color:var(--fg2)"] (
              el "json-tree" ["class" =: u8 "border tree";
                  "render-style" =: renderStyle this;
                  ".data" =@ (BJson (sub_component e))] []))).

Definition shownSubs (c : Component) : list SubComponent :=
  List.filter (fun e => negb (sub_expanded e === Some false)) (c_subComponents c).

(** [$F]. *)
Definition F_components (this : RapiDoc) : html bound :=
  match resolvedSpec this with
  | None => []
  | Some sp =>
  flat_map (fun e => el "div" ["id" =: u8 "cmp--" ++ toLowerCase (c_name e);
            "class" =: u8 "regular-font section-gap--read-mode observe-me";
            "style" =: u8 "border-top:1px solid var(--primary-color);"] (
          el "div" ["class" =: u8 "title tag"] (txt (c_name e)) ++
          el "div" ["class" =: u8 "regular-font-size"] (
            el "div" ["class" =: u8 "m-markdown regular-font"] (raw (markdown (c_description e))))) ++
      el "div" ["class" =: u8 "regular-font section-gap--read-mode"] (
          flat_map (fun t => wF this t (c_name e)) (shownSubs e))) (s_components sp)
  end.

(** ** Overview *)

Definition infoOf (this : RapiDoc) : option Info := sp ← resolvedSpec this; s_info sp.
Definition email (i : Info) : option jstr := c ← i_contact i; ct_email c.
Definition contactName (i : Info) : option jstr := c ← i_contact i; ct_name c.
Definition contactUrl (i : Info) : option jstr := c ← i_contact i; ct_url c.
Definition licenseUrl (i : Info) : option jstr := l ← i_license i; li_url l.
Definition licenseName (i : Info) : jstr := orE (li_name <$> i_license i).

(** [EF]. *)
Definition EF (this : RapiDoc) : html bound :=
  el "section" ["id" =: u8 "overview";
        "part" =: u8 "section-overview";
        "class" =: u8 "observe-me " ++ (if renderStyle this === u8 "view" then u8 "section-gap" else u8 "section-gap--read-mode")] (
      match infoOf this with None => [] | Some i =>
        el "div" ["id" =: u8 "api-title";
              "part" =: u8 "section-overview-title";
              "style" =: u8 "font-size:32px"] (
            txt (orE (i_title i)) ++
            when (truthyO (i_version i)) (el "span" ["style" =: u8 "font-size:var(--font-size-small);font-weight:bold"] (
                  txt (orE (i_version i))))) ++
        el "div" ["id" =: u8 "api-info";
              "style" =: u8 "font-size:calc(var(--font-size-regular) - 1px); margin-top:8px;"] (
            when (truthyO (email i)) (el "span" [] (
                  txt (sor (orE (contactName i)) (u8 "Email")) ++
                  txt (u8 ":") ++
                  el "a" ["href" =: u8 "mailto:" ++ orE (email i);
                      "part" =: u8 "anchor anchor-overview"] (
                    txt (orE (email i))))) ++
            when (truthyO (contactUrl i)) (el "span" [] (
                  txt (u8 "URL: ") ++
                  el "a" ["href" =: orE (contactUrl i); "part" =: u8 "anchor anchor-overview"] (
                    txt (orE (contactUrl i))))) ++
            when (bool_decide (is_Some (i_license i))) (el "span" [] (
                  txt (u8 "License:") ++
                  (if truthyO (licenseUrl i) then el "a" ["href" =: orE (licenseUrl i); "part" =: u8 "anchor anchor-overview"] (
                        txt (licenseName i))
                  else txt (licenseName i)))) ++
            when (truthyO (i_termsOfService i)) (el "span" [] (
                  el "a" ["href" =: orE (i_termsOfService i);
                      "part" =: u8 "anchor anchor-overview"] (
                    txt (u8 "Terms of Service")))) ++
            when (truthy (specUrl this) && (allowSpecFileDownload this === u8 "true")) (el "div" ["style" =: u8 "display:flex; margin:12px 0; gap:8px; justify-content: start;"] (
                  el "button" ["class" =: u8 "m-btn thin-border";
                      "style" =: u8 "min-width:170px";
                      "part" =: u8 "btn btn-outline";
                      "click" =@ (call_gt (specUrl this) (u8 "openapi-spec"))] (
                    txt (u8 "Download OpenAPI spec")) ++
                  when (endsWith (u8 "json") (toLowerCase (trim (specUrl this)))) (el "button" ["class" =: u8 "m-btn thin-border";
                          "style" =: u8 "width:200px";
                          "part" =: u8 "btn btn-outline";
                          "click" =@ (call_yt (specUrl this))] (
                        txt (u8 "View OpenAPI spec (New Tab)")))))) ++
        el "slot" ["name" =: u8 "overview"] [] ++
        el "div" ["id" =: u8 "api-description"] (
            when (truthyO (i_description i)) (el "div" ["class" =: u8 "m-markdown regular-font"] (raw (describe this (u8 "overview") (orE (i_description i))))))
        end).

(** ** Servers *)

(** [kF]: selecting a server by its address; whether there is one. *)
Definition kF (e : jstr) (this : RapiDoc) : RapiDoc * bool :=
  match sp ← resolvedSpec this; List.find (fun t => srv_url t === e) (s_servers sp) with
  | Some r => (withServer (Some r) this, true)
  | None => (this, false)
  end.

Definition withComputed (s : jstr) (t : Server) : Server :=
  {| srv_url := srv_url t; srv_description := srv_description t;
     srv_variables := srv_variables t; srv_computedUrl := s |}.

(** Changes the first server of an address. *)
Fixpoint onServer (url : jstr) (f : Server -> Server) (l : list Server) : list Server :=
  match l with
  | [] => []
  | t :: r => if srv_url t === url then f t :: r else t :: onServer url f r
  end.

(** [AF]: the address of the selected server from the variables' inputs.  The selected
    server is one of the specification's servers, the first of its address. *)
Definition AF (inputs : list (jstr * jstr)) (this : RapiDoc) : RapiDoc :=
  match selectedServer this with
  | None => this
  | Some t =>
      let s := foldl (fun s e => replaceVar e.1 e.2 s) (srv_url t) inputs in
      let this' := match resolvedSpec this with
        | Some sp => withSpec (Some {|
            specLoadError := specLoadError sp; isSpecLoading := isSpecLoading sp;
            s_info := s_info sp; infoDescriptionHeaders := infoDescriptionHeaders sp;
            s_tags := s_tags sp; s_components := s_components sp;
            securitySchemes := securitySchemes sp;
            s_servers := onServer (srv_url t) (withComputed s) (s_servers sp) |}) this
        | None => this
        end in
      withServer (Some (withComputed s t)) this'
  end.

(** [OF]. *)
Definition OF (this : RapiDoc) : html bound :=
  match selectedServer this with
  | Some srv =>
  when (bool_decide (is_Some (srv_variables srv))) (
  el "div" ["class" =: u8 "table-title"] (txt (u8 "SERVER VARIABLES")) ++
  el "table" ["class" =: u8 "m-table"; "role" =: u8 "presentation"] (
      flat_map (fun e => el "tr" [] (
            el "td" ["style" =: u8 "vertical-align: middle;"] (txt e.1) ++
            el "td" [] (
              (if bool_decide (is_Some (var_enum e.2)) then el "select" ["data-var" =: e.1; "input" =@ call_AF] (
                    flat_map (fun t => (if var_default e.2 === Some t then el "option" ["selected" =: []; "label" =: t; "value" =: t] []
                      else el "option" ["label" =: t; "value" =: t] [])) (default [] (var_enum e.2)))
              else el "input" ["type" =: u8 "text";
                      "part" =: u8 "textbox textbox-server-var";
                      "spellcheck" =: u8 "false";
                      "data-var" =: e.1;
                      "value" =: orE (var_default e.2);
                      "input" =@ call_AF] []))) ++
        when (truthyO (var_description e.2)) (el "tr" [] (
                el "td" ["colspan" =: u8 "2"; "style" =: u8 "border:none"] (
                  el "span" ["class" =: u8 "m-markdown-small"] (raw (markdown (orE (var_description e.2)))))))) (default [] (srv_variables srv))))
  | None => []
  end.

(** [jF]. *)
Definition jF (this : RapiDoc) : html bound :=
  match resolvedSpec this with
  | None => []
  | Some sp =>
  if specLoadError sp then [] else
  el "section" ["id" =: u8 "servers";
        "part" =: u8 "section-servers";
        "style" =: u8 "text-align:left; direction:ltr; margin-top:24px; margin-bottom:24px;";
        "class" =: u8 "regular-font observe-me " ++ (if includes (u8 "read focused") (renderStyle this) then u8 "section-gap--read-mode" else u8 "section-gap")] (
      el "div" ["part" =: u8 "section-servers-title"; "class" =: u8 "sub-title"] (
        txt (u8 "API SERVER")) ++
      el "div" ["class" =: u8 "mono-font";
          "style" =: u8 "margin: 12px 0; font-size:calc(var(--font-size-small) + 1px);"] (
        when (negb (length (s_servers sp) =? 0)) (flat_map (fun '(t, e) => el "input" ["type" =: u8 "radio";
                    "name" =: u8 "api_server";
                    "id" =: u8 "srvr-opt-" ++ decN t;
                    "value" =: srv_url e;
                    "change" =@ (call_kF (srv_url e));
                    ".checked" =@ (BBool (bool_decide (srv_url <$> selectedServer this = Some (srv_url e))));
                    "style" =: u8 "margin:4px 0; cursor:pointer"] [] ++
              el "label" ["style" =: u8 "cursor:pointer"; "for" =: u8 "srvr-opt-" ++ decN t] (
                  txt (srv_url e) ++
                  when (truthyO (srv_description e)) (txt (u8 "- ") ++
                    el "span" ["class" =: u8 "regular-font"] (txt (orE (srv_description e))))) ++
              el "br" [] []) (imap pair (s_servers sp))) ++
        el "div" ["class" =: u8 "table-title primary-text";
            "part" =: u8 "label-selected-server"] (
          txt (u8 " SELECTED: ") ++
          txt (sor (orE (srv_computedUrl <$> selectedServer this)) (u8 "none")))) ++
      el "slot" ["name" =: u8 "servers"] [] ++
      OF this)
  end.

(** ** The focused mode *)

(** [_F]. *)
Definition _F (e : html bound) : html bound :=
  el "div" ["class" =: u8 "regular-font section-gap--focused-mode";
        "part" =: u8 "section-operations-in-tag"] (
      e).

(** [RF]: what is shown when nothing is focused. *)
Definition RF (this : RapiDoc) : html bound :=
  if showInfo this === u8 "true" then _F (EF this)
  else match tags this with
       | t :: _ => _F (match t_paths t with
                       | r :: _ => vF highlight this r (t_name t) []
                       | [] => []
                       end)
       | [] => _F []
       end.

(** [FF]. *)
Definition FF (this : RapiDoc) (e : Tag) : html bound :=
  el "h1" ["id" =: t_elementId e] (txt (sor (orE (t_displayName e)) (t_name e))) ++
  when ((onNavTagClick this === u8 "show-description") && truthy (t_description e)) (el "div" ["class" =: u8 "m-markdown"] (
          el "div" ["class" =: u8 "m-markdown regular-font"] (raw (describe this (t_elementId e) (t_description e))))).

(** The id of the tag that [MF] looks for: [s.substring(0, n)] takes nothing for a
    negative [n]. *)
Definition tagIdOf (e : jstr) : jstr :=
  match indexOf (u8 "--") e 4 with
  | Some (S _) => match indexOf (u8 "--") e 5 with
                  | Some n => slice 0 n e
                  | None => []
                  end
  | _ => e
  end.

(** The first operation of an id, with its tag. *)
Definition findOperation (id : jstr) (l : list Tag) : option (Tag * Path) :=
  head (flat_map (fun t => match List.find (fun p => p_elementId p === id) (t_paths t) with
                           | Some p => [(t, p)]
                           | None => []
                           end) l).

(** [MF]: what the focused mode shows, and the link whose tag it expands in the
    navigation bar ([TF]). *)
Definition MF (server : jstr) (this : RapiDoc) : html bound * option jstr :=
  let e := focusedElementId this in
  if negb (truthy e) || negb (bool_decide (is_Some (resolvedSpec this))) then ([], None)
  else if startsWith (u8 "overview") e && (showInfo this === u8 "true")
  then (EF this, None)
  else if (e === u8 "auth") && (allowAuthentication this === u8 "true")
  then (BR server this, None)
  else if (e === u8 "servers") && (allowServerSelection this === u8 "true")
  then (jF this, None)
  else if e === u8 "operations-top" then (
    el "div" ["id" =: u8 "operations-top"; "class" =: u8 "observe-me"] (
      el "slot" ["name" =: u8 "operations-top"] []), None)
  else if startsWith (u8 "cmp--") e && (showComponents this === u8 "true")
  then (F_components this, None)
  else if startsWith (u8 "tag--") e then
    match List.find (fun t => t_elementId t === tagIdOf e) (tags this) with
    | Some s => (_F (FF this s), None)
    | None => (RF this, None)
    end
  else
    match findOperation e (tags this) with
    | Some (s, r) => (_F (vF highlight this r (t_name s) (t_description s)),
                      Some (u8 "link-" ++ e))
    | None => (RF this, None)
    end.

(** ** The view mode *)

(** The operations of a tag that match the search. *)
Definition shownPaths (this : RapiDoc) (r : Tag) : list Path :=
  List.filter (fun e => negb (truthy (searchVal this)) || mt (searchVal this) e (t_name r))
    (t_paths r).

(** [UF]: [e0] is the small element's form without tags, [t] expands everything. *)
Definition UF (this : RapiDoc) (e0 t : bool) : html bound :=
  match resolvedSpec this with
  | None => []
  | Some sp =>
  unless (e0) (el "div" ["style" =: u8 "display:flex; justify-content:flex-end;"] (
          el "span" ["click" =@ (call_BF (u8 "expand-all"));
              "style" =: u8 "color:var(--primary-color); cursor:pointer;"] (
            txt (u8 "Expand all")) ++
          txt (u8 "|") ++
          el "span" ["click" =@ (call_BF (u8 "collapse-all"));
              "style" =: u8 "color:var(--primary-color); cursor:pointer;"] (
            txt (u8 "Collapse all")) ++
          txt (u8 "sections"))) ++
  flat_map (fun r => (if e0 then el "div" ["class" =: u8 "section-tag-body"] (
              flat_map (fun e => el "section" ["id" =: p_elementId e;
                      "class" =: u8 "m-endpoint regular-font " ++ p_method e ++ u8 " " ++ (if t || p_expanded e then u8 "expanded" else u8 "collapsed")] (
                    qF this e t ++
                    when (t || p_expanded e) (NF highlight this e))) (shownPaths this r))
        else el "div" ["class" =: u8 "regular-font section-gap section-tag " ++ (if t_expanded r then u8 "expanded" else u8 "collapsed")] (
              el "div" ["class" =: u8 "section-tag-header";
                  "click" =@ (toggleTag (t_elementId r))] (
                el "div" ["id" =: t_elementId r;
                    "class" =: u8 "sub-title tag";
                    "style" =: u8 "color:var(--primary-color)"] (
                  txt (sor (orE (t_displayName r)) (t_name r)))) ++
              el "div" ["class" =: u8 "section-tag-body"] (
                el "slot" ["name" =: t_elementId r] [] ++
                el "div" ["class" =: u8 "regular-font regular-font-size m-markdown";
                    "style" =: u8 "padding-bottom:12px"] (
                  raw (markdown (t_description r))) ++
                flat_map (fun e => el "section" ["part" =: u8 "section-endpoint";
                        "id" =: p_elementId e;
                        "class" =: u8 "m-endpoint regular-font " ++ p_method e ++ u8 " " ++ (if t || p_expanded e then u8 "expanded" else u8 "collapsed")] (
                      qF this e t ++
                      when (t || p_expanded e) (NF highlight this e))) (shownPaths this r))))) (s_tags sp)
  end.

(** ** Header and search dialog *)

(** [zF]; the file input always starts empty. *)
Definition zF (this : RapiDoc) (specFile : jstr) : html bound :=
  el "header" ["class" =: u8 "row main-header regular-font";
        "part" =: u8 "section-header";
        "style" =: u8 "padding:8px 4px 8px 4px;min-height:48px;"] (
      el "div" ["class" =: u8 "only-large-screen-flex";
          "style" =: u8 "align-items: center;"] (
        el "slot" ["name" =: u8 "logo"; "class" =: u8 "logo"; "part" =: u8 "section-logo"] (
          el "div" ["style" =: u8 "height:36px;width:36px;margin-left:5px"] (
                el "svg" ["viewBox" =: u8 "1 0 511 512"] (
                  el "path" ["d" =: u8 "M351 411a202 202 0 01-350 0 203 203 0 01333-24 203 203 0 0117 24zm0 0";
                      "fill" =: u8 "#adc165"] [] ++
                  el "path" ["d" =: u8 "M334 387a202 202 0 01-216-69 202 202 0 01216 69zm78 32H85a8 8 0 01-8-8 8 8 0 018-8h327a8 8 0 017 8 8 8 0 01-7 8zm0 0";
                      "fill" =: u8 "#99aa52"] [] ++
                  el "path" ["d" =: u8 "M374 338l-5 30a202 202 0 01-248-248 203 203 0 01253 218zm0 0";
                      "fill" =: u8 "#ffc73b"] [] ++
                  el "path" ["d" =: u8 "M374 338a202 202 0 01-100-197 203 203 0 01100 197zm38 81l-6-2-231-231a8 8 0 0111-11l231 230a8 8 0 01-5 14zm0 0";
                      "fill" =: u8 "#efb025"] [] ++
                  el "path" ["d" =: u8 "M311 175c0 75 40 140 101 175a202 202 0 000-350 202 202 0 00-101 175zm0 0";
                      "fill" =: u8 "#ff903e"] [] ++
                  el "path" ["d" =: u8 "M412 419a8 8 0 01-8-8V85a8 8 0 0115 0v326a8 8 0 01-7 8zm0 0";
                      "fill" =: u8 "#e87425"] []))) ++
        el "div" ["class" =: u8 "header-title"; "part" =: u8 "label-header-title"] (
          txt (headingText this))) ++
      el "div" ["style" =: u8 "margin: 0px 8px;display:flex;flex:1"] (
        unless (allowSpecUrlLoad this === u8 "false") (el "input" ["id" =: u8 "spec-url";
                "type" =: u8 "text";
                "style" =: u8 "font-size:var(--font-size-small)";
                "class" =: u8 "header-input mono-font";
                "part" =: u8 "textbox textbox-spec-url";
                "placeholder" =: u8 "Spec URL";
                "value" =: specUrl this;
                "change" =@ onSpecUrlChange;
                "spellcheck" =: u8 "false"] [] ++
          el "div" ["style" =: u8 "margin: 6px 5px 0 -24px; font-size:var(--font-size-regular); cursor:pointer;"] (
              txt (u8 "↩"))) ++
        unless (allowSpecFileLoad this === u8 "false") (el "input" ["id" =: u8 "spec-file";
                "part" =: u8 "file-input";
                "type" =: u8 "file";
                "style" =: u8 "display:none";
                "value" =: specFile;
                "change" =@ onSpecFileChange;
                "spellcheck" =: u8 "false"] [] ++
          el "button" ["class" =: u8 "m-btn primary only-large-screen";
                "style" =: u8 "margin-left:10px;";
                "part" =: u8 "btn btn-fill";
                "click" =@ onFileLoadClick] (
              txt (u8 " LOCAL JSON FILE "))) ++
        el "slot" ["name" =: u8 "header"] [] ++
        unless ((allowSearch this === u8 "false") || includes (u8 "read focused") (renderStyle this)) (el "input" ["id" =: u8 "search";
                "class" =: u8 "header-input";
                "type" =: u8 "text";
                "part" =: u8 "textbox textbox-header-filter";
                "placeholder" =: u8 "Filter";
                "change" =@ onSearchChange;
                "style" =: u8 "max-width:130px;margin-left:10px;";
                "spellcheck" =: u8 "false"] [] ++
          el "div" ["style" =: u8 "margin: 6px 5px 0 -24px; font-size:var(--font-size-regular); cursor:pointer;"] (
              txt (u8 "↩"))) ++
        unless ((allowAdvancedSearch this === u8 "false") || includes (u8 "read focused") (renderStyle this)) (el "button" ["class" =: u8 "m-btn primary only-large-screen";
                "part" =: u8 "btn btn-fill btn-search";
                "style" =: u8 "margin-left:10px;";
                "click" =@ onShowSearchModalClicked] (
              txt (u8 "Search"))))).

(** [VF]. *)
Definition VF (this : RapiDoc) : html bound :=
  el "dialog-box" ["heading" =: u8 "Search"; "show" =: decB (showAdvancedSearchDialog this)] (
      el "span" ["class" =: u8 "advanced-search-options"] (
        el "input" ["id" =: u8 "input-advanced-search-dialog";
            "style" =: u8 "width:100%; padding-right:20px;";
            "type" =: u8 "text";
            "part" =: u8 "textbox textbox-search-dialog";
            "placeholder" =: u8 "search text...";
            "spellcheck" =: u8 "false";
            "keyup" =@ (onAdvancedSearch 400)] [] ++
        el "div" ["style" =: u8 "display:flex; margin:8px 0 24px;"] (
          el "div" [] (
            el "input" ["style" =: u8 "cursor:pointer;";
                "type" =: u8 "checkbox";
                "part" =: u8 "checkbox checkbox-search-dialog";
                "id" =: u8 "search-api-path";
                "checked" =: [];
                "change" =@ (onAdvancedSearch 0)] [] ++
            el "label" ["for" =: u8 "search-api-path"; "style" =: u8 "cursor:pointer;"] (
              txt (u8 " API Path "))) ++
          el "div" ["style" =: u8 "margin-left: 16px;"] (
            el "input" ["style" =: u8 "cursor:pointer;";
                "type" =: u8 "checkbox";
                "part" =: u8 "checkbox checkbox-search-dialog";
                "id" =: u8 "search-api-descr";
                "checked" =: [];
                "change" =@ (onAdvancedSearch 0)] [] ++
            el "label" ["style" =: u8 "cursor:pointer;"; "for" =: u8 "search-api-descr"] (
              txt (u8 " API Description "))) ++
          el "div" ["style" =: u8 "margin-left: 16px;"] (
            el "input" ["style" =: u8 "cursor:pointer;";
                "type" =: u8 "checkbox";
                "part" =: u8 "checkbox checkbox-search-dialog";
                "id" =: u8 "search-api-params";
                "change" =@ (onAdvancedSearch 0)] [] ++
            el "label" ["style" =: u8 "cursor:pointer;"; "for" =: u8 "search-api-params"] (
              txt (u8 " API Parameters "))) ++
          el "div" ["style" =: u8 "margin-left: 16px;"] (
            el "input" ["style" =: u8 "cursor:pointer;";
                "type" =: u8 "checkbox";
                "part" =: u8 "checkbox checkbox-search-dialog";
                "id" =: u8 "search-api-request-body";
                "change" =@ (onAdvancedSearch 0)] [] ++
            el "label" ["style" =: u8 "cursor:pointer;"; "for" =: u8 "search-api-request-body"] (
              txt (u8 " Request Body Parameters "))) ++
          el "div" ["style" =: u8 "margin-left: 16px;"] (
            el "input" ["style" =: u8 "cursor:pointer;";
                "type" =: u8 "checkbox";
                "part" =: u8 "checkbox checkbox-search-dialog";
                "id" =: u8 "search-api-resp-descr";
                "change" =@ (onAdvancedSearch 0)] [] ++
            el "label" ["style" =: u8 "cursor:pointer;"; "for" =: u8 "search-api-resp-descr"] (
              txt (u8 " Response Description "))))) ++
      flat_map (fun e => el "div" ["class" =: u8 "mono-font small-font-size hover-bg";
              "style" =: u8 "padding: 5px; cursor: pointer; border-bottom: 1px solid var(--light-border-color); " ++ (if m_deprecated e then u8 "filter:opacity(0.5);" else []);
              "data-content-id" =: m_elementId e;
              "tabindex" =: u8 "0";
              "click" =@ goToMatch] (
            el "span" ["style" =: u8 "pointer-events: none";
                "class" =: u8 "upper bold-text method-fg " ++ m_method e] (
              txt (m_method e)) ++
            el "span" ["style" =: u8 "pointer-events: none"] (txt (m_path e)) ++
            el "span" ["style" =: u8 "pointer-events: none";
                "class" =: u8 "regular-font gray-text"] (
              txt (m_summary e)))) (default [] (advancedSearchMatches this))).

(** The element [dialog-box]: its attributes and its template. *)
Record Dialog := mkDialog { dl_heading : jstr; dl_show : jstr }.

Definition dialogRender (d : Dialog) : html bound :=
  when (dl_show d === u8 "true") (el "div" ["class" =: u8 "dialog-box-overlay"] (
          el "div" ["class" =: u8 "dialog-box"] (
            el "header" ["class" =: u8 "dialog-box-header"] (
              el "span" ["class" =: u8 "dialog-box-title"] (txt (dl_heading d)) ++
              el "button" ["type" =: u8 "button"; "click" =@ onClose] (txt (u8 "×"))) ++
            el "div" ["class" =: u8 "dialog-box-content"] (el "slot" [] [])))).

End content.
