(* ===== verification/RapidocNav.v ===== *)
(** * RapiDoc: the navigation bar

    The template [CF] of the bar, what a click or the Enter key does in it ([PF]), and
    the expanded tags ([TF] and the two buttons for all). *)

From stdpp Require Import strings numbers pretty list sets.
From S2P Require Import Prelude JsString Html RapidocSpec RapidocElement RapidocAuth.
From S2P Require Import RapidocOperation RapidocMain.

Open Scope nat_scope.

Section nav.
Context {CM : CaseMapping} {LC : Locale} {MK : Marked}.

Definition navTitle (sp : Spec) : jstr :=
  sor (trim (orE (i ← s_info sp; i_title i))) (u8 "Overview").

(** The tags with an operation that matches the search. *)
Definition navTags (this : RapiDoc) (sp : Spec) : list Tag :=
  List.filter (fun e => existsb (fun t => mt (searchVal this) t (t_name e)) (t_paths e))
    (s_tags sp).

(** [CF]. *)
Definition CF (this : RapiDoc) : html bound :=
  let blank := el "nav" ["class" =: u8 "nav-bar"; "part" =: u8 "section-navbar"] (
      el "slot" ["name" =: u8 "nav-logo"; "class" =: u8 "logo"] []) in
  match resolvedSpec this with
  | None => blank
  | Some sp =>
    if specLoadError sp then blank else
    el "nav" ["class" =: u8 "nav-bar " ++ renderStyle this;
          "part" =: u8 "section-navbar"] (
        el "slot" ["name" =: u8 "nav-logo"; "class" =: u8 "logo"] [] ++
        unless ((allowSearch this === u8 "false") && (allowAdvancedSearch this === u8 "false")) (el "div" ["style" =: u8 "display:flex; flex-direction:row; justify-content:center; align-items:stretch; padding:8px 24px 12px 24px; " ++ (if allowAdvancedSearch this === u8 "false" then u8 "border-bottom: 1px solid var(--nav-hover-bg-color)" else []);
                "part" =: u8 "section-navbar-search"] (
              unless (allowSearch this === u8 "false") (el "div" ["style" =: u8 "display:flex; flex:1; line-height:22px;"] (
                    el "input" ["id" =: u8 "nav-bar-search";
                        "part" =: u8 "textbox textbox-nav-filter";
                        "style" =: u8 "width:100%; padding-right:20px; color:var(--nav-hover-text-color); border-color:var(--nav-accent-color); background-color:var(--nav-hover-bg-color)";
                        "type" =: u8 "text";
                        "placeholder" =: u8 "Filter";
                        "change" =@ onSearchChange;
                        "spellcheck" =: u8 "false"] [] ++
                    el "div" ["style" =: u8 "margin: 6px 5px 0 -24px; font-size:var(--font-size-regular); cursor:pointer;"] (
                      txt (u8 "↩"))) ++
                when (truthy (searchVal this)) (el "button" ["click" =@ onClearSearch;
                          "class" =: u8 "m-btn thin-border";
                          "style" =: u8 "margin-left:5px; color:var(--nav-text-color); width:75px; padding:6px 8px;";
                          "part" =: u8 "btn btn-outline btn-clear-filter"] (
                        txt (u8 "CLEAR")))) ++
              unless ((allowAdvancedSearch this === u8 "false") || truthy (searchVal this)) (el "button" ["class" =: u8 "m-btn primary";
                      "part" =: u8 "btn btn-fill btn-search";
                      "style" =: u8 "margin-left:5px; padding:6px 8px; width:75px";
                      "click" =@ onShowSearchModalClicked] (
                    txt (u8 "SEARCH"))))) ++
        el "nav" ["class" =: u8 "nav-scroll";
              "tabindex" =: u8 "-1";
              "part" =: u8 "section-navbar-scroll";
              "click" =@ call_PF;
              "keyup" =@ call_PF] (
            when (negb (showInfo this === u8 "false") && bool_decide (is_Some (s_info sp))) ((if infoDescriptionHeadingsInNavBar this === u8 "true" then when (0 <? length (infoDescriptionHeaders sp)) (el "div" ["class" =: u8 "nav-bar-info " ++ navActiveItemMarker this;
                            "id" =: u8 "link-overview";
                            "data-content-id" =: u8 "overview";
                            "data-action" =: u8 "navigate";
                            "tabindex" =: u8 "0";
                            "part" =: u8 "section-navbar-item section-navbar-overview"] (
                          txt (navTitle sp))) ++
                  el "div" ["class" =: u8 "overview-headers"] (
                      flat_map (fun e => el "div" ["class" =: u8 "nav-bar-h" ++ decN (tok_depth e) ++ u8 " " ++ navActiveItemMarker this;
                              "id" =: u8 "link-overview--" ++ slug (tok_text e);
                              "data-action" =: u8 "navigate";
                              "data-content-id" =: u8 "overview--" ++ slug (tok_text e)] (
                            txt (tok_text e))) (infoDescriptionHeaders sp)) ++
                  when (0 <? length (infoDescriptionHeaders sp)) (el "hr" ["style" =: u8 "border-top: 1px solid var(--nav-hover-bg-color); border-width:1px 0 0 0; margin: 15px 0 0 0"] [])
                else el "div" ["class" =: u8 "nav-bar-info " ++ navActiveItemMarker this;
                        "id" =: u8 "link-overview";
                        "data-action" =: u8 "navigate";
                        "data-content-id" =: u8 "overview";
                        "tabindex" =: u8 "0"] (
                      txt (navTitle sp)))) ++
            unless (allowServerSelection this === u8 "false") (el "div" ["class" =: u8 "nav-bar-info " ++ navActiveItemMarker this;
                    "id" =: u8 "link-servers";
                    "data-action" =: u8 "navigate";
                    "data-content-id" =: u8 "servers";
                    "tabindex" =: u8 "0";
                    "part" =: u8 "section-navbar-item section-navbar-servers"] (
                  txt (u8 " API Servers "))) ++
            when (negb (allowAuthentication this === u8 "false")) (el "div" ["class" =: u8 "nav-bar-info " ++ navActiveItemMarker this;
                    "id" =: u8 "link-auth";
                    "data-action" =: u8 "navigate";
                    "data-content-id" =: u8 "auth";
                    "tabindex" =: u8 "0";
                    "part" =: u8 "section-navbar-item section-navbar-auth"] (
                  txt (u8 " Authentication "))) ++
            el "div" ["id" =: u8 "link-operations-top";
                "class" =: u8 "nav-bar-section operations";
                "data-action" =: u8 "navigate";
                "data-content-id" =: (if renderStyle this === u8 "focused" then [] else u8 "operations-top");
                "part" =: u8 "section-navbar-item section-navbar-operations-top"] (
              el "div" ["style" =: u8 "font-size:16px; display:flex; margin-left:10px;"] (
                when (renderStyle this === u8 "focused") (el "div" ["class" =: u8 "nav-bar-expand-all";
                        "data-action" =: u8 "expand-all";
                        "tabindex" =: u8 "0";
                        "title" =: u8 "Expand all"] (
                      txt (u8 "▸")) ++
                  el "div" ["class" =: u8 "nav-bar-collapse-all";
                        "data-action" =: u8 "collapse-all";
                        "tabindex" =: u8 "0";
                        "title" =: u8 "Collapse all"] (
                      txt (u8 "▸")))) ++
              el "div" ["class" =: u8 "nav-bar-section-title"] (txt (u8 " OPERATIONS "))) ++
            flat_map (fun e => el "div" ["class" =: u8 "nav-bar-tag-and-paths " ++ (if (renderStyle this === u8 "read") || t_expanded e then u8 "expanded" else u8 "collapsed")] (
                  (if t_name e === u8 "General ⦂" then el "hr" ["style" =: u8 "border:none; border-top: 1px dotted var(--nav-text-color); opacity:0.3; margin:-1px 0 0 0;"] []
                  else el "div" ["class" =: u8 "nav-bar-tag " ++ navActiveItemMarker this;
                          "part" =: u8 "section-navbar-item section-navbar-tag";
                          "id" =: u8 "link-" ++ t_elementId e;
                          "data-action" =: (if (renderStyle this === u8 "read") || (onNavTagClick this === u8 "show-description") then u8 "navigate" else u8 "expand-collapse-tag");
                          "data-content-id" =: (if if renderStyle this === u8 "read" then truthy (t_elementId e) else onNavTagClick this === u8 "show-description" then t_elementId e else []);
                          "data-first-path-id" =: t_firstPathId e;
                          "tabindex" =: u8 "0"] (
                        el "div" ["style" =: u8 "pointer-events:none;"] (
                          txt (sor (orE (t_displayName e)) (t_name e))) ++
                        el "div" ["class" =: u8 "nav-bar-tag-icon";
                            "tabindex" =: u8 "0";
                            "data-action" =: u8 "expand-collapse-tag"] [])) ++
                  when (infoDescriptionHeadingsInNavBar this === u8 "true") (unless ((renderStyle this === u8 "focused") && (onNavTagClick this === u8 "expand-collapse")) (el "div" ["class" =: u8 "tag-headers"] (
                            flat_map (fun t => el "div" ["class" =: u8 "nav-bar-h" ++ decN (tok_depth t) ++ u8 " " ++ navActiveItemMarker this;
                                    "part" =: u8 "section-navbar-item section-navbar-h" ++ decN (tok_depth t);
                                    "id" =: u8 "link-" ++ t_elementId e ++ u8 "--" ++ slug (tok_text t);
                                    "data-action" =: u8 "navigate";
                                    "data-content-id" =: t_elementId e ++ u8 "--" ++ slug (tok_text t);
                                    "tabindex" =: u8 "0"] (
                                  txt (tok_text t))) (t_headers e)))) ++
                  el "div" ["class" =: u8 "nav-bar-paths-under-tag";
                      "style" =: u8 "max-height:" ++ decN (if t_expanded e || (renderStyle this === u8 "read") then 50 * max 1 (length (t_paths e)) else 0) ++ u8 "px;"] (
                    flat_map (fun e => el "div" ["class" =: u8 "nav-bar-path " ++ navActiveItemMarker this ++ u8 " " ++ (if usePathInNavBar this === u8 "true" then u8 "small-font" else []);
                        "part" =: u8 "section-navbar-item section-navbar-path";
                        "data-action" =: u8 "navigate";
                        "data-content-id" =: p_elementId e;
                        "id" =: u8 "link-" ++ p_elementId e;
                        "tabindex" =: u8 "0"] (
                      el "span" ["style" =: u8 "display:flex; pointer-events: none; align-items:start; " ++ (if p_deprecated e then u8 "filter:opacity(0.5)" else [])] (
                        el "span" ["class" =: u8 "nav-method " ++ showMethodInNavBar this ++ u8 " " ++ p_method e;
                              "style" =: u8 "pointer-events: none;"] (
                            txt (if showMethodInNavBar this === u8 "as-colored-block" then toUpperCase (slice 0 3 (p_method e)) else toUpperCase (p_method e))) ++
                        when (p_isWebhook e) (el "span" ["style" =: u8 "font-weight:bold; pointer-events: none; margin-right:8px; font-size: calc(var(--font-size-small) - 2px)"] (
                              txt (u8 "WEBHOOK"))) ++
                        (if usePathInNavBar this === u8 "true" then el "span" ["style" =: u8 "pointer-events: none;"; "class" =: u8 "mono-font"] (txt (p_path e))
                        else txt (sor (p_summary e) (p_shortSummary e)))))) (shownPaths this e)))) (navTags this sp) ++
            when ((showComponents this === u8 "true") && (renderStyle this === u8 "focused")) (el "div" ["id" =: u8 "link-components"; "class" =: u8 "nav-bar-section components"] (
                  el "div" [] [] ++
                  el "div" ["class" =: u8 "nav-bar-section-title"] (txt (u8 "COMPONENTS"))) ++
              flat_map (fun e => when (0 <? length (c_subComponents e)) (el "div" ["class" =: u8 "nav-bar-tag";
                          "part" =: u8 "section-navbar-item section-navbar-tag";
                          "data-action" =: u8 "navigate";
                          "data-content-id" =: u8 "cmp--" ++ toLowerCase (c_name e);
                          "id" =: u8 "link-cmp--" ++ toLowerCase (c_name e)] (
                        txt (c_name e)) ++
                    flat_map (fun e => el "div" ["class" =: u8 "nav-bar-path";
                        "data-action" =: u8 "navigate";
                        "data-content-id" =: u8 "cmp--" ++ sub_id e;
                        "id" =: u8 "link-cmp--" ++ sub_id e] (
                      el "span" ["style" =: u8 "pointer-events: none;"] (txt (sub_name e)))) (shownSubs e))) (s_components sp))))
  end.

End nav.
