(* ===== verification/RapidocTheme.v ===== *)
(** * RapiDoc: theme

    The colours of the element: the functions of [WF.color], the palettes of the two
    themes and the style sheet [JF] they fill.  A colour function is [None] where the
    code throws or computes with NaN. *)

From Stdlib Require Import Floats.
From stdpp Require Import strings numbers pretty list sets.
From S2P Require Import Prelude JsString Html RapidocSpec RapidocElement.

Open Scope Z_scope.

(** ** Colours *)

Definition hexDigit (c : N) : option Z :=
  if isDigit c then Some (Z.of_N c - 48)
  else if ((97 <=? c) && (c <=? 102))%N then Some (Z.of_N c - 87)
  else if ((65 <=? c) && (c <=? 70))%N then Some (Z.of_N c - 55)
  else None.

(** [GF]: a hash and 3, 4, 6 or 8 hexadecimal digits. *)
Definition GF (e : jstr) : bool :=
  match e with
  | 35%N :: d => forallb (fun c => bool_decide (is_Some (hexDigit c))) d
                 && existsb (fun n => (length d =? n)%nat) [3; 4; 6; 8]%nat
  | _ => false
  end.

Definition hexByte (a b : N) : option Z :=
  x ← hexDigit a; y ← hexDigit b; Some (x * 16 + y).

(** [getRgb]. *)
Definition getRgb (e : jstr) : option (Z * Z * Z) :=
  let e := match e with 35%N :: r => take 6 r | _ => e end in
  let e := match e with
           | [a; b; c] | [a; b; c; _] => [a; a; b; b; c; c]
           | _ => e
           end in
  match e with
  | [a; b; c; d; f; g] =>
      r ← hexByte a b; g' ← hexByte c d; b' ← hexByte f g; Some (r, g', b')
  | _ => None
  end.

Definition fl (z : Z) : PrimFloat.float := PrimFloat.of_uint63 (Uint63.of_Z z).

(** [luminanace], in doubles. *)
Definition luminanace (e : jstr) : option PrimFloat.float :=
  '(r, g, b) ← getRgb e;
  Some (0.299 * fl r + 0.587 * fl g + 0.114 * fl b)%float.

Definition invert (e : jstr) : option jstr :=
  l ← luminanace e; Some (if PrimFloat.ltb 135 l then u8 "#000" else u8 "#fff").

Definition decZ (z : Z) : jstr := u8 (pretty z).

Definition opacity (e : jstr) (t : jstr) : option jstr :=
  '(r, g, b) ← getRgb e;
  Some (u8 "rgba(" ++ decZ r ++ u8 ", " ++ decZ g ++ u8 ", " ++ decZ b ++ u8 ", " ++ t
        ++ u8 ")").

Definition clampByte (z : Z) : Z := if 255 <? z then 255 else if z <? 0 then 0 else z.

Definition hexChar (z : Z) : N := Z.to_N (if z <? 10 then 48 + z else 87 + z).
(** [z.toString(16).padStart(2, "0")] for a byte. *)
Definition hex2 (z : Z) : jstr := [hexChar (z / 16); hexChar (z mod 16)].

Definition brightness (e : jstr) (t : Z) : option jstr :=
  '(r, g, b) ← getRgb e;
  Some (u8 "#" ++ hex2 (clampByte (r + t)) ++ hex2 (clampByte (g + t))
        ++ hex2 (clampByte (b + t))).

(** ** Palettes *)

(** [t.a ? t.b : alt]; [t.a || alt] for [a = b]. *)
Definition choose (t : string -> jstr) (a b : string) (alt : option jstr) : option jstr :=
  if truthy (t a) then Some (t b) else alt.

Fixpoint sequence (l : list (string * option jstr)) : option (list (string * jstr)) :=
  match l with
  | [] => Some []
  | (k, v) :: r => v ← v; r ← sequence r; Some ((k, v) :: r)
  end.

Definition darkTheme (t : string -> jstr) (v_s v_n v_i : jstr) : option (list (string * jstr)) :=
  v_e ← choose t "bg1" "bg1" (Some (u8 "#2a2b2c"));
  v_o ← choose t "fg1" "fg1" (Some (u8 "#bbb"));
  v_a ← choose t "bg2" "bg2" (brightness v_e 5);
  v_l ← choose t "bg3" "bg3" (brightness v_e 17);
  v_c ← choose t "bg3" "bg3" (brightness v_e 35);
  v_p ← choose t "fg2" "fg2" (brightness v_o (-15));
  v_u ← choose t "fg3" "fg3" (brightness v_o (-20));
  v_d ← choose t "fg3" "fg3" (brightness v_o (-65));
  v_h ← choose t "inlineCodeFg" "inlineCodeFg" (Some (u8 "#aaa"));
  v_m ← Some v_p;
  v_f ← Some v_a;
  v_g ← choose t "headerColor" "headerColor" (brightness v_e 10);
  v_y ← choose t "navBgColor" "navBgColor" (brightness v_e 10);
  v_v ← choose t "navTextColor" "navTextColor" (c ← invert v_y; opacity c (u8 "0.50"));
  v_b ← choose t "navHoverBgColor" "navHoverBgColor" (brightness v_y (-15));
  v_x ← choose t "navHoverTextColor" "navHoverTextColor" (invert v_y);
  v_w ← choose t "navAccentColor" "navAccentColor" (brightness v_s 25);
  sequence [
    ("bg1", Some v_e);
    ("bg2", Some v_a);
    ("bg3", Some v_l);
    ("lightBg", Some v_c);
    ("fg1", Some v_o);
    ("fg2", Some v_p);
    ("fg3", Some v_u);
    ("lightFg", Some v_d);
    ("inlineCodeFg", Some v_h);
    ("primaryColor", Some v_s);
    ("primaryColorTrans", Some v_i);
    ("primaryColorInvert", Some v_n);
    ("selectionBg", Some v_m);
    ("selectionFg", Some v_f);
    ("overlayBg", Some (u8 "rgba(80, 80, 80, 0.4)"));
    ("navBgColor", Some v_y);
    ("navTextColor", Some v_v);
    ("navHoverBgColor", Some v_b);
    ("navHoverTextColor", Some v_x);
    ("navAccentColor", Some v_w);
    ("navAccentTextColor", choose t "navAccentTextColor" "navAccenttextColor" (invert v_w));
    ("headerColor", Some v_g);
    ("headerColorInvert", invert v_g);
    ("headerColorDarker", brightness v_g (-20));
    ("headerColorBorder", brightness v_g 10);
    ("borderColor", choose t "borderColor" "borderColor" (brightness v_e 20));
    ("lightBorderColor", choose t "lightBorderColor" "lightBorderColor" (brightness v_e 15));
    ("codeBorderColor", choose t "codeBorderColor" "codeBorderColor" (brightness v_e 30));
    ("inputBg", choose t "inputBg" "inputBg" (brightness v_e (-5)));
    ("placeHolder", choose t "placeHolder" "placeHolder" (opacity v_o (u8 "0.3")));
    ("hoverColor", choose t "hoverColor" "hoverColor" (brightness v_e (-10)));
    ("red", choose t "red" "red" (Some (u8 "#F06560")));
    ("lightRed", choose t "lightRed" "lightRed" (brightness v_e (-10)));
    ("pink", choose t "pink" "pink" (Some (u8 "#ffb2b2")));
    ("lightPink", choose t "lightPink" "lightPink" (brightness v_e (-10)));
    ("green", choose t "green" "green" (Some (u8 "#7ec699")));
    ("lightGreen", choose t "lightGreen" "lightGreen" (brightness v_e (-10)));
    ("blue", choose t "blue" "blue" (Some (u8 "#71b7ff")));
    ("lightBlue", choose t "lightBlue" "lightBlue" (brightness v_e (-10)));
    ("orange", choose t "orange" "orange" (Some (u8 "#f08d49")));
    ("lightOrange", choose t "lightOrange" "lightOrange" (brightness v_e (-10)));
    ("yellow", choose t "yellow" "yellow" (Some (u8 "#827717")));
    ("lightYellow", choose t "lightYellow" "lightYellow" (brightness v_e (-10)));
    ("purple", choose t "purple" "purple" (Some (u8 "#786FF1")));
    ("brown", choose t "brown" "brown" (Some (u8 "#D4AC0D")));
    ("codeBg", choose t "codeBg" "codeBg" (c ← brightness v_e (-15); opacity c (u8 "0.7")));
    ("codeFg", choose t "codeFg" "codeFg" (Some (u8 "#aaa")));
    ("codePropertyColor", choose t "codePropertyColor" "codePropertyColor" (Some (u8 "#f8c555")));
    ("codeKeywordColor", choose t "codeKeywordColor" "codeKeywordColor" (Some (u8 "#cc99cd")));
    ("codeOperatorColor", choose t "codeOperatorColor" "codeOperatorColor" (Some (u8 "#67cdcc")))].

Definition lightTheme (t : string -> jstr) (v_s v_n v_i : jstr) : option (list (string * jstr)) :=
  v_e ← choose t "bg1" "bg1" (Some (u8 "#fafbfc"));
  v_o ← choose t "fg1" "fg1" (Some (u8 "#444444"));
  v_a ← choose t "bg2" "bg2" (brightness v_e (-5));
  v_l ← choose t "bg3" "bg3" (brightness v_e (-15));
  v_c ← choose t "bg3" "bg3" (brightness v_e (-45));
  v_p ← choose t "fg2" "fg2" (brightness v_o 17);
  v_u ← choose t "fg3" "fg3" (brightness v_o 30);
  v_d ← choose t "fg3" "fg3" (brightness v_o 70);
  v_h ← choose t "inlineCodeFg" "inlineCodeFg" (Some (u8 "brown"));
  v_m ← Some v_p;
  v_f ← Some v_a;
  v_g ← choose t "headerColor" "headerColor" (brightness v_e (-180));
  v_y ← choose t "navBgColor" "navBgColor" (brightness v_e (-200));
  v_v ← choose t "navTextColor" "navTextColor" (c ← invert v_y; opacity c (u8 "0.65"));
  v_b ← choose t "navHoverBgColor" "navHoverBgColor" (brightness v_y (-15));
  v_x ← choose t "navHoverTextColor" "navHoverTextColor" (invert v_y);
  v_w ← choose t "navAccentColor" "navAccentColor" (brightness v_s 25);
  sequence [
    ("bg1", Some v_e);
    ("bg2", Some v_a);
    ("bg3", Some v_l);
    ("lightBg", Some v_c);
    ("fg1", Some v_o);
    ("fg2", Some v_p);
    ("fg3", Some v_u);
    ("lightFg", Some v_d);
    ("inlineCodeFg", Some v_h);
    ("primaryColor", Some v_s);
    ("primaryColorTrans", Some v_i);
    ("primaryColorInvert", Some v_n);
    ("selectionBg", Some v_m);
    ("selectionFg", Some v_f);
    ("overlayBg", Some (u8 "rgba(0, 0, 0, 0.4)"));
    ("navBgColor", Some v_y);
    ("navTextColor", Some v_v);
    ("navHoverBgColor", Some v_b);
    ("navHoverTextColor", Some v_x);
    ("navAccentColor", Some v_w);
    ("navAccentTextColor", choose t "navAccentTextColor" "navAccenttextColor" (invert v_w));
    ("headerColor", Some v_g);
    ("headerColorInvert", invert v_g);
    ("headerColorDarker", brightness v_g (-20));
    ("headerColorBorder", brightness v_g 10);
    ("borderColor", choose t "borderColor" "borderColor" (brightness v_e (-38)));
    ("lightBorderColor", choose t "lightBorderColor" "lightBorderColor" (brightness v_e (-23)));
    ("codeBorderColor", choose t "codeBorderColor" "codeBorderColor" (Some (u8 "transparent")));
    ("inputBg", choose t "inputBg" "inputBg" (brightness v_e 10));
    ("placeHolder", choose t "placeHolder" "placeHolder" (brightness v_d 20));
    ("hoverColor", choose t "hoverColor" "hoverColor" (brightness v_e (-5)));
    ("red", choose t "red" "red" (Some (u8 "#F06560")));
    ("lightRed", choose t "lightRed" "lightRed" (Some (u8 "#fff0f0")));
    ("pink", choose t "pink" "pink" (Some (u8 "#990055")));
    ("lightPink", choose t "lightPink" "lightPink" (Some (u8 "#ffb2b2")));
    ("green", choose t "green" "green" (Some (u8 "#690")));
    ("lightGreen", choose t "lightGreen" "lightGreen" (Some (u8 "#fbfff0")));
    ("blue", choose t "blue" "blue" (Some (u8 "#47AFE8")));
    ("lightBlue", choose t "lightBlue" "lightBlue" (Some (u8 "#eff8fd")));
    ("orange", choose t "orange" "orange" (Some (u8 "#FF9900")));
    ("lightOrange", choose t "lightOrange" "lightOrange" (Some (u8 "#fff5e6")));
    ("yellow", choose t "yellow" "yellow" (Some (u8 "#827717")));
    ("lightYellow", choose t "lightYellow" "lightYellow" (Some (u8 "#fff5cc")));
    ("purple", choose t "purple" "purple" (Some (u8 "#786FF1")));
    ("brown", choose t "brown" "brown" (Some (u8 "#D4AC0D")));
    ("codeBg", choose t "codeBg" "codeBg" (c ← brightness v_e (-15); opacity c (u8 "0.7")));
    ("codeFg", choose t "codeFg" "codeFg" (Some (u8 "#666")));
    ("codePropertyColor", choose t "codePropertyColor" "codePropertyColor" (Some (u8 "#905")));
    ("codeKeywordColor", choose t "codeKeywordColor" "codeKeywordColor" (Some (u8 "#07a")));
    ("codeOperatorColor", choose t "codeOperatorColor" "codeOperatorColor" (Some (u8 "#9a6e3a")))].

(** The colours of the style sheet: [e] is the theme, [t] the colours that are given. *)
Definition palette (e : jstr) (t : string -> jstr) : option (list (string * jstr)) :=
  let dark := e === u8 "dark" in
  s ← choose t "primaryColor" "primaryColor"
        (Some (if dark then u8 "#f76b39" else u8 "#ff591e"));
  n ← invert s;
  i ← opacity s (u8 "0.4");
  if dark then darkTheme t s n i else lightTheme t s n i.

Definition field (r : list (string * jstr)) (k : string) : jstr :=
  match List.find (fun e => String.eqb e.1 k) r with Some e => e.2 | None => [] end.

Definition quoted (s : string) : jstr := [34%N] ++ u8 s ++ [34%N].
Definition monoDefault : jstr :=
  u8 "Monaco, " ++ quoted "Andale Mono" ++ u8 ", " ++ quoted "Roboto Mono"
  ++ u8 ", Consolas, monospace".
Definition regularDefault : jstr :=
  quoted "Open Sans" ++ u8 ", Avenir, " ++ quoted "Segoe UI" ++ u8 ", Arial, sans-serif".

(** The custom properties of the style sheet. *)
Definition declarations (this : RapiDoc) (r : list (string * jstr)) : list (string * jstr) :=
  let get := field r in [
  ("--border-radius", u8 "2px");
  ("--layout", sor (layout this) (u8 "row"));
  ("--font-mono", sor (monoFont this) monoDefault);
  ("--font-regular", sor (regularFont this) regularDefault);
  ("--scroll-bar-width", u8 "8px");
  ("--nav-item-padding", if navItemSpacing this === u8 "relaxed" then u8 "10px 16px 10px 10px"
     else if navItemSpacing this === u8 "compact" then u8 "5px 16px 5px 10px" else u8 "7px 16px 7px 10px");
  ("--resp-area-height", responseAreaHeight this);
  ("--font-size-small", if fontSize this === u8 "default" then u8 "12px"
     else if fontSize this === u8 "large" then u8 "13px" else u8 "14px");
  ("--font-size-mono", if fontSize this === u8 "default" then u8 "13px"
     else if fontSize this === u8 "large" then u8 "14px" else u8 "15px");
  ("--font-size-regular", if fontSize this === u8 "default" then u8 "14px"
     else if fontSize this === u8 "large" then u8 "15px" else u8 "16px");
  ("--dialog-z-index", u8 "1000");
  ("--focus-shadow", u8 "0 0 0 1px transparent, 0 0 0 3px " ++ get "primaryColorTrans");
  ("--bg", get "bg1");
  ("--bg2", get "bg2");
  ("--bg3", get "bg3");
  ("--light-bg", get "lightBg");
  ("--fg", get "fg1");
  ("--fg2", get "fg2");
  ("--fg3", get "fg3");
  ("--light-fg", get "lightFg");
  ("--selection-bg", get "selectionBg");
  ("--selection-fg", get "selectionFg");
  ("--overlay-bg", get "overlayBg");
  ("--border-color", get "borderColor");
  ("--light-border-color", get "lightBorderColor");
  ("--code-border-color", get "codeBorderColor");
  ("--input-bg", get "inputBg");
  ("--placeholder-color", get "placeHolder");
  ("--hover-color", get "hoverColor");
  ("--red", get "red");
  ("--light-red", get "lightRed");
  ("--pink", get "pink");
  ("--light-pink", get "lightPink");
  ("--green", get "green");
  ("--light-green", get "lightGreen");
  ("--blue", get "blue");
  ("--light-blue", get "lightBlue");
  ("--orange", get "orange");
  ("--light-orange", get "lightOrange");
  ("--yellow", get "yellow");
  ("--light-yellow", get "lightYellow");
  ("--purple", get "purple");
  ("--brown", get "brown");
  ("--header-bg", get "headerColor");
  ("--header-fg", get "headerColorInvert");
  ("--header-color-darker", get "headerColorDarker");
  ("--header-color-border", get "headerColorBorder");
  ("--nav-bg-color", get "navBgColor");
  ("--nav-text-color", get "navTextColor");
  ("--nav-hover-bg-color", get "navHoverBgColor");
  ("--nav-hover-text-color", get "navHoverTextColor");
  ("--nav-accent-color", get "navAccentColor");
  ("--nav-accent-text-color", get "navAccentTextColor");
  ("--nav-get-color", get "blue");
  ("--nav-put-color", get "orange");
  ("--nav-post-color", get "green");
  ("--nav-delete-color", get "red");
  ("--nav-head-color", get "yellow");
  ("--primary-color", get "primaryColor");
  ("--primary-color-invert", get "primaryColorInvert");
  ("--primary-color-trans", get "primaryColorTrans");
  ("--code-bg", get "codeBg");
  ("--code-fg", get "codeFg");
  ("--inline-code-fg", get "inlineCodeFg");
  ("--code-property-color", get "codePropertyColor");
  ("--code-keyword-color", get "codeKeywordColor");
  ("--code-operator-color", get "codeOperatorColor")].

(** [JF]. *)
Definition JF (this : RapiDoc) (e : jstr) (t : string -> jstr) : option (html bound) :=
  r ← palette e t;
  Some (el "style" [] (raw (
    u8 "*, *:before, *:after { box-sizing: border-box; } :host { "
    ++ flat_map (fun d => u8 d.1 ++ u8 ":" ++ d.2 ++ u8 "; ") (declarations this r)
    ++ u8 "}"))).

(** The colours that [KF] passes: those that are well formed. *)
Definition givenColors (this : RapiDoc) (k : string) : jstr :=
  let valid c := if GF c then c else [] in
  if String.eqb k "bg1" then valid (bgColor this)
  else if String.eqb k "fg1" then valid (textColor this)
  else if String.eqb k "headerColor" then valid (headerColor this)
  else if String.eqb k "primaryColor" then valid (primaryColor this)
  else if String.eqb k "navBgColor" then valid (navBgColor this)
  else if String.eqb k "navTextColor" then valid (navTextColor this)
  else if String.eqb k "navHoverBgColor" then valid (navHoverBgColor this)
  else if String.eqb k "navHoverTextColor" then valid (navHoverTextColor this)
  else if String.eqb k "navAccentColor" then valid (navAccentColor this)
  else if String.eqb k "navAccentTextColor" then valid (navAccentTextColor this)
  else [].

(** ** Properties *)

(** A text that the colour functions read. *)
Definition isColor (c : jstr) : Prop :=
  exists r g b, getRgb c = Some (r, g, b)
                /\ (0 <= r < 256) /\ (0 <= g < 256) /\ (0 <= b < 256).

Lemma hexDigit_range c z : hexDigit c = Some z -> 0 <= z < 16.
Proof.
  unfold hexDigit, isDigit. repeat case_match; intros [= <-];
    repeat match goal with H : (_ && _)%bool = true |- _ => apply andb_true_iff in H as [?%N.leb_le ?%N.leb_le] end;
    lia.
Qed.

Lemma hexByte_range a b z : hexByte a b = Some z -> 0 <= z < 256.
Proof.
  unfold hexByte. destruct (hexDigit a) eqn:Ea; [|done]. destruct (hexDigit b) eqn:Eb; [|done].
  intros [= <-]. apply hexDigit_range in Ea, Eb. lia.
Qed.

Lemma isColor_getRgb c : is_Some (getRgb c) -> isColor c.
Proof.
  unfold isColor. intros [[[r g] b] H]. exists r, g, b. split; [done|]. revert H.
  unfold getRgb.
  repeat case_match; try done; intros H'; simplify_option_eq;
    repeat match goal with H : hexByte _ _ = Some _ |- _ => apply hexByte_range in H end;
    lia.
Qed.

Lemma hexChar_digit z : 0 <= z < 16 -> hexDigit (hexChar z) = Some z.
Proof.
  intros Hz. assert (H : In z (map Z.of_nat (seq 0 16)))
    by (apply in_map_iff; exists (Z.to_nat z); rewrite in_seq; lia).
  simpl in H. decompose [or] H; subst; try done.
Qed.

Lemma hex2_byte z : 0 <= z < 256 -> hexByte (hexChar (z / 16)) (hexChar (z mod 16)) = Some z.
Proof.
  intros Hz. unfold hexByte.
  rewrite !hexChar_digit by (split; [|apply Z.mod_pos_bound || apply Z.div_lt_upper_bound];
    try apply Z.div_pos; try apply Z.mod_pos_bound; lia).
  simpl. f_equal. rewrite (Z.div_mod z 16) at 3; lia.
Qed.

Lemma clampByte_range z : 0 <= clampByte z < 256.
Proof. unfold clampByte. repeat case_match; lia. Qed.

(** The text of a colour that [brightness] returns is read as that colour. *)
Lemma brightness_getRgb e t r g b :
  getRgb e = Some (r, g, b) ->
  exists c, brightness e t = Some c
            /\ getRgb c = Some (clampByte (r + t), clampByte (g + t), clampByte (b + t)).
Proof.
  intros H. unfold brightness. rewrite H. eexists. split; [reflexivity|].
  set (x := clampByte (r + t)). set (y := clampByte (g + t)). set (z := clampByte (b + t)).
  change (getRgb _) with
    (r' ← hexByte (hexChar (x / 16)) (hexChar (x mod 16));
     g' ← hexByte (hexChar (y / 16)) (hexChar (y mod 16));
     b' ← hexByte (hexChar (z / 16)) (hexChar (z mod 16)); Some (r', g', b')).
  unfold x, y, z. rewrite !hex2_byte by apply clampByte_range. done.
Qed.

(** A colour that is computed, and one that is not empty. *)
Definition yieldsColor (o : option jstr) : Prop := exists c, o = Some c /\ isColor c.
Definition yieldsText (o : option jstr) : Prop := exists c, o = Some c /\ truthy c = true.

Lemma yields_some c : isColor c -> yieldsColor (Some c).
Proof. intros H. by exists c. Qed.

Lemma yields_lit c : is_Some (getRgb c) -> yieldsColor (Some c).
Proof. intros H. by apply yields_some, isColor_getRgb. Qed.

Lemma yields_brightness e t : isColor e -> yieldsColor (brightness e t).
Proof.
  intros (r & g & b & H & _). apply (brightness_getRgb _ t) in H as (c & -> & H).
  apply yields_some, isColor_getRgb. by rewrite H.
Qed.

Lemma yields_invert e : isColor e -> yieldsColor (invert e).
Proof.
  intros (r & g & b & H & _). unfold invert, luminanace. rewrite H.
  apply yields_lit. simpl. case_match; by eexists.
Qed.

Lemma yields_opacity e t : isColor e -> yieldsText (opacity e t).
Proof. intros (r & g & b & H & _). unfold opacity. rewrite H. by eexists. Qed.

Lemma color_truthy c : isColor c -> truthy c = true.
Proof. intros (r & g & b & H & _). by destruct c. Qed.

Lemma yields_text o : yieldsColor o -> yieldsText o.
Proof. intros (c & -> & H). exists c. split; [done|by apply color_truthy]. Qed.

Lemma yields_bind {B} o (k : jstr -> option B) (P : option B -> Prop) :
  yieldsColor o -> (forall c, isColor c -> P (k c)) -> P (c ← o; k c).
Proof. intros (c & -> & H) Hk. by apply Hk. Qed.

Lemma text_bind {B} o (k : jstr -> option B) (P : option B -> Prop) :
  yieldsText o -> (forall c, truthy c = true -> P (k c)) -> P (c ← o; k c).
Proof. intros (c & -> & H) Hk. by apply Hk. Qed.

Section given.
Context (t : string -> jstr) (Ht : forall k, t k = [] \/ isColor (t k)).

Lemma yields_choose k alt : yieldsColor alt -> yieldsColor (choose t k k alt).
Proof.
  intros H. unfold choose. destruct (Ht k) as [E|E]; [by rewrite E|].
  rewrite color_truthy by done. by apply yields_some.
Qed.

Lemma text_choose k alt : yieldsText alt -> yieldsText (choose t k k alt).
Proof.
  intros H. unfold choose. destruct (truthy (t k)) eqn:E; [|done]. by exists (t k).
Qed.

(** An entry of a palette: it is computed, and empty only for the text colour of the
    active item, when that one is given. *)
Definition goodEntry (e : string * option jstr) : Prop :=
  exists v, e.2 = Some v
    /\ (truthy v = true
        \/ e.1 = "navAccentTextColor" /\ truthy (t "navAccentTextColor") = true).

Definition goodPalette (o : option (list (string * jstr))) : Prop :=
  exists r, o = Some r
    /\ forall k v, (k, v) ∈ r -> truthy v = false ->
         k = "navAccentTextColor" /\ truthy (t "navAccentTextColor") = true.

Lemma good_text k o : yieldsText o -> goodEntry (k, o).
Proof. intros (v & -> & H). exists v. auto. Qed.

Lemma good_accent o : yieldsText o ->
  goodEntry ("navAccentTextColor", choose t "navAccentTextColor" "navAccenttextColor" o).
Proof.
  intros (v & -> & H). unfold choose, goodEntry. simpl.
  destruct (truthy (t "navAccentTextColor")); eauto.
Qed.

Lemma good_sequence l : Forall goodEntry l -> goodPalette (sequence l).
Proof.
  induction 1 as [|[k o] l (v & E & Hv) _ (r & Er & Hr)]; simpl.
  - exists []. split; [done|]. intros ??. set_solver.
  - simpl in *. rewrite E, Er. eexists. split; [done|].
    intros k' v' [[= -> ->]|Hin]%elem_of_cons Hf; [|eauto].
    destruct Hv as [Hv|Hv]; [congruence|done].
Qed.

End given.

Create HintDb color.
#[global] Hint Resolve yields_choose yields_brightness yields_invert yields_opacity
  yields_some yields_text text_choose good_text good_accent : color.
#[global] Hint Extern 3 (yieldsColor (Some (u8 _))) =>
  apply yields_lit; by eexists : color.
#[global] Hint Extern 3 (yieldsText (Some _)) =>
  first [by eexists|eexists; split; [reflexivity|assumption]] : color.
#[global] Hint Extern 3 (yieldsText (_ ≫= _)) =>
  eapply yields_bind; [|intros ? ?] : color.

Ltac palette_step :=
  first [ eapply yields_bind; [solve [eauto 6 with color]|intros ? ?]
        | eapply text_bind; [solve [eauto 8 with color]|intros ? ?] ].

Ltac entries :=
  repeat first [ apply Forall_nil; exact I
               | apply Forall_cons; split; [solve [eauto 10 with color]|] ].

Lemma darkTheme_good t s n i :
  (forall k, t k = [] \/ isColor (t k)) -> isColor s -> isColor n -> truthy i = true ->
  goodPalette t (darkTheme t s n i).
Proof.
  intros Ht Hs Hn Hi. unfold darkTheme. do 17 palette_step.
  apply good_sequence; [done|]. entries.
Qed.

Lemma lightTheme_good t s n i :
  (forall k, t k = [] \/ isColor (t k)) -> isColor s -> isColor n -> truthy i = true ->
  goodPalette t (lightTheme t s n i).
Proof.
  intros Ht Hs Hn Hi. unfold lightTheme. do 17 palette_step.
  apply good_sequence; [done|]. entries.
Qed.

Lemma palette_good e t :
  (forall k, t k = [] \/ isColor (t k)) -> goodPalette t (palette e t).
Proof.
  intros Ht. unfold palette.
  eapply yields_bind; [by case_match; apply yields_choose, yields_lit; eauto|intros s Hs].
  eapply yields_bind; [by apply yields_invert|intros n Hn].
  eapply text_bind; [by apply yields_opacity|intros i Hi].
  case_match; [by apply darkTheme_good|by apply lightTheme_good].
Qed.

(** The colours that pass [GF] are read by the colour functions. *)
Lemma hexByte_digits a b :
  is_Some (hexDigit a) -> is_Some (hexDigit b) -> exists z, hexByte a b = Some z.
Proof. intros [x Hx] [y Hy]. unfold hexByte. rewrite Hx, Hy. by eexists. Qed.

Lemma GF_isColor c : GF c = true -> isColor c.
Proof.
  intros H. apply isColor_getRgb.
  destruct c as [|x d]; [done|]. unfold GF in H.
  assert (Hx : x = 35%N).
  { destruct x as [|p]; [done|]. do 6 (destruct p as [p|p|]; try done). }
  subst x. apply andb_true_iff in H as [Hd Hl].
  assert (Hds : Forall (fun c => is_Some (hexDigit c)) d).
  { apply Forall_forall. intros y Hy. rewrite forallb_forall in Hd.
    apply list_elem_of_In, Hd in Hy. by apply bool_decide_eq_true in Hy. }
  clear Hd. simpl in Hl.
  do 9 try (destruct d as [|? d]; simpl in Hl; try done);
    repeat match goal with H : Forall _ (_ :: _) |- _ => apply Forall_cons in H as [? H] end;
    unfold getRgb; simpl;
    repeat match goal with
    | |- context [hexByte ?a ?b] =>
        destruct (hexByte_digits a b) as [? ->]; [done..|]; simpl
    end; by eexists.
Qed.

Lemma givenColors_ok this k : givenColors this k = [] \/ isColor (givenColors this k).
Proof.
  unfold givenColors. repeat (case_match; [case_match; auto using GF_isColor|]). auto.
Qed.

(** The style sheet is computed for every configuration of the element: no colour that
    an attribute gives, valid or not, makes a colour function throw, so that rendering
    does not fail for its colours.  Every colour of the palette gets a value, except that
    the text colour of the active item becomes empty when an attribute gives it. *)
Theorem palette_always_computed this e :
  exists r, palette e (givenColors this) = Some r
    /\ (exists h, JF this e (givenColors this) = Some h)
    /\ forall k v, (k, v) ∈ r -> truthy v = false ->
         k = "navAccentTextColor" /\ GF (navAccentTextColor this) = true.
Proof.
  destruct (palette_good e (givenColors this) (givenColors_ok this)) as (r & Hr & Hv).
  exists r. split; [done|]. split; [unfold JF; rewrite Hr; by eexists|].
  intros k v Hin Hf. destruct (Hv k v Hin Hf) as [-> H]. split; [done|].
  unfold givenColors in H. simpl in H. by destruct (GF (navAccentTextColor this)).
Qed.

Lemma JF_some this e : is_Some (JF this e (givenColors this)).
Proof.
  destruct (palette_good e (givenColors this) (givenColors_ok this)) as (r & Hr & _).
  unfold JF. rewrite Hr. by eexists.
Qed.
