(* ===== verification/RapidocPage.v ===== *)
(** * RapiDoc: the rendered page

    [KF] puts the parts together. *)

From stdpp Require Import strings numbers pretty list sets.
From S2P Require Import Prelude JsString Html RapidocSpec RapidocElement RapidocAuth.
From S2P Require Import RapidocOperation RapidocMain RapidocNav RapidocTheme.

Open Scope nat_scope.

Section page.
Context {CM : CaseMapping} {LC : Locale} {MK : Marked}.
Context (base64 : jstr -> jstr) (highlight : jstr -> jstr -> option jstr).

(** What is shown when a specification is loaded; [focused] is the content of the
    focused mode, [server] the origin of the selected server's address. *)
Definition loadedPage (server : jstr) (this : RapiDoc) (style focused : html bound)
    (e t : bool) : html bound :=
    style ++
    unless (showHeader this === u8 "false") (zF this []) ++
    unless (allowAdvancedSearch this === u8 "false") (VF this) ++
    el "div" ["id" =: u8 "the-main-body";
          "class" =: u8 "body " ++ cssClasses this;
          "dir" =: pageDirection this] (
        unless ((negb (renderStyle this === u8 "read") && negb (renderStyle this === u8 "focused")) || negb (showSideNav this === u8 "true")) (CF this) ++
        el "main" ["class" =: u8 "main-content regular-font";
            "tabindex" =: u8 "-1";
            "part" =: u8 "section-main-content"] (
          el "slot" [] [] ++
          el "div" ["class" =: u8 "main-content-inner--" ++ renderStyle this ++ u8 "-mode"] (
            (if loading this then el "div" ["class" =: u8 "loader"] []
            else (if loadFailed this then el "div" ["style" =: u8 "text-align: center;margin: 16px;"] (
                      txt (u8 " Unable to load the Spec"))
                else el "div" ["class" =: u8 "operations-root"; "click" =@ handleHref] (
                      (if renderStyle this === u8 "focused" then focused
                      else when (showInfo this === u8 "true") (EF this) ++
                        when (allowServerSelection this === u8 "true") (jF this) ++
                        when (allowAuthentication this === u8 "true") (BR server this) ++
                        el "div" ["id" =: u8 "operations-top"; "class" =: u8 "observe-me"] (
                            el "slot" ["name" =: u8 "operations-top"] []) ++
                        (if renderStyle this === u8 "read" then bF highlight this
                          else UF highlight this e t)))))) ++
          el "slot" ["name" =: u8 "footer"] [])).

(** [KF]: rendering also applies the keys that are kept in the browser, when
    [persist-auth] is set.  [None] is an exception. *)
Definition KF (server : jstr) (this : RapiDoc) (e t : bool)
    : option (RapiDoc * html bound) :=
  match resolvedSpec this with
  | None => Some (this, [])
  | Some _ =>
    let this := if persistAuth this === u8 "true" then CR base64 this else this in
    style ← JF this (if theme this === u8 "dark" then u8 "dark" else u8 "light")
              (givenColors this);
    match resolvedSpec this with
    | None => Some (this, [])
    | Some sp =>
      Some (this,
        if specLoadError sp then
          style ++
  el "div" ["id" =: u8 "spec-not-found";
        "style" =: u8 "display:flex; align-items:center; justify-content: center; border:1px dashed var(--border-color); height:42px; padding:5px; font-size:var(--font-size-small); color:var(--red); font-family:var(--font-mono)"] (
      txt (orE (i ← s_info sp; i_description i)))
        else if isSpecLoading sp then
          style ++
    el "main" ["class" =: u8 "main-content regular-font";
          "part" =: u8 "section-main-content"] (
        el "slot" [] [] ++
        el "div" ["class" =: u8 "main-content-inner--" ++ renderStyle this ++ u8 "-mode"] (
          el "div" ["class" =: u8 "loader"] []))
        else loadedPage server this style (MF highlight server this).1 e t)
    end
  end.

End page.
