(* ===== verification/RapidocEvents.v ===== *)
(** * RapiDoc: navigation, searching and events

    What changes the element after it is created: loading a document ([loadSpec],
    [afterSpecParsedAndValidated]), moving to a part of the page ([scrollToPath],
    [expandAndGotoOperation] and the address they leave), searching, and the handlers of
    the buttons.  [handle] is one event; the reachable states are those it leads to from
    a new element.

    The state is the element and the address of the page.  What comes from outside is a
    parameter: [RegExp] tests, [btoa], the highlighter, the ids in generated HTML
    ([idsOf]), the origin of an address ([originOf]) and what [location.href] reads after
    the address was replaced ([navigate]). *)

From stdpp Require Import strings numbers pretty list sets.
From S2P Require Import Prelude JsString Routing Html RapidocSpec RapidocElement RapidocAuth.
From S2P Require Import RapidocOperation RapidocMain RapidocNav RapidocTheme RapidocPage.

Open Scope nat_scope.

Definition withTagState (expanded : bool) (l : list Path) (t : Tag) : Tag :=
  {| t_elementId := t_elementId t; t_name := t_name t; t_displayName := t_displayName t;
     t_description := t_description t; t_headers := t_headers t; t_paths := l;
     t_expanded := expanded; t_firstPathId := t_firstPathId t |}.

Definition withExpanded (b : bool) (p : Path) : Path :=
  {| p_expanded := b; p_isWebhook := p_isWebhook p; p_summary := p_summary p;
     p_description := p_description p; p_externalDocs := p_externalDocs p;
     p_shortSummary := p_shortSummary p; p_method := p_method p; p_path := p_path p;
     p_operationId := p_operationId p; p_elementId := p_elementId p;
     p_servers := p_servers p; p_parameters := p_parameters p;
     p_requestBody := p_requestBody p; p_responses := p_responses p;
     p_callbacks := p_callbacks p; p_deprecated := p_deprecated p;
     p_security := p_security p; p_xBadges := p_xBadges p;
     p_xCodeSamples := p_xCodeSamples p |}.

Definition withSubExpanded (b : bool) (e : SubComponent) : SubComponent :=
  {| sub_id := sub_id e; sub_name := sub_name e; sub_component := sub_component e;
     sub_expanded := Some b |}.

Definition onSubs (f : SubComponent -> SubComponent) (c : Component) : Component :=
  {| c_name := c_name c; c_description := c_description c;
     c_subComponents := map f (c_subComponents c) |}.

Definition withMatches (l : option (list Match_)) (this : RapiDoc) : RapiDoc :=
  {| cfg := cfg this; resolvedSpec := resolvedSpec this; selectedServer := selectedServer this;
     loading := loading this; loadFailed := loadFailed this;
     focusedElementId := focusedElementId this; searchVal := searchVal this;
     showAdvancedSearchDialog := showAdvancedSearchDialog this;
     advancedSearchMatches := l; storage := storage this |}.

Definition withLoading (now failed : bool) (this : RapiDoc) : RapiDoc :=
  {| cfg := cfg this; resolvedSpec := resolvedSpec this; selectedServer := selectedServer this;
     loading := now; loadFailed := failed;
     focusedElementId := focusedElementId this; searchVal := searchVal this;
     showAdvancedSearchDialog := showAdvancedSearchDialog this;
     advancedSearchMatches := advancedSearchMatches this; storage := storage this |}.

(** ** The address *)

(** [s.replace(/(#|\/)$/, "")]. *)
Definition dropMark (s : jstr) : jstr :=
  if endsWith (u8 "#") s || endsWith (u8 "/") s then sliceLast s else s.

(** [s.lastIndexOf(t)] for a text [t] that is not empty. *)
Fixpoint lastIndexOf (t s : jstr) : option nat :=
  match s with
  | [] => None
  | _ :: r => match lastIndexOf t r with
              | Some n => Some (S n)
              | None => if startsWith t s then Some 0 else None
              end
  end.

(** [s.replace(t, "")]. *)
Definition removeFirst (t s : jstr) : jstr :=
  match indexOf t s 0 with
  | Some n => take n s ++ drop (n + length t) s
  | None => s
  end.

Definition getComponentBaseURL (prefix href : jstr) : jstr :=
  let t := dropMark prefix in
  if truthy t then
    match lastIndexOf t href with Some r => take r href | None => href end
  else default [] (head (splitOn cHash href)).

Definition getElementIDFromURL (prefix href : jstr) : jstr :=
  removeFirst (getComponentBaseURL prefix href ++ prefix) href.

(** [replaceHistoryState]: the address that is given to the browser. *)
Definition replaceHistoryState (prefix e href : jstr) : jstr :=
  getComponentBaseURL prefix href ++ sor prefix (u8 "#") ++ e.

(** [location.hash] of an address. *)
Definition locationHash (href : jstr) : jstr :=
  match indexOf (u8 "#") href 0 with
  | Some n => if 1 <? length (drop n href) then drop n href else []
  | None => []
  end.

(** ** The tags of the navigation bar *)

(** [TF]: whether a tag of the bar is expanded afterwards. *)
Definition TF (t : jstr) (expanded : bool) : bool :=
  if expanded && ((t === u8 "toggle") || (t === u8 "collapse")) then false
  else if negb expanded && ((t === u8 "toggle") || (t === u8 "expand")) then true
  else expanded.

(** ** Searching *)

Section search.
Context {CM : CaseMapping} {LC : Locale} {MK : Marked}.

(** The handler sets the search text first; it is only rendered with a specification. *)
Definition onSearchChange (v : jstr) (this : RapiDoc) : RapiDoc :=
  updComponents (map (onSubs (fun e =>
      withSubExpanded (includes (toLowerCase (sub_name e)) (toLowerCase v)) e)))
    (updTags (map (fun t =>
        withTagState (t_expanded t
                      || (truthy v && existsb (fun p => mt v p (t_name t)) (t_paths t)))
          (t_paths t) t))
      (withSearch v this)).

Definition onClearSearch (this : RapiDoc) : RapiDoc :=
  updComponents (map (onSubs (withSubExpanded true))) (withSearch [] this).

(** [v[k]] for an object [v]; [null] is no value. *)
Definition jget (k : jstr) (v : json) : option json :=
  match v with
  | JObj l => match assoc k l with Some JNull => None | o => o end
  | _ => None
  end.

(** The properties of a property's schema, or else those of its items. *)
Definition nested (v : json) : option json :=
  match jget (u8 "properties") v with
  | Some p => Some p
  | None => i ← jget (u8 "items") v; jget (u8 "properties") i
  end.

(** [ft]: the names of the properties of a schema, with those of nested schemas, in the
    order in which they are first met; [n] bounds the depth. *)
Fixpoint ft (n : nat) (e : json) (t : list jstr) : list jstr :=
  match n, e with
  | S n, JObj l =>
      foldl (fun t r =>
        let t := insertNew t r.1 in
        match nested r.2 with Some p => ft n p t | None => t end) t l
  | _, _ => t
  end.

Fixpoint jdepth (v : json) : nat :=
  match v with
  | JArr l => S (foldr (fun v n => max (jdepth v) n) 0 l)
  | JObj l => S (foldr (fun e n => max (jdepth e.2) n) 0 l)
  | _ => 0
  end.

(** The properties of the media types of a request body.  The names of the last media
    type that has properties are added again for a later one that has none. *)
Definition bodyNames (t : list jstr) (media : json) : list jstr :=
  match s ← jget (u8 "schema") media; jget (u8 "properties") s with
  | Some p => ft (jdepth p) p []
  | None => t
  end.

Definition spaced (l : list jstr) : jstr := joinWith (u8 " ") l.

Definition bodyText (body : json) (n : jstr) : jstr :=
  match jget (u8 "content") body with
  | Some (JObj l) =>
      (foldl (fun st m => let e := bodyNames st.1 m.2 in (e, st.2 ++ u8 " " ++ spaced e))
         ([], n) l).2
  | _ => n
  end.

(** The text of an operation that the advanced search looks in. *)
Definition searchText (r : list jstr) (t : Path) : jstr :=
  let on s := bool_decide (u8 s ∈ r) in
  let n := if on "search-api-path" then p_path t else [] in
  let n := if on "search-api-descr"
           then n ++ u8 " " ++ p_summary t ++ p_description t else n in
  let n := if on "search-api-params"
           then n ++ u8 " " ++ spaced (map prm_name (p_parameters t)) else n in
  let n := match p_requestBody t with
           | Some b => if on "search-api-request-body" then bodyText b n else n
           | None => n
           end in
  if on "search-api-resp-descr"
  then n ++ u8 " " ++ spaced (map (fun e => orE (rsp_description e.2)) (p_responses t))
  else n.

Definition matchOf (t : Path) : Match_ :=
  {| m_elementId := p_elementId t; m_method := p_method t; m_path := p_path t;
     m_summary := sor (p_summary t) (p_description t); m_deprecated := p_deprecated t |}.

(** The search of [onAdvancedSearch]: [r] are the ids of the boxes that are checked. *)
Definition advancedSearch (e : jstr) (ts : list Tag) (r : list jstr) : option (list Match_) :=
  if negb (truthy (trim e)) || (length r =? 0) then None
  else Some (flat_map (fun t => flat_map (fun p =>
         when (includes (toLowerCase (searchText r p)) (toLowerCase (trim e))) [matchOf p])
         (t_paths t)) ts).

(** A depth of at least that of the value is enough for [ft]. *)
Lemma jget_depth k v x : jget k v = Some x -> jdepth x < jdepth v.
Proof.
  destruct v as [| | | |l|l]; try done. unfold jget.
  destruct (assoc k l) as [y|] eqn:E; [|done]. intros H.
  assert (y = x) as -> by (by destruct y; simplify_eq). clear H.
  apply assoc_elem in E. simpl. induction l as [|e l IH]; [by apply elem_of_nil in E|].
  apply elem_of_cons in E as [<-|E]; simpl; [lia|]. specialize (IH E). lia.
Qed.

Lemma nested_depth v p : nested v = Some p -> jdepth p < jdepth v.
Proof.
  unfold nested. destruct (jget _ v) as [x|] eqn:E; [intros [= ->]; by eapply jget_depth|].
  destruct (jget (u8 "items") v) as [i|] eqn:Ei; [|done]. simpl. intros H.
  apply jget_depth in Ei, H. lia.
Qed.

Lemma field_depth l (r : jstr * json) : r ∈ l -> jdepth r.2 < jdepth (JObj l).
Proof.
  simpl. induction l as [|e l IH]; intros H; [by apply elem_of_nil in H|].
  apply elem_of_cons in H as [<-|H]; simpl; [lia|]. specialize (IH H). lia.
Qed.

Lemma foldl_ext_in {A B} (f g : A -> B -> A) l a :
  (forall a b, b ∈ l -> f a b = g a b) -> foldl f a l = foldl g a l.
Proof.
  revert a. induction l as [|b l IH]; intros a H; simpl; [done|].
  rewrite (H a b) by set_solver. apply IH. set_solver.
Qed.

Lemma ft_enough n m e t : jdepth e <= n -> jdepth e <= m -> ft n e t = ft m e t.
Proof.
  revert m e t. induction n as [|n IH]; intros m e t Hn Hm.
  - destruct e; simpl in Hn; try lia; by destruct m.
  - destruct e as [| | | |l|l]; try (by destruct m). destruct m as [|m]; [simpl in Hm; lia|].
    cbn [ft]. apply foldl_ext_in. intros a r Hr. destruct (nested r.2) as [p|] eqn:E; [|done].
    apply nested_depth in E. apply field_depth in Hr. apply IH; lia.
Qed.

End search.

(** ** Events *)

Section events.
Context {CM : CaseMapping} {LC : Locale} {MK : Marked}.
Context (base64 : jstr -> jstr) (highlight : jstr -> jstr -> option jstr)
  (regex : jstr -> jstr -> bool) (idsOf : jstr -> list jstr)
  (originOf navigate : jstr -> jstr).

(** The element with the address of the page. *)
Abbreviation Shown := (RapiDoc * jstr)%type.

Definition getElementById (id : jstr) (h : html bound) : bool :=
  existsb (fun x => x === id) (attrs "id" h ++ flat_map idsOf (raws h)).

(** [render] of the element: it does not throw ([KF_renders]). *)
Definition rendered (this : RapiDoc) : RapiDoc * html bound :=
  default (this, [])
    (KF base64 highlight (originOf (orE (srv_computedUrl <$> selectedServer this)))
       this false false).

Definition goTo (e : jstr) (s : Shown) : Shown :=
  if updateRoute s.1 === u8 "true"
  then (s.1, navigate (replaceHistoryState (routePrefix s.1) e s.2)) else s.

(** The operation's own form and its tag are expanded. *)
Fixpoint onPath (id : jstr) (f : Path -> Path) (l : list Path) : list Path :=
  match l with
  | [] => []
  | p :: r => if p_elementId p === id then f p :: r else p :: onPath id f r
  end.

Definition expandTag (e : jstr) (t : Tag) : Tag :=
  match List.find (fun p => p_elementId p === e) (t_paths t) with
  | Some _ => withTagState true (onPath e (withExpanded true) (t_paths t)) t
  | None => t
  end.

Definition isTopId (s : jstr) : bool :=
  startsWith (u8 "overview") s || (s === u8 "servers") || (s === u8 "auth").

Definition expandAndGotoOperation (e : jstr) (t : bool) (st : Shown) : Shown :=
  match resolvedSpec st.1 with
  | None => st
  | Some _ =>
    let s := if includes e (u8 "#") then substring 1 e else e in
    let this := if isTopId s then st.1 else updTags (map (expandTag e)) st.1 in
    let st := (this, st.2) in
    if t && getElementById s (rendered this).2 then goTo s st else st
  end.

(** [scrollToPath]: the focused mode renders what is focused before it looks for it.  What
    it tells the request and the responses that are shown is [resetSelection] there. *)
Definition scrollToPath (e : jstr) (st : Shown) : Shown :=
  let focused := renderStyle st.1 === u8 "focused" in
  let this := if focused then withFocus e st.1 else st.1 in
  if renderStyle this === u8 "view" then expandAndGotoOperation e true (this, st.2)
  else let '(shown, page) := rendered this in
       let this := if focused then shown else this in
       if getElementById e page then goTo e (this, st.2) else (this, st.2).

(** What a click or a key does in the navigation bar, by the element's [data-action] and
    [data-content-id]; tags expand and collapse in the document only. *)
Inductive UiEvent := Click | Keyup (keyCode : nat) | OtherEvent.

Definition activates (ev : UiEvent) : bool :=
  match ev with Click => true | Keyup k => k =? 13 | OtherEvent => false end.

Definition scrollToEventTarget (ev : UiEvent) (contentId : option jstr) (st : Shown) : Shown :=
  if activates ev && truthyO contentId then scrollToPath (orE contentId) st else st.

Definition PF (ev : UiEvent) (action contentId : option jstr) (st : Shown) : Shown :=
  if activates ev && (action === Some (u8 "navigate"))
  then scrollToEventTarget ev contentId st else st.

(** [LF]: the form of one operation; [i] and [j] are the places of the tag and of the
    operation. *)
Definition LF (i j : nat) (st : Shown) : Shown :=
  match t ← tags st.1 !! i; t_paths t !! j with
  | None => st
  | Some p =>
    let set b := updTags (fun l => alter (fun t =>
      withTagState (t_expanded t) (alter (withExpanded b) j (t_paths t)) t) i l) st.1 in
    if p_expanded p then goTo [] (set false, st.2)
    else
      if locationHash st.2 === sor (routePrefix st.1) (u8 "#") ++ p_elementId p
      then (set true, st.2) else goTo (p_elementId p) (set true, st.2)
  end.

Definition toggleTag (i : nat) (this : RapiDoc) : RapiDoc :=
  updTags (fun l => alter (fun t => withTagState (negb (t_expanded t)) (t_paths t) t) i l) this.

(** ** Loading *)

Definition loadingSpec : Spec := {|
  specLoadError := false; isSpecLoading := true; s_info := None;
  infoDescriptionHeaders := []; s_tags := []; s_components := [];
  securitySchemes := []; s_servers := [] |}.

(** [loadSpec] until the document is fetched. *)
Definition loadStart (this : RapiDoc) : RapiDoc :=
  withLoading true false (withSpec (Some loadingSpec) (withSearch [] this)).

(** What [hR] gives for a response that is no document; [d] says what was received. *)
Definition brokenSpec (d : jstr) : Spec := {|
  specLoadError := true; isSpecLoading := false;
  s_info := Some {| i_title := Some (u8 "Error loading the spec"); i_version := Some (u8 " ");
                    i_description := Some d; i_contact := None; i_license := None;
                    i_termsOfService := None |};
  infoDescriptionHeaders := []; s_tags := []; s_components := [];
  securitySchemes := []; s_servers := [] |}.

Definition parsed (getAttribute : string -> option jstr) (origin : jstr) (d : OpenApi)
    (this : RapiDoc) : Spec :=
  hR origin regex getAttribute (generateMissingTags this === u8 "true")
    (sortTags this === u8 "true") (sortSchemas this === u8 "true")
    (matchPaths this) (matchType this) (removeEndpointsWithBadgeLabelAs this) d.

(** The rest of [loadSpec] once the document is there, as one event: the element waits for
    its update and then goes to the part that the address names.  [showInfo] is not
    empty, so that the overview is what is focused first. *)
Definition loadDone (sp : Spec) (st : Shown) : Shown :=
  let st := (afterSpecParsedAndValidated sp (withLoading false (loadFailed st.1) st.1), st.2) in
  let r := getElementIDFromURL (routePrefix st.1) st.2 in
  if truthy r then
    if renderStyle st.1 === u8 "view" then expandAndGotoOperation r true st
    else scrollToPath r st
  else if (renderStyle st.1 === u8 "focused") && negb (truthy (gotoPath st.1))
  then scrollToPath (u8 "overview") st else st.

Definition loadError (this : RapiDoc) : RapiDoc := withSpec None (withLoading false true this).

(** The server variables' inputs carry the names of the selected server's variables. *)
Definition varInputs (values : list jstr) (this : RapiDoc) : list (jstr * jstr) :=
  zip (default [] (s ← selectedServer this; srv_variables s)).*1 values.

(** ** One event *)

Inductive Event :=
| LoadStart
| LoadDone (getAttribute : string -> option jstr) (origin : jstr) (d : OpenApi)
| LoadBroken (d : jstr)
| LoadError
| Navigate (ev : UiEvent) (action contentId : option jstr)
| ScrollTo (id : jstr)
| Search (v : jstr)
| ClearSearch
| OpenDialog | CloseDialog
| AdvancedSearch (e : jstr) (r : list jstr)
| ToggleOperation (i j : nat)
| ToggleTag (i : nat)
| SelectServer (url : jstr)
| SetVariables (values : list jstr)
| SetKey (id user password token : jstr) (shown : bool)
| SetApiKey (id user password token : jstr)
| SetToken (id token tokenType : jstr)
| RemoveKey (id : jstr)
| RemoveKeys
| Render.

Definition handle (ev : Event) (st : Shown) : Shown :=
  let on f := (f st.1, st.2) in
  match ev with
  | LoadStart => on loadStart
  | LoadDone ga origin d => loadDone (parsed ga origin d st.1) st
  | LoadBroken d => loadDone (brokenSpec d) st
  | LoadError => on loadError
  | Navigate ev action id => PF ev action id st
  | ScrollTo id => scrollToPath id st
  | Search v => on (onSearchChange v)
  | ClearSearch => on onClearSearch
  | OpenDialog => on (withDialog true)
  | CloseDialog => on (withDialog false)
  | AdvancedSearch e r => on (fun this => withMatches (advancedSearch e (tags this) r) this)
  | ToggleOperation i j => LF i j st
  | ToggleTag i => on (toggleTag i)
  | SelectServer url => on (fun this => (kF url this).1)
  | SetVariables values => on (fun this => AF (varInputs values this) this)
  | SetKey id user password token shown => on (IR base64 id user password token shown)
  | SetApiKey id user password token => on (fun this => (OR base64 id user password token this).1)
  | SetToken id token tokenType => on (_R id token tokenType)
  | RemoveKey id => on (DR id)
  | RemoveKeys => on jR
  | Render => ((rendered st.1).1, st.2)
  end.

(** The states of an element with the attributes [c] on a page of the address [href]. *)
Inductive reachable (c : Config) (href : jstr) : Shown -> Prop :=
| reach_created kept :
    storageWf kept ->
    reachable c href (withStorage kept (created c), href)
| reach_step ev st : reachable c href st -> reachable c href (handle ev st).


(** ** What every event keeps *)

(** A change that leaves the attributes, the selected server and the specification's
    servers, and keeps the specification well formed. *)
Definition specKept (a b : Spec) : Prop :=
  specLoadError b = specLoadError a /\ isSpecLoading b = isSpecLoading a
  /\ s_servers b = s_servers a /\ (wfSpec a -> wfSpec b).

Definition agree (this this' : RapiDoc) : Prop :=
  cfg this' = cfg this /\ selectedServer this' = selectedServer this
  /\ option_Forall2 specKept (resolvedSpec this) (resolvedSpec this').

#[local] Instance specKept_preorder : PreOrder specKept.
Proof.
  split; [by intros ?; split_and!|].
  intros a b c (?&?&?&?) (?&?&?&?). split_and!; try congruence; tauto.
Qed.

#[local] Instance agree_preorder : PreOrder agree.
Proof.
  split; [intros ?; split_and!; reflexivity|].
  intros a b c (?&?&?) (?&?&?). split_and!; try congruence. by etrans.
Qed.

Lemma agree_same this this' :
  cfg this' = cfg this -> selectedServer this' = selectedServer this ->
  resolvedSpec this' = resolvedSpec this -> agree this this'.
Proof. intros Hc Hs Hr. repeat split; [done..|]. by rewrite Hr. Qed.

Lemma agree_schemes f this : agree this (updSchemes f this).
Proof.
  unfold updSchemes. destruct (resolvedSpec this) as [sp|] eqn:E; [|done].
  split_and!; [done..|]. rewrite E. constructor. by split_and!.
Qed.

Lemma agree_tags f this :
  (forall l, Forall wfTag l -> Forall wfTag (f l)) -> agree this (updTags f this).
Proof.
  intros Hf. unfold updTags. destruct (resolvedSpec this) as [sp|] eqn:E; [|done].
  split_and!; [done..|]. rewrite E. constructor. split_and!; try done.
  intros [H1 H2]. split; simpl; auto.
Qed.

Lemma agree_components f this :
  (forall e, sub_id (f e) = sub_id e) -> agree this (updComponents (map (onSubs f)) this).
Proof.
  intros Hf. unfold updComponents. destruct (resolvedSpec this) as [sp|] eqn:E; [|done].
  split_and!; [done..|]. rewrite E. constructor. split_and!; try done.
  intros [H1 H2]. split; simpl; [done|].
  apply Forall_map. eapply Forall_impl; [apply H2|]. intros c Hc. apply Forall_map.
  eapply Forall_impl; [apply Hc|]. intros e. by rewrite Hf.
Qed.

(** An event that only changes the element so, and keeps the stored keys well formed. *)
Definition frames (this this' : RapiDoc) : Prop :=
  agree this this' /\ (storageWf (storage this) -> storageWf (storage this')).

#[local] Instance frames_preorder : PreOrder frames.
Proof.
  split; [intros ?; by split|]. intros a b c [] []. split; [by etrans|auto].
Qed.

Lemma frames_same this this' :
  cfg this' = cfg this -> selectedServer this' = selectedServer this ->
  resolvedSpec this' = resolvedSpec this -> storage this' = storage this ->
  frames this this'.
Proof. intros ??? E. split; [by apply agree_same|by rewrite E]. Qed.

Lemma frames_schemes f this : frames this (updSchemes f this).
Proof. split; [apply agree_schemes|by rewrite storage_upd]. Qed.

Lemma frames_tags f this :
  (forall l, Forall wfTag l -> Forall wfTag (f l)) -> frames this (updTags f this).
Proof.
  intros Hf. split; [by apply agree_tags|]. unfold updTags. by destruct (resolvedSpec this).
Qed.

Lemma frames_components f this :
  (forall e, sub_id (f e) = sub_id e) -> frames this (updComponents (map (onSubs f)) this).
Proof.
  intros Hf. split; [by apply agree_components|].
  unfold updComponents. by destruct (resolvedSpec this).
Qed.

Lemma frames_OR id u p t this : frames this (OR base64 id u p t this).1.
Proof. unfold OR. case_match; simpl; [apply frames_schemes|done]. Qed.

Lemma frames_CR this : frames this (CR base64 this).
Proof.
  unfold CR. generalize (storage this) as st. intros st. revert this.
  induction st as [|e st IH]; intros this; simpl; [done|].
  etrans; [apply frames_OR|apply IH].
Qed.

Lemma frames_storage st this :
  (storageWf (storage this) -> storageWf st) -> frames this (withStorage st this).
Proof. intros H. split; [by apply agree_same|done]. Qed.

Lemma frames_IR id u p t shown this : frames this (IR base64 id u p t shown this).
Proof.
  split; [|apply IR_storageWf]. unfold IR.
  destruct (findScheme id (schemes this)); [|done]. destruct shown; simpl; [|done].
  set (this' := if _ && _ then _ else _).
  assert (agree this this') by (unfold this'; case_match; apply frames_OR).
  case_match; [|done]. case_match; [|done]. etrans; [apply H|by apply agree_same].
Qed.

Lemma frames_DR id this : frames this (DR id this).
Proof.
  split; [|by apply (DR_storageWf base64)]. unfold DR.
  etrans; [apply (agree_schemes (onScheme id cleared))|].
  case_match; [by apply agree_same|done].
Qed.

Lemma frames_rendered this : frames this (rendered this).1.
Proof.
  unfold rendered, KF. destruct (resolvedSpec this); [|done].
  set (this' := if persistAuth this === u8 "true" then CR base64 this else this).
  assert (frames this this') by (unfold this'; case_match; [apply frames_CR|done]).
  destruct (JF _ _ _); [|done]. by destruct (resolvedSpec this').
Qed.

Lemma goTo_fst e st : (goTo e st).1 = st.1.
Proof. unfold goTo. by case_match. Qed.

Lemma wfTag_state b l t : wfTag t -> Forall wfPath l -> wfTag (withTagState b l t).
Proof. by intros []. Qed.

Lemma onPath_wf id f l :
  (forall p, wfPath p -> wfPath (f p)) -> Forall wfPath l -> Forall wfPath (onPath id f l).
Proof. intros Hf. induction 1; simpl; [done|]. case_match; constructor; auto. Qed.

Lemma expandTag_wf e t : wfTag t -> wfTag (expandTag e t).
Proof.
  intros Ht. unfold expandTag. case_match; [|done].
  apply wfTag_state; [done|]. apply onPath_wf; [done|apply Ht].
Qed.

Lemma frames_expand e t st : frames st.1 (expandAndGotoOperation e t st).1.
Proof.
  unfold expandAndGotoOperation. destruct (resolvedSpec st.1); [|done].
  set (s' := if includes _ _ then _ else _).
  assert (frames st.1 (if isTopId s' then st.1 else updTags (map (expandTag e)) st.1)).
  { case_match; [done|]. apply frames_tags. intros l Hl. apply Forall_map.
    eapply Forall_impl; [done|]. apply expandTag_wf. }
  destruct (t && _); by rewrite ?goTo_fst.
Qed.

Lemma frames_scroll e st : frames st.1 (scrollToPath e st).1.
Proof.
  unfold scrollToPath.
  set (this := if renderStyle st.1 === _ then withFocus e st.1 else st.1).
  assert (Ht : frames st.1 this) by (unfold this; case_match; [by apply frames_same|done]).
  case_match; [etrans; [apply Ht|apply (frames_expand e true (this, _))]|].
  pose proof (frames_rendered this) as Hr. destruct (rendered this) as [shown page].
  set (this' := if renderStyle st.1 === u8 "focused" then shown else this).
  assert (frames st.1 this') by (unfold this'; case_match; [by etrans|done]).
  destruct (getElementById _ _); by rewrite ?goTo_fst.
Qed.

Lemma frames_PF ev a id st : frames st.1 (PF ev a id st).1.
Proof.
  unfold PF, scrollToEventTarget. repeat case_match; try done. apply frames_scroll.
Qed.

Lemma wfTag_alter i f l :
  (forall t, wfTag t -> wfTag (f t)) -> Forall wfTag l -> Forall wfTag (alter f i l).
Proof. intros Hf Hl. apply Forall_alter; auto. Qed.

Lemma frames_LF i j st : frames st.1 (LF i j st).1.
Proof.
  unfold LF. destruct (t ← _; _) as [p|]; [|done].
  assert (H : forall b, frames st.1 (updTags (fun l => alter (fun t =>
      withTagState (t_expanded t) (alter (withExpanded b) j (t_paths t)) t) i l) st.1)).
  { intros b. apply frames_tags. intros l. apply wfTag_alter. intros t Ht.
    apply wfTag_state; [done|]. apply Forall_alter; [apply Ht|by intros]. }
  repeat case_match; rewrite ?goTo_fst; apply H.
Qed.

Lemma frames_toggleTag i this : frames this (toggleTag i this).
Proof.
  apply frames_tags. intros l. apply wfTag_alter. intros t Ht.
  apply wfTag_state; [done|apply Ht].
Qed.

Lemma frames_search v this : frames this (onSearchChange v this).
Proof.
  unfold onSearchChange. etrans; [|by apply frames_components].
  etrans; [|apply frames_tags]; [by apply frames_same|].
  intros l Hl. apply Forall_map. eapply Forall_impl; [done|]. intros t Ht.
  apply wfTag_state; [done|apply Ht].
Qed.

Lemma frames_clear this : frames this (onClearSearch this).
Proof.
  unfold onClearSearch. etrans; [|by apply frames_components]. by apply frames_same.
Qed.

(** ** The selected server *)

Definition serverOk (this : RapiDoc) (l : list Server) : Prop :=
  exists t, selectedServer this = Some t
  /\ (List.find (fun s => srv_url s === srv_url t) l = Some t
      \/ t = plainServer (serverUrl this)).

Definition wfElement (c : Config) (this : RapiDoc) : Prop :=
  cfg this = c /\ storageWf (storage this)
  /\ forall sp, resolvedSpec this = Some sp ->
       wfSpec sp
       /\ (isSpecLoading sp = false -> specLoadError sp = false ->
           serverOk this (s_servers sp)).

Lemma wf_frames c this this' : frames this this' -> wfElement c this -> wfElement c this'.
Proof.
  intros [(Hc & Hs & Hr) Hst] (Hcfg & Hst0 & Hsp).
  split_and!; [congruence|auto|]. intros sp E. rewrite E in Hr.
  inversion Hr as [sp0 ? (He & Hl & Hv & Hw) E0|]; subst.
  destruct (Hsp sp0) as [H1 H2]; [done|]. split; [auto|].
  rewrite He, Hl, Hv. unfold serverOk. by rewrite Hs, Hc.
Qed.

Lemma find_url {l : list Server} {u t} :
  List.find (fun s => srv_url s === u) l = Some t ->
  List.find (fun s => srv_url s === srv_url t) l = Some t.
Proof. intros H. pose proof H as [_ ->%bool_decide_eq_true]%List.find_some. done. Qed.

Lemma find_head (l : list Server) t :
  head l = Some t -> List.find (fun s => srv_url s === srv_url t) l = Some t.
Proof. destruct l; simpl; [done|]. intros [= ->]. by rewrite bool_decide_true. Qed.

Lemma find_onServer u f l :
  (forall t, srv_url (f t) = srv_url t) ->
  List.find (fun s => srv_url s === u) (onServer u f l)
  = f <$> List.find (fun s => srv_url s === u) l.
Proof.
  intros Hf. induction l as [|t l IH]; simpl; [done|].
  destruct (bool_decide_reflect (srv_url t = u)) as [<-|Hn]; simpl.
  - by rewrite Hf, bool_decide_true.
  - by rewrite bool_decide_false.
Qed.

Lemma buildServers_ne origin su d : buildServers origin su d <> [].
Proof. unfold buildServers. destruct (a_servers d); [by repeat case_match|done]. Qed.

Lemma firstServer_ok this sp :
  s_servers sp <> [] -> serverOk (afterSpecParsedAndValidated sp this) (s_servers sp).
Proof.
  intros Hne. unfold serverOk, afterSpecParsedAndValidated. simpl.
  assert (Hh : exists t, head (s_servers sp) = Some t)
    by (destruct (s_servers sp); [done|eauto]).
  destruct Hh as [t0 Hh]. unfold firstServer. rewrite Hh.
  destruct (truthy (defaultApiServerUrl this)); [|eauto using find_head].
  destruct (defaultApiServerUrl this === serverUrl this); [eauto|].
  destruct (List.find _ _) as [t|] eqn:E; [eauto using find_url|eauto using find_head].
Qed.

Lemma wf_loaded c sp this :
  wfElement c this -> wfSpec sp -> (specLoadError sp = false -> s_servers sp <> []) ->
  wfElement c (afterSpecParsedAndValidated sp this).
Proof.
  intros (Hc & Hst & _) Hw Hne. split_and!; [done..|]. intros sp' [= <-].
  split; [done|]. intros _ He. by apply firstServer_ok, Hne.
Qed.

Lemma wf_loadDone c sp st :
  wfElement c st.1 -> wfSpec sp -> (specLoadError sp = false -> s_servers sp <> []) ->
  wfElement c (loadDone sp st).1.
Proof.
  intros H Hw Hne. unfold loadDone.
  set (st' := (afterSpecParsedAndValidated sp (withLoading false (loadFailed st.1) st.1), st.2)).
  assert (H' : wfElement c st'.1).
  { apply wf_loaded; [|done..]. eapply wf_frames; [|apply H]. by apply frames_same. }
  assert (Hs : forall e, wfElement c (scrollToPath e st').1)
    by (intros e; eapply wf_frames; [apply frames_scroll|done]).
  assert (He : forall e, wfElement c (expandAndGotoOperation e true st').1)
    by (intros e; eapply wf_frames; [apply frames_expand|done]).
  repeat case_match; auto.
Qed.

Lemma wf_kF c url this : wfElement c this -> wfElement c (kF url this).1.
Proof.
  intros (Hc & Hst & Hsp). unfold kF.
  destruct (resolvedSpec this) as [sp|] eqn:E; simpl; [|split_and!; auto; congruence].
  destruct (List.find _ _) as [r|] eqn:Ef; simpl.
  - split_and!; [done..|]. simpl. intros sp' Es. rewrite E in Es. injection Es as <-.
    destruct (Hsp sp eq_refl) as [Hw _]. split; [done|]. intros _ _. exists r.
    split; [done|]. left. by eapply find_url.
  - split_and!; [done..|]. by rewrite E.
Qed.

Lemma wf_AF c values this : wfElement c this -> wfElement c (AF (varInputs values this) this).
Proof.
  intros (Hc & Hst & Hsp). unfold AF.
  destruct (selectedServer this) as [t|] eqn:Et; [|by split_and!].
  set (s := foldl _ _ _).
  destruct (resolvedSpec this) as [sp|] eqn:E; [|split_and!; [done..|]; simpl; by rewrite E].
  split_and!; [done..|]. intros sp' [= <-]. simpl. destruct (Hsp sp eq_refl) as [Hw Hok].
  split; [done|]. intros Hl He. destruct (Hok Hl He) as (t' & Et' & Ht').
  rewrite Et in Et'. injection Et' as <-. exists (withComputed s t). split; [done|].
  destruct Ht' as [Hf| ->].
  - left. simpl. by rewrite find_onServer, Hf.
  - right. unfold s, varInputs. by rewrite Et.
Qed.

Lemma hR_servers_ne ga origin d this : s_servers (parsed ga origin d this) <> [].
Proof. apply buildServers_ne. Qed.

Lemma handle_wf c ev st : wfElement c st.1 -> wfElement c (handle ev st).1.
Proof.
  intros H. assert (Hf : forall this, frames st.1 this -> wfElement c this)
    by (intros this Hf; by eapply wf_frames).
  assert (Hs : forall this, cfg this = cfg st.1 -> selectedServer this = selectedServer st.1 ->
    resolvedSpec this = resolvedSpec st.1 -> storage this = storage st.1 -> wfElement c this)
    by (intros; by apply Hf, frames_same).
  destruct ev; simpl; try by apply Hs.
  - destruct H as (Hc & Hst & _). split_and!; [done..|]. by intros sp [= <-].
  - apply wf_loadDone; [done|apply hR_wf|intros _; apply hR_servers_ne].
  - apply wf_loadDone; [done|by split; constructor|done].
  - destruct H as (Hc & Hst & _). by split_and!.
  - apply Hf, frames_PF.
  - apply Hf, frames_scroll.
  - apply Hf, frames_search.
  - apply Hf, frames_clear.
  - apply Hf, frames_LF.
  - apply Hf, frames_toggleTag.
  - by apply wf_kF.
  - by apply wf_AF.
  - apply Hf, frames_IR.
  - apply Hf, frames_OR.
  - apply Hf, frames_schemes.
  - apply Hf, frames_DR.
  - apply Hf, frames_schemes.
  - apply Hf, frames_rendered.
Qed.

Lemma reachable_wf c href st : reachable c href st -> wfElement c st.1.
Proof.
  induction 1 as [kept Hk|ev st _ IH]; [by split_and!|by apply handle_wf].
Qed.

(** C10: In every state that events lead to, whatever their order: the attributes are those
    of the element, every key in the browser's store is filed under the id of its own
    scheme, the loaded specification is well formed (an operation's id names its method
    and its path, a tag's id its name) and, once a document is loaded, a server is
    selected: the first of the specification's servers with its address, or the one that
    the attribute [server-url] gives. *)
Theorem element_invariant c href st : reachable c href st -> wfElement c st.1.
Proof. apply reachable_wf. Qed.

End events.

(** ** The address and the documentation page *)

Lemma split_head c s : c ∉ default [] (head (splitOn c s)).
Proof.
  induction s as [|x s IH]; simpl; [apply not_elem_of_nil|].
  destruct (N.eqb_spec x c) as [->|Hn]; [apply not_elem_of_nil|].
  destruct (splitOn c s) as [|h l]; simpl in *; apply not_elem_of_cons; done.
Qed.

Lemma indexOf_char (c : N) a b : c ∉ a -> indexOf [c] (a ++ c :: b) 0 = Some (length a).
Proof.
  intros H. unfold indexOf. simpl. unfold drop at 1.
  assert (G : forall n, indexOfAux [c] (a ++ c :: b) n = Some (n + length a)).
  { induction a as [|x a IH]; intros n; simpl.
    - rewrite N.eqb_refl. simpl. f_equal. lia.
    - apply not_elem_of_cons in H as [Hx H]. destruct (N.eqb_spec c x) as [->|_]; [done|].
      simpl. rewrite IH by done. f_equal. lia. }
  by rewrite G.
Qed.

Lemma hash_written e href :
  e <> [] -> locationHash (replaceHistoryState [cHash] e href) = cHash :: e.
Proof.
  intros He. unfold locationHash.
  assert (E : replaceHistoryState [cHash] e href
              = default [] (head (splitOn cHash href)) ++ cHash :: e) by done.
  rewrite E. change (u8 "#") with [cHash]. rewrite indexOf_char by apply split_head.
  rewrite drop_app_length. by destruct e.
Qed.

(** The address that the element writes for an operation is not one of the page's own:
    its router takes the hash [#<method>-<path>] for a document of this name, so that a
    reload opens the documentation and not the API view the reader was in. *)
Theorem operation_address_opens_docs p href :
  wfPath p ->
  parseHash (locationHash (replaceHistoryState [cHash] (p_elementId p) href))
  = HDocs (Some (p_elementId p)) None.
Proof.
  intros Hw. pose proof (wfPath_addressable p Hw) as Ha.
  assert (Hc : cColon ∉ p_elementId p).
  { intros Hin. unfold addressable in Ha. rewrite forallb_forall in Ha.
    apply list_elem_of_In, Ha in Hin. by vm_compute in Hin. }
  assert (Hs : forall x, startsWith (x ++ [cColon]) (p_elementId p) = false).
  { intros x. destruct (startsWith _ _) eqn:E; [|done]. exfalso. apply Hc.
    apply startsWith_spec in E as [r ->]. set_solver. }
  assert (Hn : p_elementId p <> []).
  { destruct Hw as [_ ->]. unfold elementIdOf. by destruct (p_method p). }
  rewrite hash_written by done. unfold parseHash.
  change (substring 1 (cHash :: p_elementId p)) with (p_elementId p).
  change (lit "docs:") with (lit "docs" ++ [cColon]). rewrite Hs.
  change (lit "api:") with (lit "api" ++ [cColon]). rewrite Hs.
  destruct (p_elementId p) as [|c r] eqn:E; [done|].
  unfold docsParts. rewrite splitOn_none by done. done.
Qed.
