(* ===== verification/RapidocLinks.v ===== *)
(** * RapiDoc: what the navigation bar links to

    The two halves of the page: the ids that the navigation bar names and the elements
    that the content shows for them, in the focused mode, the read mode and the view
    mode, and the address that leads back to an element after a reload. *)

From stdpp Require Import strings numbers pretty list sets.
From S2P Require Import Prelude JsString Html RapidocSpec RapidocElement.
From S2P Require Import RapidocAuth RapidocOperation RapidocMain RapidocNav RapidocTheme.
From S2P Require Import RapidocPage RapidocEvents.

Open Scope nat_scope.

Section attrs.
Context {B : Type}.
Implicit Types h k : html B.

Lemma attrs_app name h k : attrs name (h ++ k) = attrs name h ++ attrs name k.
Proof. apply collect_app. Qed.

Lemma attrs_el name t ats k : attrs name (el t ats k) = getAt name t ats ++ attrs name k.
Proof. apply collect_el. Qed.

Lemma attrs_flat_map {A} name (f : A -> html B) l :
  attrs name (flat_map f l) = flat_map (fun x => attrs name (f x)) l.
Proof. apply collect_flat_map. Qed.

Lemma attrs_el_in name t ats k v : At name v ∈ ats -> v ∈ attrs name (el t ats k).
Proof.
  intros H. rewrite attrs_el, elem_of_app. left. unfold getAt. apply elem_of_flat_map.
  exists (At name v). split; [done|]. rewrite String.eqb_refl. set_solver.
Qed.

Lemma attrs_kids name t ats k v : v ∈ attrs name k -> v ∈ attrs name (el t ats k).
Proof. rewrite attrs_el, elem_of_app. auto. Qed.

Lemma attrs_app_l name h k v : v ∈ attrs name h -> v ∈ attrs name (h ++ k).
Proof. rewrite attrs_app, elem_of_app. auto. Qed.

Lemma attrs_app_r name h k v : v ∈ attrs name k -> v ∈ attrs name (h ++ k).
Proof. rewrite attrs_app, elem_of_app. auto. Qed.

Lemma attrs_map_in {A} name (f : A -> html B) l x v :
  x ∈ l -> v ∈ attrs name (f x) -> v ∈ attrs name (flat_map f l).
Proof. intros. rewrite attrs_flat_map. apply elem_of_flat_map. eauto. Qed.

End attrs.

(** ** The links *)

Section links.
Context {CM : CaseMapping} {LC : Locale} {MK : Marked}.
Context (highlight : jstr -> jstr -> option jstr).

(** What the bar links to: the fixed parts, then each tag with a match for the search,
    with its own link, its headings and its matching operations, then the components. *)
Definition topLinks (this : RapiDoc) (sp : Spec) : list jstr :=
  when (negb (showInfo this === u8 "false") && bool_decide (is_Some (s_info sp)))
    (if infoDescriptionHeadingsInNavBar this === u8 "true"
     then when (0 <? length (infoDescriptionHeaders sp)) [u8 "overview"]
          ++ flat_map (fun h => [u8 "overview--" ++ slug (tok_text h)])
               (infoDescriptionHeaders sp)
     else [u8 "overview"])
  ++ unless (allowServerSelection this === u8 "false") [u8 "servers"]
  ++ when (negb (allowAuthentication this === u8 "false")) [u8 "auth"]
  ++ [if renderStyle this === u8 "focused" then [] else u8 "operations-top"].

Definition tagLinks (this : RapiDoc) (t : Tag) : list jstr :=
  (if t_name t === u8 "General ⦂" then []
   else [if (if renderStyle this === u8 "read" then truthy (t_elementId t)
             else onNavTagClick this === u8 "show-description")
         then t_elementId t else []])
  ++ when (infoDescriptionHeadingsInNavBar this === u8 "true")
       (unless ((renderStyle this === u8 "focused") && (onNavTagClick this === u8 "expand-collapse"))
          (flat_map (fun h => [t_elementId t ++ u8 "--" ++ slug (tok_text h)]) (t_headers t)))
  ++ flat_map (fun p => [p_elementId p]) (shownPaths this t).

Definition componentLinks (this : RapiDoc) (sp : Spec) : list jstr :=
  when ((showComponents this === u8 "true") && (renderStyle this === u8 "focused"))
    (flat_map (fun c => when (0 <? length (c_subComponents c))
       ([u8 "cmp--" ++ toLowerCase (c_name c)]
        ++ flat_map (fun e => [u8 "cmp--" ++ sub_id e]) (shownSubs c))) (s_components sp)).

Definition navLinks (this : RapiDoc) (sp : Spec) : list jstr :=
  topLinks this sp ++ flat_map (tagLinks this) (navTags this sp) ++ componentLinks this sp.

Lemma CF_links this sp :
  resolvedSpec this = Some sp -> specLoadError sp = false ->
  attrs "data-content-id" (CF this) = navLinks this sp.
Proof.
  intros H He. unfold CF. rewrite H, He. collect_simpl.
  unfold navLinks, topLinks, componentLinks. rewrite <- !app_assoc. done.
Qed.

(** ** The elements of the content *)

Lemma id_here (t : string) (ats : list (attr bound)) k v :
  At "id" v ∈ ats -> v ∈ attrs "id" (el t ats k).
Proof. apply attrs_el_in. Qed.

Ltac id_attr := apply id_here; set_solver.

Lemma EF_id this : u8 "overview" ∈ attrs "id" (EF this).
Proof. unfold EF. id_attr. Qed.

Lemma jF_id this sp :
  resolvedSpec this = Some sp -> specLoadError sp = false ->
  u8 "servers" ∈ attrs "id" (jF this).
Proof. intros H He. unfold jF. rewrite H, He. id_attr. Qed.

Lemma BR_id server this sp :
  resolvedSpec this = Some sp -> u8 "auth" ∈ attrs "id" (BR server this).
Proof. intros H. unfold BR. rewrite H. id_attr. Qed.

Lemma vF_id this p t r : p_elementId p ∈ attrs "id" (vF highlight this p t r).
Proof. unfold vF. apply attrs_app_r. id_attr. Qed.

Lemma FF_id this t : t_elementId t ∈ attrs "id" (FF this t).
Proof. unfold FF. apply attrs_app_l. id_attr. Qed.

Lemma _F_id (h : html bound) v : v ∈ attrs "id" h -> v ∈ attrs "id" (_F h).
Proof. apply attrs_kids. Qed.

Lemma wF_id this e t : u8 "cmp--" ++ sub_id e ∈ attrs "id" (wF this e t).
Proof.
  unfold wF. case_match; [unfold xF|]; apply attrs_app_r; id_attr.
Qed.

Lemma component_ids this sp c :
  resolvedSpec this = Some sp -> c ∈ s_components sp ->
  u8 "cmp--" ++ toLowerCase (c_name c) ∈ attrs "id" (F_components this)
  /\ forall e, e ∈ shownSubs c -> u8 "cmp--" ++ sub_id e ∈ attrs "id" (F_components this).
Proof.
  intros H Hc. unfold F_components. rewrite H. split.
  - eapply attrs_map_in; [done|]. apply attrs_app_l. id_attr.
  - intros e He. eapply attrs_map_in; [done|]. apply attrs_app_r, attrs_kids.
    eapply attrs_map_in; [done|]. apply wF_id.
Qed.

(** The id of an operation is none of the ids that the focused mode treats apart. *)
Definition reserved (e : jstr) : bool :=
  startsWith (u8 "overview") e || (e === u8 "auth") || (e === u8 "servers")
  || (e === u8 "operations-top") || startsWith (u8 "cmp--") e || startsWith (u8 "tag--") e.

Lemma method_not_reserved m x : m ∈ methods -> reserved (m ++ u8 "-" ++ x) = false.
Proof.
  intros H. unfold methods in H. repeat rewrite elem_of_cons in H.
  unfold reserved. decompose [or] H; subst;
    try (by apply not_elem_of_nil in H0); try set_solver;
    repeat (rewrite bool_decide_false by (cbv; discriminate)); reflexivity.
Qed.

Lemma operation_not_reserved p : wfPath p -> reserved (p_elementId p) = false.
Proof. intros [Hm ->]. by apply method_not_reserved. Qed.

Lemma find_some_iff {A} (f : A -> bool) l x :
  x ∈ l -> f x = true -> exists y, List.find f l = Some y /\ f y = true.
Proof.
  intros Hx Hf. destruct (List.find f l) as [y|] eqn:E.
  - exists y. split; [done|]. by apply List.find_some in E as [_ ?].
  - pose proof (List.find_none _ _ E x) as Hn. rewrite Hf in Hn.
    by discriminate Hn; apply list_elem_of_In.
Qed.

Lemma findOperation_some id (l : list Tag) t p :
  t ∈ l -> p ∈ t_paths t -> p_elementId p = id ->
  exists t' p', findOperation id l = Some (t', p') /\ p_elementId p' = id.
Proof.
  intros Ht Hp Hid. unfold findOperation.
  induction l as [|t0 l IH]; [set_solver|]. simpl.
  destruct (List.find (fun p => p_elementId p === id) (t_paths t0)) as [p0|] eqn:E.
  - exists t0, p0. split; [done|]. apply List.find_some in E as [_ E].
    by apply bool_decide_eq_true in E.
  - simpl. apply IH. apply elem_of_cons in Ht as [->|Ht]; [|done]. exfalso.
    eapply List.find_none in E; [|by apply list_elem_of_In].
    rewrite Hid, bool_decide_true in E; done.
Qed.

(** ** The focused mode *)

Definition flag (v : jstr) : Prop := v = u8 "true" \/ v = u8 "false".

(** The focused mode with switches that are on or off, no headings in the bar and, when
    tags are links themselves, ids of tags that [MF] does not cut. *)
Definition focusedMode (this : RapiDoc) (sp : Spec) : Prop :=
  renderStyle this = u8 "focused"
  /\ infoDescriptionHeadingsInNavBar this = u8 "false"
  /\ flag (showInfo this) /\ flag (allowServerSelection this) /\ flag (allowAuthentication this)
  /\ (onNavTagClick this = u8 "show-description" ->
      forall t, t ∈ s_tags sp -> tagIdOf (t_elementId t) = t_elementId t).

Lemma flag_on v : flag v -> (v === u8 "false") = false -> (v === u8 "true") = true.
Proof. intros [->| ->]; [done|]. by rewrite bool_decide_true. Qed.

Lemma MF_info server this :
  resolvedSpec this <> None -> showInfo this = u8 "true" ->
  focusedElementId this = u8 "overview" -> (MF highlight server this).1 = EF this.
Proof. intros H Hs Hf. unfold MF. rewrite Hf, Hs. by destruct (resolvedSpec this). Qed.

Lemma MF_auth server this :
  resolvedSpec this <> None -> allowAuthentication this = u8 "true" ->
  focusedElementId this = u8 "auth" -> (MF highlight server this).1 = BR server this.
Proof. intros H Hs Hf. unfold MF. rewrite Hf, Hs. by destruct (resolvedSpec this). Qed.

Lemma MF_servers server this :
  resolvedSpec this <> None -> allowServerSelection this = u8 "true" ->
  focusedElementId this = u8 "servers" -> (MF highlight server this).1 = jF this.
Proof. intros H Hs Hf. unfold MF. rewrite Hf, Hs. by destruct (resolvedSpec this). Qed.

Lemma MF_components server this x :
  resolvedSpec this <> None -> showComponents this = u8 "true" ->
  focusedElementId this = u8 "cmp--" ++ x ->
  (MF highlight server this).1 = F_components this.
Proof. intros H Hs Hf. unfold MF. rewrite Hf, Hs. by destruct (resolvedSpec this). Qed.

Lemma MF_tag server this sp t x :
  resolvedSpec this = Some sp -> t ∈ s_tags sp -> t_elementId t = u8 "tag--" ++ x ->
  tagIdOf (t_elementId t) = t_elementId t -> focusedElementId this = t_elementId t ->
  t_elementId t ∈ attrs "id" (MF highlight server this).1.
Proof.
  intros H Ht Hx Hcut Hf.
  assert (E : (MF highlight server this).1
    = match List.find (fun t' => t_elementId t' === tagIdOf (t_elementId t)) (tags this) with
      | Some s => _F (FF this s)
      | None => RF highlight this
      end).
  { unfold MF. rewrite Hf, H, Hx. simpl. by case_match. }
  rewrite E. unfold tags. rewrite H, Hcut.
  destruct (find_some_iff (fun t' => t_elementId t' === t_elementId t) (s_tags sp) t)
    as (t' & -> & Ht'); [done|by apply bool_decide_eq_true|].
  apply bool_decide_eq_true in Ht'. rewrite <- Ht'. apply _F_id, FF_id.
Qed.

Lemma MF_operation server this sp t p :
  resolvedSpec this = Some sp -> t ∈ s_tags sp -> p ∈ t_paths t -> wfPath p ->
  focusedElementId this = p_elementId p ->
  p_elementId p ∈ attrs "id" (MF highlight server this).1.
Proof.
  intros H Ht Hp Hw Hf. pose proof (operation_not_reserved p Hw) as Hr.
  unfold reserved in Hr. repeat rewrite orb_false_iff in Hr.
  destruct Hr as [[[[[H1 H2] H3] H4] H5] H6].
  destruct (findOperation_some (p_elementId p) (s_tags sp) t p) as (t' & p' & Hfo & Hid); try done.
  unfold MF. rewrite Hf, H. unfold tags. rewrite H, H1, H2, H3, H4, H5, H6, Hfo.
  destruct (truthy (p_elementId p)) eqn:E.
  - simpl. apply _F_id. rewrite <- Hid. apply vF_id.
  - exfalso. destruct Hw as [Hm E']. rewrite E' in E. unfold elementIdOf in E.
    by destruct (p_method p).
Qed.

(** Every link of the bar names an element of what is shown when it is focused. *)
Lemma links_shown server this sp id :
  resolvedSpec this = Some sp -> specLoadError sp = false -> wfSpec sp ->
  focusedMode this sp -> id ∈ navLinks this sp -> id <> [] -> focusedElementId this = id ->
  id ∈ attrs "id" (MF highlight server this).1.
Proof.
  intros H He [Hwt _] (Hstyle & Hh & Hinfo & Hsrv & Hauth & Htag) Hin Hne Hf.
  assert (Hn : resolvedSpec this <> None) by congruence. revert Hin.
  unfold navLinks, topLinks, componentLinks. rewrite !elem_of_app, Hstyle, Hh.
  intros [[Hin|[Hin|[Hin|Hin]]]|[Hin|Hin]].
  - apply elem_of_when in Hin as [[Hc _]%andb_true_iff ->%list_elem_of_singleton].
    apply negb_true_iff in Hc. rewrite MF_info; [apply EF_id|done| |done].
    by apply flag_on, bool_decide_eq_true in Hc.
  - apply elem_of_unless in Hin as [Hc ->%list_elem_of_singleton].
    rewrite MF_servers; [by eapply jF_id|done| |done].
    by apply flag_on, bool_decide_eq_true in Hc.
  - apply elem_of_when in Hin as [Hc%negb_true_iff ->%list_elem_of_singleton].
    rewrite MF_auth; [by eapply BR_id|done| |done].
    by apply flag_on, bool_decide_eq_true in Hc.
  - rewrite bool_decide_true in Hin by done. by apply list_elem_of_singleton in Hin.
  - apply elem_of_flat_map in Hin as (t & Ht & Hin).
    unfold navTags in Ht. rewrite list_elem_of_In, filter_In, <- list_elem_of_In in Ht.
    destruct Ht as [Ht _]. rewrite Forall_forall in Hwt. destruct (Hwt t Ht) as [Hid Hps].
    revert Hin. unfold tagLinks. rewrite Hstyle, Hh, !elem_of_app.
    intros [Hin|[Hin|Hin]].
    + destruct (t_name t === u8 "General ⦂"); [by apply elem_of_nil in Hin|].
      apply list_elem_of_singleton in Hin. simpl in Hin.
      destruct (bool_decide_reflect (onNavTagClick this = u8 "show-description")) as [Hc|];
        [|done].
      rewrite Hin. eapply MF_tag; eauto. congruence.
    + by apply elem_of_nil in Hin.
    + apply elem_of_flat_map in Hin as (p & Hp & ->%list_elem_of_singleton).
      unfold shownPaths in Hp. rewrite list_elem_of_In, filter_In, <- list_elem_of_In in Hp.
      destruct Hp as [Hp _]. rewrite Forall_forall in Hps. eapply MF_operation; eauto.
  - apply elem_of_when in Hin as [[Hc%bool_decide_eq_true _]%andb_true_iff Hin].
    apply elem_of_flat_map in Hin as (c & Hcm & Hin).
    apply elem_of_when in Hin as [_ Hin]. apply elem_of_app in Hin as [Hin|Hin].
    + apply list_elem_of_singleton in Hin. erewrite MF_components; [|done..|by rewrite Hf, Hin].
      rewrite Hin. by eapply component_ids.
    + apply elem_of_flat_map in Hin as (e & He' & Hin%list_elem_of_singleton).
      erewrite MF_components; [|done..|by rewrite Hf, Hin].
      rewrite Hin. eapply component_ids in H as [_ H]; eauto.
Qed.

End links.

(** ** Searching and the other modes *)

Section modes.
Context {CM : CaseMapping} {LC : Locale} {MK : Marked}.
Context (highlight : jstr -> jstr -> option jstr).

(** The parts of an operation have no ids of their own. *)
#[local] Instance securityDef_ids e r t : Collects (getAt "id") (securityDef e r t) [].
Proof. unfold Collects, securityDef, requiredScopes. collect_simpl. by rewrite ?if_nil. Qed.

#[local] Instance qR_ids this p : Collects (getAt "id") (qR this p) [].
Proof.
  unfold Collects, qR. destruct (resolvedSpec this), p as [[]|]; try done.
  by collect_simpl.
Qed.

#[local] Instance samples_ids p : Collects (getAt "id") (samples highlight p) [].
Proof.
  unfold Collects, samples. destruct (p_xCodeSamples p); [|done].
  unfold NR. by collect_simpl.
Qed.

#[local] Instance UR_ids this l : Collects (getAt "id") (UR this l) [].
Proof. unfold Collects, UR. by collect_simpl. Qed.

#[local] Instance qF_ids this p t : Collects (getAt "id") (qF this p t) [].
Proof. unfold Collects, qF. by collect_simpl. Qed.

#[local] Instance NF_ids this p : Collects (getAt "id") (NF highlight this p) [].
Proof. unfold Collects, NF. by collect_simpl. Qed.

#[local] Instance vF_ids this p t r :
  Collects (getAt "id") (vF highlight this p t r) [p_elementId p].
Proof. unfold Collects, vF. by collect_simpl. Qed.

(** The ids of the read mode, and of the view mode. *)
Lemma bF_ids this sp :
  resolvedSpec this = Some sp ->
  attrs "id" (bF highlight this)
  = flat_map (fun t => t_elementId t :: map p_elementId (t_paths t)) (s_tags sp).
Proof.
  intros H. unfold bF. rewrite H. collect_simpl.
  apply flat_map_ext. intros t. by rewrite flat_map_single.
Qed.

Lemma UF_ids this sp t :
  resolvedSpec this = Some sp ->
  attrs "id" (UF highlight this false t)
  = flat_map (fun r => t_elementId r :: map p_elementId (shownPaths this r)) (s_tags sp).
Proof.
  intros H. unfold UF. rewrite H. simpl unless. collect_simpl.
  apply flat_map_ext. intros r. by rewrite flat_map_single.
Qed.

(** *** What a search leaves *)

(** The ids of operations among the ids of a page. *)
Definition operationIds (l : list jstr) : list jstr :=
  List.filter (fun id => truthy id && negb (reserved id)) l.

(** The operations that match the search, tag by tag. *)
Definition matching (this : RapiDoc) (sp : Spec) : list Path :=
  flat_map (fun t => List.filter (fun p => mt (searchVal this) p (t_name t)) (t_paths t))
    (s_tags sp).

Lemma operationIds_app a b : operationIds (a ++ b) = operationIds a ++ operationIds b.
Proof. apply List.filter_app. Qed.

Lemma operationIds_none l :
  Forall (fun id => id = [] \/ reserved id = true) l -> operationIds l = [].
Proof.
  induction 1 as [|id l H _ IH]; [done|]. cbn [operationIds List.filter].
  destruct H as [->|H]; [done|]. by rewrite H, andb_false_r.
Qed.

Lemma operationIds_paths l :
  Forall wfPath l -> operationIds (map p_elementId l) = map p_elementId l.
Proof.
  induction 1 as [|p l H _ IH]; [done|]. cbn [operationIds List.filter map].
  rewrite (operation_not_reserved p H).
  assert (E : truthy (p_elementId p) = true).
  { destruct H as [_ ->]. unfold elementIdOf. by destruct (p_method p). }
  rewrite E. simpl. by f_equal.
Qed.

Lemma operationIds_flat_map {A} (f : A -> list jstr) l :
  operationIds (flat_map f l) = flat_map (fun x => operationIds (f x)) l.
Proof. induction l as [|x l IH]; [done|]. simpl. by rewrite operationIds_app, IH. Qed.

Lemma mt_empty p r : mt [] p r = true.
Proof.
  unfold mt, includes. rewrite (toLowerCase_ascii []) by done.
  unfold indexOf. simpl. by destruct (drop 0 _).
Qed.

Lemma shown_matching this t :
  shownPaths this t = List.filter (fun p => mt (searchVal this) p (t_name t)) (t_paths t).
Proof.
  unfold shownPaths. apply List.filter_ext. intros p.
  destruct (searchVal this) eqn:E; [by rewrite mt_empty|done].
Qed.

Lemma shown_wf this t : wfTag t -> Forall wfPath (shownPaths this t).
Proof.
  intros [_ H]. rewrite Forall_forall in *. intros p. unfold shownPaths.
  rewrite list_elem_of_In, filter_In, <- list_elem_of_In. intros [? _]. auto.
Qed.

Lemma reserved_tag t : wfTag t -> reserved (t_elementId t) = true.
Proof. intros [-> _]. unfold reserved. by rewrite startsWith_app, orb_true_r. Qed.

Lemma reserved_app a x : reserved a = true -> startsWith (u8 "tag--") a = true ->
  reserved (a ++ x) = true.
Proof.
  intros _ H. apply startsWith_spec in H as [r ->]. unfold reserved.
  by rewrite <- app_assoc, startsWith_app, orb_true_r.
Qed.

Lemma topLinks_none this sp : operationIds (topLinks this sp) = [].
Proof.
  apply operationIds_none, Forall_forall. intros id. unfold topLinks. rewrite !elem_of_app.
  intros [[_ H]%elem_of_when|[[_ H]%elem_of_unless|[[_ H]%elem_of_when|H]]].
  - right. case_match; [apply elem_of_app in H as [[_ H]%elem_of_when|H]|].
    + by apply list_elem_of_singleton in H as ->.
    + by apply elem_of_flat_map in H as (h & _ & ->%list_elem_of_singleton).
    + by apply list_elem_of_singleton in H as ->.
  - right. by apply list_elem_of_singleton in H as ->.
  - right. by apply list_elem_of_singleton in H as ->.
  - apply list_elem_of_singleton in H as ->.
    destruct (renderStyle this === u8 "focused"); [by left|by right].
Qed.

Lemma componentLinks_none this sp : operationIds (componentLinks this sp) = [].
Proof.
  apply operationIds_none, Forall_forall. unfold componentLinks.
  intros id [_ (c & _ & H)%elem_of_flat_map]%elem_of_when. right.
  assert (E : exists x, id = u8 "cmp--" ++ x).
  { apply elem_of_when in H as [_ H]. apply elem_of_app in H as [H|H].
    - apply list_elem_of_singleton in H. eauto.
    - apply elem_of_flat_map in H as (e & _ & H%list_elem_of_singleton). eauto. }
  destruct E as [x ->]. unfold reserved. by rewrite startsWith_app, orb_true_r.
Qed.

Lemma tagLinks_operations this t :
  wfTag t -> operationIds (tagLinks this t) = map p_elementId (shownPaths this t).
Proof.
  intros Ht. unfold tagLinks. rewrite !operationIds_app, (flat_map_single p_elementId).
  rewrite (operationIds_paths (shownPaths this t)) by (by apply shown_wf).
  rewrite (operationIds_none (if t_name t === _ then _ else _)), operationIds_none; [done| |].
  - apply Forall_forall.
    intros id [_ [_ (h & _ & ->%list_elem_of_singleton)%elem_of_flat_map]%elem_of_unless]%elem_of_when.
    right.
    apply reserved_app; [by apply reserved_tag|]. destruct Ht as [-> _].
    apply startsWith_app.
  - destruct (t_name t === u8 "General ⦂"); constructor; [|constructor].
    match goal with |- context [if ?b then t_elementId t else []] => destruct b end;
      [right; by apply reserved_tag|by left].
Qed.

Lemma navTags_matching this sp :
  flat_map (fun t => map p_elementId (shownPaths this t)) (navTags this sp)
  = map p_elementId (matching this sp).
Proof.
  unfold navTags, matching. induction (s_tags sp) as [|t l IH]; [done|]. simpl.
  rewrite map_app, <- IH, <- shown_matching. clear IH.
  destruct (existsb _ (t_paths t)) eqn:E; [done|].
  replace (shownPaths this t) with (@nil Path); [done|].
  rewrite shown_matching. symmetry. induction (t_paths t) as [|p ps IH]; [done|].
  simpl in *. apply orb_false_iff in E as [-> E]. auto.
Qed.

(** Searching shows the same operations everywhere: for a well-formed specification,
    the operations that the navigation bar lists are those that match the search text,
    in the order of the document, and the view mode shows the same ones in the same
    order; an empty text matches every operation. *)
Theorem search_shows_matching this sp t :
  resolvedSpec this = Some sp -> specLoadError sp = false -> wfSpec sp ->
  operationIds (attrs "data-content-id" (CF this)) = map p_elementId (matching this sp)
  /\ operationIds (attrs "id" (UF highlight this false t)) = map p_elementId (matching this sp)
  /\ (searchVal this = [] -> matching this sp = flat_map t_paths (s_tags sp)).
Proof.
  intros H He [Hw _]. split_and!.
  - rewrite (CF_links _ sp) by done. unfold navLinks.
    rewrite !operationIds_app, topLinks_none, componentLinks_none, app_nil_r. simpl.
    rewrite operationIds_flat_map, <- navTags_matching. apply flat_map_ext_in.
    intros r Hr. apply tagLinks_operations. rewrite Forall_forall in Hw. apply Hw.
    unfold navTags in Hr. rewrite list_elem_of_In, filter_In, <- list_elem_of_In in Hr.
    apply Hr.
  - rewrite (UF_ids _ sp) by done. rewrite operationIds_flat_map. unfold matching.
    induction Hw as [|r l Hr _ IH]; [done|]. simpl. rewrite map_app, <- IH. f_equal.
    rewrite <- shown_matching. cbn [operationIds List.filter].
    rewrite reserved_tag, andb_false_r by done. apply operationIds_paths. by apply shown_wf.
  - intros Hv. unfold matching. rewrite Hv. apply flat_map_ext. intros r.
    induction (t_paths r) as [|p l IH]; [done|]. simpl. by rewrite mt_empty, IH.
Qed.

End modes.

(** ** The page *)

Section page.
Context {CM : CaseMapping} {LC : Locale} {MK : Marked}.
Context (base64 : jstr -> jstr) (highlight : jstr -> jstr -> option jstr)
  (regex : jstr -> jstr -> bool) (idsOf : jstr -> list jstr)
  (originOf navigate : jstr -> jstr).

Abbreviation rendered := (rendered base64 highlight originOf).
Abbreviation scrollToPath := (scrollToPath base64 highlight idsOf originOf navigate).

Implicit Types (st : RapiDoc * jstr) (this fresh : RapiDoc).

Definition withSchemes (l : list SecurityScheme) (sp : Spec) : Spec := {|
  specLoadError := specLoadError sp; isSpecLoading := isSpecLoading sp;
  s_info := s_info sp; infoDescriptionHeaders := infoDescriptionHeaders sp;
  s_tags := s_tags sp; s_components := s_components sp;
  securitySchemes := l; s_servers := s_servers sp |}.

(** An element that differs in its schemes only. *)
Definition keysOnly (this this' : RapiDoc) : Prop :=
  cfg this' = cfg this /\ focusedElementId this' = focusedElementId this
  /\ searchVal this' = searchVal this /\ loading this' = loading this
  /\ loadFailed this' = loadFailed this
  /\ forall sp, resolvedSpec this = Some sp ->
       exists l, resolvedSpec this' = Some (withSchemes l sp).

#[local] Instance keysOnly_preorder : PreOrder keysOnly.
Proof.
  split.
  - intros ?. split_and!; try done. intros sp ->. exists (securitySchemes sp). by destruct sp.
  - intros a b c (?&?&?&?&?&Hab) (?&?&?&?&?&Hbc). split_and!; try congruence.
    intros sp Ha. destruct (Hab sp Ha) as [l Hb]. destruct (Hbc _ Hb) as [l' Hc].
    by exists l'.
Qed.

Lemma keysOnly_upd f this : keysOnly this (updSchemes f this).
Proof.
  unfold updSchemes. destruct (resolvedSpec this) as [sp|] eqn:E; [|done].
  split_and!; try done. intros sp' [= <-]%(eq_trans (eq_sym E)).
  by exists (f (securitySchemes sp)).
Qed.

Lemma keysOnly_CR this : keysOnly this (CR base64 this).
Proof.
  unfold CR. generalize (storage this) as st. intros st. revert this.
  induction st as [|e st IH]; intros this; simpl; [done|].
  etrans; [|apply IH]. unfold OR. case_match; simpl; [apply keysOnly_upd|done].
Qed.

Lemma links_keysOnly this this' sp l :
  keysOnly this this' -> navLinks this' (withSchemes l sp) = navLinks this sp.
Proof.
  intros (Hc & _ & Hs & _).
  unfold navLinks, topLinks, componentLinks, tagLinks, navTags, shownPaths.
  by rewrite Hc, Hs.
Qed.

(** Rendering a loaded specification gives the page, whatever the colours. *)
Lemma rendered_loaded this sp :
  resolvedSpec this = Some sp -> specLoadError sp = false -> isSpecLoading sp = false ->
  exists this' style l server,
    rendered this = (this', loadedPage highlight server this' style
                              (MF highlight server this').1 false false)
    /\ keysOnly this this' /\ resolvedSpec this' = Some (withSchemes l sp).
Proof.
  intros H He Hl. unfold RapidocEvents.rendered, KF. rewrite H.
  set (server := originOf _).
  set (this' := if persistAuth this === u8 "true" then CR base64 this else this).
  assert (Hk : keysOnly this this') by (unfold this'; case_match; [apply keysOnly_CR|done]).
  destruct Hk as (Hc & Hf & Hs & Hlo & Hlf & Hsp). destruct (Hsp sp H) as [l Hr].
  destruct (JF_some this' (if theme this' === u8 "dark" then u8 "dark" else u8 "light"))
    as [style Hst].
  rewrite Hst, Hr. simpl. rewrite He, Hl.
  exists this', style, l, server. by split_and!.
Qed.

Lemma focused_in_page server (this : RapiDoc) style focused e t id :
  renderStyle this = u8 "focused" -> loading this = false -> loadFailed this = false ->
  id ∈ attrs "id" focused ->
  id ∈ attrs "id" (loadedPage highlight server this style focused e t).
Proof.
  intros Hs Hl Hf H. unfold loadedPage. rewrite Hl, Hf, Hs.
  do 3 apply attrs_app_r. apply attrs_kids, attrs_app_r, attrs_kids, attrs_app_r,
    attrs_app_l, attrs_kids, attrs_kids. done.
Qed.

(** A link of the bar is shown by the page that is rendered when it is focused. *)
Lemma link_rendered this sp id :
  resolvedSpec this = Some sp -> specLoadError sp = false -> isSpecLoading sp = false ->
  wfSpec sp -> focusedMode this sp -> loading this = false -> loadFailed this = false ->
  id ∈ navLinks this sp -> id <> [] -> focusedElementId this = id ->
  id ∈ attrs "id" (rendered this).2 /\ focusedElementId (rendered this).1 = id
  /\ keysOnly this (rendered this).1.
Proof.
  intros H He Hl Hw Hm Hlo Hlf Hin Hne Hf.
  destruct (rendered_loaded this sp) as (this' & style & l & server & -> & Hk & Hr); try done.
  simpl. split_and!; [|by destruct Hk as (_ & -> & _)|done].
  pose proof Hk as (Hc & Hf' & _ & Hlo' & Hlf' & _).
  destruct Hm as (Hstyle & Hm). apply focused_in_page; [by rewrite Hc|by rewrite Hlo', Hlo|by rewrite Hlf'|].
  eapply links_shown; [done|done|done| | |done|congruence].
  - unfold focusedMode. rewrite Hc. by split.
  - by rewrite (links_keysOnly this).
Qed.

(** *** The address *)

Definition hashes (s : jstr) : nat := length (List.filter (fun c => (c =? cHash)%N) s).

Lemma hashes_app a b : hashes (a ++ b) = hashes a + hashes b.
Proof. unfold hashes. by rewrite List.filter_app, length_app. Qed.

Lemma hashes_none s : cHash ∉ s -> hashes s = 0.
Proof.
  unfold hashes. induction s as [|c s IH]; [done|]. intros [Hc Hs]%not_elem_of_cons. simpl.
  destruct (N.eqb_spec c cHash); [congruence|auto].
Qed.

Lemma lastIndexOf_none t s : hashes s < hashes t -> lastIndexOf t s = None.
Proof.
  induction s as [|c s IH]; intros H; simpl; [done|].
  rewrite IH by (unfold hashes in *; simpl in H; case_match; simpl in H; lia).
  destruct (startsWith t (c :: s)) eqn:E; [|done].
  apply startsWith_spec in E as [r E]. rewrite E, hashes_app in H. lia.
Qed.

Lemma lastIndexOf_base b t e :
  head t = Some cHash -> cHash ∉ e -> lastIndexOf t (b ++ t ++ e) = Some (length b).
Proof.
  intros Ht He. induction b as [|c b IH]; simpl; [|by rewrite IH].
  destruct t as [|h t]; [done|]. injection Ht as ->. cbn [lastIndexOf app].
  rewrite lastIndexOf_none.
  - change (cHash :: t ++ e) with ((cHash :: t) ++ e). by rewrite startsWith_app.
  - rewrite hashes_app, (hashes_none e He). unfold hashes. simpl. lia.
Qed.

Lemma removeFirst_here a b : removeFirst a (a ++ b) = b.
Proof.
  unfold removeFirst, indexOf. simpl. unfold drop at 1.
  assert (H : indexOfAux a (a ++ b) 0 = Some 0)
    by (destruct (a ++ b) eqn:E; simpl; rewrite <- ?E, ?startsWith_app; [|done];
        by apply app_nil in E as [-> _]).
  rewrite H. simpl. by rewrite drop_app_length.
Qed.

Lemma dropMark_hash p :
  (p = [] /\ dropMark (cHash :: p) = [])
  \/ exists p' m, p = p' ++ m /\ dropMark (cHash :: p) = cHash :: p'.
Proof.
  unfold dropMark. destruct p as [|c p]; [by left|right].
  case_match; [|exists (c :: p), []; by rewrite app_nil_r].
  exists (take (length p) (c :: p)), (drop (length p) (c :: p)).
  by rewrite take_drop.
Qed.

(** The base of the address does not change when the part after it is replaced. *)
Lemma base_kept p e href :
  cHash ∉ p -> p = [] \/ cHash ∉ e ->
  let prefix := cHash :: p in
  getComponentBaseURL prefix (getComponentBaseURL prefix href ++ prefix ++ e)
  = getComponentBaseURL prefix href.
Proof.
  intros Hp He prefix. set (b := getComponentBaseURL prefix href).
  destruct (dropMark_hash p) as [[-> Hnil]|(p' & m & Hm & Hd)].
  - assert (Hb : b = default [] (head (splitOn cHash href)))
      by (unfold b, getComponentBaseURL, prefix; by rewrite Hnil).
    subst prefix. unfold getComponentBaseURL at 1. cbv zeta. rewrite Hnil. simpl truthy.
    cbv iota. change (b ++ [cHash] ++ e) with (b ++ cHash :: e).
    rewrite splitOn_app; [done|]. rewrite Hb. apply split_head.
  - unfold getComponentBaseURL at 1. cbv zeta. fold prefix in Hd. rewrite Hd. simpl truthy. cbv iota.
    replace (prefix ++ e) with ((cHash :: p') ++ (m ++ e))
      by (unfold prefix; by rewrite Hm, app_assoc).
    rewrite lastIndexOf_base; [by rewrite take_app_length|done|].
    rewrite elem_of_app. subst p. rewrite elem_of_app in Hp.
    destruct He as [[-> ->]%app_nil|He]; [|tauto].
    exfalso. unfold prefix, dropMark in Hd. done.
Qed.

(** The element that the address names is read back. *)
Lemma address_read p e href :
  cHash ∉ p -> p = [] \/ cHash ∉ e ->
  getElementIDFromURL (cHash :: p) (replaceHistoryState (cHash :: p) e href) = e.
Proof.
  intros Hp He. unfold getElementIDFromURL, replaceHistoryState, sor.
  change (truthy (cHash :: p)) with true. cbv iota.
  rewrite base_kept by done. rewrite app_assoc. apply removeFirst_here.
Qed.

(** An address without a part names itself: the whole address is taken for an id. *)
Lemma no_part_names_address href :
  cHash ∉ href -> getElementIDFromURL [cHash] href = href.
Proof.
  intros H. unfold getElementIDFromURL, removeFirst.
  destruct (indexOf _ href 0) as [n|] eqn:E; [|done]. exfalso. apply H.
  assert (occurs (getComponentBaseURL [cHash] href ++ [cHash]) href) as (a & b & Ho).
  { apply occurs_indexOf; [by destruct (getComponentBaseURL [cHash] href)|by eexists]. }
  rewrite Ho, !elem_of_app. right. left. right. by left.
Qed.

(** *** A click in the bar *)

Lemma keysOnly_rendered this : keysOnly this (rendered this).1.
Proof.
  unfold RapidocEvents.rendered, KF. destruct (resolvedSpec this); [|done].
  set (this' := if persistAuth this === u8 "true" then CR base64 this else this).
  assert (keysOnly this this') by (unfold this'; case_match; [apply keysOnly_CR|done]).
  destruct (JF _ _ _); [|done]. by destruct (resolvedSpec this').
Qed.

(** In the focused mode an element that the page has is focused, and the address names
    it. *)
Lemma scroll_focused e st :
  renderStyle st.1 = u8 "focused" ->
  (scrollToPath e st).1 = (rendered (withFocus e st.1)).1
  /\ (e ∈ attrs "id" (rendered (withFocus e st.1)).2 -> updateRoute st.1 = u8 "true" ->
      (scrollToPath e st).2 = navigate (replaceHistoryState (routePrefix st.1) e st.2)).
Proof.
  intros H. unfold RapidocEvents.scrollToPath.
  assert (Hc : cfg (withFocus e st.1) = cfg st.1) by done.
  rewrite (bool_decide_true (renderStyle st.1 = _)), Hc, H by done.
  rewrite bool_decide_false by (cbv; discriminate).
  pose proof (keysOnly_rendered (withFocus e st.1)) as (Hk & _).
  destruct (rendered (withFocus e st.1)) as [shown page]. simpl in *.
  split.
  - case_match; [apply goTo_fst|done].
  - intros Hin Hu.
    assert (Hg : getElementById idsOf e page = true).
    { unfold getElementById. apply existsb_exists. exists e.
      rewrite <- list_elem_of_In, elem_of_app. split; [by left|by apply bool_decide_eq_true]. }
    rewrite Hg. unfold goTo. simpl. by rewrite Hk, Hu, bool_decide_true.
Qed.

(** A loaded document, shown in the focused mode. *)
Definition shownFocused (this : RapiDoc) (sp : Spec) : Prop :=
  resolvedSpec this = Some sp /\ specLoadError sp = false /\ isSpecLoading sp = false
  /\ loading this = false /\ loadFailed this = false /\ focusedMode this sp.

Lemma click_focuses id st :
  truthy id = true -> renderStyle st.1 = u8 "focused" ->
  handle base64 highlight regex idsOf originOf navigate
    (Navigate Click (Some (u8 "navigate")) (Some id)) st = scrollToPath id st.
Proof.
  intros Hid Hs. simpl. unfold PF, scrollToEventTarget. simpl.
  unfold truthyO, orE. simpl. by rewrite Hid.
Qed.

(** C4: No link of the navigation bar is dead: in every reachable state with a loaded
    document in the focused mode, whatever is searched for, a click on a link of the bar
    focuses the link's id, and the page that is rendered then has an element of this id:
    the overview, the servers, the authentication, a tag, an operation or a component. *)
Theorem nav_click_shows c href st sp id :
  reachable base64 highlight regex idsOf originOf navigate c href st ->
  shownFocused st.1 sp ->
  id ∈ attrs "data-content-id" (CF st.1) -> id <> [] ->
  let st' := handle base64 highlight regex idsOf originOf navigate
               (Navigate Click (Some (u8 "navigate")) (Some id)) st in
  focusedElementId st'.1 = id /\ id ∈ attrs "id" (rendered st'.1).2.
Proof.
  intros Hr (H & He & Hl & Hlo & Hlf & Hm) Hin Hne st'.
  apply reachable_wf in Hr as (_ & _ & Hw). destruct (Hw sp H) as [Hwf _].
  rewrite (CF_links _ sp) in Hin by done.
  assert (Hs : renderStyle st.1 = u8 "focused") by apply Hm.
  assert (Hid : truthy id = true) by (by destruct id).
  unfold st'. rewrite click_focuses by done.
  destruct (scroll_focused id st Hs) as [-> _].
  destruct (link_rendered (withFocus id st.1) sp id) as (_ & Hf & Hk); try done.
  split; [done|]. pose proof Hk as (Hc & _ & _ & Hlo' & Hlf' & Hsp).
  destruct (Hsp sp H) as [l Hr].
  destruct (link_rendered (rendered (withFocus id st.1)).1 (withSchemes l sp) id)
    as (? & _); try done.
  - unfold focusedMode. by rewrite Hc.
  - by rewrite Hlo'.
  - by rewrite Hlf'.
  - by rewrite (links_keysOnly (withFocus id st.1)).
Qed.


End page.
