(* ===== verification/RapidocResponse.v ===== *)
(** * RapiDoc: the responses of an operation

    The element [api-response]: its state, [responseTemplate] and its parts, and the
    handlers of its buttons.

    Parameters: [uF] makes a schema's tree, [dF] its examples (the code normalises what
    it hands to [dF] with [tF], which is part of the parameter). *)

From stdpp Require Import strings numbers pretty list sets.
From S2P Require Import Prelude JsString Html RapidocSpec RapidocElement.

Open Scope nat_scope.

(** ** State *)

Record Example_ := mkExample {
  ex_id : jstr;
  ex_summary : jstr;
  ex_description : jstr;
  ex_format : jstr;
  ex_value : json;
}.

Record MimeResponse := mkMimeResponse {
  mr_description : option jstr;
  mr_examples : list Example_;
  mr_selectedExample : jstr;
  mr_schemaTree : option json;
}.

Record ApiResponse := mkApiResponse {
  ar_callback : jstr;
  ar_webhook : jstr;
  ar_responses : list (jstr * Response);
  ar_renderStyle : jstr;
  ar_schemaStyle : jstr;
  ar_schemaExpandLevel : N;
  ar_schemaDescriptionExpanded : jstr;
  ar_allowSchemaDescriptionExpandToggle : jstr;
  ar_schemaHideReadOnly : jstr;
  ar_schemaHideWriteOnly : jstr;
  ar_selectedStatus : jstr;
  ar_selectedMimeType : option jstr;
  ar_activeSchemaTab : jstr;
  ar_headersForEachRespStatus : list (jstr * list (jstr * Header));
  ar_mimeResponsesForEachStatus : list (jstr * list (jstr * MimeResponse));
}.

Definition withSelection (status : jstr) (mime : option jstr) (this : ApiResponse)
    : ApiResponse :=
  {| ar_callback := ar_callback this; ar_webhook := ar_webhook this;
     ar_responses := ar_responses this; ar_renderStyle := ar_renderStyle this;
     ar_schemaStyle := ar_schemaStyle this;
     ar_schemaExpandLevel := ar_schemaExpandLevel this;
     ar_schemaDescriptionExpanded := ar_schemaDescriptionExpanded this;
     ar_allowSchemaDescriptionExpandToggle := ar_allowSchemaDescriptionExpandToggle this;
     ar_schemaHideReadOnly := ar_schemaHideReadOnly this;
     ar_schemaHideWriteOnly := ar_schemaHideWriteOnly this;
     ar_selectedStatus := status; ar_selectedMimeType := mime;
     ar_activeSchemaTab := ar_activeSchemaTab this;
     ar_headersForEachRespStatus := ar_headersForEachRespStatus this;
     ar_mimeResponsesForEachStatus := ar_mimeResponsesForEachStatus this |}.

Definition withTables (headers : list (jstr * list (jstr * Header)))
    (mimes : list (jstr * list (jstr * MimeResponse))) (this : ApiResponse) : ApiResponse :=
  {| ar_callback := ar_callback this; ar_webhook := ar_webhook this;
     ar_responses := ar_responses this; ar_renderStyle := ar_renderStyle this;
     ar_schemaStyle := ar_schemaStyle this;
     ar_schemaExpandLevel := ar_schemaExpandLevel this;
     ar_schemaDescriptionExpanded := ar_schemaDescriptionExpanded this;
     ar_allowSchemaDescriptionExpandToggle := ar_allowSchemaDescriptionExpandToggle this;
     ar_schemaHideReadOnly := ar_schemaHideReadOnly this;
     ar_schemaHideWriteOnly := ar_schemaHideWriteOnly this;
     ar_selectedStatus := ar_selectedStatus this;
     ar_selectedMimeType := ar_selectedMimeType this;
     ar_activeSchemaTab := ar_activeSchemaTab this;
     ar_headersForEachRespStatus := headers;
     ar_mimeResponsesForEachStatus := mimes |}.

Definition statuses (this : ApiResponse) : list jstr := map fst (ar_responses this).
Definition responseOf (this : ApiResponse) (e : jstr) : option Response :=
  assoc e (ar_responses this).
Definition headersOf (this : ApiResponse) (e : jstr) : list (jstr * Header) :=
  default [] (assoc e (ar_headersForEachRespStatus this)).
Definition mimesOf (this : ApiResponse) (e : jstr) : list (jstr * MimeResponse) :=
  default [] (assoc e (ar_mimeResponsesForEachStatus this)).
(** The selected content type of a response, if the response has it. *)
Definition mimeOf (this : ApiResponse) (e : jstr) : option MimeResponse :=
  m ← ar_selectedMimeType this; assoc m (mimesOf this e).

(** ** Handlers *)

(** A status' button: its first content type is selected with it. *)
Definition clickStatus (e : jstr) (this : ApiResponse) : ApiResponse :=
  withSelection e
    (r ← responseOf this e; c ← head (rsp_content r); if truthy c.1 then Some c.1 else None)
    this.

Definition resetSelection (this : ApiResponse) : ApiResponse :=
  withSelection [] (Some []) this.

Definition changeMime (v : jstr) (this : ApiResponse) : ApiResponse :=
  withSelection (ar_selectedStatus this) (Some v) this.

(** [onSelectExample]: the examples of a panel with their [display]. *)
Definition selectExample (v : jstr) (l : list (jstr * jstr)) : list (jstr * jstr) :=
  map (fun t => (t.1, if t.1 === v then u8 "block" else u8 "none")) l.

(** ** Templates *)

Section templates.
Context {CM : CaseMapping} {MK : Marked}.
Context (uF : option json -> option json)
  (dF : option json -> jstr -> option json -> option json -> bool -> bool -> jstr ->
        list Example_).

(** The text a value renders to in an element. *)
Definition exampleText (e : Example_) : jstr :=
  match ex_value e with
  | JStr s => s
  | JNum r => r
  | JBool b => decB b
  | JObj _ => u8 "[object Object]"
  | _ => []
  end.

Definition responseHeaderListTemplate (l : list (jstr * Header)) : html bound :=
  el "div" ["style" =: u8 "padding:16px 0 8px 0";
        "class" =: u8 "resp-headers small-font-size bold-text"] (
      txt (u8 "RESPONSE HEADERS")) ++
  el "table" ["role" =: u8 "presentation";
        "style" =: u8 "border-collapse: collapse; margin-bottom:16px; border:1px solid var(--border-color); border-radius: var(--border-radius)";
        "class" =: u8 "small-font-size mono-font"] (
      flat_map (fun e => el "tr" [] (
            el "td" ["style" =: u8 "padding:8px; vertical-align: baseline; min-width:120px; border-top: 1px solid var(--light-border-color); text-overflow: ellipsis;"] (
              txt e.1) ++
            el "td" ["style" =: u8 "padding:4px; vertical-align: baseline; padding:0 5px; border-top: 1px solid var(--light-border-color); text-overflow: ellipsis;"] (
              txt (orE (hdr_type e.2))) ++
            el "td" ["style" =: u8 "padding:8px; vertical-align: baseline; border-top: 1px solid var(--light-border-color);text-overflow: ellipsis;"] (
              el "div" ["class" =: u8 "m-markdown-small regular-font"] (
                raw (markdown (orE (hdr_description e.2))))) ++
            el "td" ["style" =: u8 "padding:8px; vertical-align: baseline; border-top: 1px solid var(--light-border-color); text-overflow: ellipsis;"] (
              txt (orE (hdr_example e.2))))) l).

Definition mimeTypeDropdownTemplate (this : ApiResponse) (l : list jstr) : html bound :=
  el "select" ["aria-label" =: u8 "mime types";
        "change" =@ selectMime;
        "style" =: u8 "margin-bottom: -1px; z-index:1"] (
      flat_map (fun e => el "option" ["value" =: e;
              "selected" =! (bool_decide (Some e = ar_selectedMimeType this))] (
            txt e)) l).

(** The only example of a content type. *)
Definition oneExample (this : ApiResponse) (x0 : Example_) : html bound :=
      (if ex_format x0 === u8 "json" then when (80 <? length (ex_summary x0)) (el "div" ["style" =: u8 "padding: 4px 0"] (txt (ex_summary x0))) ++
          when (truthy (ex_description x0)) (el "div" ["class" =: u8 "m-markdown-small"; "style" =: u8 "padding: 4px 0"] (
                  raw (markdown (ex_description x0)))) ++
          el "json-tree" ["render-style" =: ar_renderStyle this;
                ".data" =@ (BJson (Some (ex_value x0)));
                "class" =: u8 "example-panel " ++ (if ar_renderStyle this === u8 "read" then u8 "border pad-8-16" else u8 "border-top pad-top-8");
                "exportparts" =: u8 "btn:btn, btn-fill:btn-fill, btn-copy:btn-copy"] []
        else when (80 <? length (ex_summary x0)) (el "div" ["style" =: u8 "padding: 4px 0"] (txt (ex_summary x0))) ++
          when (truthy (ex_description x0)) (el "div" ["class" =: u8 "m-markdown-small"; "style" =: u8 "padding: 4px 0"] (
                  raw (markdown (ex_description x0)))) ++
          el "pre" ["class" =: u8 "example-panel " ++ (if ar_renderStyle this === u8 "read" then u8 "border pad-8-16" else u8 "border-top pad-top-8")] (
              txt (exampleText x0))).

(** Several examples, behind a selector. *)
Definition manyExamples (this : ApiResponse) (e : MimeResponse) : html bound :=
      el "span" ["class" =: u8 "example-panel " ++ (if ar_renderStyle this === u8 "read" then u8 "border pad-8-16" else u8 "border-top pad-top-8")] (
          el "select" ["aria-label" =: u8 "response examples";
              "style" =: u8 "min-width:100px; max-width:100%";
              "change" =@ onSelectExample] (
            flat_map (fun t => el "option" ["value" =: ex_id t; "selected" =! (ex_id t === mr_selectedExample e)] (
                  (if 80 <? length (ex_summary t) then txt (ex_id t)
                  else txt (ex_summary t)))) (mr_examples e)) ++
          flat_map (fun t => el "div" ["class" =: u8 "example";
                  "data-example" =: ex_id t;
                  "style" =: u8 "display: " ++ (if ex_id t === mr_selectedExample e then u8 "block" else u8 "none")] (
                when (80 <? length (ex_summary t)) (el "div" ["style" =: u8 "padding: 4px 0"] (txt (ex_summary t))) ++
                when (truthy (ex_description t)) (el "div" ["class" =: u8 "m-markdown-small"; "style" =: u8 "padding: 4px 0"] (
                      raw (markdown (ex_description t)))) ++
                (if ex_format t === u8 "json" then el "json-tree" ["render-style" =: ar_renderStyle this;
                        ".data" =@ (BJson (Some (ex_value t)));
                        "exportparts" =: u8 "btn:btn, btn-fill:btn-fill, btn-copy:btn-copy"] []
                else el "pre" [] (txt (exampleText t))))) (mr_examples e)).

Definition mimeExampleTemplate (this : ApiResponse) (e : option MimeResponse) : html bound :=
  match e with
  | Some e => match mr_examples e with
              | [x0] => oneExample this x0
              | _ => manyExamples this e
              end
  | None =>
    el "pre" ["style" =: u8 "color:var(--red)";
          "class" =: (if ar_renderStyle this === u8 "read" then u8 "read example-panel border pad-8-16" else u8 "example-panel border-top")] (
        txt (u8 " No example provided "))
  end.

Definition mimeSchemaTemplate (this : ApiResponse) (e : option MimeResponse) : html bound :=
  match e with
  | Some e =>
    (if ar_schemaStyle this === u8 "table" then el "schema-table" [".data" =@ (BJson (mr_schemaTree e));
              "schema-expand-level" =: dec (ar_schemaExpandLevel this);
              "schema-description-expanded" =: ar_schemaDescriptionExpanded this;
              "allow-schema-description-expand-toggle" =: ar_allowSchemaDescriptionExpandToggle this;
              "schema-hide-read-only" =: ar_schemaHideReadOnly this;
              "schema-hide-write-only" =: ar_schemaHideWriteOnly this;
              "exportparts" =: u8 "schema-description:schema-description, schema-multiline-toggle:schema-multiline-toggle"] []
      else el "schema-tree" [".data" =@ (BJson (mr_schemaTree e));
              "schema-expand-level" =: dec (ar_schemaExpandLevel this);
              "schema-description-expanded" =: ar_schemaDescriptionExpanded this;
              "allow-schema-description-expand-toggle" =: ar_allowSchemaDescriptionExpandToggle this;
              "schema-hide-read-only" =: ar_schemaHideReadOnly this;
              "schema-hide-write-only" =: ar_schemaHideWriteOnly this;
              "exportparts" =: u8 "schema-description:schema-description, schema-multiline-toggle:schema-multiline-toggle"] [])
  | None =>
    el "pre" ["style" =: u8 "color:var(--red)";
          "class" =: (if ar_renderStyle this === u8 "read" then u8 "border pad-8-16" else u8 "border-top")] (
        txt (u8 " Schema not found"))
  end.

(** One content type of a response, prepared for display. *)
Definition prepareMime (this : ApiResponse) (rsp : Response) (c : jstr * MediaType)
    : jstr * MimeResponse :=
  let inbound := (ar_callback this === u8 "true") || (ar_webhook this === u8 "true") in
  let a := dF (mt_schema c.2) c.1 (mt_examples c.2) (mt_example c.2) (negb inbound) inbound
             (if includes c.1 (u8 "json") then u8 "json" else u8 "text") in
  (c.1, {| mr_description := rsp_description rsp;
           mr_examples := a;
           mr_selectedExample := orE (ex_id <$> head a);
           mr_schemaTree := uF (mt_schema c.2) |}).

(** The loop over the responses: the first status and the first content type met are
    selected when none is, and the tables are refilled. *)
Definition prepare (this : ApiResponse) : ApiResponse :=
  foldl (fun this s =>
    let sel := if truthy (ar_selectedStatus this) then ar_selectedStatus this else s.1 in
    let mime := foldl (fun m c => if truthyO m then m else Some c.1)
                  (ar_selectedMimeType this) (rsp_content s.2) in
    withTables (assocSet s.1 (rsp_headers s.2) (ar_headersForEachRespStatus this))
      (assocSet s.1 (map (prepareMime this s.2) (rsp_content s.2))
         (ar_mimeResponsesForEachStatus this))
      (withSelection sel mime this)) this (ar_responses this).

(** What [responseTemplate] returns after the loop. *)
Definition responsePanels (this : ApiResponse) : html bound :=
  (if 1 <? length (statuses this) then el "div" ["class" =: u8 "row"; "style" =: u8 "flex-wrap:wrap"] (
          flat_map (fun e => unless (e === u8 "$$ref") (el "button" ["click" =@ (selectStatus e);
                      "class" =: u8 "m-btn small " ++ (if ar_selectedStatus this === e then u8 "primary" else []);
                      "part" =: u8 "btn " ++ (if ar_selectedStatus this === e then u8 "btn-response-status btn-selected-response-status" else u8 " btn-response-status");
                      "style" =: u8 "margin: 8px 4px 0 0"] (
                    txt e))) (statuses this))
    else el "span" [] (txt (orE (head (statuses this))))) ++
  flat_map (fun e => el "div" ["style" =: u8 "display: " ++ (if e === ar_selectedStatus this then u8 "block" else u8 "none")] (
          el "div" ["class" =: u8 "top-gap"] (
            el "span" ["class" =: u8 "resp-descr m-markdown "] (
              raw (markdown (orE (r ← responseOf this e; rsp_description r)))) ++
            when (0 <? length (headersOf this e)) (responseHeaderListTemplate (headersOf this e))) ++
          unless (length (mimesOf this e) =? 0) (el "div" ["part" =: u8 "tab-panel"; "class" =: u8 "tab-panel col"] (
                el "div" ["part" =: u8 "tab-btn-row";
                    "class" =: u8 "tab-buttons row";
                    "click" =@ selectSchemaTab] (
                  el "button" ["part" =: u8 "tab-btn";
                      "class" =: u8 "tab-btn " ++ (if ar_activeSchemaTab this === u8 "example" then u8 "active" else []);
                      "data-tab" =: u8 "example"] (
                    txt (u8 "EXAMPLE ")) ++
                  el "button" ["part" =: u8 "tab-btn";
                      "class" =: u8 "tab-btn " ++ (if negb (ar_activeSchemaTab this === u8 "example") then u8 "active" else []);
                      "data-tab" =: u8 "schema"] (
                    txt (u8 "SCHEMA")) ++
                  el "div" ["style" =: u8 "flex:1"] [] ++
                  (if length (mimesOf this e) =? 1 then el "span" ["class" =: u8 "small-font-size gray-text";
                          "style" =: u8 "align-self:center; margin-top:8px;"] (
                        txt (orE (head (map fst (mimesOf this e)))))
                  else mimeTypeDropdownTemplate this (map fst (mimesOf this e)))) ++
                (if ar_activeSchemaTab this === u8 "example" then el "div" ["part" =: u8 "tab-content";
                        "class" =: u8 "tab-content col";
                        "style" =: u8 "flex:1;"] (
                      mimeExampleTemplate this (mimeOf this e))
                else el "div" ["part" =: u8 "tab-content";
                        "class" =: u8 "tab-content col";
                        "style" =: u8 "flex:1;"] (
                      mimeSchemaTemplate this (mimeOf this e))))))) (statuses this).

Definition responseTemplate (this : ApiResponse) : ApiResponse * html bound :=
  let this := prepare this in (this, responsePanels this).

Definition render (this : ApiResponse) : ApiResponse * html bound :=
  let '(this, body) := responseTemplate this in
  (this,
  el "div" ["class" =: u8 "col regular-font response-panel " ++ ar_renderStyle this ++ u8 "-mode"] (
      el "div" ["class" =: u8 " " ++ (if ar_callback this === u8 "true" then u8 "tiny-title" else u8 "req-res-title") ++ u8 " "] (
        (if ar_callback this === u8 "true" then txt (u8 "CALLBACK RESPONSE")
        else txt (u8 "RESPONSE"))) ++
      el "div" [] (body))).

End templates.

(** ** Properties *)

Section responses.
Context {CM : CaseMapping} {MK : Marked}.
Context (uF : option json -> option json)
  (dF : option json -> jstr -> option json -> option json -> bool -> bool -> jstr ->
        list Example_).

Abbreviation prepare := (prepare uF dF).
Abbreviation prepareMime := (prepareMime uF dF).

(** What a document gives: different statuses, and content types that have names. *)
Definition wfResponses (l : list (jstr * Response)) : Prop :=
  NoDup (l.*1) /\ ([] ∉ l.*1)
  /\ Forall (fun r => [] ∉ (rsp_content r.2).*1) l.

Definition contentOf (this : ApiResponse) (e : jstr) : list jstr :=
  default [] ((fun r => (rsp_content r).*1) <$> (responseOf this e)).

(** The selection belongs together: a selected content type is one of the selected
    status, unless this one has none; without a content type, nothing was selected but
    the first status or one without content. *)
Definition selectionOk (this : ApiResponse) : Prop :=
  (ar_selectedStatus this = [] \/ ar_selectedStatus this ∈ statuses this)
  /\ (ar_selectedStatus this = [] -> truthyO (ar_selectedMimeType this) = false)
  /\ (contentOf this (ar_selectedStatus this) <> [] ->
      if truthyO (ar_selectedMimeType this)
      then orE (ar_selectedMimeType this) ∈ contentOf this (ar_selectedStatus this)
      else head (statuses this) = Some (ar_selectedStatus this)).

(** *** The loop *)

Definition step (this : ApiResponse) (s : jstr * Response) : ApiResponse :=
  withTables (assocSet s.1 (rsp_headers s.2) (ar_headersForEachRespStatus this))
    (assocSet s.1 (map (prepareMime this s.2) (rsp_content s.2))
       (ar_mimeResponsesForEachStatus this))
    (withSelection
       (if truthy (ar_selectedStatus this) then ar_selectedStatus this else s.1)
       (foldl (fun m c => if truthyO m then m else Some c.1)
          (ar_selectedMimeType this) (rsp_content s.2)) this).

Lemma prepare_steps this : prepare this = foldl step this (ar_responses this).
Proof. done. Qed.

Lemma steps_responses l this : ar_responses (foldl step this l) = ar_responses this.
Proof. revert this. induction l as [|s l IH]; intros this; simpl; [done|]. by rewrite IH. Qed.

Lemma steps_status l this :
  truthy (ar_selectedStatus this) = true ->
  ar_selectedStatus (foldl step this l) = ar_selectedStatus this.
Proof.
  revert this. induction l as [|s l IH]; intros this H; simpl; [done|].
  rewrite IH; simpl; by rewrite H.
Qed.

Lemma steps_status_first s l this :
  truthy (ar_selectedStatus this) = false -> truthy s.1 = true ->
  ar_selectedStatus (foldl step this (s :: l)) = s.1.
Proof. intros H Hs. simpl. rewrite steps_status; simpl; by rewrite H. Qed.

Lemma fold_mime_kept (l : list (jstr * MediaType)) m :
  truthyO m = true -> foldl (fun m c => if truthyO m then m else Some c.1) m l = m.
Proof. intros H. induction l as [|c l IH]; simpl; [done|]. by rewrite H. Qed.

Lemma steps_mime l this :
  truthyO (ar_selectedMimeType this) = true ->
  ar_selectedMimeType (foldl step this l) = ar_selectedMimeType this.
Proof.
  revert this. induction l as [|s l IH]; intros this H; simpl; [done|].
  rewrite IH; simpl; by rewrite fold_mime_kept.
Qed.

Lemma steps_mime_first s l this c cs :
  truthyO (ar_selectedMimeType this) = false -> rsp_content s.2 = c :: cs ->
  truthy c.1 = true -> ar_selectedMimeType (foldl step this (s :: l)) = Some c.1.
Proof.
  intros H Hc Ht. simpl.
  rewrite steps_mime; simpl; rewrite Hc; simpl; rewrite H, fold_mime_kept; done.
Qed.

(** The tables after the loop: what each status has. *)
Lemma steps_other e l this :
  e ∉ l.*1 ->
  assoc e (ar_mimeResponsesForEachStatus (foldl step this l))
  = assoc e (ar_mimeResponsesForEachStatus this).
Proof.
  revert this. induction l as [|s l IH]; intros this H; simpl; [done|].
  csimpl in H. apply not_elem_of_cons in H as [Hs H].
  rewrite IH by done. simpl. by apply assoc_set_ne.
Qed.

Lemma steps_table e r l this :
  NoDup l.*1 -> assoc e l = Some r ->
  exists this', assoc e (ar_mimeResponsesForEachStatus (foldl step this l))
                = Some (map (prepareMime this' r) (rsp_content r)).
Proof.
  revert this. induction l as [|[k s] l IH]; intros this Hnd H; [done|].
  csimpl in Hnd. apply NoDup_cons in Hnd as [Hk Hnd]. simpl in H. simpl foldl.
  destruct (bool_decide_reflect (e = k)) as [->|Hn]; [|by apply IH].
  injection H as ->. exists this. rewrite steps_other by done. simpl.
  by rewrite assoc_set.
Qed.

Lemma assoc_map_mime this rsp m (l : list (jstr * MediaType)) :
  m ∈ l.*1 ->
  exists c, c ∈ l /\ c.1 = m
            /\ assoc m (map (prepareMime this rsp) l) = Some (prepareMime this rsp c).2.
Proof.
  induction l as [|c l IH]; csimpl; [set_solver|]. intros H. simpl.
  destruct (bool_decide_reflect (m = c.1)) as [->|Hn].
  - exists c. split_and!; [by left|done|done].
  - destruct IH as (c' & ? & ? & ?); [set_solver|]. exists c'. split_and!; [by right|done|done].
Qed.

(** *** The events of the element *)

Definition withTab (tab : jstr) (this : ApiResponse) : ApiResponse :=
  {| ar_callback := ar_callback this; ar_webhook := ar_webhook this;
     ar_responses := ar_responses this; ar_renderStyle := ar_renderStyle this;
     ar_schemaStyle := ar_schemaStyle this;
     ar_schemaExpandLevel := ar_schemaExpandLevel this;
     ar_schemaDescriptionExpanded := ar_schemaDescriptionExpanded this;
     ar_allowSchemaDescriptionExpandToggle := ar_allowSchemaDescriptionExpandToggle this;
     ar_schemaHideReadOnly := ar_schemaHideReadOnly this;
     ar_schemaHideWriteOnly := ar_schemaHideWriteOnly this;
     ar_selectedStatus := ar_selectedStatus this;
     ar_selectedMimeType := ar_selectedMimeType this;
     ar_activeSchemaTab := tab;
     ar_headersForEachRespStatus := ar_headersForEachRespStatus this;
     ar_mimeResponsesForEachStatus := ar_mimeResponsesForEachStatus this |}.

(** The states of an element: nothing or the first status is selected at first; the
    buttons are those of its statuses, the selector lists the selected status' content
    types; any number of events come between two renderings. *)
Inductive respReachable : ApiResponse -> Prop :=
| resp_created this :
    wfResponses (ar_responses this) -> ar_selectedMimeType this = None ->
    ar_selectedStatus this = [] \/ head (statuses this) = Some (ar_selectedStatus this) ->
    respReachable this
| resp_click e this :
    respReachable this -> e ∈ statuses this -> respReachable (clickStatus e this)
| resp_mime v this :
    respReachable this -> v ∈ contentOf this (ar_selectedStatus this) ->
    respReachable (changeMime v this)
| resp_reset this : respReachable this -> respReachable (resetSelection this)
| resp_tab tab this : respReachable this -> respReachable (withTab tab this)
| resp_render this : respReachable this -> respReachable (responseTemplate uF dF this).1.

Lemma contentOf_key this e : contentOf this e <> [] -> e ∈ statuses this.
Proof.
  unfold contentOf, responseOf, statuses. destruct (assoc e _) as [r|] eqn:E; [|done].
  intros _. apply assoc_elem in E. change (map fst (ar_responses this)) with (ar_responses this).*1.
  apply list_elem_of_fmap. by exists (e, r).
Qed.

Lemma contentOf_names this e :
  wfResponses (ar_responses this) -> [] ∉ contentOf this e.
Proof.
  intros (_ & _ & H). unfold contentOf, responseOf.
  destruct (assoc e _) as [r|] eqn:E; simpl; [|apply not_elem_of_nil].
  apply assoc_elem in E. rewrite Forall_forall in H. by apply (H (e, r)).
Qed.

Lemma contentOf_cons this e c cs :
  contentOf this e = c :: cs ->
  exists r m ms, responseOf this e = Some r /\ rsp_content r = m :: ms /\ m.1 = c.
Proof.
  unfold contentOf. destruct (responseOf this e) as [r|]; [|done]. simpl.
  destruct (rsp_content r) as [|m ms] eqn:E; [done|]. csimpl. intros [= <- _].
  by exists r, m, ms.
Qed.

Lemma truthy_not_nil s : s <> [] -> truthy s = true.
Proof. by destruct s. Qed.

Lemma truthy_nil s : truthy s = false -> s = [].
Proof. by destruct s. Qed.

Lemma click_ok e this :
  wfResponses (ar_responses this) -> e ∈ statuses this -> selectionOk (clickStatus e this).
Proof.
  intros Hw He. unfold clickStatus. split_and!; simpl; [by right| |].
  - intros ->. by destruct Hw as (_ & Hw & _).
  - change (contentOf (withSelection e _ this) e) with (contentOf this e).
    intros Hc. destruct (contentOf this e) as [|c cs] eqn:E; [done|].
    destruct (contentOf_cons _ _ _ _ E) as (r & m & ms & Hr & Hm & Hmc). rewrite Hr. simpl.
    rewrite Hm. simpl. assert (Ht : truthy m.1 = true).
    { apply truthy_not_nil. intros Hn. apply (contentOf_names this e Hw).
      rewrite E, <- Hmc, Hn. by left. }
    rewrite Ht. unfold truthyO. simpl. rewrite Ht, Hmc. by left.
Qed.

Lemma prepare_ok this :
  wfResponses (ar_responses this) -> selectionOk this ->
  selectionOk (prepare this)
  /\ (statuses this <> [] -> ar_selectedStatus (prepare this) ∈ statuses this)
  /\ (contentOf this (ar_selectedStatus (prepare this)) <> [] ->
      truthyO (ar_selectedMimeType (prepare this)) = true
      /\ orE (ar_selectedMimeType (prepare this))
         ∈ contentOf this (ar_selectedStatus (prepare this))).
Proof.
  intros Hw (Hs & Hn & Hc). rewrite prepare_steps.
  assert (Hr : ar_responses (foldl step this (ar_responses this)) = ar_responses this)
    by apply steps_responses.
  set (this' := foldl step this (ar_responses this)) in *.
  assert (Hco : forall e, contentOf this' e = contentOf this e)
    by (intros e; unfold contentOf, responseOf; by rewrite Hr).
  assert (Hst : statuses this' = statuses this) by (unfold statuses; by rewrite Hr).
  destruct (ar_responses this) as [|s l] eqn:El.
  - split; [unfold selectionOk; rewrite Hst, Hco; done|]. unfold statuses. rewrite El.
    split; [done|]. intros Hne. apply contentOf_key in Hne. unfold statuses in Hne.
    rewrite El in Hne. by apply elem_of_nil in Hne.
  - assert (Hst0 : statuses this = s.1 :: l.*1) by (unfold statuses; by rewrite El).
    assert (Hk : truthy s.1 = true).
    { apply truthy_not_nil. intros E. destruct Hw as (_ & Hw & _). apply Hw. csimpl.
      rewrite E. by left. }
    assert (Hfirst : contentOf this s.1 <> [] ->
      truthyO (ar_selectedMimeType this) = false ->
      truthyO (ar_selectedMimeType this') = true
      /\ orE (ar_selectedMimeType this') ∈ contentOf this s.1).
    { intros Hne Hm. destruct (contentOf this s.1) as [|c cs] eqn:E; [done|].
      destruct (contentOf_cons _ _ _ _ E) as (r & m & ms & Hrs & Hms & Hmc).
      unfold responseOf in Hrs. rewrite El in Hrs. destruct s as [k rs]. simpl in Hrs.
      rewrite bool_decide_true in Hrs by done. injection Hrs as ->.
      assert (Ht : truthy m.1 = true).
      { apply truthy_not_nil. intros E'. apply (contentOf_names this k); [by rewrite El|].
        simpl in E. rewrite E, <- Hmc, E'. by left. }
      assert (Hm' : ar_selectedMimeType this' = Some m.1)
        by (unfold this'; eapply steps_mime_first; eauto).
      rewrite Hm'. split; [done|]. simpl. rewrite Hmc. by left. }
    unfold selectionOk. rewrite Hst, Hco, Hst0 in *.
    destruct (truthy (ar_selectedStatus this)) eqn:Hsel.
    + assert (Hsel' : ar_selectedStatus this' = ar_selectedStatus this)
        by (by apply steps_status).
      rewrite Hsel'. assert (Hin : ar_selectedStatus this ∈ s.1 :: l.*1).
      { destruct Hs as [E|]; [by rewrite E in Hsel|done]. }
      assert (Hmime : contentOf this (ar_selectedStatus this) <> [] ->
        truthyO (ar_selectedMimeType this') = true
        /\ orE (ar_selectedMimeType this') ∈ contentOf this (ar_selectedStatus this)).
      { intros Hne. specialize (Hc Hne).
        destruct (truthyO (ar_selectedMimeType this)) eqn:Hm.
        - assert (ar_selectedMimeType this' = ar_selectedMimeType this) as ->
            by (by apply steps_mime). by rewrite Hm.
        - injection Hc as Hc. rewrite <- Hc in *. auto. }
      split_and!; [by right| | |done|done].
      * intros E. by rewrite E in Hsel.
      * intros Hne. by destruct (Hmime Hne) as [-> ?].
    + assert (Hsel' : ar_selectedStatus this' = s.1)
        by (unfold this'; by apply steps_status_first).
      rewrite Hsel'. assert (Hmf : truthyO (ar_selectedMimeType this) = false)
        by (apply Hn; by apply truthy_nil).
      split_and!; [right; by left| | |by left|auto].
      * intros E. by rewrite E in Hk.
      * intros Hne. by destruct Hfirst as [-> ?].
Qed.

Lemma respReachable_ok this :
  respReachable this -> wfResponses (ar_responses this) /\ selectionOk this.
Proof.
  induction 1 as [this Hw Hm Hs|e this _ [Hw Hok] He|v this _ [Hw Hok] Hv|this _ [Hw Hok]
                 |tab this _ [Hw Hok]|this _ [Hw Hok]].
  - split; [done|]. unfold selectionOk. rewrite Hm. simpl.
    destruct Hs as [Hs|Hs].
    + rewrite Hs. split_and!; auto. intros Hc. apply contentOf_key in Hc.
      by destruct Hw as (_ & Hw & _).
    + split_and!; auto. right. destruct (statuses this); [done|]. injection Hs as ->. by left.
  - split; [done|by apply click_ok].
  - split; [done|]. destruct Hok as (Hs & Hn & _).
    assert (Ht : truthy v = true).
    { apply truthy_not_nil. intros ->. by eapply contentOf_names. }
    split_and!; simpl; [done| |].
    + intros E. rewrite E in Hv. unfold contentOf, responseOf in Hv.
      destruct (assoc [] (ar_responses this)) as [r|] eqn:Ea; [|by apply elem_of_nil in Hv].
      apply assoc_elem in Ea. destruct Hw as (_ & Hw & _). exfalso. apply Hw.
      apply list_elem_of_fmap. by exists ([], r).
    + intros _. unfold truthyO. simpl. by rewrite Ht.
  - split; [done|]. split_and!; simpl; [by left|done|].
    intros Hc. apply contentOf_key in Hc. by destruct Hw as (_ & Hw & _).
  - done.
  - simpl. change (RapidocResponse.prepare uF dF this) with (prepare this).
    split; [by rewrite prepare_steps, steps_responses|]. by apply prepare_ok.
Qed.

(** *** What is displayed *)

(** An attribute of the outermost elements of a document. *)
Definition roots (name : string) (h : html bound) : list jstr :=
  flat_map (fun n => match n with El t ats _ => getAt name t ats | _ => [] end) h.

Lemma roots_app name h k : roots name (h ++ k) = roots name h ++ roots name k.
Proof. apply flat_map_app. Qed.

Definition display (b : bool) : jstr := u8 "display: " ++ (if b then u8 "block" else u8 "none").

Lemma panels_roots this :
  exists pre, roots "style" (responsePanels this)
    = pre ++ map (fun e => display (e === ar_selectedStatus this)) (statuses this)
    /\ (forall b, display b ∉ pre).
Proof.
  unfold responsePanels. rewrite roots_app.
  exists (roots "style" (if 1 <? length (statuses this) then
    el "div" ["class" =: u8 "row"; "style" =: u8 "flex-wrap:wrap"] [] else [])).
  split.
  - f_equal; [by destruct (1 <? _)|].
    induction (statuses this) as [|e l IH]; [done|].
    cbn [flat_map map]. rewrite roots_app, IH. reflexivity.
  - intros b. destruct (1 <? _); [|apply not_elem_of_nil].
    intros H%list_elem_of_singleton. by destruct b.
Qed.

Lemma filter_one {A} (P : A -> bool) l x :
  NoDup l -> x ∈ l -> (forall y, P y = true <-> y = x) -> List.filter P l = [x].
Proof.
  intros Hnd Hin HP. induction l as [|y l IH]; [by apply elem_of_nil in Hin|].
  apply NoDup_cons in Hnd as [Hy Hnd]. simpl. destruct (P y) eqn:E.
  - apply HP in E as ->. f_equal. clear IH Hin. induction l as [|z l IH]; [done|].
    apply not_elem_of_cons in Hy as [Hz Hy]. apply NoDup_cons in Hnd as [_ Hnd]. simpl.
    destruct (P z) eqn:E; [apply HP in E; congruence|auto].
  - apply elem_of_cons in Hin as [->|Hin]; [|auto]. rewrite (proj2 (HP y) eq_refl) in E. done.
Qed.

(** The responses of an operation: after any events, the next rendering displays the
    panel of exactly one status, the selected one, and if this status has content then
    the selected content type is one of its own, so that the panel shows its examples
    and its schema and not that there is none. *)
Theorem one_response_shown this :
  respReachable this -> statuses this <> [] ->
  let this' := (responseTemplate uF dF this).1 in
  let sel := ar_selectedStatus this' in
  (exists pre, roots "style" (responseTemplate uF dF this).2
               = pre ++ map (fun e => display (e === sel)) (statuses this)
               /\ (forall b, display b ∉ pre))
  /\ List.filter (fun e => e === sel) (statuses this) = [sel]
  /\ (contentOf this sel <> [] ->
      exists m r c from,
        ar_selectedMimeType this' = Some m /\ responseOf this sel = Some r
        /\ c ∈ rsp_content r /\ c.1 = m
        /\ mimeOf this' sel = Some (prepareMime from r c).2).
Proof.
  intros Hr Hne this' sel. destruct (respReachable_ok _ Hr) as [Hw Hok].
  destruct (prepare_ok this Hw Hok) as (_ & Hin & Hm). specialize (Hin Hne).
  assert (Hre : ar_responses this' = ar_responses this)
    by (unfold this'; simpl; apply (steps_responses (ar_responses this) this)).
  split; [|split].
  - destruct (panels_roots this') as (pre & E & Hp). exists pre. split; [|done].
    unfold statuses in *. rewrite Hre in E. exact E.
  - apply filter_one; [apply Hw|done|]. intros y. by rewrite bool_decide_eq_true.
  - intros Hc. destruct (Hm Hc) as [Ht Hel]. change (prepare this) with this' in Ht, Hel.
    destruct (ar_selectedMimeType this') as [m|] eqn:Em; [|done].
    unfold contentOf in Hc, Hel. fold sel in Hel.
    destruct (responseOf this sel) as [r|] eqn:Er; [|done]. simpl in Hel.
    destruct (steps_table sel r (ar_responses this) this) as [from Htab];
      [apply Hw|done|].
    destruct (assoc_map_mime from r m (rsp_content r) Hel) as (c & Hin' & Hcm & Ha).
    exists m, r, c, from. split_and!; try done.
    unfold mimeOf, mimesOf. rewrite Em. unfold this'. simpl.
    change (RapidocResponse.prepare uF dF this) with (foldl step this (ar_responses this)).
    rewrite Htab. exact Ha.
Qed.

End responses.
