(* ===== verification/RapidocJson.v ===== *)
(** * RapiDoc: JSON trees and lists of tags

    The element [json-tree], which shows an example or a component as a tree whose brackets
    collapse, and the element [tag-input], the field of a parameter that is a list. *)

From stdpp Require Import strings numbers pretty list sets.
From S2P Require Import Prelude JsString Html RapidocSpec RapidocElement RapidocAuth.

Open Scope nat_scope.

(** ** json-tree *)

Section tree.

Definition comma (t : bool) : html bound := unless t (txt (u8 ",")).

(** [generateTree]: [t] is whether the value is the last of what contains it. *)
Fixpoint generateTree (e : json) (t : bool) : html bound :=
  match e with
  | JNull => el "span" ["class" =: u8 "null"] (txt (u8 "null")) ++ comma t
  | JStr s => el "span" ["class" =: u8 "string"] (txt ([34%N] ++ s ++ [34%N])) ++ comma t
  | JNum r => el "span" ["class" =: u8 "number"] (txt r) ++ comma t
  | JBool b => el "span" ["class" =: u8 "boolean"] (txt (decB b)) ++ comma t
  | JArr [] => txt (u8 "[ ],")
  | JObj [] => txt (u8 "{ },")
  | JArr l =>
      el "div" ["class" =: u8 "open-bracket expanded array"] (txt (u8 "[")) ++
      el "div" ["class" =: u8 "inside-bracket"] (
        (fix items (l : list json) : html bound :=
           match l with
           | [] => []
           | x :: r =>
               el "div" ["class" =: u8 "item"] (
                 generateTree x (match r with [] => true | _ => false end)) ++
               items r
           end) l) ++
      el "div" ["class" =: u8 "close-bracket"] (txt (u8 "]") ++ comma t)
  | JObj l =>
      el "div" ["class" =: u8 "open-bracket expanded object"] (txt (u8 "{")) ++
      el "div" ["class" =: u8 "inside-bracket"] (
        (fix items (l : list (jstr * json)) : html bound :=
           match l with
           | [] => []
           | x :: r =>
               el "div" ["class" =: u8 "item"] (
                 txt ([34%N] ++ x.1 ++ [34%N] ++ u8 ":") ++
                 generateTree x.2 (match r with [] => true | _ => false end)) ++
               items r
           end) l) ++
      el "div" ["class" =: u8 "close-bracket"] (txt (u8 "}") ++ comma t)
  end.

(** A value that is not given is [undefined]. *)
Definition renderJson (data : option json) : html bound :=
  el "div" ["class" =: u8 "json-tree"; "click" =@ toggleExpandOrCopy] (
    el "div" ["class" =: u8 "toolbar"] (
      el "button" ["class" =: u8 "toolbar-btn btn-copy"; "part" =: u8 "btn btn-fill btn-copy"] (
        txt (u8 "Copy"))) ++
    match data with
    | Some v => generateTree v true
    | None => el "span" ["class" =: u8 "undefined"] []
    end).

(** A bracket of the tree: whether it is an array's, whether it is expanded, its text. *)
Record Bracket := mkBracket { br_array : bool; br_expanded : bool; br_text : jstr }.

(** [toggleExpand]. *)
Definition toggleExpand (b : Bracket) : Bracket :=
  {| br_array := br_array b; br_expanded := negb (br_expanded b);
     br_text := if br_expanded b then (if br_array b then u8 "[...]" else u8 "{...}")
                else (if br_array b then u8 "[" else u8 "{") |}.

End tree.

(** ** tag-input *)

(** The field: its tags, if it has any, and the text in its editor. *)
Record TagInput := mkTagInput { ti_value : option (list jstr); ti_text : jstr }.

Definition blank (s : jstr) : bool := negb (truthy (trim s)).

Definition pieces (s : jstr) : list jstr :=
  List.filter (fun e => negb (blank e)) (splitOn 44%N s).

(** The tags that are shown. *)
Definition shownTags (f : TagInput) : list jstr :=
  List.filter (fun e => negb (blank e)) (default [] (ti_value f)).

Definition attributeValue (old new : jstr) (f : TagInput) : TagInput :=
  if truthy new && negb (old === new)
  then {| ti_value := Some (pieces new); ti_text := ti_text f |} else f.

Definition append (l : list jstr) (f : TagInput) : option (list jstr) :=
  Some (default [] (ti_value f) ++ l).

Definition afterPaste (t : jstr) (f : TagInput) : TagInput :=
  if truthy t then {| ti_value := append (pieces t) f; ti_text := ti_text f |} else f.

Definition onBlur (f : TagInput) : TagInput :=
  if truthy (ti_text f) then {| ti_value := append [ti_text f] f; ti_text := [] |} else f.

Definition afterKeyDown (keyCode : nat) (f : TagInput) : TagInput :=
  if keyCode =? 13 then onBlur f
  else if (keyCode =? 8) && negb (truthy (ti_text f)) then
    match ti_value f with
    | Some ((_ :: _) as l) =>
        {| ti_value := Some (take (pred (length l)) l); ti_text := ti_text f |}
    | _ => f
    end
  else f.

(** ** Properties *)

(** Induction on a value with its parts. *)
Lemma json_nested_ind (P : json -> Prop) :
  P JNull -> (forall b, P (JBool b)) -> (forall r, P (JNum r)) -> (forall s, P (JStr s)) ->
  (forall l, Forall P l -> P (JArr l)) ->
  (forall l, Forall (fun e => P e.2) l -> P (JObj l)) -> forall v, P v.
Proof.
  intros H1 H2 H3 H4 H5 H6. fix IH 1. intros [|b|r|s|l|l].
  - exact H1.
  - apply H2.
  - apply H3.
  - apply H4.
  - apply H5. induction l as [|x l IHl]; constructor; [apply IH|exact IHl].
  - apply H6. induction l as [|x l IHl]; constructor; [apply IH|exact IHl].
Qed.

(** The text of a value, as JSON without escapes. *)
Fixpoint compact (v : json) : jstr :=
  match v with
  | JNull => u8 "null"
  | JBool b => decB b
  | JNum r => r
  | JStr s => [34%N] ++ s ++ [34%N]
  | JArr [] => u8 "[ ]"
  | JObj [] => u8 "{ }"
  | JArr l => u8 "[" ++ joinWith (u8 ",") (map compact l) ++ u8 "]"
  | JObj l =>
      u8 "{" ++ joinWith (u8 ",")
        (map (fun e => ([34%N] ++ e.1 ++ [34%N] ++ u8 ":") ++ compact e.2) l) ++ u8 "}"
  end.

(** No empty array or object is the last of what contains it. *)
Fixpoint tidy (v : json) (t : bool) : bool :=
  match v with
  | JArr [] | JObj [] => negb t
  | JArr l =>
      (fix items (l : list json) : bool :=
         match l with
         | [] => true
         | x :: r => tidy x (match r with [] => true | _ => false end) && items r
         end) l
  | JObj l =>
      (fix items (l : list (jstr * json)) : bool :=
         match l with
         | [] => true
         | x :: r => tidy x.2 (match r with [] => true | _ => false end) && items r
         end) l
  | _ => true
  end.

Definition sep (t : bool) : jstr := if t then [] else u8 ",".

Lemma text_comma t : text (comma t) = sep t.
Proof. by destruct t. Qed.

Ltac text_simpl := rewrite ?text_app, ?text_el, ?text_txt, ?text_comma.

(** The items of an array, and the fields of an object. *)
Lemma text_items l :
  Forall (fun v => forall t, tidy v t = true -> text (generateTree v t) = compact v ++ sep t) l ->
  l <> [] -> tidy (JArr l) true = true ->
  forall t, text (generateTree (JArr l) t) = compact (JArr l) ++ sep t.
Proof.
  intros H Hne Ht t. destruct l as [|x l]; [done|]. clear Hne.
  cbn [generateTree compact]. text_simpl. rewrite <- !app_assoc. f_equal. f_equal; [|by text_simpl].
  revert x H Ht. induction l as [|y l IH]; intros x H Ht;
    apply Forall_cons in H as [Hx H]; cbn [tidy] in Ht.
  - text_simpl. rewrite andb_true_r in Ht. rewrite Hx by done. simpl.
    by rewrite !app_nil_r.
  - apply andb_true_iff in Ht as [H1 H2]. rewrite text_app, text_el, Hx by done.
    rewrite IH by done. cbn [map]. rewrite joinWith_cons. by rewrite <- !app_assoc.
Qed.

Lemma text_fields l :
  Forall (fun e : jstr * json => forall t, tidy e.2 t = true ->
            text (generateTree e.2 t) = compact e.2 ++ sep t) l ->
  l <> [] -> tidy (JObj l) true = true ->
  forall t, text (generateTree (JObj l) t) = compact (JObj l) ++ sep t.
Proof.
  intros H Hne Ht t. destruct l as [|x l]; [done|]. clear Hne.
  cbn [generateTree compact]. text_simpl. rewrite <- !app_assoc. f_equal. f_equal; [|by text_simpl].
  revert x H Ht. induction l as [|y l IH]; intros x H Ht;
    apply Forall_cons in H as [Hx H]; cbn [tidy] in Ht.
  - text_simpl. text_simpl. rewrite andb_true_r in Ht. rewrite Hx by done. simpl.
    by rewrite !app_nil_r.
  - apply andb_true_iff in Ht as [H1 H2]. rewrite text_app, text_el, text_app, text_txt, Hx by done.
    rewrite IH by done. cbn [map]. rewrite joinWith_cons. by rewrite <- !app_assoc.
Qed.

(** The expanded tree reads as the value: its text is the value's JSON, with a comma after
    what is not the last, unless an empty array or object comes last somewhere. *)
Lemma tree_text v t : tidy v t = true -> text (generateTree v t) = compact v ++ sep t.
Proof.
  revert t. induction v as [|b|r|s|l H|l H] using json_nested_ind; intros t Ht.
  1-4: cbn [generateTree compact]; by text_simpl.
  - destruct l as [|x l]; [by destruct t|]. by apply text_items.
  - destruct l as [|x l]; [by destruct t|]. by apply text_fields.
Qed.

(** An empty array or object is followed by a comma also where it is the last. *)
Lemma empty_last_comma : text (generateTree (JArr [JArr []]) true) = u8 "[[ ],]".
Proof. reflexivity. Qed.

(** Opening and closing a bracket again shows what was shown. *)
Lemma toggle_twice b :
  br_text b = (if br_array b then if br_expanded b then u8 "[" else u8 "[...]"
               else if br_expanded b then u8 "{" else u8 "{...}") ->
  toggleExpand (toggleExpand b) = b.
Proof. destruct b as [[] [] s]; simpl; by intros ->. Qed.

(** Enter and then Backspace leave the tags as they were. *)
Lemma enter_backspace f :
  truthy (ti_text f) = true ->
  afterKeyDown 8 (afterKeyDown 13 f)
  = {| ti_value := Some (default [] (ti_value f)); ti_text := [] |}.
Proof.
  intros H. unfold afterKeyDown. simpl. unfold onBlur. rewrite H. simpl. unfold append.
  destruct (default [] (ti_value f)) as [|x l] eqn:E; [done|].
  simpl. do 2 f_equal. rewrite length_app. simpl. rewrite Nat.add_1_r. simpl.
  f_equal. by rewrite take_app_length.
Qed.

(** Pasting adds the pieces of the text to the tags that are shown. *)
Lemma paste_shows t f :
  truthy t = true -> shownTags (afterPaste t f) = shownTags f ++ pieces t.
Proof.
  intros H. unfold afterPaste, shownTags. rewrite H. simpl. rewrite List.filter_app. f_equal.
  unfold pieces. induction (splitOn 44%N t) as [|x l IH]; [done|]. simpl.
  destruct (negb (blank x)) eqn:E; simpl; [rewrite E, IH|]; done.
Qed.
