(* ===== verification/RapidocJsonText.v ===== *)
(** * RapiDoc: JSON texts

    [JSON.stringify] and [JSON.parse] as the API explorer uses them: without a replacer,
    with an indentation or without one.  The text that JavaScript prints for a numeral is
    [numberText]; everything else of the two functions is defined here.

    [parse_stringify]: what is printed is read back, whatever the indentation. *)

From Stdlib Require Import Sorted.
From stdpp Require Import strings numbers list sets.
From S2P Require Import Prelude JsString Html RapidocUrl RapidocSpec RapidocJson.

Open Scope N_scope.

(** ** JSON.stringify *)

Definition lowerHex (d : N) : N := if d <? 10 then 48 + d else 87 + d.
Definition uEscape (c : N) : jstr :=
  [92; 117; lowerHex (c / 4096); lowerHex ((c / 256) mod 16);
   lowerHex ((c / 16) mod 16); lowerHex (c mod 16)].

(** A unit of a string that is printed. *)
Definition quoteUnit (c : N) : jstr :=
  if c =? 34 then [92; 34]
  else if c =? 92 then [92; 92]
  else if c =? 8 then [92; 98]
  else if c =? 9 then [92; 116]
  else if c =? 10 then [92; 110]
  else if c =? 12 then [92; 102]
  else if c =? 13 then [92; 114]
  else if c <? 32 then uEscape c
  else [c].

(** The units of a string; a surrogate on its own is escaped. *)
Fixpoint quoteUnits (s : jstr) : jstr :=
  match s with
  | [] => []
  | h :: r =>
      if isHigh h then
        match r with
        | l :: r' => if isLow l then h :: l :: quoteUnits r' else uEscape h ++ quoteUnits r
        | [] => uEscape h
        end
      else (if isLow h then uEscape h else quoteUnit h) ++ quoteUnits r
  end.

Definition quote (s : jstr) : jstr := [34] ++ quoteUnits s ++ [34].

(** A number that JSON has no numeral for is [null]. *)
Definition finite (r : jstr) : bool :=
  negb ((r === u8 "Infinity") || (r === u8 "-Infinity") || (r === u8 "NaN")).

(** [JSON.stringify(v, null, gap)], nested by [ind]. *)
Fixpoint jsonText (gap ind : jstr) (v : json) : jstr :=
  let ind' := ind ++ gap in
  let nl i := match gap with [] => [] | _ => [10] ++ i end in
  let colon := match gap with [] => [58] | _ => [58; 32] end in
  match v with
  | JNull => u8 "null"
  | JBool b => if b then u8 "true" else u8 "false"
  | JNum r => if finite r then r else u8 "null"
  | JStr s => quote s
  | JArr [] => u8 "[]"
  | JObj [] => u8 "{}"
  | JArr l =>
      [91] ++ nl ind' ++ joinWith ([44] ++ nl ind') (map (jsonText gap ind') l)
      ++ nl ind ++ [93]
  | JObj l =>
      [123] ++ nl ind' ++
      joinWith ([44] ++ nl ind')
        (map (fun e => quote e.1 ++ colon ++ jsonText gap ind' e.2) l)
      ++ nl ind ++ [125]
  end.

Definition stringify (v : json) : jstr := jsonText [] [] v.
Definition stringify2 (v : json) : jstr := jsonText [32; 32] [] v.

(** ** JSON.parse *)

Definition isWs (c : N) : bool := (c =? 32) || (c =? 9) || (c =? 10) || (c =? 13).
Definition skipWs (s : jstr) : jstr := drop_while isWs s.

Definition hex4 (a b c d : N) : option N :=
  match hexVal a, hexVal b, hexVal c, hexVal d with
  | Some x, Some y, Some z, Some w => Some (x * 4096 + y * 256 + z * 16 + w)
  | _, _, _, _ => None
  end.

Definition unescaped (c : N) : option N :=
  if c =? 34 then Some 34 else if c =? 92 then Some 92 else if c =? 47 then Some 47
  else if c =? 98 then Some 8 else if c =? 102 then Some 12 else if c =? 110 then Some 10
  else if c =? 114 then Some 13 else if c =? 116 then Some 9 else None.

(** A string after its opening quote, and what follows it. *)
Fixpoint parseString (s : jstr) : option (jstr * jstr) :=
  match s with
  | [] => None
  | c :: r =>
      if c =? 34 then Some ([], r)
      else if c <? 32 then None
      else if c =? 92 then
        match r with
        | e :: r' =>
            if e =? 117 then
              match r' with
              | a :: b :: c' :: d :: r'' =>
                  x ← hex4 a b c' d; p ← parseString r''; Some (x :: p.1, p.2)
              | _ => None
              end
            else x ← unescaped e; p ← parseString r'; Some (x :: p.1, p.2)
        | [] => None
        end
      else p ← parseString r; Some (c :: p.1, p.2)
  end.

(** The digits a text starts with, and what follows them. *)
Fixpoint digits (s : jstr) : jstr * jstr :=
  match s with
  | [] => ([], [])
  | c :: r => if isDigit c then let p := digits r in (c :: p.1, p.2) else ([], s)
  end.

(** At least one digit. *)
Definition digits1 (s : jstr) : option (jstr * jstr) :=
  match digits s with ([], _) => None | p => Some p end.

(** What [f] takes of a text after [pre], if the text starts with one of [pre]. *)
Definition optPart (pre : list N) (f : jstr -> option (jstr * jstr)) (s : jstr)
    : option (jstr * jstr) :=
  match s with
  | c :: r =>
      if existsb (N.eqb c) pre then p ← f r; Some (c :: p.1, p.2) else Some ([], s)
  | [] => Some ([], [])
  end.

Definition expDigits (s : jstr) : option (jstr * jstr) :=
  match s with
  | c :: r =>
      if (c =? 43) || (c =? 45) then p ← digits1 r; Some (c :: p.1, p.2) else digits1 s
  | [] => None
  end.

(** An integer has no zeros in front. *)
Definition intDigits (s : jstr) : option (jstr * jstr) :=
  match s with
  | c :: r => if c =? 48 then Some ([48], r) else digits1 s
  | [] => None
  end.

Definition sign (s : jstr) : jstr :=
  match s with c :: _ => if c =? 45 then [45] else [] | [] => [] end.

(** A numeral, and what follows it. *)
Definition parseNumeral (s : jstr) : option (jstr * jstr) :=
  i ← intDigits (drop (length (sign s)) s);
  f ← optPart [46] digits1 i.2;
  e ← optPart [101; 69] expDigits f.2;
  Some (sign s ++ i.1 ++ f.1 ++ e.1, e.2).

(** A key that JavaScript takes for an index comes before the others, in ascending order. *)
Definition indexOfKey (k : jstr) : option N :=
  match digits k with
  | ([], _) => None
  | (d, []) =>
      let v := foldl (fun a c => 10 * a + (c - 48)) 0 d in
      if (match d with 48 :: _ :: _ => true | _ => false end) || (4294967294 <? v)
      then None else Some v
  | _ => None
  end.

Definition keyBefore (k k' : jstr) : bool :=
  match indexOfKey k, indexOfKey k' with
  | Some i, Some j => i <? j
  | Some _, None => true
  | None, _ => false
  end.

Fixpoint insertKey {A} (k : jstr) (v : A) (o : list (jstr * A)) : list (jstr * A) :=
  match o with
  | [] => [(k, v)]
  | (k', v') :: r => if keyBefore k k' then (k, v) :: o else (k', v') :: insertKey k v r
  end.

(** [o[k] = v] on an object: a new key has its place in the order of the keys. *)
Definition putKey {A} (k : jstr) (v : A) (o : list (jstr * A)) : list (jstr * A) :=
  match assoc k o with Some _ => assocSet k v o | None => insertKey k v o end.

(** The text that JavaScript prints for the number of a numeral. *)
Class Numerals := numberText : jstr -> jstr.

Section parse.
Context {NM : Numerals}.

(** A value at the start of a text, and what follows it; and the rest of an array's items
    and of an object's fields. *)
Fixpoint parseValue (n : nat) (s : jstr) : option (json * jstr) :=
  match n with
  | O => None
  | S n =>
      match skipWs s with
      | [] => None
      | c :: r =>
          if c =? 34 then p ← parseString r; Some (JStr p.1, p.2)
          else if c =? 91 then
            match skipWs r with
            | 93 :: r' => Some (JArr [], r')
            | _ => p ← parseItems n r; Some (JArr p.1, p.2)
            end
          else if c =? 123 then
            match skipWs r with
            | 125 :: r' => Some (JObj [], r')
            | _ => p ← parseFields n r []; Some (JObj p.1, p.2)
            end
          else if startsWith (u8 "null") (c :: r) then Some (JNull, drop 4 (c :: r))
          else if startsWith (u8 "true") (c :: r) then Some (JBool true, drop 4 (c :: r))
          else if startsWith (u8 "false") (c :: r) then Some (JBool false, drop 5 (c :: r))
          else p ← parseNumeral (c :: r); Some (JNum (numberText p.1), p.2)
      end
  end
with parseItems (n : nat) (s : jstr) : option (list json * jstr) :=
  match n with
  | O => None
  | S n =>
      p ← parseValue n s;
      match skipWs p.2 with
      | 93 :: r => Some ([p.1], r)
      | 44 :: r => q ← parseItems n r; Some (p.1 :: q.1, q.2)
      | _ => None
      end
  end
with parseFields (n : nat) (s : jstr) (o : list (jstr * json))
    : option (list (jstr * json) * jstr) :=
  match n with
  | O => None
  | S n =>
      match skipWs s with
      | 34 :: r =>
          k ← parseString r;
          match skipWs k.2 with
          | 58 :: r' =>
              p ← parseValue n r';
              let o := putKey k.1 p.1 o in
              match skipWs p.2 with
              | 125 :: r'' => Some (o, r'')
              | 44 :: r'' => parseFields n r'' o
              | _ => None
              end
          | _ => None
          end
      | _ => None
      end
  end.

(** [JSON.parse(s)]; every value and every item takes a unit of the text. *)
Definition parseJson (s : jstr) : option json :=
  match parseValue (2 * S (length s)) s with
  | Some (v, r) => if truthy (skipWs r) then None else Some v
  | None => None
  end.

End parse.

(** ** Properties *)

(** *** White space *)

Definition blankText (s : jstr) : bool := forallb isWs s.

Lemma skipWs_app w s : blankText w = true -> skipWs (w ++ s) = skipWs s.
Proof.
  unfold skipWs. induction w as [|c w IH]; [done|]. unfold blankText. cbn [forallb app drop_while].
  intros H. apply andb_true_iff in H as [-> H]. by apply IH.
Qed.

Lemma skipWs_cons c s : isWs c = false -> skipWs (c :: s) = c :: s.
Proof. intros H. unfold skipWs. simpl. by rewrite H. Qed.

(** *** Strings *)

Lemma hexVal_lowerHex d : d < 16 -> hexVal (lowerHex d) = Some d.
Proof.
  intros H. unfold lowerHex, hexVal, isDigit.
  destruct (N.ltb_spec d 10).
  - rewrite (proj2 (N.leb_le _ _)), (proj2 (N.leb_le _ _)) by lia. simpl. f_equal. lia.
  - rewrite (proj2 (N.leb_gt (87 + d) 57)), (proj2 (N.leb_gt (87 + d) 70)), !andb_false_r by lia.
    rewrite (proj2 (N.leb_le _ _)), (proj2 (N.leb_le _ _)) by lia. simpl. f_equal. lia.
Qed.

Lemma hex4_split c :
  c < 65536 -> hex4 (lowerHex (c / 4096)) (lowerHex ((c / 256) mod 16))
                    (lowerHex ((c / 16) mod 16)) (lowerHex (c mod 16)) = Some c.
Proof.
  intros H. unfold hex4.
  rewrite !hexVal_lowerHex by (Z.div_mod_to_equations; lia).
  f_equal. Z.div_mod_to_equations. lia.
Qed.

Definition cons1 (c : N) (p : option (jstr * jstr)) : option (jstr * jstr) :=
  p ← p; Some (c :: p.1, p.2).

Lemma parseString_uEscape c r :
  c < 65536 -> parseString (uEscape c ++ r) = cons1 c (parseString r).
Proof. intros H. simpl. by rewrite hex4_split. Qed.

Lemma parseString_plain c r :
  c <> 34 -> c <> 92 -> 32 <= c -> parseString (c :: r) = cons1 c (parseString r).
Proof.
  intros H1 H2 H3. simpl. rewrite (proj2 (N.eqb_neq _ _) H1), (proj2 (N.eqb_neq _ _) H2).
  by rewrite (proj2 (N.ltb_ge _ _) H3).
Qed.

Lemma parseString_quoteUnit c r :
  c < 65536 -> parseString (quoteUnit c ++ r) = cons1 c (parseString r).
Proof.
  intros H. unfold quoteUnit.
  destruct (N.eqb_spec c 34) as [->|H34]; [done|].
  destruct (N.eqb_spec c 92) as [->|H92]; [done|].
  destruct (N.eqb_spec c 8) as [->|]; [done|].
  destruct (N.eqb_spec c 9) as [->|]; [done|].
  destruct (N.eqb_spec c 10) as [->|]; [done|].
  destruct (N.eqb_spec c 12) as [->|]; [done|].
  destruct (N.eqb_spec c 13) as [->|]; [done|].
  destruct (N.ltb_spec c 32); [by apply parseString_uEscape|]. by apply parseString_plain.
Qed.

Lemma isHigh_bound c : isHigh c = true -> 55296 <= c < 56320.
Proof. unfold isHigh. rewrite andb_true_iff, N.leb_le, N.ltb_lt. done. Qed.
Lemma isLow_bound c : isLow c = true -> 56320 <= c < 57344.
Proof. unfold isLow. rewrite andb_true_iff, N.leb_le, N.ltb_lt. done. Qed.

Lemma parseString_quote s r :
  units s = true -> parseString (quoteUnits s ++ 34 :: r) = Some (s, r).
Proof.
  enough (forall n s, (length s <= n)%nat -> units s = true ->
            parseString (quoteUnits s ++ 34 :: r) = Some (s, r)) by eauto.
  clear s. induction n as [|n IH]; intros [|h t] Hn Hs; simpl in Hn; try done; [lia|].
  cbn [units forallb] in Hs. apply andb_true_iff in Hs as [Hh Ht]. apply N.ltb_lt in Hh.
  assert (IHt : parseString (quoteUnits t ++ 34 :: r) = Some (t, r)) by (apply IH; [lia|done]).
  cbn [quoteUnits]. destruct (isHigh h) eqn:E1.
  - destruct t as [|l t'].
    { rewrite parseString_uEscape by done. done. }
    destruct (isLow l) eqn:E2.
    + apply isHigh_bound in E1. apply isLow_bound in E2. cbn [app].
      rewrite !parseString_plain by lia.
      rewrite IH; [done|simpl in *; lia|]. cbn [units forallb] in Ht. by bool_simpl.
    + rewrite <- app_assoc, parseString_uEscape by done. by rewrite IHt.
  - rewrite <- app_assoc. destruct (isLow h).
    + rewrite parseString_uEscape by done. by rewrite IHt.
    + rewrite parseString_quoteUnit by done. by rewrite IHt.
Qed.

(** *** Numerals *)

(** No numeral goes on with this text. *)
Definition stops (r : jstr) : bool :=
  match r with
  | [] => true
  | c :: _ => negb (isDigit c || existsb (N.eqb c) [46; 101; 69])
  end.

(** A reader that takes the same of a text when something else follows it. *)
Definition local (f : jstr -> option (jstr * jstr)) : Prop :=
  forall a p r, f a = Some p -> stops r = true -> f (a ++ r) = Some (p.1, p.2 ++ r).

Lemma digits_app a r : stops r = true -> digits (a ++ r) = ((digits a).1, (digits a).2 ++ r).
Proof.
  intros Hr. induction a as [|c a IH]; simpl.
  - destruct r as [|c r]; simpl in *; [done|]. by destruct (isDigit c).
  - destruct (isDigit c); [|done]. by rewrite IH.
Qed.

Lemma digits1_local : local digits1.
Proof.
  intros a p r. unfold digits1. intros H Hr. rewrite digits_app by done.
  destruct (digits a) as [[|c d] q]; simplify_eq/=. done.
Qed.

Lemma optPart_local pre f :
  (forall c r, existsb (N.eqb c) pre = true -> stops (c :: r) = false) ->
  local f -> local (optPart pre f).
Proof.
  intros Hp Hf [|c a] p r; simpl.
  - intros [= <-] Hr. destruct r as [|c r]; [done|]. simpl.
    destruct (existsb _ pre) eqn:E; [|done]. by rewrite (Hp _ r E) in Hr.
  - destruct (existsb _ pre); [|by intros [= <-]].
    destruct (f a) as [q|] eqn:E; simpl; [|done]. intros [= <-] Hr. by rewrite (Hf _ _ _ E Hr).
Qed.

Lemma expDigits_local : local expDigits.
Proof.
  intros [|c a] p r; [done|]. unfold expDigits. cbn [app].
  destruct (_ || _); [|apply (digits1_local (c :: a))].
  destruct (digits1 a) as [q|] eqn:E; simpl; [|done]. intros [= <-] Hr.
  by rewrite (digits1_local _ _ _ E Hr).
Qed.

Lemma intDigits_local : local intDigits.
Proof.
  intros [|c a] p r; [done|]. unfold intDigits. cbn [app].
  destruct (c =? 48); [by intros [= <-]|]. apply (digits1_local (c :: a)).
Qed.

Lemma drop_sign a r : a <> [] -> drop (length (sign (a ++ r))) (a ++ r)
                                 = drop (length (sign a)) a ++ r.
Proof. destruct a as [|c a]; [done|]. simpl. by destruct (c =? 45). Qed.

Lemma sign_app a r : a <> [] -> sign (a ++ r) = sign a.
Proof. by destruct a. Qed.

Lemma parseNumeral_local : local parseNumeral.
Proof.
  intros a p r H Hr. unfold parseNumeral in *.
  assert (Ha : a <> []) by (by intros ->).
  rewrite drop_sign, sign_app by done.
  destruct (intDigits _) as [i|] eqn:E1; simpl in *; [|done].
  rewrite (intDigits_local _ _ _ E1 Hr). simpl.
  destruct (optPart [46] digits1 i.2) as [f|] eqn:E2; simpl in *; [|done].
  rewrite (fun H => optPart_local [46] digits1 H digits1_local _ _ _ E2 Hr); simpl.
  2:{ intros c r'. rewrite orb_false_r. intros ->. by rewrite orb_true_r. }
  destruct (optPart [101; 69] expDigits f.2) as [e|] eqn:E3; simpl in *; [|done].
  rewrite (fun H => optPart_local [101; 69] expDigits H expDigits_local _ _ _ E3 Hr); simpl.
  2:{ intros c r'. rewrite orb_false_r. intros Hc. apply orb_true_iff in Hc as [-> | ->];
      by rewrite !orb_true_r. }
  by simplify_eq/=.
Qed.

(** A numeral starts with a sign or a digit. *)
Lemma parseNumeral_head s p :
  parseNumeral s = Some p -> exists c r, s = c :: r /\ (c = 45 \/ isDigit c = true).
Proof.
  destruct s as [|c r]; [done|]. intros H. exists c, r. split; [done|].
  unfold parseNumeral in H. simpl in H. destruct (N.eqb_spec c 45) as [|Hc]; [by left|right].
  simpl in H. destruct (N.eqb_spec c 48) as [->|Hc']; [done|].
  destruct (isDigit c) eqn:D; [done|].
  unfold digits1 in H. simpl in H. by rewrite D in H.
Qed.

(** *** The order of keys *)

(** No key is before one that precedes it, and none is there twice. *)
Definition inOrder (ks : list jstr) : Prop :=
  NoDup ks /\ StronglySorted (fun k k' => keyBefore k' k = false) ks.

Section keys.
Context {A : Type}.
Implicit Types (o : list (jstr * A)).

Lemma insertKey_last k v o :
  Forall (fun k' => keyBefore k k' = false) (o.*1) -> insertKey k v o = o ++ [(k, v)].
Proof.
  induction o as [|[k' v'] o IH]; [done|]. rewrite fmap_cons, Forall_cons. simpl.
  intros [-> H]. by rewrite IH.
Qed.

Lemma putKey_last k v o :
  k ∉ (o.*1) -> Forall (fun k' => keyBefore k k' = false) (o.*1) -> putKey k v o = o ++ [(k, v)].
Proof.
  intros Hk H. unfold putKey. destruct (assoc k o) eqn:E; [|by apply insertKey_last].
  apply assoc_elem in E. destruct Hk. by exact (list_elem_of_fmap_2 fst _ _ E).
Qed.

Lemma fold_putKey o o0 :
  inOrder ((o0 ++ o).*1) -> foldl (fun a e => putKey e.1 e.2 a) o0 o = o0 ++ o.
Proof.
  revert o0. induction o as [|[k v] o IH]; intros o0 [Hd Hs]; [by rewrite app_nil_r|].
  simpl. rewrite putKey_last.
  - rewrite IH; [by rewrite <- app_assoc|]. by rewrite <- app_assoc.
  - rewrite fmap_app in Hd. apply NoDup_app in Hd as (_ & Hd & _). intros H.
    apply (Hd k H). rewrite fmap_cons. left.
  - rewrite fmap_app, fmap_cons in Hs. clear -Hs. induction (o0.*1) as [|k' l IH]; [constructor|].
    simpl in Hs. apply StronglySorted_inv in Hs as [Hs Hk]. constructor; [|auto].
    apply Forall_app in Hk as [_ Hk]. by apply Forall_cons in Hk as [Hk _].
Qed.

Lemma assocSet_same_keys k v o : is_Some (assoc k o) -> (assocSet k v o).*1 = o.*1.
Proof.
  induction o as [|[k' v'] o IH]; simpl; [by intros []|].
  destruct (k === k') eqn:E; [apply bool_decide_eq_true in E as ->; done|].
  intros H. by rewrite !fmap_cons, IH.
Qed.

Lemma insertKey_elem k v o k' : k' ∈ (insertKey k v o).*1 <-> k' = k \/ k' ∈ o.*1.
Proof.
  induction o as [|[k1 v1] o IH]; simpl; [set_solver|].
  destruct (keyBefore k k1); csimpl; set_solver.
Qed.

(** A key goes before all that follow the first it is before. *)
Lemma keyBefore_mono k k' k'' :
  keyBefore k k' = true -> keyBefore k'' k' = false -> keyBefore k'' k = false.
Proof.
  unfold keyBefore. repeat case_match; try done; rewrite ?N.ltb_lt, ?N.ltb_ge; lia.
Qed.

Lemma keyBefore_asym k k' : keyBefore k k' = true -> keyBefore k' k = false.
Proof. unfold keyBefore. repeat case_match; try done; rewrite ?N.ltb_lt, ?N.ltb_ge; lia. Qed.

Lemma insertKey_sorted k v o :
  k ∉ (o.*1) -> inOrder (o.*1) -> inOrder ((insertKey k v o).*1).
Proof.
  induction o as [|[k1 v1] o IH]; intros Hk [Hd Hs].
  - split; simpl; [apply NoDup_singleton|]. repeat constructor.
  - simpl. rewrite fmap_cons in *. apply not_elem_of_cons in Hk as [Hk1 Hk].
    apply NoDup_cons in Hd as [Hn Hd]. apply StronglySorted_inv in Hs as [Hs Hf].
    destruct (keyBefore k k1) eqn:E; csimpl.
    + split; [apply NoDup_cons; split; [by apply not_elem_of_cons|by apply NoDup_cons]|].
      constructor; [by constructor|]. constructor; [by apply keyBefore_asym|].
      eapply Forall_impl; [exact Hf|]. intros k2 H. by eapply keyBefore_mono.
    + destruct (IH Hk (conj Hd Hs)) as [IHd IHs]. split.
      * apply NoDup_cons. split; [|done]. rewrite insertKey_elem. intros [->|]; done.
      * constructor; [done|]. apply Forall_forall. intros k2. rewrite insertKey_elem.
        intros [->|H]; [done|]. by apply (proj1 (Forall_forall _ _) Hf).
Qed.

Lemma putKey_inOrder k v o : inOrder (o.*1) -> inOrder ((putKey k v o).*1).
Proof.
  intros H. unfold putKey. destruct (assoc k o) eqn:E.
  - rewrite assocSet_same_keys; [done|eauto].
  - apply insertKey_sorted; [by apply assoc_None|done].
Qed.

Lemma putKey_Forall (P : jstr * A -> Prop) k v o :
  P (k, v) -> Forall P o -> Forall P (putKey k v o).
Proof.
  intros Hv Ho. unfold putKey. case_match.
  - clear -Hv Ho. induction Ho as [|[k' v'] o H Ho IH]; simpl; [by constructor|].
    by destruct (k === k'); constructor.
  - clear -Hv Ho. induction Ho as [|[k' v'] o H Ho IH]; simpl; [by constructor|].
    destruct (keyBefore k k'); repeat constructor; done.
Qed.

End keys.

(** *** What is printed is read back *)

Section roundtrip.
Context {NM : Numerals}.

(** A value as [JSON.parse] makes it: its numbers are printed as numerals of their own,
    its strings are made of units, its keys are in order. *)
Fixpoint parsed (v : json) : Prop :=
  match v with
  | JNull | JBool _ => True
  | JNum r => finite r = true /\ numberText r = r /\ parseNumeral r = Some (r, [])
  | JStr s => units s = true
  | JArr l => foldr (fun x a => parsed x /\ a) True l
  | JObj l => inOrder (l.*1) /\ foldr (fun e a => (units e.1 = true /\ parsed e.2) /\ a) True l
  end.

Lemma foldr_Forall {A} (P : A -> Prop) l : foldr (fun x a => P x /\ a) True l <-> Forall P l.
Proof.
  induction l as [|x l IH]; simpl; [by split; constructor|]. by rewrite Forall_cons, IH.
Qed.

(** The fuel that reading a value takes. *)
Fixpoint size (v : json) : nat :=
  match v with
  | JArr l => S (foldr (fun x a => S (size x) + a) 0 l)%nat
  | JObj l => S (foldr (fun e a => S (size e.2) + a) 0 l)%nat
  | _ => 1%nat
  end.

(** What comes after a value in an array or an object. *)
Definition follows (r : jstr) : Prop := stops r = true.

Definition reads (gap ind : jstr) (v : json) : Prop :=
  forall r n, stops r = true -> (size v <= n)%nat ->
    parseValue n (jsonText gap ind v ++ r) = Some (v, r).

Lemma stops_ws w c r :
  blankText w = true -> isWs c || existsb (N.eqb c) [44; 93; 125] = true ->
  stops (w ++ c :: r) = true.
Proof.
  assert (H : forall c, isWs c || existsb (N.eqb c) [44; 93; 125] = true -> forall r,
            stops (c :: r) = true).
  { clear. intros c H r. unfold isWs in H. simpl in *. rewrite !orb_true_iff, !N.eqb_eq in H.
    repeat match goal with H : _ \/ _ |- _ => destruct H end; by subst. }
  destruct w as [|x w]; [intros _ Hc; by apply H|]. intros Hw _. apply H.
  unfold blankText in Hw. simpl in Hw. apply andb_true_iff in Hw as [-> _]. done.
Qed.

Lemma quote_app s r : quote s ++ r = 34 :: quoteUnits s ++ 34 :: r.
Proof. unfold quote. rewrite <- !app_assoc. done. Qed.

(** The items of an array, each on a line of its own or not. *)
Lemma parseItems_text f w w' l r n :
  blankText w = true -> blankText w' = true -> l <> [] ->
  Forall (fun x => forall r n, stops r = true -> (size x <= n)%nat ->
            parseValue n (w ++ f x ++ r) = Some (x, r)) l ->
  (foldr (fun x a => S (size x) + a) 0 l <= n)%nat ->
  parseItems n (w ++ joinWith ([44] ++ w) (map f l) ++ w' ++ 93 :: r) = Some (l, r).
Proof.
  intros Hw Hw' Hne H. revert n. induction H as [|x l Hx Hl IH]; intros n Hn; [done|].
  destruct n as [|n]; [simpl in Hn; lia|]. cbn [map]. simpl in Hn.
  destruct l as [|y l].
  - cbn [joinWith flat_map map]. rewrite app_nil_r. cbn [parseItems].
    rewrite Hx; [|by apply stops_ws|lia]. cbn [mbind option_bind snd fst].
    rewrite skipWs_app by done. by rewrite skipWs_cons.
  - cbn [map]. rewrite joinWith_cons, <- !app_assoc. cbn [parseItems].
    rewrite Hx; [|done|lia]. cbn [mbind option_bind snd fst app].
    rewrite skipWs_cons by done. cbn [app] in IH. rewrite IH; [done|done|simpl in *; lia].
Qed.

Lemma parseFields_text f colon w w' l r n o :
  blankText w = true -> blankText w' = true -> blankText colon = true -> l <> [] ->
  Forall (fun e => units e.1 = true) l ->
  Forall (fun e => forall r n, stops r = true -> (size e.2 <= n)%nat ->
            parseValue n (colon ++ f e ++ r) = Some (e.2, r)) l ->
  (foldr (fun e a => S (size e.2) + a) 0 l <= n)%nat ->
  parseFields n (w ++ joinWith ([44] ++ w) (map (fun e => quote e.1 ++ (58 :: colon) ++ f e) l)
                 ++ w' ++ 125 :: r) o
  = Some (foldl (fun a e => putKey e.1 e.2 a) o l, r).
Proof.
  intros Hw Hw' Hc Hne Hu H. revert n o. induction H as [|x l Hx Hl IH]; intros n o Hn; [done|].
  apply Forall_cons in Hu as [Hux Hu].
  destruct n as [|n]; [simpl in Hn; lia|]. cbn [map]. simpl in Hn.
  assert (Hstep : forall t, stops t = true ->
    parseFields (S n) (w ++ quote x.1 ++ (58 :: colon) ++ f x ++ t) o
    = match skipWs t with
      | 125 :: r'' => Some (putKey x.1 x.2 o, r'')
      | 44 :: r'' => parseFields n r'' (putKey x.1 x.2 o)
      | _ => None
      end).
  { intros t Ht. cbn [parseFields]. rewrite skipWs_app by done. rewrite quote_app.
    rewrite skipWs_cons by done. rewrite parseString_quote by done.
    cbn [mbind option_bind snd fst app]. rewrite skipWs_cons by done.
    rewrite Hx; [done|done|lia]. }
  destruct l as [|y l].
  - cbn [joinWith flat_map map]. rewrite app_nil_r, <- !app_assoc.
    rewrite Hstep by (by apply stops_ws). rewrite skipWs_app by done. by rewrite skipWs_cons.
  - cbn [map]. rewrite joinWith_cons, <- !app_assoc. rewrite Hstep by done. cbn [app].
    rewrite skipWs_cons by done. cbn [app map] in IH. rewrite IH; [done|done|done|simpl in *; lia].
Qed.

Lemma parseValue_ws w s n : blankText w = true -> parseValue n (w ++ s) = parseValue n s.
Proof. intros H. destruct n as [|n]; [done|]. cbn [parseValue]. by rewrite skipWs_app. Qed.

Definition nl (gap ind : jstr) : jstr := match gap with [] => [] | _ => [10] ++ ind end.
Definition space (gap : jstr) : jstr := match gap with [] => [] | _ => [32] end.

Lemma blank_nl gap ind : blankText ind = true -> blankText (nl gap ind) = true.
Proof. by destruct gap. Qed.

Lemma blank_app a b : blankText a = true -> blankText b = true -> blankText (a ++ b) = true.
Proof. unfold blankText. rewrite forallb_app. by intros -> ->. Qed.

(** The texts of arrays and of objects that are not empty. *)
Lemma jsonText_arr gap ind l :
  l <> [] ->
  jsonText gap ind (JArr l)
  = [91] ++ nl gap (ind ++ gap)
    ++ joinWith ([44] ++ nl gap (ind ++ gap)) (map (jsonText gap (ind ++ gap)) l)
    ++ nl gap ind ++ [93].
Proof. by destruct l. Qed.

Lemma jsonText_obj gap ind l :
  l <> [] ->
  jsonText gap ind (JObj l)
  = [123] ++ nl gap (ind ++ gap)
    ++ joinWith ([44] ++ nl gap (ind ++ gap))
         (map (fun e => quote e.1 ++ (58 :: space gap) ++ jsonText gap (ind ++ gap) e.2) l)
    ++ nl gap ind ++ [125].
Proof. destruct l; [done|]. by destruct gap. Qed.

(** A text that is not an array's or an object's end starts a value. *)
Lemma skip_not c s :
  (exists x y, s = x :: y /\ isWs x = false /\ x <> c) ->
  forall w X (a : jstr -> X) b, blankText w = true ->
    match skipWs (w ++ s) with y :: r => if y =? c then a r else b | [] => b end = b.
Proof.
  intros (x & y & -> & Hx & Hc) w X a b Hw. rewrite skipWs_app, skipWs_cons by done.
  by rewrite (proj2 (N.eqb_neq _ _) Hc).
Qed.

(** The first unit of a value's text. *)
Lemma jsonText_head gap ind v r :
  parsed v ->
  exists x y, jsonText gap ind v ++ r = x :: y /\ isWs x = false /\ x <> 93 /\ x <> 125.
Proof.
  intros H. destruct v as [|[]|n|s|l|l]; try (do 2 eexists; split; [reflexivity|done]).
  - destruct H as (Hf & _ & Hn). cbn [jsonText]. rewrite Hf.
    apply parseNumeral_head in Hn as (c & t & -> & Hc). do 2 eexists. split; [reflexivity|].
    destruct Hc as [->|Hc]; [done|]. unfold isDigit in Hc.
    apply andb_true_iff in Hc as [H1 H2]. apply N.leb_le in H1, H2.
    unfold isWs. repeat split; lia.
  - destruct l as [|x l]; do 2 eexists; (split; [reflexivity|done]).
  - destruct l as [|x l]; do 2 eexists; (split; [reflexivity|done]).
Qed.

Lemma reads_num gap ind r : parsed (JNum r) -> reads gap ind (JNum r).
Proof.
  intros (Hf & Hp & Hn) t n Ht Hs. cbn [jsonText]. rewrite Hf.
  destruct n as [|n]; [simpl in Hs; lia|].
  pose proof (parseNumeral_local _ _ _ Hn Ht) as HL. simpl in HL.
  apply parseNumeral_head in Hn as (c & a & -> & Hc).
  cbn [parseValue app]. cbn [app] in HL.
  assert (H : isWs c = false /\ (forall d, d ∈ [34; 91; 123; 110; 116; 102] -> (c =? d) = false)).
  { destruct Hc as [->|Hc].
    - split; [done|]. intros d. rewrite !elem_of_cons, elem_of_nil.
      intros Hd. repeat destruct Hd as [->|Hd]; done.
    - unfold isDigit in Hc. apply andb_true_iff in Hc as [H1 H2]. apply N.leb_le in H1, H2.
      split.
      + unfold isWs. lia.
      + intros d. rewrite !elem_of_cons, elem_of_nil. intros Hd. apply N.eqb_neq.
        repeat destruct Hd as [->|Hd]; try lia. }
  destruct H as [Hw Hd]. rewrite skipWs_cons by done.
  rewrite (Hd 34), (Hd 91), (Hd 123) by set_solver.
  assert (Hl : forall x p, x ∈ [110; 116; 102] -> startsWith (x :: p) (c :: a ++ t) = false).
  { intros x p Hx. cbn [startsWith]. rewrite N.eqb_sym, Hd by set_solver. done. }
  change (u8 "null") with [110; 117; 108; 108].
  change (u8 "true") with [116; 114; 117; 101].
  change (u8 "false") with [102; 97; 108; 115; 101].
  rewrite !Hl by set_solver. rewrite HL. cbn [mbind option_bind fst snd]. by rewrite Hp.
Qed.

Lemma reads_arr gap ind l :
  blankText gap = true -> blankText ind = true -> parsed (JArr l) ->
  Forall (reads gap (ind ++ gap)) l -> reads gap ind (JArr l).
Proof.
  intros Hg Hi Hp H r n Hr Hn. destruct l as [|x l]; [by destruct n; [simpl in Hn; lia|]|].
  rewrite jsonText_arr by done. cbn [parsed] in Hp. apply foldr_Forall in Hp.
  assert (Hb : blankText (nl gap (ind ++ gap)) = true) by (by apply blank_nl, blank_app).
  destruct n as [|n]; [simpl in Hn; lia|]. rewrite <- !app_assoc. cbn [app parseValue].
  rewrite skipWs_cons by done. simpl (91 =? 34). simpl (91 =? 91). cbv iota.
  set (body := _ ++ nl gap ind ++ 93 :: r).
  assert (Hh : exists c t, body = c :: t /\ isWs c = false /\ c <> 93).
  { unfold body. apply Forall_cons in Hp as [Hx _]. destruct l as [|y l].
    - cbn [map joinWith flat_map]. rewrite app_nil_r.
      destruct (jsonText_head gap (ind ++ gap) x (nl gap ind ++ 93 :: r) Hx) as (c & t & E & ? & ? & _).
      eauto.
    - cbn [map]. rewrite joinWith_cons, <- !app_assoc.
      edestruct (jsonText_head gap (ind ++ gap) x) as (c & t & E & ? & ? & _); [done|].
      rewrite E. eauto. }
  assert (Hitems : parseItems n (nl gap (ind ++ gap) ++ body) = Some (x :: l, r)).
  { unfold body. apply parseItems_text; [done|by apply blank_nl|done| |simpl in *; lia].
    eapply Forall_impl; [exact H|]. intros y Hy t m Ht Hm. rewrite parseValue_ws by done. by apply Hy. }
  rewrite skipWs_app by done. destruct Hh as (c & t & E & Hw & Hc).
  rewrite Hitems. rewrite E, skipWs_cons by done.
  repeat (case_match; try done).
Qed.

Lemma reads_obj gap ind l :
  blankText gap = true -> blankText ind = true -> parsed (JObj l) ->
  Forall (fun e => reads gap (ind ++ gap) e.2) l -> reads gap ind (JObj l).
Proof.
  intros Hg Hi Hp H r n Hr Hn. destruct l as [|x l]; [by destruct n; [simpl in Hn; lia|]|].
  rewrite jsonText_obj by done. destruct Hp as [Ho Hp]. apply foldr_Forall in Hp.
  assert (Hb : blankText (nl gap (ind ++ gap)) = true) by (by apply blank_nl, blank_app).
  destruct n as [|n]; [simpl in Hn; lia|]. rewrite <- !app_assoc. cbn [app parseValue].
  rewrite skipWs_cons by done. simpl (123 =? 34). simpl (123 =? 91). simpl (123 =? 123). cbv iota.
  set (body := _ ++ nl gap ind ++ 125 :: r).
  assert (Hh : exists t, body = 34 :: t).
  { unfold body. destruct l as [|y l].
    - cbn [map joinWith flat_map]. rewrite app_nil_r, <- !app_assoc, quote_app. eauto.
    - cbn [map]. rewrite joinWith_cons, <- !app_assoc, quote_app. eauto. }
  assert (Hfields : parseFields n (nl gap (ind ++ gap) ++ body) [] = Some (x :: l, r)).
  { unfold body. rewrite (parseFields_text (fun e => jsonText gap (ind ++ gap) e.2) (space gap)); try done.
    - by rewrite fold_putKey.
    - by apply blank_nl.
    - by destruct gap.
    - eapply Forall_impl; [exact Hp|]. by intros ? [].
    - eapply Forall_impl; [exact H|]. intros y Hy t m Ht Hm.
      rewrite parseValue_ws by (by destruct gap). by apply Hy.
    - simpl in *; lia. }
  rewrite skipWs_app by done. destruct Hh as (t & E).
  rewrite Hfields. by rewrite E, skipWs_cons.
Qed.

(** The text of a value is read as the value, whatever it is followed by. *)
Lemma jsonText_reads v gap ind :
  blankText gap = true -> blankText ind = true -> parsed v -> reads gap ind v.
Proof.
  intros Hg. revert ind. induction v as [|b|r|s|l IH|l IH] using json_nested_ind; intros ind Hi Hv.
  - by intros r [|n] Hr Hn; [simpl in Hn; lia|].
  - by intros r [|n] Hr Hn; [simpl in Hn; lia|]; destruct b.
  - by apply reads_num.
  - intros r [|n] Hr Hn; [simpl in Hn; lia|]. cbn [jsonText parseValue]. rewrite quote_app.
    rewrite skipWs_cons by done. simpl (34 =? 34). cbv iota. by rewrite parseString_quote.
  - apply reads_arr; [done..|]. cbn [parsed] in Hv. apply foldr_Forall in Hv.
    eapply Forall_impl; [exact (proj2 (Forall_and _ _) (conj IH Hv))|].
    intros x [Hx Hp]. apply Hx; [by apply blank_app|done].
  - apply reads_obj; [done..|]. destruct Hv as [_ Hv]. apply foldr_Forall in Hv.
    eapply Forall_impl; [exact (proj2 (Forall_and _ _) (conj IH Hv))|].
    intros x [Hx [_ Hp]]. apply Hx; [by apply blank_app|done].
Qed.

(** *** The fuel is enough *)

Lemma length_joinWith c (l : list jstr) :
  l <> [] -> (foldr (fun x a => length x + a) 0 l + length l <= S (length (joinWith (44%N :: c) l)))%nat.
Proof.
  intros Hne. induction l as [|x l IH]; [done|]. destruct l as [|y l].
  - simpl. rewrite app_nil_r. lia.
  - specialize (IH ltac:(done)). rewrite joinWith_cons, !length_app. simpl in *. lia.
Qed.

Lemma size_parts {A} (sz : A -> nat) (f : A -> jstr) l :
  Forall (fun x => sz x <= 2 * length (f x))%nat l ->
  (foldr (fun x a => S (sz x) + a) 0 l
   <= 2 * foldr (fun x a => length x + a) 0 (map f l) + length l)%nat.
Proof. induction 1 as [|x l Hx Hl IH]; simpl in *; lia. Qed.

Lemma size_bound v gap ind : parsed v -> (size v <= 2 * length (jsonText gap ind v))%nat.
Proof.
  revert ind. induction v as [|b|r|s|l IH|l IH] using json_nested_ind; intros ind Hv.
  - simpl. lia.
  - by destruct b; simpl; lia.
  - destruct Hv as (Hf & _ & Hn). cbn [jsonText]. rewrite Hf.
    apply parseNumeral_head in Hn as (c & t & -> & _). simpl. lia.
  - simpl. unfold quote. rewrite !length_app. simpl. lia.
  - destruct l as [|x l]; [simpl; lia|]. rewrite jsonText_arr by done.
    cbn [parsed] in Hv. apply foldr_Forall in Hv.
    set (f := jsonText gap (ind ++ gap)). set (w := nl gap (ind ++ gap)).
    assert (H : Forall (fun x => size x <= 2 * length (f x))%nat (x :: l)).
    { eapply Forall_impl; [exact (proj2 (Forall_and _ _) (conj IH Hv))|]. intros y [Hy ?]. by apply Hy. }
    apply size_parts in H. pose proof (length_joinWith w (map f (x :: l)) ltac:(done)) as Hj.
    rewrite length_map in Hj. rewrite !length_app. cbn [size].
    change ([44] ++ w) with (44 :: w). cbn [length] in *. lia.
  - destruct l as [|x l]; [simpl; lia|]. rewrite jsonText_obj by done.
    destruct Hv as [_ Hv]. apply foldr_Forall in Hv.
    set (f := fun e : jstr * json => quote e.1 ++ (58 :: space gap) ++ jsonText gap (ind ++ gap) e.2).
    set (w := nl gap (ind ++ gap)).
    assert (H : Forall (fun e => size e.2 <= 2 * length (f e))%nat (x :: l)).
    { eapply Forall_impl; [exact (proj2 (Forall_and _ _) (conj IH Hv))|]. intros y [Hy [_ Hp]].
      specialize (Hy (ind ++ gap) Hp). unfold f. rewrite !length_app. lia. }
    apply (size_parts (fun e => size e.2)) in H.
    pose proof (length_joinWith w (map f (x :: l)) ltac:(done)) as Hj.
    rewrite length_map in Hj. rewrite !length_app. cbn [size].
    change ([44] ++ w) with (44 :: w). cbn [length] in *. lia.
Qed.

Lemma parse_stringify gap v :
  blankText gap = true -> parsed v -> parseJson (jsonText gap [] v) = Some v.
Proof.
  intros Hg Hv. unfold parseJson. rewrite <- (app_nil_r (jsonText gap [] v)) at 2.
  rewrite jsonText_reads; [done..|]. pose proof (size_bound v gap [] Hv). lia.
Qed.

(** *** What is read is a value of [JSON.parse] *)

Fixpoint allFinite (v : json) : bool :=
  match v with
  | JNum r => finite r
  | JArr l => forallb allFinite l
  | JObj l => forallb (fun e => allFinite e.2) l
  | _ => true
  end.

End roundtrip.

(** A number is printed as a numeral that stands for the number. *)
Class NumeralsOk (NM : Numerals) := numberText_numeral s p :
  parseNumeral s = Some p ->
  finite (numberText p.1) = true ->
  numberText (numberText p.1) = numberText p.1
  /\ parseNumeral (numberText p.1) = Some (numberText p.1, []).

Section parsed.
Context {NM : Numerals} {OK : NumeralsOk NM}.

Lemma units_app a b : units (a ++ b) = units a && units b.
Proof. apply forallb_app. Qed.

Lemma units_cons c s : units (c :: s) = (c <? 65536) && units s.
Proof. done. Qed.

Lemma units_skipWs s : units s = true -> units (skipWs s) = true.
Proof.
  unfold skipWs. induction s as [|c s IH]; [done|]. intros H. cbn [drop_while].
  destruct (isWs c); [|done]. rewrite units_cons in H. apply andb_true_iff in H as [_ H]. auto.
Qed.

Lemma hexVal_bound c x : hexVal c = Some x -> x < 16.
Proof.
  unfold hexVal, isDigit. destruct (_ && _) eqn:E1; [intros [= <-]; lia|].
  destruct ((65 <=? c) && _) eqn:E2; [intros [= <-]; lia|].
  destruct ((97 <=? c) && _) eqn:E3; [intros [= <-]; lia|done].
Qed.

Lemma hex4_bound a b c d x : hex4 a b c d = Some x -> x <? 65536 = true.
Proof.
  unfold hex4. destruct (hexVal a) eqn:Ea, (hexVal b) eqn:Eb, (hexVal c) eqn:Ec,
    (hexVal d) eqn:Ed; try done.
  apply hexVal_bound in Ea, Eb, Ec, Ed. intros [= <-]. apply N.ltb_lt. lia.
Qed.

Lemma unescaped_bound c x : unescaped c = Some x -> x <? 65536 = true.
Proof. unfold unescaped. repeat case_match; intros; simplify_eq; done. Qed.

Lemma parseString_units s p :
  parseString s = Some p -> units s = true -> units p.1 = true /\ units p.2 = true.
Proof.
  enough (forall n s p, (length s <= n)%nat -> parseString s = Some p -> units s = true ->
            units p.1 = true /\ units p.2 = true) by eauto.
  clear s p. induction n as [|n IH]; intros [|c r] p Hn H Hs; simpl in Hn; try done; [lia|].
  rewrite units_cons in Hs. apply andb_true_iff in Hs as [Hc Hr]. cbn [parseString] in H.
  destruct (c =? 34); [by simplify_eq/=|]. destruct (c <? 32); [done|].
  destruct (c =? 92).
  - assert (Hone : forall x t, x <? 65536 = true -> (length t <= n)%nat -> units t = true ->
              cons1 x (parseString t) = Some p -> units p.1 = true /\ units p.2 = true).
    { intros x t Hx Ht Hu E. unfold cons1 in E. destruct (parseString t) as [q|] eqn:Eq; [|done].
      injection E as <-. destruct (IH _ _ Ht Eq Hu) as [H1 H2]. cbn [fst snd].
      by rewrite units_cons, Hx. }
    destruct r as [|e r']; [done|]. rewrite units_cons in Hr.
    apply andb_true_iff in Hr as [_ Hr]. destruct (e =? 117).
    + destruct r' as [|a [|b [|c' [|d r'']]]]; try done.
      destruct (hex4 a b c' d) as [x|] eqn:Ex; [|done].
      rewrite !units_cons in Hr. repeat apply andb_true_iff in Hr as [_ Hr].
      eapply (Hone x r''); [by eapply hex4_bound|simpl in *; lia|done|exact H].
    + destruct (unescaped e) as [x|] eqn:Ex; [|done].
      eapply (Hone x r'); [by eapply unescaped_bound|simpl in *; lia|done|exact H].
  - destruct (parseString r) as [q|] eqn:E; [|done]. injection H as <-.
    destruct (IH r q ltac:(lia) E Hr) as [H1 H2]. cbn [fst snd]. by rewrite units_cons, Hc.
Qed.

(** What a reader leaves of a text is made of units too. *)
Definition keepsUnits (f : jstr -> option (jstr * jstr)) : Prop :=
  forall s p, f s = Some p -> units s = true -> units p.2 = true.

Lemma digits1_keeps : keepsUnits digits1.
Proof.
  assert (H : forall s, units s = true -> units (digits s).2 = true).
  { induction s as [|c s IH]; [done|]. intros H. cbn [digits]. destruct (isDigit c); [|done].
    rewrite units_cons in H. apply andb_true_iff in H as [_ H]. by apply IH. }
  intros s p Hp Hs. specialize (H s Hs). unfold digits1 in Hp.
  destruct (digits s) as [[|c d] q]; by simplify_eq/=.
Qed.

Lemma optPart_keeps pre f : keepsUnits f -> keepsUnits (optPart pre f).
Proof.
  intros Hf [|c s] p; cbn [optPart]; [by intros [= <-]|].
  destruct (existsb _ pre); [|by intros [= <-]].
  destruct (f s) as [q|] eqn:E; [|done]. intros [= <-] H. rewrite units_cons in H.
  apply andb_true_iff in H as [_ H]. by apply (Hf s q).
Qed.

Lemma expDigits_keeps : keepsUnits expDigits.
Proof.
  intros [|c s] p; cbn [expDigits]; [done|]. destruct (_ || _); [|apply digits1_keeps].
  destruct (digits1 s) as [q|] eqn:E; [|done]. intros [= <-] H. rewrite units_cons in H.
  apply andb_true_iff in H as [_ H]. by apply (digits1_keeps s q).
Qed.

Lemma intDigits_keeps : keepsUnits intDigits.
Proof.
  intros [|c s] p; cbn [intDigits]; [done|]. destruct (c =? 48); [|apply digits1_keeps].
  intros [= <-] H. rewrite units_cons in H. by apply andb_true_iff in H as [_ H].
Qed.

Lemma units_drop n s : units s = true -> units (drop n s) = true.
Proof.
  revert s. induction n as [|n IH]; intros [|c s] H; try done.
  rewrite units_cons in H. apply andb_true_iff in H as [_ H]. by apply IH.
Qed.

Lemma parseNumeral_keeps : keepsUnits parseNumeral.
Proof.
  intros s p H Hs. unfold parseNumeral in H.
  destruct (intDigits _) as [i|] eqn:E1; [|done]. cbn [mbind option_bind] in H.
  destruct (optPart _ _ i.2) as [f|] eqn:E2; [|done]. cbn [mbind option_bind] in H.
  destruct (optPart _ _ f.2) as [e|] eqn:E3; [|done]. injection H as <-.
  apply (optPart_keeps _ _ expDigits_keeps _ _ E3).
  apply (optPart_keeps _ _ digits1_keeps _ _ E2).
  apply (intDigits_keeps _ _ E1). by apply units_drop.
Qed.

Definition goodRead (n : nat) : Prop :=
  (forall s p, parseValue n s = Some p -> units s = true ->
     units p.2 = true /\ (allFinite p.1 = true -> parsed p.1))
  /\ (forall s p, parseItems n s = Some p -> units s = true ->
     units p.2 = true /\ (forallb allFinite p.1 = true -> Forall parsed p.1))
  /\ (forall s o p, parseFields n s o = Some p -> units s = true -> inOrder (o.*1) ->
     Forall (fun e => units e.1 = true /\ (allFinite e.2 = true -> parsed e.2)) o ->
     units p.2 = true /\ inOrder (p.1.*1)
     /\ Forall (fun e => units e.1 = true /\ (allFinite e.2 = true -> parsed e.2)) p.1).

(** One step of each reader. *)
Lemma goodRead_items n : goodRead n -> forall s p, parseItems (S n) s = Some p -> units s = true ->
  units p.2 = true /\ (forallb allFinite p.1 = true -> Forall parsed p.1).
Proof.
  intros (Hv & Hi & _) s p H Hs. cbn [parseItems] in H.
  destruct (parseValue n s) as [q|] eqn:E; [|done]. cbn [mbind option_bind] in H.
  destruct (Hv _ _ E Hs) as [Hu Hq]. apply units_skipWs in Hu.
  destruct (skipWs q.2) as [|c r] eqn:Es; [done|].
  rewrite units_cons in Hu. apply andb_true_iff in Hu as [_ Hu].
  destruct (decide (c = 93)) as [->|H93].
  - injection H as <-. split; [done|]. cbn [forallb fst]. intros Hf. bool_simpl. auto.
  - destruct (decide (c = 44)) as [->|H44]; [|by repeat (case_match; try done)].
    destruct (parseItems n r) as [t|] eqn:Et; [|done]. injection H as <-.
    destruct (Hi _ _ Et Hu) as [Hu' Ht]. split; [done|]. cbn [forallb fst]. intros Hf.
    bool_simpl. constructor; auto.
Qed.

Lemma goodRead_fields n : goodRead n -> forall s o p, parseFields (S n) s o = Some p ->
  units s = true -> inOrder (o.*1) ->
  Forall (fun e => units e.1 = true /\ (allFinite e.2 = true -> parsed e.2)) o ->
  units p.2 = true /\ inOrder (p.1.*1)
  /\ Forall (fun e => units e.1 = true /\ (allFinite e.2 = true -> parsed e.2)) p.1.
Proof.
  intros (Hv & _ & Hf) s o p H Hs Ho Hp. cbn [parseFields] in H. apply units_skipWs in Hs.
  destruct (skipWs s) as [|c r]; [done|]. rewrite units_cons in Hs.
  apply andb_true_iff in Hs as [_ Hs].
  destruct (decide (c = 34)) as [->|H34]; [|by repeat (case_match; try done)].
  destruct (parseString r) as [k|] eqn:Ek; [|done]. cbn [mbind option_bind] in H.
  destruct (parseString_units _ _ Ek Hs) as [Hk1 Hk2]. apply units_skipWs in Hk2.
  destruct (skipWs k.2) as [|c r1]; [done|]. rewrite units_cons in Hk2.
  apply andb_true_iff in Hk2 as [_ Hk2].
  destruct (decide (c = 58)) as [->|H58]; [|by repeat (case_match; try done)].
  destruct (parseValue n r1) as [v|] eqn:Ev; [|done]. cbn [mbind option_bind] in H.
  destruct (Hv _ _ Ev Hk2) as [Hu Hq]. apply units_skipWs in Hu.
  assert (Ho' : inOrder ((putKey k.1 v.1 o).*1)) by (by apply putKey_inOrder).
  assert (Hp' : Forall (fun e => units e.1 = true /\ (allFinite e.2 = true -> parsed e.2))
                  (putKey k.1 v.1 o)) by (by apply putKey_Forall).
  destruct (skipWs v.2) as [|c r2]; [done|]. rewrite units_cons in Hu.
  apply andb_true_iff in Hu as [_ Hu].
  destruct (decide (c = 125)) as [->|H125]; [by injection H as <-|].
  destruct (decide (c = 44)) as [->|H44]; [|by repeat (case_match; try done)].
  by eapply Hf.
Qed.

Lemma goodRead_value n : goodRead n -> forall s p, parseValue (S n) s = Some p ->
  units s = true -> units p.2 = true /\ (allFinite p.1 = true -> parsed p.1).
Proof.
  intros (Hv & Hi & Hf) s p H Hs. cbn [parseValue] in H. apply units_skipWs in Hs.
  destruct (skipWs s) as [|c r]; [done|]. pose proof Hs as Hcr. rewrite units_cons in Hs.
  apply andb_true_iff in Hs as [_ Hs].
  destruct (c =? 34).
  { destruct (parseString r) as [q|] eqn:E; [|done]. injection H as <-.
    destruct (parseString_units _ _ E Hs). done. }
  destruct (c =? 91).
  { pose proof (units_skipWs _ Hs) as Hw. destruct (skipWs r) as [|d r1] eqn:Er.
    - destruct (parseItems n r) as [q|] eqn:E; [|done]. injection H as <-.
      destruct (Hi _ _ E Hs) as [H1 H2]. split; [done|]. intros Ha. apply foldr_Forall. auto.
    - rewrite units_cons in Hw. apply andb_true_iff in Hw as [_ Hw].
      destruct (decide (d = 93)) as [->|Hd]; [by injection H as <-|].
      assert (E : (p ← parseItems n r; Some (JArr p.1, p.2)) = Some p)
        by (by repeat (case_match; try done)).
      clear H. destruct (parseItems n r) as [q|] eqn:Eq; [|done]. injection E as <-.
      destruct (Hi _ _ Eq Hs) as [H1 H2]. split; [done|]. intros Ha. apply foldr_Forall. auto. }
  destruct (c =? 123).
  { assert (Hobj : forall q, parseFields n r [] = Some q -> p = (JObj q.1, q.2) ->
              units p.2 = true /\ (allFinite p.1 = true -> parsed p.1)).
    { intros q E ->. destruct (Hf _ _ _ E Hs) as (H1 & H2 & H3); [by repeat constructor|done|].
      split; [done|]. intros Ha. split; [done|]. apply foldr_Forall.
      cbn [allFinite fst] in Ha. clear -H3 Ha. induction H3 as [|e l [He Hv] Hl IH]; [done|].
      cbn [forallb] in Ha. bool_simpl. constructor; auto. }
    pose proof (units_skipWs _ Hs) as Hw. destruct (skipWs r) as [|d r1] eqn:Er.
    - destruct (parseFields n r []) as [q|] eqn:E; [|done]. injection H as <-. by eapply Hobj.
    - rewrite units_cons in Hw. apply andb_true_iff in Hw as [_ Hw].
      destruct (decide (d = 125)) as [->|Hd].
      { injection H as <-. by repeat constructor. }
      assert (E : (p ← parseFields n r []; Some (JObj p.1, p.2)) = Some p)
        by (by repeat (case_match; try done)).
      clear H. destruct (parseFields n r []) as [q|] eqn:Eq; [|done]. injection E as <-.
      by eapply Hobj. }
  do 3 (destruct (startsWith _ _); [injection H as <-; split; [by apply units_drop|done]|]).
  destruct (parseNumeral (c :: r)) as [q|] eqn:E; [|done]. injection H as <-.
  split; [by apply (parseNumeral_keeps _ _ E)|]. cbn [fst allFinite parsed]. intros Ha.
  split; [done|]. by eapply numberText_numeral.
Qed.

Lemma reads_good n : goodRead n.
Proof.
  induction n as [|n IH]; [by repeat split|]. split_and!.
  - by apply goodRead_value.
  - by apply goodRead_items.
  - by apply goodRead_fields.
Qed.

Lemma parse_parsed s v :
  units s = true -> parseJson s = Some v -> allFinite v = true -> parsed v.
Proof.
  unfold parseJson. intros Hs. destruct (parseValue _ s) as [[w r]|] eqn:E; [|done].
  destruct (truthy _); [done|]. intros [= ->]. by apply (proj1 (reads_good _) _ _ E).
Qed.

(** Printing what was read and reading it again gives the same value. *)
Lemma reread gap s v :
  blankText gap = true -> units s = true -> parseJson s = Some v -> allFinite v = true ->
  parseJson (jsonText gap [] v) = Some v.
Proof. intros. apply parse_stringify; [done|]. by eapply parse_parsed. Qed.

End parsed.
