(* ===== verification/RapidocRequest.v ===== *)
(** * RapiDoc: the request of the console

    What TRY sends: the URL, the headers and the body that the element [api-request]
    builds from the fields of its panel, and the command line for [curl] that it shows
    ([buildFetchURL], [buildFetchHeaders], [buildFetchBodyOptions], [generateCURLSyntax]).

    A [Panel] is what these methods query of the document: the fields with a [data-ptype]
    in document order, the container of the request body with its editor, and the file of
    a binary body.  A result [None] is an exception that leaves the method.

    Parameter: [resolveUrl] is the browser's [new URL(e, location).href]. *)

From stdpp Require Import strings numbers list sets.
From S2P Require Import Prelude JsString Html RapidocUrl RapidocSpec RapidocElement.
From S2P Require Import RapidocJson RapidocJsonText.

Open Scope N_scope.

(** ** The panel *)

Record File := mkFile { fl_name : jstr; fl_content : list N }.

(** The value of an input or a textarea, or the tags of a [tag-input]. *)
Inductive FieldValue := VText (s : jstr) | VList (l : list jstr).

Record Field := mkField {
  fd_ptype : jstr;
  fd_pname : jstr;
  fd_array : jstr;
  fd_style : jstr;
  fd_explode : jstr;
  fd_allowReserved : jstr;
  fd_example : jstr;
  fd_tagInput : bool;
  fd_isFile : bool;
  fd_file : option File;
  fd_value : FieldValue;
}.

Record Panel := mkPanel {
  pn_fields : list Field;
  pn_bodyType : option jstr;
  pn_userInput : option jstr;
  pn_bodyFile : option File;
}.

Definition withPtype (t : jstr) (p : Panel) : list Field :=
  List.filter (fun f => fd_ptype f === t) (pn_fields p).

(** The value as a string, and whether it counts as true; an array always does. *)
Definition valueText (v : FieldValue) : jstr :=
  match v with VText s => s | VList l => joinWith (u8 ",") l end.
Definition valueTrue (v : FieldValue) : bool :=
  match v with VText s => truthy s | VList _ => true end.

(** ** Values of JSON in texts *)

(** [v.toString()]; in the join of an array [null] is empty. *)
Fixpoint jsToString (v : json) : jstr :=
  match v with
  | JNull => u8 "null"
  | JBool b => decB b
  | JNum r => r
  | JStr s => s
  | JArr l => joinWith (u8 ",") (map (fun x => match x with JNull => [] | _ => jsToString x end) l)
  | JObj _ => u8 "[object Object]"
  end.

Definition joinJson (sep : jstr) (l : list json) : jstr :=
  joinWith sep (map (fun x => match x with JNull => [] | _ => jsToString x end) l).

(** The own properties that [for ... in] and [Object.assign] go through. *)
Definition entriesOf (v : json) : list (jstr * json) :=
  match v with
  | JObj l => l
  | JArr l => imap (fun i x => (decN i, x)) l
  | JStr s => imap (fun i c => (decN i, JStr [c])) s
  | _ => []
  end.

Definition isObject (v : json) : bool :=
  match v with JObj _ | JArr _ | JNull => true | _ => false end.

Definition isNull (v : json) : bool := match v with JNull => true | _ => false end.
Definition isArray (v : json) : bool := match v with JArr _ => true | _ => false end.

(** [nF]: a value as XML, nested [t] deep; [null] has no property to read, and an empty
    name no first character. *)
Definition xmlTag (n : jstr) (v : json) : jstr :=
  match v with
  | JObj l => match assoc (u8 "::XML_TAG") l with
              | Some (JStr s) => sor s n
              | _ => n
              end
  | _ => n
  end.

Definition spaces (t : nat) : jstr := flat_map (fun _ => [32; 32]) (seq 0 t).

Fixpoint xmlLines (t : nat) (e : json) : option jstr :=
  let line (n : jstr) (v : json) : option jstr :=
    if isNull v || (isArray v && negb (truthy n)) then None
    else if startsWith (u8 "::") n then Some []
    else
      let o := match v with JArr _ => n | _ => xmlTag n v end in
      match v with
      | JArr _ | JObj _ =>
          r ← xmlLines (S t) v;
          Some ([10] ++ spaces t ++ u8 "<" ++ o ++ u8 ">" ++ r ++ [10] ++ spaces t
                ++ u8 "</" ++ o ++ u8 ">")
      | _ => Some ([10] ++ spaces t ++ u8 "<" ++ o ++ u8 ">" ++ jsToString v
                   ++ u8 "</" ++ o ++ u8 ">")
      end in
  match e with
  | JObj l =>
      (fix go (l : list (jstr * json)) : option jstr :=
         match l with
         | [] => Some []
         | x :: r => a ← line x.1 x.2; b ← go r; Some (a ++ b)
         end) l
  | JArr l =>
      (fix go (i : nat) (l : list json) : option jstr :=
         match l with
         | [] => Some []
         | x :: r => a ← line (decN i) x; b ← go (S i) r; Some (a ++ b)
         end) 0%nat l
  | _ => Some []
  end.

Definition nF (e : json) (t : nat) : option jstr :=
  match e with
  | JNull | JObj _ | JArr _ => xmlLines t e
  | _ => if (t =? 1)%nat then Some ([10] ++ spaces t ++ jsToString e) else Some []
  end.

(** ** The URL *)

(** [s.replace(pat, rep)] for a [rep] without [$]. *)
Definition replaceFirst (pat rep s : jstr) : jstr :=
  match indexOf pat s 0 with
  | Some i => take i s ++ rep ++ drop (i + length pat) s
  | None => s
  end.

(** [s.replace(/^p|p$/g, "")] for a class [p] of units. *)
Definition trimOne (p : N -> bool) (s : jstr) : jstr :=
  let s := match s with c :: r => if p c then r else s | [] => [] end in
  match reverse s with c :: r => if p c then reverse r else s | [] => [] end.

(** One parameter of the path; its value goes for the first place that names it. *)
Definition putPath (t : option jstr) (f : Field) : option jstr :=
  t ← t; v ← encodeURIComponent (valueText (fd_value f));
  Some (replaceFirst (u8 "{" ++ fd_pname f ++ u8 "}") v t).

(** The pairs that a field of the query adds. *)
Definition queryPairs (f : Field) : list (jstr * jstr) :=
  if fd_array f === u8 "false" then
    match fd_value f with
    | VText [] => []
    | v => [(fd_pname f, valueText v)]
    end
  else
    let n := match fd_value f with VList l => List.filter truthy l | VText _ => [] end in
    match n with
    | [] => []
    | _ =>
        if fd_style f === u8 "spaceDelimited" then
          [(fd_pname f, trimOne isSpace (joinWith (u8 " ") n))]
        else if fd_style f === u8 "pipeDelimited" then
          [(fd_pname f, trimOne (N.eqb 124) (joinWith (u8 "|") n))]
        else if fd_explode f === u8 "true" then map (fun r => (fd_pname f, r)) n
        else [(fd_pname f, trimOne (N.eqb 44) (joinWith (u8 ",") n))]
    end.

Section request.
Context {CM : CaseMapping} {LC : Locale} {NM : Numerals}.
Context (resolveUrl : jstr -> jstr).

(** The pairs of one property of an object. *)
Definition propertyPairs (style explode o : jstr) (v : json) : list (jstr * jstr) :=
  match v with
  | JArr l =>
      if style === u8 "spaceDelimited" then [(o, joinJson (u8 " ") l)]
      else if style === u8 "pipeDelimited" then [(o, joinJson (u8 "|") l)]
      else if explode === u8 "true" then map (fun e => (o, jsToString e)) l
      else [(o, jsToString v)]
  | JObj _ | JNull => []
  | _ => [(o, jsToString v)]
  end.

(** The pairs that an object of the query adds; the text is read as JSON with its white
    space collapsed.  [None] is a text that is not JSON. *)
Definition objectPairs (f : Field) : option (list (jstr * jstr)) :=
  let style := fd_style f in
  v ← parseJson (collapseRuns isSpace (u8 " ") false (valueText (fd_value f)));
  let r := entriesOf v in
  Some (if includes (u8 "json xml") style then
          if style === u8 "json" then [(fd_pname f, stringify (JObj r))]
          else if style === u8 "xml" then
            match nF (JObj r) 1 with Some x => [(fd_pname f, x)] | None => [] end
          else []
        else
          flat_map (fun e => propertyPairs style (fd_explode f)
                               (fd_pname f ++ u8 "[" ++ e.1 ++ u8 "]") e.2) r).

(** What is collected for the query: the pairs of each field, by its name, and the names
    whose characters are kept. *)
Definition Query : Type := list (jstr * list (jstr * jstr)) * list jstr.

Definition addPairs (name : jstr) (l : list (jstr * jstr)) (q : Query) : Query :=
  match l with [] => q | _ => (assocSet name l q.1, q.2) end.

Definition addField (q : Query) (f : Field) : Query :=
  let q := if fd_allowReserved f === u8 "true" then (q.1, q.2 ++ [fd_pname f]) else q in
  addPairs (fd_pname f) (queryPairs f) q.

Definition addObject (q : Query) (f : Field) : Query :=
  match objectPairs f with
  | None => q
  | Some l =>
      let q := if fd_allowReserved f === u8 "true" then (q.1, q.2 ++ [fd_pname f]) else q in
      addPairs (fd_pname f) l q
  end.

Definition collectQuery (p : Panel) : Query :=
  foldl addObject (foldl addField ([], []) (withPtype (u8 "query") p))
    (withPtype (u8 "query-object") p).

Definition getAll (name : jstr) (l : list (jstr * jstr)) : list jstr :=
  map snd (List.filter (fun e => e.1 === name) l).

Definition queryPart (reserved : list jstr) (e : jstr * list (jstr * jstr)) : jstr :=
  if existsb (fun n => n === e.1) reserved then
    e.1 ++ u8 "=" ++ joinWith (u8 "&" ++ e.1 ++ u8 "=") (getAll e.1 e.2) ++ u8 "&"
  else formString e.2 ++ u8 "&".

Definition queryText (q : Query) : jstr :=
  match q.1 with [] => [] | _ => sliceLast (flat_map (queryPart q.2) q.1) end.

Definition joiner (t : jstr) : jstr := if includes t (u8 "?") then u8 "&" else u8 "?".

(** One key that goes into the query. *)
Definition putKeyParam (t : option jstr) (k : SecurityScheme) : option jstr :=
  t ← t; v ← encodeURIComponent (ss_finalKeyValue k);
  Some (t ++ joiner t ++ default (u8 "undefined") (ss_name k) ++ u8 "=" ++ v).

Definition keysIn (where_ : jstr) (keys : list SecurityScheme) : list SecurityScheme :=
  List.filter (fun k => bool_decide (ss_in k = Some where_)) keys.

Definition dropSlash (s : jstr) : jstr := if endsWith (u8 "/") s then sliceLast s else s.

Definition buildFetchURL (serverUrl path : jstr) (keys : list SecurityScheme) (p : Panel)
    : option jstr :=
  t ← foldl putPath (Some path) (withPtype (u8 "path") p);
  let a := queryText (collectQuery p) in
  let t := match a with [] => t | _ => t ++ joiner t ++ a end in
  t ← foldl putKeyParam (Some t) (keysIn (u8 "query") keys);
  Some (dropSlash serverUrl ++ t).

(** ** The headers *)

(** A [Headers] object: its names in lower case with their values, as they were added. *)
Definition Headers : Type := list (jstr * jstr).

Definition isTokenUnit (c : N) : bool :=
  isAlnum c || existsb (N.eqb c) [33; 35; 36; 37; 38; 39; 42; 43; 45; 46; 94; 95; 96; 124; 126].

Definition isHttpSpace (c : N) : bool := (c =? 9) || (c =? 10) || (c =? 13) || (c =? 32).

(** [h.append(name, value)], which throws on a name that is no token, and on a value with
    a line break, a NUL or a unit beyond a byte. *)
Definition appendHeader (name value : jstr) (h : Headers) : option Headers :=
  let v := trim_with isHttpSpace value in
  if truthy name && forallb isTokenUnit name
     && forallb (fun c => (c <? 256) && negb ((c =? 0) || (c =? 10) || (c =? 13))) v
  then Some (h ++ [(map asciiLower name, v)]) else None.

(** [h.set(name, value)] for a name that is there. *)
Fixpoint setHeader (name value : jstr) (h : Headers) : Headers :=
  match h with
  | [] => []
  | e :: r =>
      if e.1 === name then (name, value) :: List.filter (fun e => negb (e.1 === name)) r
      else e :: setHeader name value r
  end.

(** The names and values that iterating yields: one entry for a name, its values joined,
    in the order of the names. *)
Fixpoint unitsLe (a b : jstr) : bool :=
  match a, b with
  | [], _ => true
  | _, [] => false
  | x :: a, y :: b => if x =? y then unitsLe a b else x <? y
  end.

Fixpoint insertName (n : jstr) (l : list jstr) : list jstr :=
  match l with
  | [] => [n]
  | m :: r => if unitsLe n m then n :: l else m :: insertName n r
  end.

Definition addName (n : jstr) (l : list jstr) : list jstr :=
  if existsb (fun m => n === m) l then l else insertName n l.

Definition headerNames (h : Headers) : list jstr := foldr addName [] (map fst h).

Definition headerValue (name : jstr) (h : Headers) : jstr := joinWith (u8 ", ") (getAll name h).

Definition headerEntries (h : Headers) : list (jstr * jstr) :=
  map (fun n => (n, headerValue n h)) (headerNames h).

Definition keyHeader (h : option Headers) (k : SecurityScheme) : option Headers :=
  h ← h; appendHeader (default (u8 "undefined") (ss_name k)) (ss_finalKeyValue k) h.

(** The text of a header whose value is an object. *)
Definition objectHeader (f : Field) : option jstr :=
  v ← parseJson (trim (removeAll (N.eqb 10) (valueText (fd_value f))));
  let r := if fd_explode f === u8 "true" then u8 "=" else u8 "," in
  if isNull v then None
  else
    Some (joinWith (u8 ",")
            (map (fun e => e.1 ++ r ++ if isObject e.2 then stringify e.2 else jsToString e.2)
               (entriesOf v))).

Definition fieldHeader (h : option Headers) (f : Field) : option Headers :=
  h ← h;
  if valueTrue (fd_value f) then
    if fd_ptype f === u8 "header-object" then
      s ← objectHeader f; appendHeader (fd_pname f) s h
    else appendHeader (fd_pname f) (valueText (fd_value f)) h
  else Some h.

Definition headerFields (p : Panel) : list Field :=
  List.filter (fun f => (fd_ptype f === u8 "header") || (fd_ptype f === u8 "header-object"))
    (pn_fields p).

Definition nonempty (o : option jstr) : option jstr :=
  match o with Some s => if truthy s then Some s else None | None => None end.

(** [selected] is the media type selected for the responses. *)
Definition buildFetchHeaders (selected accept : option jstr) (keys : list SecurityScheme)
    (p : Panel) : option Headers :=
  h ← match nonempty selected, nonempty accept with
      | Some i, _ => appendHeader (u8 "Accept") i []
      | None, Some a => appendHeader (u8 "Accept") a []
      | None, None => Some []
      end;
  h ← foldl keyHeader (Some h) (keysIn (u8 "header") keys);
  h ← foldl fieldHeader (Some h) (headerFields p);
  match pn_bodyType p with
  | Some e => if includes e (u8 "form-data") then Some h else appendHeader (u8 "Content-Type") e h
  | None => Some h
  end.

(** ** The body *)

Inductive Body :=
| BText (s : jstr)
| BParams (l : list (jstr * jstr))
| BForm (l : list (jstr * (File + jstr)))
| BFile (f : File).

(** The media types that are sent as a file. *)
Definition binaryType (s : jstr) : bool :=
  existsb (fun p => startsWith p s)
    [u8 "audio/"; u8 "image/"; u8 "video/"; u8 "font/"]
  || existsb (fun p => endsWith p s)
       [u8 "tar"; u8 "zip"; u8 "7z"; u8 "rtf"; u8 "msword"; u8 "excel"; u8 "/pdf";
        u8 "/octet-stream"].

Definition urlencodedPairs (f : Field) : list (jstr * jstr) :=
  if fd_isFile f then []
  else if fd_array f === u8 "false" then
    (if valueTrue (fd_value f) then [(fd_pname f, valueText (fd_value f))] else [])
  else [(fd_pname f, match fd_value f with VList l => joinWith (u8 ",") l | VText _ => [] end)].

Definition formParts (f : Field) : list (jstr * (File + jstr)) :=
  if fd_array f === u8 "false" then
    match (if fd_isFile f then fd_file f else None) with
    | Some x => [(fd_pname f, inl x)]
    | None =>
        if valueTrue (fd_value f) then [(fd_pname f, inr (valueText (fd_value f)))] else []
    end
  else match fd_value f with
       | VList l => [(fd_pname f, inr (joinWith (u8 ",") l))]
       | VText _ => []
       end.

(** The body that the field of a form without properties gives. *)
Definition dynamicBody (f : Field) : option Body :=
  let e := valueText (fd_value f) in
  if truthy e then
    match parseJson e with
    | Some n => Some (BParams (map (fun x => (x.1, stringify x.2)) (entriesOf n)))
    | None => None
    end
  else None.

Definition buildFetchBody (p : Panel) : option Body :=
  match pn_bodyType p with
  | None => None
  | Some s =>
      if includes s (u8 "form-urlencoded") then
        match withPtype (u8 "dynamic-form") p with
        | f :: _ => dynamicBody f
        | [] => Some (BParams (flat_map urlencodedPairs (withPtype (u8 "form-urlencode") p)))
        end
      else if includes s (u8 "form-data") then
        Some (BForm (flat_map formParts (withPtype (u8 "form-data") p)))
      else if binaryType s then BFile <$> pn_bodyFile p
      else if includes s (u8 "json") || includes s (u8 "xml") || includes s (u8 "text") then
        BText <$> nonempty (pn_userInput p)
      else None
  end.

(** ** The command line *)

(** The parts of a header's value that are kept: the list that positions are looked up in
    is the one before its parts were trimmed. *)
Fixpoint positionOf (e : jstr) (l : list jstr) (i : nat) : option nat :=
  match l with
  | [] => None
  | x :: r => if x === e then Some i else positionOf e r (S i)
  end.

Definition keptParts (value : jstr) : list jstr :=
  let s := splitOn 44 value in
  flat_map (fun x => x)
    (imap (fun t e => if bool_decide (positionOf e s 0 = Some t) then [e] else [])
       (map trim s)).

Definition tidyHeader (h : Headers) (name : jstr) : Headers :=
  setHeader name (joinWith (u8 ", ") (keptParts (headerValue name h))) h.

Definition tidyHeaders (h : Headers) : Headers := foldl tidyHeader h (headerNames h).

Definition newline : jstr := u8 "" ++ [10].

Definition headerOption (e : jstr * jstr) : jstr :=
  u8 " -H '" ++ e.1 ++ u8 ": " ++ e.2 ++ u8 "'".

(** The matches of [/([^,],)/gm]: a unit that is no comma, and a comma after it. *)
Fixpoint commaPairs (s : jstr) : list jstr :=
  match s with
  | a :: r =>
      match r with
      | b :: r' => if negb (a =? 44) && (b =? 44) then [a; b] :: commaPairs r' else commaPairs r
      | [] => []
      end
  | [] => []
  end.

Definition formOption (e : jstr * (File + jstr)) : list jstr :=
  match e.2 with
  | inl f => [u8 " -F " ++ [34] ++ e.1 ++ u8 "=@" ++ fl_name f ++ [34]]
  | inr s =>
      match commaPairs s with
      | [] => [u8 " -F " ++ [34] ++ e.1 ++ u8 "=" ++ s ++ [34]]
      | l => map (fun m => u8 "-F " ++ [34] ++ e.1 ++ u8 "[]=" ++ m ++ [34]) l
      end
  end.

(** [v.replace(/'/g, "'\"'\"'")] *)
Definition shellQuotes (s : jstr) : jstr :=
  flat_map (fun c => if c =? 39 then [39; 34; 39; 34; 39] else [c]) s.

(** The [-d] of the text in the editor. *)
Definition dataOption (type_ value : jstr) : jstr :=
  match (if includes type_ (u8 "json") then parseJson value else None) with
  | Some v => u8 " -d '" ++ stringify v ++ u8 "' " ++ newline
  | None => u8 " -d '" ++ shellQuotes value ++ u8 "' " ++ newline
  end.

(** What the body adds to the command, and the body after: a text in the editor becomes
    the body. *)
Definition curlBody (p : Panel) (body : option Body) : jstr * option Body :=
  match body with
  | Some (BParams l) => (u8 " -d " ++ formString l ++ u8 " " ++ newline, body)
  | Some (BFile f) => (u8 " --data-binary @" ++ fl_name f ++ u8 " " ++ newline, body)
  | Some (BForm l) => (joinWith newline (flat_map formOption l), body)
  | _ =>
      match nonempty (pn_bodyType p), nonempty (pn_userInput p) with
      | Some t, Some v => (dataOption t v, Some (BText v))
      | _, _ => ([], body)
      end
  end.

(** [generateCURLSyntax]: the command, and the headers and the body as it leaves them. *)
Definition generateCURLSyntax (method url : jstr) (h : Headers) (body : option Body)
    (p : Panel) : jstr * Headers * option Body :=
  let n := if startsWith (u8 "http") url then url else resolveUrl url in
  let i := u8 "curl -X " ++ toUpperCase method ++ [32; 34] ++ n ++ [34; 32] ++ newline in
  let h := tidyHeaders h in
  let o := joinWith newline (map headerOption (headerEntries h)) in
  let o := if truthy o then o ++ u8 " " ++ newline else [] in
  let b := curlBody p body in
  (i ++ o ++ b.1, h, b.2).

End request.
