(* ===== verification/RapidocRequestFacts.v ===== *)
(** * RapiDoc: what the request carries

    Properties of the request that [RapidocRequest] builds: the values of the path stay in
    their segments ([path_value_one_segment]), the query is read back as what the fields
    hold ([url_carries_fields]), a shell reads the text of the editor back
    ([shell_reads_body]), and what showing the command does to the headers
    ([tidied_two], [tidied_plain], [key_reaches_request]). *)

From stdpp Require Import strings numbers list sets.
From S2P Require Import Prelude JsString Html RapidocUrl RapidocSpec RapidocElement.
From S2P Require Import RapidocJson RapidocJsonText RapidocRequest.

Open Scope N_scope.

(** ** The path *)

(** A template of a path: segments of texts and of named places. *)
Inductive piece := Lit (s : jstr) | Var (n : jstr).

Definition place (n : jstr) : jstr := 123 :: n ++ [125].
Definition pieceText (c : piece) : jstr := match c with Lit s => s | Var n => place n end.
Definition piecesText (l : list piece) : jstr := flat_map pieceText l.

Definition places (l : list piece) : list jstr :=
  flat_map (fun c => match c with Var n => [n] | Lit _ => [] end) l.

(** None of [l] is in the text. *)
Definition avoids (l : list N) (s : jstr) : bool :=
  forallb (fun u => negb (existsb (N.eqb u) l)) s.

Lemma avoids_not l s c : avoids l s = true -> c ∈ l -> c ∉ s.
Proof.
  unfold avoids. intros Hs Hc Hi. rewrite forallb_forall in Hs.
  specialize (Hs c (proj1 (list_elem_of_In _ _) Hi)). apply negb_true_iff in Hs.
  rewrite <- not_true_iff_false in Hs. apply Hs. apply existsb_exists. exists c.
  split; [by apply list_elem_of_In|apply N.eqb_refl].
Qed.

(** A name, and a piece, in which no other place starts, and no query. *)
Definition okName (n : jstr) : bool := avoids [123; 125; 63] n.
Definition okPiece (c : piece) : bool :=
  match c with Lit s => avoids [123; 63] s | Var n => okName n end.

(** The places with their values. *)
Definition fill (n v : jstr) (c : piece) : piece :=
  match c with Var m => if m === n then Lit v else c | Lit _ => c end.

Lemma startsWith_place n m r :
  okName n = true -> okName m = true ->
  startsWith (place n) (place m ++ r) = (m === n).
Proof.
  unfold okName, avoids. intros Hn Hm. unfold place. cbn [app startsWith]. simpl (123 =? 123). rewrite andb_true_l.
  revert m Hm. induction n as [|x n IH]; intros [|y m] Hm; cbn [app startsWith].
  - by rewrite bool_decide_true.
  - cbn [forallb] in Hm. bool_simpl. rewrite bool_decide_false by done.
    destruct (N.eqb_spec 125 y) as [<-|]; done.
  - cbn [forallb] in Hn. bool_simpl. rewrite bool_decide_false by done.
    destruct (N.eqb_spec x 125) as [->|]; done.
  - cbn [forallb] in Hn, Hm. apply andb_true_iff in Hn as [_ Hn], Hm as [_ Hm].
    rewrite IH by done. destruct (N.eqb_spec x y) as [->|Hne]; cbn [andb].
    + apply bool_decide_ext. split; [by intros ->|by intros [= ->]].
    + symmetry. apply bool_decide_false. by intros [= ->].
Qed.

Lemma indexOfAux_skip t s r i :
  t <> [] -> (forall c, c ∈ s -> Some c <> head t) ->
  indexOfAux t (s ++ r) i = indexOfAux t r (i + length s).
Proof.
  intros Ht. revert i. induction s as [|c s IH]; intros i H; [by rewrite Nat.add_0_r|].
  destruct t as [|x t]; [done|].
  assert (Hc : (x =? c) = false).
  { apply N.eqb_neq. intros ->. by apply (H c); [left|]. }
  cbn [app indexOfAux startsWith]. rewrite Hc. cbn [andb length].
  rewrite IH by (intros d Hd; apply H; by right). f_equal. lia.
Qed.

Lemma indexOfAux_shift t s i : indexOfAux t s i = (fun k => (i + k)%nat) <$> indexOfAux t s 0.
Proof.
  revert i. induction s as [|c s IH]; intros i; cbn [indexOfAux].
  - destruct (startsWith t []); simpl; [f_equal; lia|done].
  - destruct (startsWith t (c :: s)); [simpl; f_equal; lia|].
    rewrite (IH (S i)), (IH 1%nat). destruct (indexOfAux t s 0); simpl; [f_equal; lia|done].
Qed.

Lemma indexOf_start t s : indexOf t s 0 = indexOfAux t s 0.
Proof. done. Qed.

(** A text in which no place can start stays in front. *)
Lemma replaceFirst_skip n v s r :
  123 ∉ s -> replaceFirst (place n) v (s ++ r) = s ++ replaceFirst (place n) v r.
Proof.
  intros Hs. unfold replaceFirst. rewrite !indexOf_start.
  rewrite indexOfAux_skip; [|done|intros c Hc [= ->]; done].
  rewrite indexOfAux_shift. destruct (indexOfAux _ r 0) as [k|]; cbn [fmap option_fmap option_map]; [|done].
  rewrite Nat.add_0_l. rewrite take_app_add, <- Nat.add_assoc, drop_app_add, <- app_assoc. done.
Qed.

Lemma replaceFirst_place n v m r :
  okName n = true -> okName m = true ->
  replaceFirst (place n) v (place m ++ r)
  = if m === n then v ++ r else place m ++ replaceFirst (place n) v r.
Proof.
  intros Hn Hm. destruct (bool_decide_reflect (m = n)) as [->|Hne].
  - unfold replaceFirst. rewrite indexOf_start.
    assert (E : indexOfAux (place n) (place n ++ r) 0 = Some 0%nat).
    { unfold place at 2. cbn [app indexOfAux].
      change (123 :: (n ++ [125]) ++ r) with (place n ++ r). by rewrite startsWith_app. }
    rewrite E. simpl. change (S (length (n ++ [125]))) with (length (place n)).
    by rewrite drop_app_length.
  - assert (Hr : 123 ∉ m ++ [125]).
    { rewrite elem_of_app, list_elem_of_singleton. intros [H|H]; [|done].
      by apply (avoids_not [123; 125; 63] m 123); [|left|]. }
    change (place m ++ r) with ([123] ++ (m ++ [125]) ++ r).
    change (place m ++ replaceFirst (place n) v r)
      with ([123] ++ (m ++ [125]) ++ replaceFirst (place n) v r).
    rewrite <- (replaceFirst_skip n v (m ++ [125]) r) by done.
    unfold replaceFirst at 1. rewrite indexOf_start.
    assert (E : startsWith (place n) ([123] ++ (m ++ [125]) ++ r) = false).
    { pose proof (startsWith_place n m r Hn Hm) as H. unfold place in H at 2.
      cbn [app] in H |- *. rewrite H. by apply bool_decide_false. }
    assert (E2 : indexOfAux (place n) ([123] ++ (m ++ [125]) ++ r) 0
                 = indexOfAux (place n) ((m ++ [125]) ++ r) 1).
    { cbn [app indexOfAux] in E |- *. by rewrite E. }
    rewrite E2, indexOfAux_shift. unfold replaceFirst. rewrite indexOf_start.
    by destruct (indexOfAux _ ((m ++ [125]) ++ r) 0).
Qed.

Lemma fill_absent n v l : n ∉ places l -> map (fill n v) l = l.
Proof.
  induction l as [|[s|m] l IH]; cbn [map places flat_map app]; [done|by intros; rewrite IH|].
  rewrite not_elem_of_cons. intros [Hne H]. rewrite IH by done. simpl.
  by rewrite bool_decide_false.
Qed.

(** A value takes the place of its name. *)
Lemma replaceFirst_pieces n v l :
  okName n = true -> forallb okPiece l = true -> NoDup (places l) ->
  replaceFirst (place n) v (piecesText l) = piecesText (map (fill n v) l).
Proof.
  intros Hn. induction l as [|c l IH]; [by unfold replaceFirst|]. cbn [forallb].
  intros Hl Hd. apply andb_true_iff in Hl as [Hc Hl].
  change (piecesText (c :: l)) with (pieceText c ++ piecesText l).
  destruct c as [s|m].
  - rewrite replaceFirst_skip by (by apply (avoids_not [123; 63] s); [|left]).
    by rewrite IH.
  - cbn [places flat_map app] in Hd. apply NoDup_cons in Hd as [Hm Hd].
    cbn [pieceText]. rewrite replaceFirst_place by done. cbn [map fill].
    destruct (bool_decide_reflect (m = n)) as [->|Hne].
    + by rewrite fill_absent.
    + by rewrite IH.
Qed.

(** The places with the values of a list, one after the other. *)
Definition fillAll (vs : list (jstr * jstr)) (l : list piece) : list piece :=
  foldl (fun l nv => map (fill nv.1 nv.2) l) l vs.

Lemma fillAll_app vs l k : fillAll vs (l ++ k) = fillAll vs l ++ fillAll vs k.
Proof.
  unfold fillAll. revert l k. induction vs as [|[n v] vs IH]; intros l k; [done|].
  cbn [foldl]. by rewrite map_app, IH.
Qed.

Lemma fillAll_lit vs s : fillAll vs [Lit s] = [Lit s].
Proof. unfold fillAll. by induction vs. Qed.

Lemma places_fill n v l : sublist (places (map (fill n v) l)) (places l).
Proof.
  induction l as [|[s|m] l IH]; [done|done|]. cbn [map fill].
  destruct (m === n); cbn [places flat_map app]; [by apply sublist_cons|by apply sublist_skip].
Qed.

(** The values of the fields of the path, encoded. *)
Definition encodedField (f : Field) : option (jstr * jstr) :=
  v ← encodeURIComponent (valueText (fd_value f)); Some (fd_pname f, v).
Definition pathValues (fs : list Field) : option (list (jstr * jstr)) := mapM encodedField fs.

Definition okField (f : Field) : bool :=
  avoids [123; 125; 63; 47] (fd_pname f) && units (valueText (fd_value f)).

Lemma avoids_weaken l l' s : (forall c, c ∈ l -> c ∈ l') -> avoids l' s = true -> avoids l s = true.
Proof.
  unfold avoids. intros Hl H. rewrite forallb_forall in *. intros c Hc. specialize (H c Hc).
  rewrite negb_true_iff, <- not_true_iff_false, existsb_exists in *. intros (x & Hx & E).
  apply H. exists x. split; [|done]. apply list_elem_of_In, Hl. by apply list_elem_of_In.
Qed.

Lemma avoids_intro l s : (forall c, c ∈ l -> c ∉ s) -> avoids l s = true.
Proof.
  unfold avoids. intros H. apply forallb_forall. intros c Hc.
  rewrite negb_true_iff, <- not_true_iff_false, existsb_exists. intros (x & Hx & E).
  apply N.eqb_eq in E as ->. apply list_elem_of_In in Hx, Hc. by apply (H x).
Qed.

Lemma encodedField_ok f nv :
  okField f = true -> encodedField f = Some nv ->
  nv.1 = fd_pname f /\ avoids [123; 63; 47; 38; 61; 35; 36] nv.2 = true
  /\ unescape nv.2 = utf8 (valueText (fd_value f)).
Proof.
  unfold okField, encodedField. intros H. apply andb_true_iff in H as [_ H].
  destruct (encodeURIComponent _) as [v|] eqn:E; [|done]. intros [= <-]. cbn [fst snd].
  split; [done|]. split; [|by apply unescape_component].
  apply avoids_intro. intros c Hc. apply (component_avoids _ _ c H E).
  rewrite !elem_of_cons, elem_of_nil in Hc. repeat destruct Hc as [->|Hc]; done.
Qed.

Lemma fill_okPiece n v c : avoids [123; 63] v = true -> okPiece c = true -> okPiece (fill n v c) = true.
Proof. destruct c as [s|m]; [done|]. simpl. by destruct (m === n). Qed.

(** The loop of the path puts every value in its place. *)
Lemma putPath_fold fs vs l :
  forallb okField fs = true -> pathValues fs = Some vs ->
  forallb okPiece l = true -> NoDup (places l) ->
  foldl putPath (Some (piecesText l)) fs = Some (piecesText (fillAll vs l)).
Proof.
  revert vs l. induction fs as [|f fs IH]; intros vs l Hf Hv Hl Hd.
  - injection Hv as <-. done.
  - cbn [forallb] in Hf. apply andb_true_iff in Hf as [Hf Hfs].
    unfold pathValues in Hv. cbn [mapM] in Hv.
    destruct (encodedField f) as [nv|] eqn:E; [|done]. cbn [mbind option_bind] in Hv.
    destruct (mapM encodedField fs) as [ws|] eqn:Ews; [|done]. injection Hv as <-.
    destruct (encodedField_ok f nv Hf E) as (Hn & Ha & _).
    unfold encodedField in E. destruct (encodeURIComponent _) as [v|] eqn:Ev; [|done].
    injection E as <-. cbn [fst snd] in *. clear Hn.
    apply andb_true_iff in Hf as [Hf _].
    cbn [foldl]. unfold putPath at 2. cbn [mbind option_bind]. rewrite Ev. cbn [mbind option_bind].
    change (u8 "{" ++ fd_pname f ++ u8 "}") with (place (fd_pname f)).
    rewrite replaceFirst_pieces; [|by eapply avoids_weaken; [|exact Hf]; set_solver|done..].
    unfold fillAll. cbn [foldl fst snd]. apply IH; [done|done| |].
    + clear -Hl Ha. induction l as [|c l IH]; [done|]. cbn [map forallb] in *. bool_simpl.
      rewrite fill_okPiece; [by apply IH| |done]. eapply avoids_weaken; [|exact Ha]. set_solver.
    + eapply sublist_NoDup; [done|apply places_fill].
Qed.

(** A path of segments. *)
Definition pathPieces (segs : list (list piece)) : list piece :=
  flat_map (fun s => Lit [47] :: s) segs.
Definition pathText (segs : list (list piece)) : jstr := piecesText (pathPieces segs).

Definition okSegment (c : piece) : bool :=
  match c with Lit s => avoids [123; 63; 47] s | Var n => avoids [123; 125; 63; 47] n end.

Lemma fillAll_path vs segs : fillAll vs (pathPieces segs) = pathPieces (map (fillAll vs) segs).
Proof.
  induction segs as [|s segs IH]; [by unfold fillAll; induction vs|].
  unfold pathPieces in *. cbn [flat_map map]. rewrite fillAll_app, IH. f_equal.
  change (Lit [47] :: s) with ([Lit [47]] ++ s). by rewrite fillAll_app, fillAll_lit.
Qed.

Lemma okSegment_piece c : okSegment c = true -> okPiece c = true.
Proof. destruct c; simpl; apply avoids_weaken; set_solver. Qed.

Lemma fillAll_okSegment vs l :
  Forall (fun nv => avoids [123; 63; 47] nv.2 = true) vs ->
  forallb okSegment l = true -> forallb okSegment (fillAll vs l) = true.
Proof.
  unfold fillAll. intros Hv. revert l. induction Hv as [|[n v] vs Hn Hv IH]; intros l Hl; [done|].
  cbn [foldl]. apply IH. clear -Hl Hn. induction l as [|c l IH]; [done|].
  cbn [map forallb] in *. bool_simpl. rewrite IH by done. rewrite andb_true_r.
  destruct c as [s|m]; [done|]. simpl. by destruct (m === n).
Qed.

Lemma okSegment_text l c :
  forallb okSegment l = true -> c ∈ [47; 63] -> c ∉ piecesText l.
Proof.
  intros Hl Hc. induction l as [|[s|m] l IH]; cbn [forallb okSegment] in Hl; [set_solver|..];
    apply andb_true_iff in Hl as [Hx Hl];
    change (piecesText (?x :: l)) with (pieceText x ++ piecesText l);
    unfold piecesText in *; cbn [flat_map pieceText]; rewrite elem_of_app;
    intros [H|H]; try by apply IH.
  - by apply (avoids_not [123; 63; 47] s c); [|set_solver|].
  - unfold place in H. rewrite elem_of_cons, elem_of_app, list_elem_of_singleton in H.
    destruct H as [->|[H| ->]]; [set_solver| |set_solver].
    by apply (avoids_not [123; 125; 63; 47] m c); [|set_solver|].
Qed.

Lemma splitOn_path segs :
  forallb (forallb okSegment) segs = true ->
  splitOn 47 (pathText segs) = [] :: map piecesText segs.
Proof.
  intros H. destruct segs as [|s segs]; [done|].
  assert (E : forall s segs, pathText (s :: segs) = 47 :: piecesText s ++ pathText segs).
  { intros. unfold pathText, pathPieces. cbn [flat_map]. unfold piecesText.
    cbn [flat_map app pieceText]. by rewrite flat_map_app. }
  assert (HS : forall segs, forallb (forallb okSegment) segs = true -> forall s,
            47 ∉ s -> splitOn 47 (s ++ pathText segs) = s :: map piecesText segs).
  { clear -E. induction segs as [|x segs IH]; intros H s Hs.
    - change (pathText []) with (@nil N). rewrite app_nil_r. by apply splitOn_none.
    - cbn [forallb] in H. apply andb_true_iff in H as [Hx H]. rewrite E.
      rewrite splitOn_app by done. rewrite IH; [done|done|].
      apply okSegment_text; [done|set_solver]. }
  change (pathText (s :: segs)) with ([] ++ pathText (s :: segs)). apply HS; [done|set_solver].
Qed.

(** ** The query *)

(** A text with a query of parts. *)
Definition withQuery (base : jstr) (parts : list jstr) : jstr :=
  match parts with [] => base | _ => base ++ [63] ++ joinWith [38] parts end.

Lemma includes_unit s c : includes s [c] = true <-> c ∈ s.
Proof.
  unfold includes. pose proof (occurs_indexOf [c] s ltac:(done)) as H.
  transitivity (occurs [c] s).
  - rewrite H. destruct (indexOf [c] s 0); split; try done; eauto.
  - split; [intros (a & b & ->); set_solver|]. intros Hc. apply list_elem_of_split in Hc as (a & b & ->).
    by exists a, b.
Qed.

Lemma joiner_withQuery base parts :
  63 ∉ base -> joiner (withQuery base parts) = match parts with [] => [63] | _ => [38] end.
Proof.
  intros Hb. unfold joiner. change (u8 "?") with [63]. destruct parts as [|x parts]; simpl.
  - destruct (includes base [63]) eqn:E; [|done]. by apply includes_unit in E.
  - rewrite (proj2 (includes_unit _ _)); [done|set_solver].
Qed.

Lemma joinWith_app s l x : l <> [] -> joinWith s (l ++ [x]) = joinWith s l ++ s ++ x.
Proof.
  destruct l as [|y l]; [done|]. intros _. cbn [app joinWith]. rewrite flat_map_app.
  cbn [flat_map]. by rewrite app_nil_r, app_assoc.
Qed.

(** One more part. *)
Lemma withQuery_snoc base parts x :
  63 ∉ base -> withQuery base parts ++ joiner (withQuery base parts) ++ x
               = withQuery base (parts ++ [x]).
Proof.
  intros Hb. rewrite joiner_withQuery by done. destruct parts as [|y parts].
  - simpl. by rewrite app_nil_r.
  - change (withQuery base ((y :: parts) ++ [x]))
      with (base ++ [63] ++ joinWith [38] ((y :: parts) ++ [x])).
    rewrite joinWith_app by done. unfold withQuery. by rewrite <- !app_assoc.
Qed.

Definition keyName (k : SecurityScheme) : jstr := default (u8 "undefined") (ss_name k).

(** The text of a key in the query. *)
Definition keyText (k : SecurityScheme) : option jstr :=
  v ← encodeURIComponent (ss_finalKeyValue k); Some (keyName k ++ [61] ++ v).

Lemma putKeys base parts ks ts :
  63 ∉ base -> mapM keyText ks = Some ts ->
  foldl putKeyParam (Some (withQuery base parts)) ks = Some (withQuery base (parts ++ ts)).
Proof.
  intros Hb. revert parts ts. induction ks as [|k ks IH]; intros parts ts H.
  - injection H as <-. simpl. by rewrite app_nil_r.
  - cbn [mapM] in H. destruct (keyText k) as [x|] eqn:E; [|done]. cbn [mbind option_bind] in H.
    destruct (mapM keyText ks) as [xs|] eqn:Exs; [|done]. injection H as <-.
    unfold keyText in E. destruct (encodeURIComponent _) as [v|] eqn:Ev; [|done]. injection E as <-.
    cbn [foldl]. unfold putKeyParam at 2. cbn [mbind option_bind]. rewrite Ev.
    cbn [mbind option_bind]. change (default (u8 "undefined") (ss_name k)) with (keyName k).
    change (u8 "=") with [61]. rewrite withQuery_snoc by done.
    rewrite (IH _ xs) by done. by rewrite <- app_assoc.
Qed.

Section url.
Context {CM : CaseMapping} {LC : Locale} {NM : Numerals}.

Definition ownQuery (p : Panel) : list jstr :=
  match queryText (collectQuery p) with [] => [] | a => [a] end.

Lemma buildFetchURL_parts srv segs keys p vs ts :
  forallb okField (withPtype (u8 "path") p) = true ->
  pathValues (withPtype (u8 "path") p) = Some vs ->
  mapM keyText (keysIn (u8 "query") keys) = Some ts ->
  forallb (forallb okSegment) segs = true -> NoDup (places (pathPieces segs)) ->
  buildFetchURL srv (pathText segs) keys p
  = Some (dropSlash srv ++ withQuery (pathText (map (fillAll vs) segs)) (ownQuery p ++ ts))
  /\ 63 ∉ pathText (map (fillAll vs) segs)
  /\ splitOn 47 (pathText (map (fillAll vs) segs))
     = [] :: map (fun s => piecesText (fillAll vs s)) segs
  /\ Forall2 (fun f nv => nv.1 = fd_pname f /\ unescape nv.2 = utf8 (valueText (fd_value f)))
       (withPtype (u8 "path") p) vs.
Proof.
  intros Hf Hv Hk Hs Hd.
  assert (HF : Forall2 (fun f nv => nv.1 = fd_pname f /\ avoids [123; 63; 47; 38; 61; 35; 36] nv.2 = true
                          /\ unescape nv.2 = utf8 (valueText (fd_value f)))
                 (withPtype (u8 "path") p) vs).
  { apply mapM_Some in Hv. revert Hf. induction Hv as [|f nv fs vs E Hv IH]; [constructor|].
    cbn [forallb]. intros H. apply andb_true_iff in H as [Hf Hfs].
    constructor; [by apply encodedField_ok|auto]. }
  assert (Hvs : Forall (fun nv => avoids [123; 63; 47] nv.2 = true) vs).
  { eapply Forall2_Forall_r; [exact HF|]. apply Forall_forall. intros f _ nv (_ & Ha & _).
    eapply avoids_weaken; [|exact Ha]. set_solver. }
  assert (Hs' : forallb (forallb okSegment) (map (fillAll vs) segs) = true).
  { clear -Hs Hvs. induction segs as [|s segs IH]; [done|]. cbn [map forallb] in *. bool_simpl.
    rewrite IH by done. by rewrite fillAll_okSegment. }
  assert (Hq : 63 ∉ pathText (map (fillAll vs) segs)).
  { clear -Hs'. induction segs as [|s segs IH]; [set_solver|]. cbn [map forallb] in *. bool_simpl.
    unfold pathText, pathPieces in *. cbn [flat_map]. unfold piecesText in *. cbn [flat_map app pieceText].
    rewrite flat_map_app. rewrite elem_of_cons, elem_of_app. intros [?|[H'|H']]; [done| |by apply IH].
    by eapply okSegment_text in H'; [| |set_solver]. }
  assert (Hp : forallb okPiece (pathPieces segs) = true).
  { clear -Hs. unfold pathPieces. induction segs as [|s segs IH]; [done|]. cbn [forallb flat_map app] in *.
    bool_simpl. rewrite forallb_app, IH by done. rewrite andb_true_r. cbn [okPiece].
    apply forallb_forall. intros c Hc. apply okSegment_piece. by eapply forallb_forall in H. }
  split_and!; [|done| |].
  - unfold buildFetchURL. unfold pathText at 1.
    rewrite (putPath_fold _ vs) by done. cbn [mbind option_bind]. rewrite fillAll_path.
    change (piecesText (pathPieces ?x)) with (pathText x).
    set (path := pathText (map (fillAll vs) segs)) in *.
    assert (E : match queryText (collectQuery p) with
                | [] => path | _ => path ++ joiner path ++ queryText (collectQuery p) end
                = withQuery path (ownQuery p)).
    { unfold ownQuery. destruct (queryText _) as [|c a]; [done|].
      change (joiner path) with (joiner (withQuery path [])). rewrite joiner_withQuery by done.
      unfold withQuery. simpl. by rewrite app_nil_r. }
    cbv zeta. rewrite E. by rewrite (putKeys _ _ _ ts).
  - rewrite splitOn_path by done. by rewrite map_map.
  - eapply Forall2_impl; [exact HF|]. by intros ? ? (? & ? & ?).
Qed.

(** C28: The path of the request that the console builds has the segments of the
    operation's path: each value takes its place inside its own segment, escaped so that
    the receiver reads back its bytes, and adds no segment, query or fragment, whatever
    the visitor typed. *)
Theorem path_value_one_segment srv segs keys p vs ts :
  forallb okField (withPtype (u8 "path") p) = true ->
  pathValues (withPtype (u8 "path") p) = Some vs ->
  mapM keyText (keysIn (u8 "query") keys) = Some ts ->
  forallb (forallb okSegment) segs = true -> NoDup (places (pathPieces segs)) ->
  exists path tail,
    buildFetchURL srv (pathText segs) keys p = Some (dropSlash srv ++ path ++ tail)
    /\ splitOn 47 path = [] :: map (fun s => piecesText (fillAll vs s)) segs
    /\ 63 ∉ path /\ (tail = [] \/ head tail = Some 63)
    /\ Forall2 (fun f nv => nv.1 = fd_pname f /\ unescape nv.2 = utf8 (valueText (fd_value f)))
         (withPtype (u8 "path") p) vs.
Proof.
  intros Hf Hv Hk Hs Hd.
  destruct (buildFetchURL_parts srv segs keys p vs ts Hf Hv Hk Hs Hd) as (E & Hq & Hsp & HF).
  set (path := pathText (map (fillAll vs) segs)) in *.
  destruct (ownQuery p ++ ts) as [|x l] eqn:Eq.
  - exists path, []. rewrite E, app_nil_r. split_and!; auto.
  - exists path, ([63] ++ joinWith [38] (x :: l)). rewrite E. split_and!; auto.
Qed.

(** *** What the query holds *)

(** The pairs that the fields hold, in the order of the document. *)
Definition objectSent (f : Field) : list (jstr * jstr) := default [] (objectPairs f).
Definition sent (p : Panel) : list (jstr * jstr) :=
  flat_map queryPairs (withPtype (u8 "query") p)
  ++ flat_map objectSent (withPtype (u8 "query-object") p).

Definition queryFields (p : Panel) : list Field :=
  withPtype (u8 "query") p ++ withPtype (u8 "query-object") p.

Definition escaped (f : Field) : bool := negb (fd_allowReserved f === u8 "true").

Definition entries (l : list (jstr * list (jstr * jstr))) : list (jstr * jstr) :=
  flat_map snd l.

(** The collected entries: their names are new, none is empty, none is kept unescaped. *)
Definition okQuery (q : Query) : Prop :=
  q.2 = [] /\ Forall (fun e => e.2 <> []) q.1.

Lemma assocSet_new {A} k (v : A) o : k ∉ (o.*1) -> assocSet k v o = o ++ [(k, v)].
Proof.
  induction o as [|[k' v'] o IH]; [done|]. csimpl. rewrite not_elem_of_cons. intros [Hne H].
  rewrite bool_decide_false by done. by rewrite IH.
Qed.

Lemma addPairs_new name l q :
  name ∉ (q.1.*1) -> okQuery q ->
  okQuery (addPairs name l q) /\ entries (addPairs name l q).1 = entries q.1 ++ l
  /\ (forall n, n ∈ ((addPairs name l q).1.*1) -> n = name \/ n ∈ (q.1.*1)).
Proof.
  intros Hn [Hq1 Hq2]. unfold addPairs. destruct l as [|x l]; [rewrite app_nil_r; split_and!; [by split|done|by auto]|].
  cbn [fst snd]. rewrite assocSet_new by done. split_and!.
  - split; [done|]. apply Forall_app. split; [done|]. by repeat constructor.
  - unfold entries. rewrite flat_map_app. simpl. by rewrite app_nil_r.
  - intros n. rewrite fmap_app, elem_of_app. csimpl. rewrite list_elem_of_singleton. tauto.
Qed.

(** A loop over fields with names of their own. *)
Lemma collect_fold (step : Query -> Field -> Query) (pairs : Field -> list (jstr * jstr)) fs q :
  (forall q f, escaped f = true -> step q f = addPairs (fd_pname f) (pairs f) q) ->
  forallb escaped fs = true -> NoDup (map fd_pname fs) ->
  (forall f, f ∈ fs -> fd_pname f ∉ (q.1.*1)) -> okQuery q ->
  okQuery (foldl step q fs) /\ entries (foldl step q fs).1 = entries q.1 ++ flat_map pairs fs
  /\ (forall n, n ∈ ((foldl step q fs).1.*1) -> n ∈ (q.1.*1) \/ n ∈ map fd_pname fs).
Proof.
  intros Hstep. revert q. induction fs as [|f fs IH]; intros q He Hd Hf Hq.
  - cbn. rewrite app_nil_r. auto.
  - cbn [forallb map foldl] in *. apply andb_true_iff in He as [He Hes].
    apply NoDup_cons in Hd as [Hnf Hd]. rewrite Hstep by done.
    destruct (addPairs_new (fd_pname f) (pairs f) q) as (Hq1 & Hq2 & Hq3); [by apply Hf; left|done|].
    destruct (IH (addPairs (fd_pname f) (pairs f) q) Hes Hd) as (H1 & H2 & H3); [|done|].
    + intros g Hg Hi. apply Hq3 in Hi as [Hi|Hi].
      * apply Hnf. rewrite <- Hi. by apply list_elem_of_fmap_2.
      * by apply (Hf g); [right|].
    + split_and!; [done| |].
      * rewrite H2, Hq2. cbn [flat_map]. by rewrite <- app_assoc.
      * intros n Hi. apply H3 in Hi as [Hi|Hi]; [|right; by right].
        apply Hq3 in Hi as [->|Hi]; [right; by left|by left].
Qed.

Lemma addField_pairs q f : escaped f = true -> addField q f = addPairs (fd_pname f) (queryPairs f) q.
Proof. unfold escaped, addField. by destruct (_ === _). Qed.

Lemma addObject_pairs q f : escaped f = true -> addObject q f = addPairs (fd_pname f) (objectSent f) q.
Proof.
  unfold escaped, addObject, objectSent. destruct (objectPairs f); [|done]. by destruct (_ === _).
Qed.

Lemma collectQuery_sent p :
  forallb escaped (queryFields p) = true -> NoDup (map fd_pname (queryFields p)) ->
  okQuery (collectQuery p) /\ entries (collectQuery p).1 = sent p.
Proof.
  unfold queryFields, collectQuery. rewrite forallb_app, map_app. intros He Hd.
  apply andb_true_iff in He as [He1 He2]. apply NoDup_app in Hd as (Hd1 & Hd & Hd2).
  destruct (collect_fold addField queryPairs (withPtype (u8 "query") p) ([], []))
    as (H1 & H2 & H3); [apply addField_pairs|done|done|intros ? _; apply not_elem_of_nil|by repeat constructor|].
  destruct (collect_fold addObject objectSent (withPtype (u8 "query-object") p)
             (foldl addField ([], []) (withPtype (u8 "query") p)))
    as (K1 & K2 & _); [apply addObject_pairs|done|done| |done|].
  - intros f Hf Hi. apply H3 in Hi as [Hi|Hi]; [by apply not_elem_of_nil in Hi|].
    apply (Hd _ Hi). by apply list_elem_of_fmap_2.
  - split; [done|]. by rewrite K2, H2.
Qed.

Lemma joinWith_join s (ls : list (list jstr)) :
  Forall (fun l => l <> []) ls -> joinWith s (map (joinWith s) ls) = joinWith s (concat ls).
Proof.
  intros H. destruct ls as [|l ls]; [done|]. apply Forall_cons in H as [Hl H].
  destruct l as [|x l]; [done|]. clear Hl. cbn [map joinWith concat app].
  rewrite flat_map_app, <- app_assoc. f_equal. f_equal.
  induction H as [|l' ls Hl' H IH]; [done|]. cbn [map flat_map concat].
  rewrite flat_map_app, IH. f_equal. destruct l' as [|y l']; [done|]. cbn [joinWith flat_map].
  by rewrite app_assoc.
Qed.

Lemma sliceLast_parts c (l : list jstr) :
  l <> [] -> sliceLast (flat_map (fun e => e ++ [c]) l) = joinWith [c] l.
Proof.
  intros Hne. assert (E : flat_map (fun e => e ++ [c]) l = joinWith [c] l ++ [c]).
  { destruct l as [|x l]; [done|]. clear Hne. cbn [joinWith flat_map]. revert x.
    induction l as [|y l IH]; intros x; cbn [flat_map]; [by rewrite !app_nil_r|].
    rewrite IH. rewrite <- !app_assoc. done. }
  rewrite E. unfold sliceLast. rewrite length_app. simpl. rewrite Nat.add_1_r. simpl.
  apply take_app_length.
Qed.

(** The text of a query is its pairs. *)
Lemma queryText_pairs q :
  okQuery q -> queryText q = joinWith [38] (map formPair (entries q.1))
  /\ (queryText q = [] -> entries q.1 = []).
Proof.
  destruct q as [l r]. intros [Hr Hl]. cbn [fst snd] in *. subst r.
  destruct l as [|e l]; [done|].
  assert (E : queryText (e :: l, []) = joinWith [38] (map formPair (entries (e :: l)))).
  { unfold queryText. cbn [fst snd].
    assert (Hp : forall l, flat_map (queryPart []) l
                = flat_map (fun x => x ++ [38]) (map (fun e => formString e.2) l)).
    { clear. induction l as [|e l IH]; [done|]. cbn [flat_map map]. by rewrite IH. }
    rewrite Hp, sliceLast_parts by done. unfold formString.
    rewrite <- (map_map (fun e => map formPair e.2) (joinWith [38])), joinWith_join.
    - f_equal. unfold entries. clear. induction (e :: l) as [|x m IH]; [done|].
      cbn [map concat flat_map]. by rewrite map_app, IH.
    - apply Forall_map. eapply Forall_impl; [exact Hl|]. intros [n [|? ?]]; done. }
  split; [done|]. rewrite E. apply Forall_cons in Hl as [He _].
  unfold entries. cbn [flat_map]. destruct e as [n [|x m]]; [done|]. cbn [snd app map joinWith].
  unfold formPair at 1. by destruct (formText x.1).
Qed.

(** A name of letters, digits and [-._] stands for itself. *)
Definition plainName (n : jstr) : bool :=
  forallb (fun c => isAlnum c || existsb (N.eqb c) [45; 46; 95]) n.

Lemma plain_utf8 n : plainName n = true -> utf8 n = n /\ unescape n = n.
Proof.
  induction n as [|c n IH]; [done|]. unfold plainName. cbn [forallb]. intros H.
  apply andb_true_iff in H as [Hc H]. destruct (IH H) as [IH1 IH2].
  assert (Hb : c < 128 /\ c <> 43 /\ c <> 37).
  { apply orb_true_iff in Hc as [Hc|Hc]; [apply isAlnum_spec in Hc; lia|]. simpl in Hc. lia. }
  destruct Hb as (H1 & H2 & H3). split.
  - unfold utf8 in *. cbn [scalars].
    assert (Eh : isHigh c = false) by (unfold isHigh; lia).
    assert (El : isLow c = false) by (unfold isLow; lia).
    rewrite Eh, El. cbn [flat_map]. rewrite IH1. unfold utf8Char.
    by rewrite (proj2 (N.ltb_lt _ _) H1).
  - rewrite unescape_plain by done. by rewrite IH2.
Qed.

Lemma plain_avoids n c : plainName n = true -> c ∈ [38; 61] -> c ∉ n.
Proof.
  intros H Hc Hi. unfold plainName in H. rewrite forallb_forall in H.
  specialize (H c (proj1 (list_elem_of_In _ _) Hi)).
  rewrite !elem_of_cons, elem_of_nil in Hc. by repeat destruct Hc as [->|Hc].
Qed.

(** A key whose name needs no escapes. *)
Definition okKey (k : SecurityScheme) : bool :=
  plainName (keyName k) && units (ss_finalKeyValue k) && wellFormed (ss_finalKeyValue k).

Definition keyPair (k : SecurityScheme) : jstr * jstr := (keyName k, ss_finalKeyValue k).

Definition utf8Pair (e : jstr * jstr) : list N * list N := (utf8 e.1, utf8 e.2).

Lemma keyText_read k :
  okKey k = true ->
  exists t, keyText k = Some t /\ t <> [] /\ 38 ∉ t /\ queryPair t = utf8Pair (keyPair k).
Proof.
  unfold okKey. intros H. apply andb_true_iff in H as [H Hw]. apply andb_true_iff in H as [Hp Hu].
  unfold keyText. destruct (encodeURIComponent _) as [v|] eqn:E.
  2:{ unfold encodeURIComponent in E. by rewrite Hw in E. }
  eexists. split; [reflexivity|]. split_and!.
  - by destruct (keyName k).
  - rewrite !elem_of_app, list_elem_of_singleton. intros [Hi|[Hi|Hi]]; [|done|].
    + by eapply plain_avoids in Hi; [| |left].
    + by eapply component_avoids in Hi.
  - unfold queryPair. change ([61] ++ v) with (61 :: v).
    rewrite cutAt_app by (apply plain_avoids; [done|set_solver]). cbn [fst snd].
    change (default [] (Some v)) with v.
    destruct (plain_utf8 _ Hp) as [E1 E2]. unfold utf8Pair, keyPair. cbn [fst snd].
    by rewrite E1, E2, (unescape_component _ _ Hu E).
Qed.

Lemma keyTexts_read ks :
  forallb okKey ks = true ->
  exists ts, mapM keyText ks = Some ts /\ Forall (fun t => t <> [] /\ 38 ∉ t) ts
             /\ map queryPair ts = map (fun k => utf8Pair (keyPair k)) ks.
Proof.
  induction ks as [|k ks IH]; cbn [forallb]; intros H; [by exists []|].
  apply andb_true_iff in H as [Hk H]. destruct (keyText_read k Hk) as (t & E & H1 & H2 & H3).
  destruct (IH H) as (ts & E' & Hf & Hm). exists (t :: ts). cbn [mapM]. rewrite E.
  cbn [mbind option_bind]. rewrite E'. split_and!; [done|by constructor|]. cbn [map]. by rewrite H3, Hm.
Qed.


End url.

(** ** The command line *)

Inductive quoting := Plain | Single | Double.

(** The first word of a text as a shell reads it, and what follows the word: [None] is a
    quote that does not end, or a unit that means something else to the shell. *)
Fixpoint shellWord (q : quoting) (s : jstr) : option (jstr * jstr) :=
  match s with
  | [] => match q with Plain => Some ([], []) | _ => None end
  | c :: r =>
      match q with
      | Plain =>
          if (c =? 32) || (c =? 10) then Some ([], s)
          else if c =? 39 then shellWord Single r
          else if c =? 34 then shellWord Double r
          else if isAlnum c || existsb (N.eqb c) [45; 46; 95; 47; 58; 64; 61] then
            cons1 c (shellWord Plain r)
          else None
      | Single => if c =? 39 then shellWord Plain r else cons1 c (shellWord Single r)
      | Double =>
          if c =? 34 then shellWord Plain r
          else if existsb (N.eqb c) [36; 96; 92; 33] then None
          else cons1 c (shellWord Double r)
      end
  end.

Lemma shellWord_quotes s r w t :
  shellWord Single r = Some (w, t) -> shellWord Single (shellQuotes s ++ r) = Some (s ++ w, t).
Proof.
  intros H. unfold shellQuotes. induction s as [|c s IH]; [done|]. cbn [flat_map].
  destruct (N.eqb_spec c 39) as [->|Hc].
  - cbn [app shellWord]. simpl (39 =? 39). simpl (34 =? 34). simpl (39 =? 34).
    cbn [shellWord app]. simpl. by rewrite IH.
  - cbn [app shellWord]. rewrite (proj2 (N.eqb_neq _ _) Hc). by rewrite IH.
Qed.

Lemma shellWord_single s r w t :
  39 ∉ s -> shellWord Single r = Some (w, t) -> shellWord Single (s ++ r) = Some (s ++ w, t).
Proof.
  intros Hs H. induction s as [|c s IH]; [done|]. apply not_elem_of_cons in Hs as [Hc Hs].
  cbn [app shellWord]. rewrite (proj2 (N.eqb_neq _ _) (not_eq_sym Hc)). by rewrite IH.
Qed.

Section curl.
Context {CM : CaseMapping} {LC : Locale} {NM : Numerals} {OK : NumeralsOk NM}.

(** The text that follows the option in the command. *)
Definition dataWord (type_ value : jstr) : jstr := drop 4 (dataOption type_ value).

(** A shell that reads the command for [curl] hands [curl] what the editor holds: the
    text itself, whatever quotes, dollars and line breaks are in it, or, for a JSON type, a
    JSON text of the same value, provided that text has no single quote. *)
Theorem shell_reads_body type_ value :
  units value = true ->
  (forall v, includes type_ (u8 "json") = true -> parseJson value = Some v ->
     39 ∉ stringify v /\ allFinite v = true) ->
  exists w,
    shellWord Plain (dataWord type_ value) = Some (w, u8 " " ++ newline)
    /\ (w = value \/ exists v, parseJson value = Some v /\ parseJson w = Some v).
Proof.
  intros Hu H. unfold dataWord, dataOption.
  assert (E : shellWord Single (u8 "' " ++ newline) = Some ([], u8 " " ++ newline)) by reflexivity.
  destruct (includes type_ (u8 "json")); [destruct (parseJson value) as [v|] eqn:Ev|].
  - destruct (H v eq_refl eq_refl) as [Hq Hf]. exists (stringify v). split.
    + change (drop 4 (u8 " -d '" ++ stringify v ++ u8 "' " ++ newline))
        with (39 :: stringify v ++ u8 "' " ++ newline).
      cbn [shellWord]. simpl (39 =? 32). simpl (39 =? 10). simpl (39 =? 39). cbv iota.
      cbn [orb]. rewrite (shellWord_single _ _ [] _ Hq E). by rewrite app_nil_r.
    + right. exists v. split; [done|]. by eapply reread.
  - exists value. split; [|by left].
    change (drop 4 (u8 " -d '" ++ shellQuotes value ++ u8 "' " ++ newline))
      with (39 :: shellQuotes value ++ u8 "' " ++ newline).
    cbn [shellWord]. simpl (39 =? 32). simpl (39 =? 10). simpl (39 =? 39). cbv iota.
    cbn [orb]. rewrite (shellWord_quotes value _ [] _ E). by rewrite app_nil_r.
  - exists value. split; [|by left].
    change (drop 4 (u8 " -d '" ++ shellQuotes value ++ u8 "' " ++ newline))
      with (39 :: shellQuotes value ++ u8 "' " ++ newline).
    cbn [shellWord]. simpl (39 =? 32). simpl (39 =? 10). simpl (39 =? 39). cbv iota.
    cbn [orb]. rewrite (shellWord_quotes value _ [] _ E). by rewrite app_nil_r.
Qed.

End curl.

(** A JSON text with a single quote ends the quoted word early: the shell waits for more. *)
Lemma json_quote_open :
  let _ : Numerals := fun s => s in
  shellWord Plain (dataWord (u8 "application/json") ([34] ++ u8 "it's" ++ [34])) = None.
Proof. reflexivity. Qed.

(** ** The headers that are sent *)

Lemma elem_insertName (k n : jstr) l : k ∈ insertName n l <-> k = n \/ k ∈ l.
Proof.
  induction l as [|x l IH]; cbn [insertName]; [set_solver|].
  destruct (unitsLe n x); [set_solver|]. rewrite !elem_of_cons, IH. tauto.
Qed.

Lemma existsb_name (n : jstr) (l : list jstr) : existsb (fun m => n === m) l = true <-> n ∈ l.
Proof.
  rewrite existsb_exists, list_elem_of_In. split.
  - intros (x & Hx & E). by apply bool_decide_eq_true in E as ->.
  - intros H. exists n. by rewrite bool_decide_true.
Qed.

Lemma elem_addName k n l : k ∈ addName n l <-> k = n \/ k ∈ l.
Proof.
  unfold addName. destruct (existsb _ l) eqn:E; [|apply elem_insertName].
  apply existsb_name in E. set_solver.
Qed.

Lemma elem_headerNames n h : n ∈ headerNames h <-> n ∈ map fst h.
Proof.
  unfold headerNames. induction (map fst h) as [|m l IH]; [done|]. cbn [foldr].
  by rewrite elem_of_cons, <- IH, elem_addName.
Qed.

Lemma headerNames_NoDup h : NoDup (headerNames h).
Proof.
  unfold headerNames. induction (map fst h) as [|m l IH]; [constructor|]. cbn [foldr].
  unfold addName at 1. destruct (existsb _ _) eqn:E; [done|].
  assert (Hm : m ∉ foldr addName [] l) by (rewrite <- existsb_name; by rewrite E).
  clear E. induction (foldr addName [] l) as [|x k IHk]; cbn [insertName]; [apply NoDup_singleton|].
  destruct (unitsLe m x); [by apply NoDup_cons|].
  apply NoDup_cons in IH as [Hx IH]. apply not_elem_of_cons in Hm as [Hne Hm].
  apply NoDup_cons. split; [|auto]. rewrite elem_insertName. intros [->|]; done.
Qed.

Lemma getAll_none n l : n ∉ map fst l -> getAll n l = [].
Proof.
  unfold getAll. induction l as [|e l IH]; [done|]. cbn [map]. rewrite not_elem_of_cons.
  intros [Hne H]. cbn [List.filter]. rewrite bool_decide_false by done. auto.
Qed.

Lemma getAll_cons m e l : getAll m (e :: l) = if m === e.1 then e.2 :: getAll m l else getAll m l.
Proof.
  unfold getAll. cbn [List.filter]. rewrite (bool_decide_ext (e.1 = m) (m = e.1)) by done.
  by destruct (m === e.1).
Qed.

Lemma getAll_others n m h :
  getAll m (List.filter (fun e => negb (e.1 === n)) h) = if m === n then [] else getAll m h.
Proof.
  induction h as [|e h IH]; [by destruct (m === n)|]. cbn [List.filter]. rewrite getAll_cons.
  destruct (bool_decide_reflect (e.1 = n)) as [E|E]; cbn [negb]; rewrite ?getAll_cons, IH.
  - rewrite E. by destruct (m === n).
  - destruct (bool_decide_reflect (m = n)) as [->|]; [|done]. by rewrite bool_decide_false.
Qed.

Lemma getAll_setHeader n m v h :
  n ∈ map fst h -> getAll m (setHeader n v h) = if m === n then [v] else getAll m h.
Proof.
  induction h as [|e h IH]; [by rewrite elem_of_nil|]. cbn [map setHeader]. rewrite elem_of_cons.
  intros Hn. destruct (bool_decide_reflect (e.1 = n)) as [E|E]; rewrite !getAll_cons; cbn [fst snd].
  - rewrite getAll_others, E. by destruct (m === n).
  - destruct Hn as [?|Hn]; [done|]. rewrite IH by done.
    destruct (bool_decide_reflect (m = e.1)) as [->|]; [|done]. by rewrite bool_decide_false.
Qed.

Lemma setHeader_names n v h m : m ∈ map fst (setHeader n v h) -> m ∈ map fst h.
Proof.
  induction h as [|e h IH]; [done|]. cbn [setHeader map].
  destruct (bool_decide_reflect (e.1 = n)) as [E|]; cbn [map fst]; rewrite !elem_of_cons; [|tauto].
  intros [->|Hm]; [by left|right]. clear IH. revert Hm. rewrite !list_elem_of_In, !in_map_iff.
  intros (x & <- & Hx). apply filter_In in Hx as [Hx _]. eauto.
Qed.

Lemma setHeader_keeps n v h m : m ∈ map fst h -> m ∈ map fst (setHeader n v h).
Proof.
  induction h as [|e h IH]; [done|]. cbn [setHeader map]. rewrite elem_of_cons.
  destruct (bool_decide_reflect (e.1 = n)) as [E|E]; cbn [map fst]; rewrite !elem_of_cons; [|tauto].
  intros [->|Hm]; [by left|]. destruct (decide (m = n)) as [->|Hne]; [by left|right].
  clear IH. revert Hm. rewrite !list_elem_of_In, !in_map_iff. intros (x & <- & Hx). exists x.
  split; [done|]. apply filter_In. split; [done|]. by rewrite bool_decide_false.
Qed.

(** What showing the command makes of a header's value. *)
Definition tidied (v : jstr) : jstr := joinWith (u8 ", ") (keptParts v).

Lemma tidyHeader_value n m h :
  n ∈ map fst h ->
  headerValue m (tidyHeader h n) = if m === n then tidied (headerValue m h) else headerValue m h.
Proof.
  intros Hn. unfold tidyHeader, headerValue at 1. rewrite getAll_setHeader by done.
  destruct (bool_decide_reflect (m = n)) as [->|]; [|done]. simpl. by rewrite app_nil_r.
Qed.

Lemma tidyHeaders_fold ns h m :
  NoDup ns -> (forall n, n ∈ ns -> n ∈ map fst h) ->
  headerValue m (foldl tidyHeader h ns)
  = if bool_decide (m ∈ ns) then tidied (headerValue m h) else headerValue m h.
Proof.
  revert h. induction ns as [|n ns IH]; intros h Hd Hns; [done|]. cbn [foldl].
  apply NoDup_cons in Hd as [Hn Hd]. rewrite IH; [|done|].
  2:{ intros k Hk. apply setHeader_keeps, Hns. by right. }
  rewrite tidyHeader_value by (apply Hns; by left).
  destruct (bool_decide_reflect (m = n)) as [->|Hne].
  - rewrite bool_decide_false by done. by rewrite bool_decide_true by (by left).
  - rewrite (bool_decide_ext (m ∈ n :: ns) (m ∈ ns)); [done|]. rewrite elem_of_cons. tauto.
Qed.

(** The value of a header that is sent: the tidied one. *)
Lemma tidyHeaders_value h m : m ∈ map fst h -> headerValue m (tidyHeaders h) = tidied (headerValue m h).
Proof.
  intros Hm. unfold tidyHeaders. rewrite tidyHeaders_fold.
  - rewrite bool_decide_true; [done|]. by apply elem_headerNames.
  - apply headerNames_NoDup.
  - intros n. apply elem_headerNames.
Qed.

(** A value without commas is kept, but for the white space at its ends. *)
Lemma tidied_plain v : 44 ∉ v -> trim v = v -> tidied v = v.
Proof.
  intros Hc Ht. unfold tidied, keptParts. rewrite splitOn_none by done.
  cbn [map imap positionOf]. rewrite Ht. rewrite (bool_decide_true (v = v)) by done.
  rewrite (bool_decide_true (Some 0%nat = _)) by done. simpl. by rewrite !app_nil_r.
Qed.

(** Of two parts, the second is looked up with the space that [", "] leaves in front of it
    and is not found. *)
Lemma tidied_two a b :
  44 ∉ a -> 44 ∉ b -> trim a = a -> trim (32 :: b) = b -> tidied (a ++ u8 ", " ++ b) = a.
Proof.
  intros Ha Hb Hta Htb. unfold tidied, keptParts. change (u8 ", " ++ b) with (44 :: 32 :: b).
  rewrite splitOn_app by done. rewrite (splitOn_none 44 (32 :: b)) by set_solver.
  assert (Hp : positionOf b [a; 32 :: b] 0 <> Some 1%nat).
  { cbn [positionOf]. destruct (a === b); [done|]. case_bool_decide as E; [|done].
    apply (f_equal length) in E. simpl in E. lia. }
  assert (Hq : positionOf a [a; 32 :: b] 0 = Some 0%nat)
    by (cbn [positionOf]; by rewrite bool_decide_true).
  cbn [map imap]. rewrite Hta, Htb, Hq. rewrite bool_decide_true by done.
  unfold compose. rewrite bool_decide_false by done. simpl. by rewrite !app_nil_r.
Qed.

(** Headers only grow while they are built. *)
Definition grows (f : option Headers -> option Headers) : Prop :=
  forall h h', f (Some h) = Some h' -> forall e, e ∈ h -> e ∈ h'.

Lemma appendHeader_some n v h h' :
  appendHeader n v h = Some h' -> h' = h ++ [(map asciiLower n, trim_with isHttpSpace v)].
Proof. unfold appendHeader. destruct (_ && _); [by intros [= <-]|done]. Qed.

Lemma fold_None {A B} (f : option A -> B -> option A) l :
  (forall b, f None b = None) -> foldl f None l = None.
Proof. intros H. induction l as [|b l IH]; [done|]. cbn [foldl]. by rewrite H. Qed.

Lemma fold_grows {B} (f : option Headers -> B -> option Headers) l h h' :
  (forall b, f None b = None) -> (forall b, grows (fun h => f h b)) ->
  foldl f (Some h) l = Some h' -> forall e, e ∈ h -> e ∈ h'.
Proof.
  intros Hn Hg. revert h. induction l as [|b l IH]; intros h; [by intros [= <-]|]. cbn [foldl].
  destruct (f (Some h) b) as [h1|] eqn:E; [|by rewrite fold_None].
  intros H e He. eapply IH; [exact H|]. by eapply Hg.
Qed.

Section headers.
Context {CM : CaseMapping} {LC : Locale} {NM : Numerals}.

Lemma grows_append n v : grows (fun h => h ≫= appendHeader n v).
Proof. intros h h' H e He. apply appendHeader_some in H as ->. by apply elem_of_app; left. Qed.

Lemma grows_field f : grows (fun h => fieldHeader h f).
Proof.
  intros h h'. unfold fieldHeader. cbn [mbind option_bind]. destruct (valueTrue _); [|by intros [= <-]].
  destruct (_ === _); [|by apply grows_append].
  destruct (objectHeader f) as [s|]; [|done]. by apply grows_append.
Qed.

Lemma keyHeader_in ks h h' k :
  foldl keyHeader (Some h) ks = Some h' -> k ∈ ks ->
  (map asciiLower (keyName k), trim_with isHttpSpace (ss_finalKeyValue k)) ∈ h'.
Proof.
  revert h. induction ks as [|x ks IH]; intros h; [by intros _ ?%elem_of_nil|]. cbn [foldl].
  destruct (keyHeader (Some h) x) as [h1|] eqn:E; [|by rewrite fold_None].
  intros H [->|Hk]%elem_of_cons; [|by eapply IH].
  eapply (fold_grows keyHeader ks); [done|intros b; apply grows_append|exact H|].
  unfold keyHeader in E. cbn [mbind option_bind] in E. apply appendHeader_some in E as ->.
  apply elem_of_app. right. by left.
Qed.

Lemma getAll_unique n v (h : Headers) : NoDup (map fst h) -> (n, v) ∈ h -> getAll n h = [v].
Proof.
  induction h as [|e h IH]; [by intros _ ?%elem_of_nil|]. cbn [map]. rewrite getAll_cons.
  intros [Hn Hd]%NoDup_cons [<-|H]%elem_of_cons; cbn [fst snd] in *.
  - rewrite bool_decide_true by done. by rewrite getAll_none.
  - rewrite bool_decide_false; [by apply IH|]. intros ->. apply Hn.
    change e.1 with ((e.1, v).1). by apply list_elem_of_fmap_2.
Qed.

(** An API key that goes into a header is in the headers of the request that is sent,
    with exactly its value, also after the command line was shown, if no other header has
    its name and the value has no comma and no white space at its ends. *)
Theorem key_reaches_request selected accept keys p h k :
  buildFetchHeaders selected accept keys p = Some h ->
  NoDup (map fst h) -> k ∈ keysIn (u8 "header") keys ->
  44 ∉ ss_finalKeyValue k -> trim (ss_finalKeyValue k) = ss_finalKeyValue k ->
  trim_with isHttpSpace (ss_finalKeyValue k) = ss_finalKeyValue k ->
  headerValue (map asciiLower (keyName k)) (tidyHeaders h) = ss_finalKeyValue k.
Proof.
  unfold buildFetchHeaders. intros H Hd Hk Hc Ht Hh.
  destruct (match nonempty selected, nonempty accept with
            | Some i, _ => _ | None, Some a => _ | None, None => _ end) as [h0|]; [|done].
  cbn [mbind option_bind] in H.
  destruct (foldl keyHeader _ _) as [h1|] eqn:E1; [|done]. cbn [mbind option_bind] in H.
  destruct (foldl fieldHeader _ _) as [h2|] eqn:E2; [|done]. cbn [mbind option_bind] in H.
  assert (Hi : (map asciiLower (keyName k), ss_finalKeyValue k) ∈ h).
  { pose proof (keyHeader_in _ _ _ _ E1 Hk) as Hi. rewrite Hh in Hi.
    eapply (fold_grows fieldHeader) in Hi; [|done|apply grows_field|exact E2].
    destruct (pn_bodyType p) as [t|]; [|by injection H as <-].
    destruct (includes t _); [by injection H as <-|]. by eapply grows_append. }
  rewrite tidyHeaders_value by (by apply (list_elem_of_fmap_2 fst) in Hi).
  assert (E : headerValue (map asciiLower (keyName k)) h = ss_finalKeyValue k).
  { unfold headerValue. rewrite (getAll_unique _ _ _ Hd Hi). simpl. by rewrite app_nil_r. }
  rewrite E. by apply tidied_plain.
Qed.

End headers.
