(* ===== verification/RapidocConsole.v ===== *)
(** * RapiDoc: the console of an operation

    The element [api-request]: its attributes and state, what TRY, FILL EXAMPLE, CLEAR and
    CLEAR RESPONSE do, how the reply of the server is shown, and the templates of the
    console ([apiCallTemplate], [curlSyntaxTemplate], [apiResponseTabTemplate]).  The
    fields above the console are in [RapidocForm].

    A click on TRY is two steps: [onTryClick] builds and sends the request, [answered]
    takes what came of it.  The page has no listener for the event [before-try], so that
    nothing changes or aborts the request in between.

    Parameters: [formatXml] (the bundled XML formatter), [highlight] (the bundled
    highlighter) and [resolveUrl], the browser's [new URL(e, location).href]. *)

From stdpp Require Import strings numbers pretty list sets.
From S2P Require Import Prelude JsString Html RapidocUrl RapidocSpec RapidocElement.
From S2P Require Import RapidocAuth RapidocJson RapidocJsonText RapidocRequest.

Open Scope nat_scope.

(** ** State *)

(** What a property or an event of the templates is bound to. *)
Inductive handler :=
| HText (s : jstr)
| HValue (v : FieldValue)
| HSchema (v : option json)
| onFillRequestData_ | onClearRequestData_ | onTryClick_ | clearResponseData_
| selectResponseTab
| copy (s : jstr)
| download (url name : jstr)
| viewTab (url : jstr)
| useExample (name : jstr)
| useAllowed (name : jstr)
| selectParamTab (name : jstr)
| onInput
| onKeydown
| onMimeTypeChange_
| onSelectExample_
| selectSchemaTab_
| selectFormTab
| onAddRemoveFileInput_ (name mime : jstr).

(** The attributes and properties that the page gives the element. *)
Record Attributes := mkAttributes {
  rq_serverUrl : jstr;
  rq_method : jstr;
  rq_path : jstr;
  rq_security : option (list Requirement);
  rq_parameters : option (list Param);
  rq_body : option json;
  rq_keys : list SecurityScheme;
  rq_accept : option jstr;
  rq_callback : jstr;
  rq_webhook : jstr;
  rq_fill : jstr;
  rq_allowTry : jstr;
  rq_showCurl : jstr;
  rq_renderStyle : jstr;
  rq_schemaStyle : jstr;
  rq_expandLevel : N;
  rq_descriptionExpanded : jstr;
  rq_allowToggle : jstr;
  rq_hideReadOnly : jstr;
  rq_hideWriteOnly : jstr;
  rq_credentials : option jstr;
}.

(** What the console shows of the last request. *)
Record Console := mkConsole {
  co_message : html handler;
  co_status : jstr;
  co_headers : jstr;
  co_text : jstr;
  co_url : jstr;
  co_curl : jstr;
  co_isBlob : bool;
  co_blobType : jstr;
  co_disposition : jstr;
  co_blobUrl : jstr;
}.

Record ApiRequest := mkApiRequest {
  rq_attrs : Attributes;
  rq_console : Console;
  rq_responseTab : jstr;
  rq_schemaTab : jstr;
  rq_paramTabs : list (jstr * jstr);
  rq_bodyType : jstr;
  rq_bodyExample : jstr;
  (** The button, or the editor, that was used last is disabled. *)
  rq_disabled : bool;
}.

(** The constructor. *)
Definition emptyConsole : Console := {|
  co_message := []; co_status := u8 "success"; co_headers := []; co_text := []; co_url := [];
  co_curl := []; co_isBlob := false; co_blobType := []; co_disposition := []; co_blobUrl := [] |}.

Definition newRequest (a : Attributes) : ApiRequest := {|
  rq_attrs := a; rq_console := emptyConsole; rq_responseTab := u8 "response";
  rq_schemaTab := u8 "schema"; rq_paramTabs := []; rq_bodyType := []; rq_bodyExample := [];
  rq_disabled := false |}.

Definition withConsole (c : Console) (disabled : bool) (this : ApiRequest) : ApiRequest := {|
  rq_attrs := rq_attrs this; rq_console := c; rq_responseTab := rq_responseTab this;
  rq_schemaTab := rq_schemaTab this; rq_paramTabs := rq_paramTabs this;
  rq_bodyType := rq_bodyType this; rq_bodyExample := rq_bodyExample this;
  rq_disabled := disabled |}.

Definition withBody (type_ example : jstr) (this : ApiRequest) : ApiRequest := {|
  rq_attrs := rq_attrs this; rq_console := rq_console this;
  rq_responseTab := rq_responseTab this; rq_schemaTab := rq_schemaTab this;
  rq_paramTabs := rq_paramTabs this; rq_bodyType := type_; rq_bodyExample := example;
  rq_disabled := rq_disabled this |}.

Definition withTabs (response schema : jstr) (params : list (jstr * jstr)) (this : ApiRequest)
    : ApiRequest := {|
  rq_attrs := rq_attrs this; rq_console := rq_console this; rq_responseTab := response;
  rq_schemaTab := schema; rq_paramTabs := params; rq_bodyType := rq_bodyType this;
  rq_bodyExample := rq_bodyExample this; rq_disabled := rq_disabled this |}.

Definition withCurl (curl : jstr) (c : Console) : Console := {|
  co_message := co_message c; co_status := co_status c; co_headers := co_headers c;
  co_text := co_text c; co_url := co_url c; co_curl := curl; co_isBlob := co_isBlob c;
  co_blobType := co_blobType c; co_disposition := co_disposition c;
  co_blobUrl := co_blobUrl c |}.

(** ** The fields *)

(** [s.split(sep)] for a separator of several units; [skip] units belong to the last one. *)
Fixpoint splitGo (sep s cur : jstr) (skip : nat) : list jstr :=
  match s with
  | [] => [reverse cur]
  | c :: r =>
      match skip with
      | S k => splitGo sep r cur k
      | O => if startsWith sep s then reverse cur :: splitGo sep r [] (pred (length sep))
             else splitGo sep r (c :: cur) 0
      end
  end.

Definition splitText (sep s : jstr) : list jstr := splitGo sep s [] 0.

Definition withValue (v : FieldValue) (file : option File) (f : Field) : Field :=
  {| fd_ptype := fd_ptype f; fd_pname := fd_pname f; fd_array := fd_array f;
     fd_style := fd_style f; fd_explode := fd_explode f;
     fd_allowReserved := fd_allowReserved f; fd_example := fd_example f;
     fd_tagInput := fd_tagInput f; fd_isFile := fd_isFile f; fd_file := file;
     fd_value := v |}.

Definition fillField (f : Field) : Field :=
  if truthy (fd_example f) then
    withValue (if fd_tagInput f then VList (splitText (u8 "~|~") (fd_example f))
               else VText (fd_example f)) (fd_file f) f
  else f.

Definition clearField (f : Field) : Field := withValue (VText []) None f.

(** [onFillRequestData]; [example] is the example of the editor of the body. *)
Definition onFillRequestData (example : jstr) (p : Panel) : Panel :=
  {| pn_fields := map fillField (pn_fields p); pn_bodyType := pn_bodyType p;
     pn_userInput := (fun v => sor example v) <$> pn_userInput p;
     pn_bodyFile := pn_bodyFile p |}.

Definition onClearRequestData (p : Panel) : Panel :=
  {| pn_fields := map clearField (pn_fields p); pn_bodyType := pn_bodyType p;
     pn_userInput := (fun _ => []) <$> pn_userInput p; pn_bodyFile := None |}.

(** A click on an example or on an allowed value: the field of that name has it. *)
Fixpoint onField (name : jstr) (g : Field -> Field) (l : list Field) : list Field :=
  match l with
  | [] => []
  | f :: r => if fd_pname f === name then g f :: r else f :: onField name g r
  end.

Definition clickExample (type_ example : jstr) (f : Field) : Field :=
  withValue (if type_ === u8 "array" then VList (splitText (u8 "~|~") example)
             else VText example) (fd_file f) f.

Definition clickAllowed (type_ value : jstr) (f : Field) : Field :=
  withValue (if type_ === u8 "array" then VList [value] else VText value) (fd_file f) f.

(** ** Sending *)

Record Outgoing := mkOutgoing {
  og_url : jstr;
  og_method : jstr;
  og_headers : Headers;
  og_body : option Body;
  og_credentials : option jstr;
}.

(** What came of a request: an error, or an answer with its text. [an_decoded] is the text
    in a character set, [an_jsonError] what [JSON.parse] says of a text it refuses. *)
Record Answer := mkAnswer {
  an_statusText : jstr;
  an_status : N;
  an_ok : bool;
  an_url : jstr;
  an_headers : list (jstr * jstr);
  an_text : jstr;
  an_decoded : jstr -> jstr;
  an_jsonError : jstr;
  an_uriError : jstr;
  an_blobUrl : jstr;
  an_took : N;
}.

Inductive Outcome := Failed (name message : jstr) | Answered (a : Answer).

(** The events that the element sends. *)
Inductive Event := AfterTry (ok : bool) | AfterTryError | RequestAborted.

Section console.
Context {CM : CaseMapping} {LC : Locale} {NM : Numerals}.
Context (resolveUrl formatXml : jstr -> jstr).

Definition url_ (this : ApiRequest) (p : Panel) : option jstr :=
  let a := rq_attrs this in buildFetchURL (rq_serverUrl a) (rq_path a) (rq_keys a) p.

Definition headers_ (selected : option jstr) (this : ApiRequest) (p : Panel)
    : option Headers :=
  let a := rq_attrs this in buildFetchHeaders selected (rq_accept a) (rq_keys a) p.

(** [applyCURLSyntax]: the command for the fields as they are. *)
Definition applyCURLSyntax (selected : option jstr) (this : ApiRequest) (p : Panel)
    : option ApiRequest :=
  u ← url_ this p; h ← headers_ selected this p;
  let c := generateCURLSyntax resolveUrl (rq_method (rq_attrs this)) u h (buildFetchBody p) p in
  Some (withConsole (withCurl c.1.1 (rq_console this)) (rq_disabled this) this).

(** The request constructor refuses a body for these methods. *)
Definition refused (o : Outgoing) : bool :=
  ((og_method o === u8 "GET") || (og_method o === u8 "HEAD"))
  && match og_body o with Some _ => true | None => false end.

(** The console with its last answer put away, and while the request is on its way. *)
Definition putAway (curl : jstr) (c : Console) : Console := {|
  co_message := co_message c; co_status := u8 "success"; co_headers := [];
  co_text := co_text c; co_url := []; co_curl := curl; co_isBlob := false;
  co_blobType := co_blobType c; co_disposition := []; co_blobUrl := [] |}.

Definition withMessage (message : html handler) (text : jstr) (c : Console) : Console := {|
  co_message := message; co_status := co_status c; co_headers := co_headers c;
  co_text := text; co_url := co_url c; co_curl := co_curl c; co_isBlob := co_isBlob c;
  co_blobType := co_blobType c; co_disposition := co_disposition c;
  co_blobUrl := co_blobUrl c |}.

(** [onTryClick] up to the call of [fetch]: the element, and the request that is sent.
    The headers and the body that are sent are those that [generateCURLSyntax] leaves. *)
Definition onTryClick (selected : option jstr) (p : Panel) (this : ApiRequest)
    : ApiRequest * option Outgoing :=
  match url_ this p, headers_ selected this p with
  | Some u, Some h =>
      let m := toUpperCase (rq_method (rq_attrs this)) in
      let c := generateCURLSyntax resolveUrl (rq_method (rq_attrs this)) u h
                 (buildFetchBody p) p in
      let o := {| og_url := u; og_method := m; og_headers := c.1.2; og_body := c.2;
                  og_credentials := nonempty (rq_credentials (rq_attrs this)) |} in
      let away := putAway c.1.1 (rq_console this) in
      if refused o then (withConsole away (rq_disabled this) this, None)
      else (withConsole (withMessage [] (u8 "⌛") away) true this, Some o)
  | _, _ => (this, None)
  end.

(** ** The answer *)

(** [h.get("content-type")], which is empty without the header. *)
Definition contentType (a : Answer) : jstr :=
  orE (assoc (u8 "content-type") (an_headers a)).

Definition contentDisposition (a : Answer) : jstr :=
  orE (assoc (u8 "content-disposition") (an_headers a)).

(** The kinds of media that are kept as a file. *)
Definition blobKind (l : jstr) : option jstr :=
  if startsWith (u8 "font/") l || startsWith (u8 "application/vnd.") l
     || existsb (fun p => endsWith p l)
          [u8 "tar"; u8 "zip"; u8 "7z"; u8 "rtf"; u8 "msword"; u8 "excel"; u8 "/pdf";
           u8 "/octet-stream"]
  then Some (u8 "download")
  else if startsWith (u8 "image") l then Some (u8 "image")
  else if startsWith (u8 "audio") l || startsWith (u8 "video") l then Some (u8 "view")
  else None.

(** Whether a character set is named, and which. *)
Fixpoint hasCharset (s : jstr) : bool :=
  match s with
  | [] => false
  | _ :: r =>
      (startsWith (u8 "charset=") s
       && match drop 8 s with c :: _ => negb ((c =? 34) || (c =? 39))%N | [] => false end)
      || hasCharset r
  end.

Definition charsetOf (l : jstr) : jstr := orE (nth_error (splitText (u8 "charset=") l) 1).

(** What a JSON answer is shown as; [inr] is an exception. *)
Definition jsonShown (a : Answer) (l : jstr) : jstr + jstr :=
  if hasCharset l then
    let s := an_decoded a (charsetOf l) in
    inl (match parseJson s with Some v => stringify2 v | None => s end)
  else match parseJson (an_text a) with
       | Some v => inl (stringify2 v)
       | None => inr (an_jsonError a)
       end.

(** The first place where [m] matches. *)
Fixpoint firstMatch (m : jstr -> option jstr) (s : jstr) : option jstr :=
  match m s with
  | Some x => Some x
  | None => match s with [] => None | _ :: r => firstMatch m r end
  end.

Definition upTo (c : N) (s : jstr) : option jstr := nonempty (Some (cutAt c s).1).

(** The patterns of the encoded and of the plain file name, at the start of a text. *)
Definition encodedName (s : jstr) : option jstr :=
  let r := drop_while isSpace (drop 10 s) in
  if startsWith (u8 "filename*=") s && startsWith (u8 "UTF-8''") r
  then upTo 59 (drop 7 r) else None.

Definition quotedName (s : jstr) : option jstr :=
  let r := drop 9 s in
  if startsWith (u8 "filename=") s then
    upTo 34 (match r with c :: r' => if (c =? 34)%N then r' else r | [] => [] end)
  else None.

(** The name of the file of an answer; [None] is an exception of [decodeURIComponent]. *)
Definition fileName (t : jstr) : option jstr :=
  match firstMatch encodedName t with
  | Some e => decodeURIComponent e
  | None => Some (match firstMatch quotedName t with Some e => e | None => u8 "filename" end)
  end.

(** The console of an answer: its message, its headers, and its body as a text or a file. *)
Definition answerMessage (a : Answer) : html handler :=
  txt (if truthy (an_statusText a)
       then an_statusText a ++ u8 ":" ++ dec (an_status a) else dec (an_status a)) ++
  el "div" ["style" =: u8 "color:var(--light-fg)"] (
    txt (u8 " Took " ++ dec (an_took a) ++ u8 " milliseconds ")).

Definition headersText (l : list (jstr * jstr)) : jstr :=
  flat_map (fun e => e.1 ++ u8 ": " ++ e.2 ++ [10%N]) l.

Definition heard (a : Answer) (c : Console) : Console := {|
  co_message := answerMessage a; co_status := co_status c;
  co_headers := co_headers c ++ headersText (an_headers a); co_text := co_text c;
  co_url := an_url a; co_curl := co_curl c; co_isBlob := co_isBlob c;
  co_blobType := co_blobType c; co_disposition := co_disposition c;
  co_blobUrl := co_blobUrl c |}.

Definition withBlob (kind disposition url : jstr) (c : Console) : Console := {|
  co_message := co_message c; co_status := co_status c; co_headers := co_headers c;
  co_text := co_text c; co_url := co_url c; co_curl := co_curl c; co_isBlob := true;
  co_blobType := kind; co_disposition := disposition; co_blobUrl := url |}.

(** The body of an answer in the console, and the message of the exception if there is
    one. *)
Definition showBody (a : Answer) (c : Console) : Console * option jstr :=
  let text s := (withMessage (co_message c) s c, None) in
  if negb (truthy (an_text a)) then text []
  else if negb (truthy (contentType a)) then text (an_text a)
  else
    let l := trim (cutAt 59 (contentType a)).1 in
    if l === u8 "application/x-ndjson" then text (an_text a)
    else if includes l (u8 "json") then
      match jsonShown a l with inl s => text s | inr e => (c, Some e) end
    else
      match blobKind l with
      | Some kind =>
          match fileName (contentDisposition a) with
          | Some n => (withBlob kind n (an_blobUrl a) c, None)
          | None => (withBlob kind (co_disposition c) (co_blobUrl c) c, Some (an_uriError a))
          end
      | None => text (if includes l (u8 "xml") then formatXml (an_text a) else an_text a)
      end.

(** The handler of the exceptions. *)
Definition onError (name message : jstr) (c : Console) : Console * Event :=
  if name === u8 "AbortError"
  then (withMessage (txt (u8 "Request Aborted")) (u8 "Request Aborted") c, RequestAborted)
  else (withMessage (txt (message ++ u8 " (CORS or Network Issue)")) (co_text c) c,
        AfterTryError).

(** [onTryClick] from the end of [fetch]. *)
Definition answered (o : Outcome) (this : ApiRequest) : ApiRequest * list Event :=
  let '(c, e) :=
    match o with
    | Failed name message => onError name message (rq_console this)
    | Answered a =>
        match showBody a (heard a (rq_console this)) with
        | (c, None) => (c, AfterTry (an_ok a))
        | (c, Some message) => onError (u8 "SyntaxError") message c
        end
    end in
  (withConsole c false this, [e]).

(** [clearResponseData], and [disconnectedCallback]. *)
Definition clearResponseData (this : ApiRequest) : ApiRequest :=
  withConsole {| co_message := []; co_status := u8 "success"; co_headers := []; co_text := [];
                 co_url := []; co_curl := co_curl (rq_console this); co_isBlob := false;
                 co_blobType := []; co_disposition := []; co_blobUrl := [] |}
    (rq_disabled this) this.

Definition disconnectedCallback (this : ApiRequest) : ApiRequest :=
  let c := rq_console this in
  withConsole {| co_message := co_message c; co_status := co_status c;
                 co_headers := co_headers c; co_text := co_text c; co_url := co_url c;
                 co_curl := []; co_isBlob := co_isBlob c; co_blobType := co_blobType c;
                 co_disposition := co_disposition c; co_blobUrl := [] |}
    (rq_disabled this) this.

(** [afterNavigationFocusedMode]: the body and the answer of another operation go. *)
Definition afterNavigationFocusedMode (this : ApiRequest) : ApiRequest :=
  clearResponseData (withBody [] [] this).

(** [onSelectExample] and [onMimeTypeChange] on the element; the editor then takes the
    example that is selected. *)
Definition onSelectExample (v : jstr) (this : ApiRequest) : ApiRequest :=
  withBody (rq_bodyType this) v this.

Definition onMimeTypeChange (v : jstr) (this : ApiRequest) : ApiRequest := withBody v [] this.

Definition withEditor (v : jstr) (p : Panel) : Panel :=
  {| pn_fields := pn_fields p; pn_bodyType := pn_bodyType p;
     pn_userInput := (fun _ => v) <$> pn_userInput p; pn_bodyFile := pn_bodyFile p |}.

(** The tabs. *)
Definition clickResponseTab (t : jstr) (this : ApiRequest) : ApiRequest :=
  withTabs t (rq_schemaTab this) (rq_paramTabs this) this.
Definition clickSchemaTab (t : jstr) (this : ApiRequest) : ApiRequest :=
  withTabs (rq_responseTab this) t (rq_paramTabs this) this.
Definition clickParamTab (name t : jstr) (this : ApiRequest) : ApiRequest :=
  withTabs (rq_responseTab this) (rq_schemaTab this) (assocSet name t (rq_paramTabs this)) this.

(** ** Templates *)

Section templates.
Context (highlight : jstr -> jstr -> jstr).

(** The command without the line that goes on. *)
Definition shownCurl (this : ApiRequest) : jstr :=
  let s := trim (co_curl (rq_console this)) in
  if endsWith (u8 "\") s then sliceLast s else s.

Definition curlSyntaxTemplate (this : ApiRequest) (e : jstr) : html handler :=
  el "div" ["class" =: u8 "col m-markdown";
        "style" =: u8 "flex:1; display:" ++ e ++ u8 "; position:relative; max-width: 100%;"] (
      el "button" ["class" =: u8 "toolbar-btn";
          "style" =: u8 "position:absolute; top:12px; right:8px";
          "click" =@ (copy (shownCurl this));
          "part" =: u8 "btn btn-fill"] (
        txt (u8 " Copy ")) ++
      el "pre" ["style" =: u8 "white-space:pre"] (
        el "code" [] (raw (highlight (shownCurl this) (u8 "shell"))))).

(** The text of an answer, highlighted as what its headers say it is. *)
Definition answerText (this : ApiRequest) : html handler :=
  let c := rq_console this in
  if co_isBlob c then []
  else if includes (co_headers c) (u8 "application/x-ndjson") then
    el "code" [] (raw (joinWith [10%N]
      (map (fun t => highlight t (u8 "json")) (splitOn 10 (co_text c)))))
  else if includes (co_headers c) (u8 "json") then
    el "code" [] (raw (highlight (co_text c) (u8 "json")))
  else if includes (co_headers c) (u8 "html") || includes (co_headers c) (u8 "xml") then
    el "code" [] (raw (highlight (co_text c) (u8 "html")))
  else el "code" [] (txt (co_text c)).

Definition apiResponseTabTemplate (this : ApiRequest) : html handler :=
  el "div" ["class" =: u8 "row";
        "style" =: u8 "font-size:var(--font-size-small); margin:5px 0"] (
      el "div" ["class" =: u8 "response-message " ++ co_status (rq_console this)] (
        txt (u8 "Response Status: ") ++
        co_message (rq_console this)) ++
      el "div" ["style" =: u8 "flex:1"] [] ++
      el "button" ["class" =: u8 "m-btn";
          "part" =: u8 "btn btn-outline btn-clear-response";
          "click" =@ clearResponseData_] (
        txt (u8 "CLEAR RESPONSE"))) ++
  el "div" ["part" =: u8 "tab-panel";
        "class" =: u8 "tab-panel col";
        "style" =: u8 "border-width:0 0 1px 0;"] (
      el "div" ["id" =: u8 "tab_buttons";
          "part" =: u8 "tab-btn-row";
          "class" =: u8 "tab-buttons row";
          "click" =@ selectResponseTab] (
        el "button" ["part" =: u8 "tab-btn";
            "class" =: u8 "tab-btn " ++ (if rq_responseTab this === u8 "response" then u8 "active" else []);
            "data-tab" =: u8 "response"] (
          txt (u8 " RESPONSE")) ++
        el "button" ["part" =: u8 "tab-btn";
            "class" =: u8 "tab-btn " ++ (if rq_responseTab this === u8 "headers" then u8 "active" else []);
            "data-tab" =: u8 "headers"] (
          txt (u8 " RESPONSE HEADERS")) ++
        unless (rq_showCurl (rq_attrs this) === u8 "true") (el "button" ["part" =: u8 "tab-btn";
                "class" =: u8 "tab-btn " ++ (if rq_responseTab this === u8 "curl" then u8 "active" else []);
                "data-tab" =: u8 "curl"] (
              txt (u8 "CURL")))) ++
      (if co_isBlob (rq_console this) then el "div" ["part" =: u8 "tab-content";
              "class" =: u8 "tab-content col";
              "style" =: u8 "flex:1; display:" ++ (if rq_responseTab this === u8 "response" then u8 "flex" else u8 "none") ++ u8 ";"] (
            when (co_blobType (rq_console this) === u8 "image") (el "img" ["style" =: u8 "max-height:var(--resp-area-height, 400px); object-fit:contain;";
                    "class" =: u8 "mar-top-8";
                    "src" =: co_blobUrl (rq_console this)] []) ++
            el "button" ["class" =: u8 "m-btn thin-border mar-top-8";
                "style" =: u8 "width:135px";
                "click" =@ (download (co_blobUrl (rq_console this)) (co_disposition (rq_console this)));
                "part" =: u8 "btn btn-outline"] (
              txt (u8 "DOWNLOAD")) ++
            when ((co_blobType (rq_console this) === u8 "view") || (co_blobType (rq_console this) === u8 "image")) (el "button" ["class" =: u8 "m-btn thin-border mar-top-8";
                    "style" =: u8 "width:135px";
                    "click" =@ (viewTab (co_blobUrl (rq_console this)));
                    "part" =: u8 "btn btn-outline"] (
                  txt (u8 "VIEW (NEW TAB)"))))
      else el "div" ["part" =: u8 "tab-content";
              "class" =: u8 "tab-content col m-markdown";
              "style" =: u8 "flex:1; display:" ++ (if rq_responseTab this === u8 "response" then u8 "flex" else u8 "none") ++ u8 ";"] (
            el "button" ["class" =: u8 "toolbar-btn";
                "style" =: u8 "position:absolute; top:12px; right:8px";
                "click" =@ (copy (co_text (rq_console this)));
                "part" =: u8 "btn btn-fill"] (
              txt (u8 " Copy ")) ++
            el "pre" ["style" =: u8 "white-space:pre; min-height:50px; height:var(--resp-area-height, 400px); resize:vertical; overflow:auto"] (
              answerText this))) ++
      el "div" ["part" =: u8 "tab-content";
          "class" =: u8 "tab-content col m-markdown";
          "style" =: u8 "flex:1; display:" ++ (if rq_responseTab this === u8 "headers" then u8 "flex" else u8 "none") ++ u8 ";"] (
        el "button" ["class" =: u8 "toolbar-btn";
            "style" =: u8 "position:absolute; top:12px; right:8px";
            "click" =@ (copy (co_headers (rq_console this)));
            "part" =: u8 "btn btn-fill"] (
          txt (u8 " Copy ")) ++
        el "pre" ["style" =: u8 "white-space:pre"] (
          el "code" [] (raw (highlight (co_headers (rq_console this)) (u8 "css"))))) ++
      unless (rq_showCurl (rq_attrs this) === u8 "true") (curlSyntaxTemplate this (if rq_responseTab this === u8 "curl" then u8 "flex" else u8 "none"))).

Definition parametersOf (this : ApiRequest) : list Param :=
  default [] (rq_parameters (rq_attrs this)).

Definition hasBody (this : ApiRequest) : bool :=
  match rq_body (rq_attrs this) with Some _ => true | None => false end.

Definition noMessage (this : ApiRequest) : bool :=
  match co_message (rq_console this) with [] => true | _ => false end.

(** How the request is authenticated. *)
Definition keysSummary (keys : list SecurityScheme) : jstr :=
  match keys with
  | [k] => ss_typeDisplay k ++ u8 " in " ++ default (u8 "undefined") (ss_in k)
  | _ => decN (length keys) ++ u8 " API keys applied"
  end.

Definition apiCallTemplate (this : ApiRequest) : html handler :=
  el "div" ["style" =: u8 "display:flex; align-items:flex-end; margin:16px 0; font-size:var(--font-size-small);";
        "part" =: u8 "wrap-request-btn"] (
      el "div" ["class" =: u8 "hide-in-small-screen";
          "style" =: u8 "flex-direction:column; margin:0; width:calc(100% - 60px);"] (
        el "div" ["style" =: u8 "display:flex; flex-direction:row; align-items:center; overflow:hidden;"] (
          el "div" ["style" =: u8 "display:flex; flex-direction:column;"] (
      when (truthy (rq_serverUrl (rq_attrs this))) (el "div" ["style" =: u8 "display:flex; align-items:baseline;"] (
            el "div" ["style" =: u8 "font-weight:bold; padding-right:5px;"] (txt (u8 "API Server")) ++
            el "span" ["class" =: u8 "gray-text"] (txt (rq_serverUrl (rq_attrs this))))))) ++
        el "div" ["style" =: u8 "display:flex;"] (
          el "div" ["style" =: u8 "font-weight:bold; padding-right:5px;"] (txt (u8 "Authentication")) ++
          (if 0 <? length (default [] (rq_security (rq_attrs this))) then (if 0 <? length (rq_keys (rq_attrs this)) then el "div" ["style" =: u8 "color:var(--blue); overflow:hidden;"] (
                    txt (keysSummary (rq_keys (rq_attrs this))))
              else el "div" ["class" =: u8 "gray-text"] (
                    txt (u8 "Required ") ++
                    el "span" ["style" =: u8 "color:var(--red)"] (txt (u8 "(None Applied)"))))
          else el "span" ["class" =: u8 "gray-text"] (txt (u8 " Not Required "))))) ++
      when ((0 <? length (parametersOf this)) || hasBody this) (el "button" ["class" =: u8 "m-btn thin-border";
              "part" =: u8 "btn btn-outline btn-fill";
              "style" =: u8 "margin-right:5px;";
              "click" =@ onFillRequestData_;
              "title" =: u8 "Fills with example data (if provided)"] (
            txt (u8 "FILL EXAMPLE")) ++
        el "button" ["class" =: u8 "m-btn thin-border";
              "part" =: u8 "btn btn-outline btn-clear";
              "style" =: u8 "margin-right:5px;";
              "click" =@ onClearRequestData_] (
            txt (u8 "CLEAR"))) ++
      el "button" ["class" =: u8 "m-btn primary thin-border";
          "part" =: u8 "btn btn-try";
          "click" =@ onTryClick_] (
        txt (u8 "TRY"))) ++
  el "div" ["class" =: u8 "row";
        "style" =: u8 "font-size:var(--font-size-small); margin:5px 0"] (
      when (rq_showCurl (rq_attrs this) === u8 "true") (curlSyntaxTemplate this (u8 "flex"))) ++
  unless (noMessage this) (apiResponseTabTemplate this).

End templates.

End console.

(** ** Properties *)

Lemma includes_occurs s t : t <> [] -> includes s t = true <-> occurs t s.
Proof.
  intros Ht. rewrite occurs_indexOf by done. unfold includes.
  destruct (indexOf t s 0); split; try done; eauto.
Qed.

Lemma occurs_trans t s u : occurs t s -> occurs s u -> occurs t u.
Proof.
  intros (a & b & ->) (c & d & ->). exists (c ++ a), (b ++ d). by rewrite <- !app_assoc.
Qed.

Lemma drop_while_suffix p (s : jstr) : exists a, s = a ++ drop_while p s.
Proof.
  induction s as [|c s [a IH]]; simpl; [by exists []|].
  destruct (p c); [|by exists []]. exists (c :: a). simpl. by f_equal.
Qed.

Lemma occurs_trim s : occurs (trim s) s.
Proof.
  unfold trim, trim_with. destruct (drop_while_suffix isSpace s) as [a Ha].
  destruct (drop_while_suffix isSpace (reverse (drop_while isSpace s))) as [b Hb].
  exists a, (reverse b). rewrite Ha at 1. f_equal.
  rewrite <- (reverse_involutive (drop_while isSpace s)) at 1. rewrite Hb at 1.
  by rewrite reverse_app.
Qed.

Lemma occurs_cutAt c s : occurs (cutAt c s).1 s.
Proof.
  exists [], (match (cutAt c s).2 with Some r => c :: r | None => [] end). cbn [app].
  induction s as [|x s IH]; [done|]. cbn [cutAt].
  destruct (N.eqb_spec x c) as [->|]; [done|]. cbn [fst snd app]. by rewrite <- IH.
Qed.

Lemma headersText_occurs l n v : assoc n l = Some v -> occurs v (headersText l).
Proof.
  induction l as [|[k w] l IH]; cbn [assoc]; [done|].
  change (headersText ((k, w) :: l)) with ((k ++ u8 ": " ++ w ++ [10%N]) ++ headersText l).
  destruct (n === k).
  - intros [= ->]. exists (k ++ u8 ": "), ([10%N] ++ headersText l). by rewrite <- !app_assoc.
  - intros H. destruct (IH H) as (a & b & E). exists (k ++ u8 ": " ++ w ++ [10%N] ++ a), b.
    rewrite E, <- !app_assoc. done.
Qed.

Section facts.
Context {CM : CaseMapping} {LC : Locale} {NM : Numerals}.
Context (resolveUrl formatXml : jstr -> jstr).

(** The media type that decides how an answer is shown. *)
Definition mediaType (a : Answer) : jstr := trim (cutAt 59 (contentType a)).1.

Lemma showBody_message a c : co_message (showBody formatXml a c).1 = co_message c.
Proof. unfold showBody, jsonShown. repeat case_match; simplify_eq/=; done. Qed.


(** Between the click and the answer nothing of the last answer is shown. *)
Lemma sent_state selected p this this' out :
  onTryClick resolveUrl selected p this = (this', Some out) ->
  rq_disabled this' = true /\ co_isBlob (rq_console this') = false
  /\ co_headers (rq_console this') = [] /\ co_text (rq_console this') = u8 "⌛"
  /\ rq_attrs this' = rq_attrs this.
Proof.
  unfold onTryClick. destruct (url_ this p); [|done]. destruct (headers_ _ this p); [|done].
  destruct (refused _); [done|]. by intros [= <- _].
Qed.

(** A click on TRY whose answer is JSON ends with the console showing that answer: the
    text shown is a JSON text of exactly the value that the server sent, indented and
    highlighted as JSON, the button is enabled, and the page hears of the answer. *)
Theorem json_reply_shown {OK : NumeralsOk NM} highlight selected p this this' out a v :
  onTryClick resolveUrl selected p this = (this', Some out) ->
  includes (mediaType a) (u8 "json") = true -> hasCharset (mediaType a) = false ->
  includes (headersText (an_headers a)) (u8 "application/x-ndjson") = false ->
  units (an_text a) = true -> parseJson (an_text a) = Some v -> allFinite v = true ->
  let r := answered formatXml (Answered a) this' in
  rq_disabled r.1 = false /\ r.2 = [AfterTry (an_ok a)]
  /\ parseJson (co_text (rq_console r.1)) = Some v
  /\ answerText highlight r.1
     = el "code" [] (raw (highlight (co_text (rq_console r.1)) (u8 "json"))).
Proof.
  intros Hs Hj Hcs Hnd Hu Hp Hf. cbv zeta.
  destruct (sent_state _ _ _ _ _ Hs) as (_ & Hb & Hh & _ & _).
  assert (Hct : occurs (u8 "json") (contentType a)).
  { apply (proj1 (includes_occurs _ (u8 "json") ltac:(done))) in Hj. unfold mediaType in Hj.
    eapply occurs_trans; [exact Hj|]. eapply occurs_trans; [apply occurs_trim|apply occurs_cutAt]. }
  assert (Hne : truthy (contentType a) = true).
  { destruct (contentType a); [|done]. destruct Hct as (x & y & E).
    apply (f_equal length) in E. rewrite !length_app in E. change (length (u8 "json")) with 4 in E. simpl in E. lia. }
  assert (Htext : truthy (an_text a) = true).
  { destruct (an_text a); [|done]. vm_compute in Hp. done. }
  assert (Hnl : (mediaType a === u8 "application/x-ndjson") = false).
  { apply bool_decide_false. intros E. rewrite <- not_true_iff_false in Hnd. apply Hnd.
    apply includes_occurs; [done|]. rewrite <- E. unfold mediaType.
    eapply occurs_trans; [apply occurs_trim|]. eapply occurs_trans; [apply occurs_cutAt|].
    unfold contentType, orE in *. destruct (assoc _ (an_headers a)) as [ct|] eqn:Ec; [|done].
    by eapply headersText_occurs. }
  assert (Hjson : includes (headersText (an_headers a)) (u8 "json") = true).
  { apply includes_occurs; [done|]. eapply occurs_trans; [exact Hct|].
    unfold contentType, orE in *. destruct (assoc _ (an_headers a)) as [ct|] eqn:Ec; [|done].
    by eapply headersText_occurs. }
  unfold answered, showBody. rewrite Htext, Hne. cbn [negb].
  change (trim (cutAt 59 (contentType a)).1) with (mediaType a).
  rewrite Hnl, Hj. unfold jsonShown. rewrite Hcs, Hp. cbn [fst snd].
  split_and!; [done|done| |].
  - change (co_text _) with (stringify2 v). by apply (reread [32%N; 32%N] (an_text a)).
  - unfold answerText. cbn [rq_console withConsole withMessage heard co_isBlob co_headers co_text].
    rewrite Hb, Hh. cbn [app]. by rewrite Hnd, Hjson.
Qed.

(** A JSON answer whose body is not JSON is reported as a network issue, and the text of
    the console stays the hourglass. *)
Lemma bad_json_hourglass selected p this this' out a :
  onTryClick resolveUrl selected p this = (this', Some out) ->
  truthy (an_text a) = true -> truthy (contentType a) = true ->
  (mediaType a === u8 "application/x-ndjson") = false ->
  includes (mediaType a) (u8 "json") = true -> hasCharset (mediaType a) = false ->
  parseJson (an_text a) = None ->
  let r := answered formatXml (Answered a) this' in
  co_text (rq_console r.1) = u8 "⌛"
  /\ co_message (rq_console r.1) = txt (an_jsonError a ++ u8 " (CORS or Network Issue)").
Proof.
  intros Hs Ht Hc Hn Hj Hcs Hp. destruct (sent_state _ _ _ _ _ Hs) as (_ & _ & _ & Hx & _).
  cbv zeta. unfold answered, showBody. rewrite Ht, Hc. cbn [negb].
  change (trim (cutAt 59 (contentType a)).1) with (mediaType a). rewrite Hn, Hj.
  unfold jsonShown. rewrite Hcs, Hp. split; [|done]. rewrite <- Hx. done.
Qed.

(** CLEAR leaves nothing to send in the query. *)
Lemma clear_empties f : queryPairs (clearField f) = [] /\ objectPairs (clearField f) = None.
Proof. unfold queryPairs, clearField. simpl. by destruct (fd_array f === u8 "false"). Qed.

End facts.
