(* ===== verification/RapidocSchema.v ===== *)
(** * RapiDoc: schemas

    How the API explorer reads a schema: [QR], [eF] and [pF] describe one schema as texts,
    [uF] makes of a schema with its nested ones the tree of data that the elements
    [schema-tree] and [schema-table] show.

    A schema is a JSON value.  Where the code takes a field for a text, the field's text is
    taken ([jsToString]); the format that replaces the word [string] has no [$].  An
    exception is [Throws], and [OutOfFuel] bounds the nesting; [schema_read] shows that the
    size of a schema is fuel enough. *)

From stdpp Require Import strings numbers pretty list sets.
From S2P Require Import Prelude JsString Html RapidocUrl RapidocSpec RapidocElement.
From S2P Require Import RapidocJson RapidocJsonText RapidocRequest.

Open Scope nat_scope.

(** ** Results *)

Inductive run (A : Type) := OutOfFuel | Throws | Returns (a : A).
#[global] Arguments OutOfFuel {A}.
#[global] Arguments Throws {A}.
#[global] Arguments Returns {A} a.

#[export] Instance run_bind : MBind run := fun A B f m =>
  match m with OutOfFuel => OutOfFuel | Throws => Throws | Returns a => f a end.
#[export] Instance run_ret : MRet run := fun A a => Returns a.

(** ** Fields *)

Definition jfield (k : jstr) (v : json) : option json :=
  match v with JObj l => assoc k l | _ => None end.
Definition field (k : string) (v : json) : option json := jfield (u8 k) v.

Definition isTrue (v : json) : bool :=
  match v with
  | JNull => false
  | JBool b => b
  | JNum r => negb ((r === u8 "0") || (r === u8 "NaN"))
  | JStr s => truthy s
  | JArr _ | JObj _ => true
  end.
Definition given (o : option json) : bool := match o with Some v => isTrue v | None => false end.
Definition has (k : string) (v : json) : bool := given (field k v).

(** [`${v.k}`], and [v.k || ""] as a text. *)
Definition valueOf (o : option json) : jstr :=
  match o with Some v => jsToString v | None => u8 "undefined" end.
Definition textOr (k : string) (v : json) : jstr :=
  if has k v then valueOf (field k v) else [].
Definition isStr (s : string) (o : option json) : bool :=
  match o with Some (JStr x) => x === u8 s | _ => false end.

Definition isNum (s : string) (o : option json) : bool :=
  match o with Some (JNum r) => r === u8 s | _ => false end.

Definition keyCount (v : json) : nat := length (entriesOf v).

(** ** Describing one schema *)

(** The spaces at the ends of a text as dots. *)
Fixpoint leadDots (s : jstr) : jstr :=
  match s with
  | c :: r => if (c =? 32)%N then u8 "●" ++ leadDots r else s
  | [] => []
  end.
Definition dots (s : jstr) : jstr := reverse (leadDots (reverse (leadDots s))).

Definition itemText (v : json) : jstr :=
  match v with
  | JNull => u8 "null"
  | JStr [] => u8 "∅"
  | _ => dots (jsToString v)
  end.

(** [QR]: a default or an allowed value. *)
Definition QR (o : option json) : jstr :=
  match o with
  | None => []
  | Some JNull => u8 "null"
  | Some (JStr []) => u8 "∅"
  | Some (JArr l) => joinWith (u8 ", ") (map itemText l)
  | Some (JObj []) => u8 "{ undefined:undefined ... }"
  | Some (JObj (e :: l)) =>
      u8 "{ " ++ e.1 ++ u8 ":" ++ jsToString e.2 ++ (match l with [] => [] | _ => u8 "," end)
      ++ u8 " ... }"
  | Some (JStr s) => dots s
  | Some v => jsToString v
  end.

Record Meta := mkMeta {
  me_type : jstr;
  me_format : jstr;
  me_pattern : jstr;
  me_readOrWriteOnly : jstr;
  me_deprecated : bool;
  me_examples : option json;
  me_default : jstr;
  me_description : jstr;
  me_constrain : jstr;
  me_allowedValues : option json;
  me_arrayType : jstr;
  me_html : jstr;
}.

(** The text after the last [/]. *)
Definition lastPart (s : jstr) : jstr := List.last (splitOn cSlash s) [].

(** The types of a list are joined with [or] when the schema itself, not the list, has the
    length 2. *)
Definition typeName (e : json) : jstr :=
  if has "$ref" e then
    u8 "{recursive: " ++ lastPart (valueOf (field "$ref" e)) ++ u8 "} "
  else if has "type" e then
    let t := match field "type" e with
             | Some (JArr l) => joinJson (if isNum "2" (field "length" e) then u8 " or " else u8 "┃") l
             | o => valueOf o
             end in
    let t := if has "format" e || has "enum" e || has "const" e then
               replaceFirst (u8 "string")
                 (if has "enum" e then u8 "enum"
                  else if has "const" e then u8 "const" else valueOf (field "format" e)) t
             else t in
    t ++ (if has "nullable" e then u8 "┃null" else [])
  else if has "const" e then u8 "const"
  else if keyCount e =? 0 then u8 "any"
  else u8 "{missing-type-info}".

Definition bar (r : jstr) : jstr := if truthy r then u8 "┃" else [].
Definition defined (k : string) (e : json) : bool :=
  match field k e with Some _ => true | None => false end.

(** The constraints on numbers and on strings. *)
Definition numberConstraint (e : json) : jstr :=
  let v k := valueOf (field k e) in
  let r := if defined "minimum" e then u8 "Min " ++ v "minimum"%string
           else if defined "exclusiveMinimum" e then
             u8 "More than " ++ v "exclusiveMinimum"%string
           else [] in
  let r := if defined "maximum" e then r ++ bar r ++ u8 "Max " ++ v "maximum"%string
           else if defined "exclusiveMaximum" e then
             r ++ bar r ++ u8 "Less than " ++ v "exclusiveMaximum"%string
           else r in
  if defined "multipleOf" e then r ++ bar r ++ u8 " multiple of " ++ v "multipleOf"%string
  else r.

Definition stringConstraint (e : json) (r : jstr) : jstr :=
  let lo := valueOf (field "minLength" e) in
  let hi := valueOf (field "maxLength" e) in
  if defined "minLength" e && defined "maxLength" e then
    r ++ bar r ++ lo ++ u8 " to " ++ hi ++ u8 " chars"
  else if defined "minLength" e then r ++ bar r ++ u8 "Min " ++ lo ++ u8 " chars"
  else if defined "maxLength" e then r ++ u8 "Max " ++ bar r ++ hi ++ u8 " chars"
  else r.

(** The constant, or the values of the enumeration; for an array, the enumeration of its
    items, and its own constant where the items have one. *)
Definition enumText (o : option json) : jstr :=
  match o with
  | Some (JArr l) => joinWith (u8 "┃") (map (fun x => QR (Some x)) l)
  | _ => []
  end.
Definition allowed (e of_ : json) : option json :=
  if has "const" of_ then field "const" e else Some (JStr (enumText (field "enum" of_))).

(** The text that stands for a schema without parts: nine texts with a separator. *)
Definition separator : jstr := u8 "~|~".

Definition metaTexts (type_ rw constrain default_ : jstr) (allowed_ : option json)
    (pattern description title : jstr) (deprecated : bool) : list jstr :=
  [type_; rw; constrain; default_; valueOf allowed_; pattern; description; title;
   if deprecated then u8 "deprecated" else []].

(** [eF]; the code calls it on a schema that is there. *)
Definition eF (e : json) : Meta :=
  let t := typeName e in
  let isArr := (t === u8 "array") && has "items" e in
  let items := default JNull (field "items" e) in
  let rw := if has "readOnly" e then u8 "🆁" else if has "writeOnly" e then u8 "🆆" else [] in
  let r := if includes t (u8 "integer") || includes t (u8 "number")
           then numberConstraint e else [] in
  let r := if includes t (u8 "string") then stringConstraint e r else r in
  let default_ := QR (if isArr then field "default" items else field "default" e) in
  let allowed_ := allowed e (if isArr then items else e) in
  let pattern := if has "pattern" e && negb (has "enum" e) then valueOf (field "pattern" e) else [] in
  {| me_type := t;
     me_format := textOr "format" e;
     me_pattern := pattern;
     me_readOrWriteOnly := rw;
     me_deprecated := has "deprecated" e;
     me_examples := if has "examples" e then field "examples" e else field "example" e;
     me_default := default_;
     me_description := textOr "description" e;
     me_constrain := r;
     me_allowedValues := allowed_;
     me_arrayType :=
       if isArr then
         valueOf (field "type" e) ++ u8 " of " ++
         match field "type" items with Some (JArr l) => joinJson [] l | o => valueOf o end
       else [];
     me_html :=
       joinWith separator
         (metaTexts t rw r default_ allowed_ pattern (textOr "description" e)
            (textOr "title" e) (has "deprecated" e)) |}.

(** [pF]: the description of an object or an array, nested [t] deep. *)
Definition pF (e : json) (t : nat) : jstr :=
  let title := valueOf (field "title" e) in
  let description := valueOf (field "description" e) in
  let s := if (has "description" e || has "title" e) && (has "minItems" e || has "maxItems" e)
           then u8 "<span class=" ++ [34%N] ++ u8 "descr-expand-toggle" ++ [34%N] ++ u8 ">➔</span>"
           else [] in
  let s := if has "title" e then
             (if has "description" e
              then s ++ u8 " <b>" ++ title ++ u8 ":</b> " ++ description ++ u8 "<br/>"
              else s ++ u8 " " ++ title ++ u8 "<br/>")
           else if has "description" e then s ++ u8 " " ++ description ++ u8 "<br/>" else s in
  let s := if has "minItems" e
           then s ++ u8 " <b>Min Items:</b> " ++ valueOf (field "minItems" e) else s in
  let s := if has "maxItems" e
           then s ++ u8 " <b>Max Items:</b> " ++ valueOf (field "maxItems" e) else s in
  let items := default JNull (field "items" e) in
  if (0 <? t) && has "description" items then
    let u := if has "minProperties" items
             then u8 "<b>Min Properties:</b> " ++ valueOf (field "minProperties" items) else [] in
    let u := if has "maxProperties" items
             then u ++ u8 " <b>Max Properties:</b> " ++ valueOf (field "maxProperties" items)
             else u in
    s ++ u8 " ⮕ " ++ u ++ u8 " [ " ++ valueOf (field "description" items) ++ u8 " ] "
  else s.

(** ** The tree of a schema *)

(** The data of a schema: a text, or an object; [DSelf] as a value of an object is that
    object itself. *)
Inductive data :=
| DUndef
| DText (s : jstr)
| DBool (b : bool)
| DNode (l : list (jstr * data))
| DSelf.

Definition Obj : Type := list (jstr * data).

(** What [uF] returns: nothing, a text, the object it was given, or another one. *)
Inductive ret := RUndef | RText (s : jstr) | ROwn (t : Obj) | RNode (l : Obj).

Definition set (k : jstr) (v : data) (t : Obj) : Obj := putKey k v t.

Definition fresh (r : ret) : data :=
  match r with RUndef => DUndef | RText s => DText s | ROwn l | RNode l => DNode l end.

(** [Object.assign(t, v)]. *)
Definition assignAll (t : Obj) (v : data) : Obj :=
  match v with
  | DNode l => foldl (fun t e => set e.1 (match e.2 with DSelf => DNode l | x => x end) t) t l
  | DText s => foldl (fun t e => set e.1 e.2 t) t (imap (fun i c => (decN i, DText [c])) s)
  | _ => t
  end.

Definition isPrimitive (s : jstr) : bool :=
  existsb (includes s) [u8 "integer"; u8 "number"; u8 "string"; u8 "null"; u8 "boolean"].

(** A schema with parts, and a schema of an array. *)
Definition composite (e : json) : bool :=
  isStr "object" (field "type" e) || has "properties" e || has "allOf" e || has "anyOf" e
  || has "oneOf" e.
Definition arrayLike (e : json) : bool := isStr "array" (field "type" e) || has "items" e.

(** [required && required.includes(s)] *)
Definition isRequired (e : json) (s : jstr) : run bool :=
  match field "required" e with
  | Some (JArr l) => Returns (existsb (fun x => match x with JStr y => y === s | _ => false end) l)
  | Some (JStr y) => Returns (includes y s)
  | o => if given o then Throws else Returns false
  end.

Definition elements (o : option json) : list json := match o with Some (JArr l) => l | _ => [] end.
Definition members (o : option json) : list (jstr * json) :=
  match o with Some v => entriesOf v | None => [] end.

Definition nullableType (e : json) : bool :=
  match field "type" e with
  | Some (JArr l) => existsb (fun x => match x with JStr y => y === u8 "null" | _ => false end) l
  | _ => false
  end || has "nullable" e.

Definition readWrite (e : json) : jstr :=
  if has "readOnly" e then u8 "readonly" else if has "writeOnly" e then u8 "writeonly" else [].

(** The first entries of an object's or an array's data. *)
Definition heading (kind : string) (e : json) (r : nat) (t : Obj) : Obj :=
  let t := set (u8 "::title") (DText (textOr "title" e)) t in
  let t := set (u8 "::description") (DText (pF e r)) t in
  let t := set (u8 "::type") (DText (u8 kind)) t in
  let t := if nullableType e
           then set (u8 "::nullable") (DBool true)
                  (set (u8 "::dataTypeLabel") (DText (u8 kind ++ u8 " or null")) t)
           else t in
  let t := set (u8 "::deprecated") (DBool (has "deprecated" e)) t in
  set (u8 "::readwrite") (DText (readWrite e)) t.

Definition optionKey (i : nat) (e : json) : jstr :=
  u8 "::OPTION~" ++ decN (S i) ++
  (if has "title" e then u8 "~" ++ valueOf (field "title" e) else []).

(** [r["::readwrite"] = ""], which throws when [r] is no object. *)
Definition clearReadWrite (d : data) : run data :=
  match d with
  | DNode l => Returns (DNode (set (u8 "::readwrite") (DText []) l))
  | _ => Throws
  end.

(** A loop that may throw. *)
Fixpoint loop {A S} (f : S -> nat -> A -> run S) (i : nat) (l : list A) (t : S) : run S :=
  match l with
  | [] => Returns t
  | x :: r => t ← f t i x; loop f (Datatypes.S i) r t
  end.

(** The properties of a schema, each with the data that [read] makes of it. *)
Definition keyName (req : bool) (k : jstr) : jstr := if req then k ++ u8 "*" else k.

Definition setProperty (read : json -> run data) (e : json) (t : Obj) (p : jstr * json) : run Obj :=
  req ← isRequired e p.1; d ← read p.2; Returns (set (keyName req p.1) d t).

Definition properties (read : json -> run data) (e : json) (t : Obj) : run Obj :=
  loop (fun t _ p => setProperty read e t p) 0 (members (field "properties" e)) t.

(** The schema of one type of a list of types. *)
Definition withType (t : jstr) (e : json) : json :=
  match e with JObj l => JObj (assocSet (u8 "type") (JStr t) l) | _ => e end.

(** The types of a list: those that are shown as a text, and the others. *)
Definition splitTypes (e : json) (types : list json) : list jstr * list json :=
  foldl (fun p x =>
    let s := jsToString x in
    if isPrimitive s then (p.1 ++ [s], p.2)
    else
      match field "items" e with
      | Some items =>
          match field "type" items with
          | Some (JStr y) =>
              if (s === u8 "array") && isPrimitive y then
                (p.1 ++ [u8 "[" ++ (if (y === u8 "string") && has "format" items
                                   then valueOf (field "format" items) else y) ++ u8 "]"], p.2)
              else (p.1, p.2 ++ [x])
          | _ => (p.1, p.2 ++ [x])
          end
      | None => (p.1, p.2 ++ [x])
      end) ([], []) types.

(** [uF(e, t, r, s)]: [n] bounds the nesting, [t] is the object to fill, [r] the depth. *)
Fixpoint uF (n : nat) (o : option json) (t : Obj) (r : nat) (s : jstr) : run ret :=
  match n with
  | O => OutOfFuel
  | S n =>
    let uNew o r s := x ← uF n o [] r s; Returns (fresh x) in
    let own := properties (fun x => uNew (Some x) (S r) []) in
    match o with
    | None => Returns RUndef
    | Some e =>
      if negb (isTrue e) then Returns RUndef
      else if has "allOf" e then
        match elements (field "allOf" e) with
        | [x] =>
            if negb (has "properties" x) && negb (has "items" x) then Returns (RText (me_html (eF x)))
            else l ← uF_allOf n r [x]; Returns (RNode l)
        | l => l ← uF_allOf n r l; Returns (RNode l)
        end
      else if has "anyOf" e || has "oneOf" e then
        let t := set (u8 "::description") (DText (textOr "description" e)) t in
        t ← (if isStr "object" (field "type" e) || has "properties" e
             then own e (set (u8 "::type") (DText (u8 "object")) t)
             else Returns t);
        let key := if has "anyOf" e then "anyOf"%string else "oneOf"%string in
        opts ← loop (fun opts i x =>
                  if composite x || arrayLike x then
                    d ← uNew (Some x) 0 []; d ← clearReadWrite d;
                    Returns (set (u8 "::type")
                               (DText (if composite x then u8 "xxx-of-option" else u8 "xxx-of-array"))
                               (set (optionKey i x) d opts))
                  else
                    Returns (set (u8 "::type") (DText (u8 "xxx-of-option"))
                               (set (optionKey i x) (DText (me_html (eF x))) opts)))
                 0 (elements (field key e)) [];
        Returns (ROwn (set (u8 "::type") (DText (u8 "object"))
          (set ((if has "anyOf" e then u8 "::ANY~OF " else u8 "::ONE~OF ") ++ s) (DNode opts) t)))
      else
        match field "type" e with
        | Some (JArr types) =>
          let '(prims, others) := splitTypes e types in
          let label := joinWith (if length prims =? 2 then u8 " or " else u8 "┃") prims in
          let html := match prims with [] => [] | _ => me_html (eF (withType label e)) end in
          match prims, others with
          | [], [] => Returns (ROwn t)
          | _, [] => Returns (RText html)
          | _, _ =>
              opts ← loop (fun opts i x =>
                  let k := u8 "::OPTION~" ++ decN (S i) in
                  let ty := jsToString x in
                  if includes (u8 "integer, number, string, boolean,") (ty ++ u8 ",") then
                    Returns (set k (DText (me_html (eF (withType ty e)))) opts)
                  else if ty === u8 "object" then
                    d ← own e
                          (set (u8 "::deprecated") (DBool (has "deprecated" e))
                            (set (u8 "::type") (DText (u8 "object"))
                              (set (u8 "::description") (DText (textOr "description" e))
                                [(u8 "::title", DText (textOr "title" e))])));
                    Returns (set k (DNode d) opts)
                  else if ty === u8 "array" then
                    d ← uNew (field "items" e) (S r) [];
                    Returns (set k (DNode
                      (set (u8 "::props") d
                        (set (u8 "::type") (DText (u8 "array"))
                          (set (u8 "::description") (DText (textOr "description" e))
                            [(u8 "::title", DText (textOr "title" e))])))) opts)
                  else Returns opts)
                 0 others [(u8 "::type", DText (u8 "xxx-of-option"))];
              Returns (ROwn
                (set (u8 "::ONE~OF")
                   (DNode (set (u8 "::OPTION~" ++ decN (S (length others))) (DText html) opts))
                   (set (u8 "::type") (DText (u8 "object")) t)))
          end
        | _ =>
          if isStr "object" (field "type" e) || has "properties" e then
            t ← own e (heading "object" e r t);
            t ← loop (fun t _ p =>
                  x ← uF n (Some p.2) t (S r) [];
                  let k := u8 "[pattern: " ++ p.1 ++ u8 "]" in
                  Returns match x with
                          | ROwn t' => set k DSelf t'
                          | x => set k (fresh x) t
                          end) 0 (members (field "patternProperties" e)) t;
            if has "additionalProperties" e then
              d ← uNew (field "additionalProperties" e) 0 [];
              Returns (ROwn (set (u8 "[any-key]") d t))
            else Returns (ROwn t)
          else if isStr "array" (field "type" e) || has "items" e then
            let t := heading "array" e r t in
            let items := default JNull (field "items" e) in
            let t := if has "items" items then
                       set (u8 "::array-type")
                         (match field "type" (default JNull (field "items" items)) with
                          | Some v => DText (jsToString v) | None => DUndef end) t
                     else t in
            d ← uNew (field "items" e) (S r) [];
            Returns (ROwn (set (u8 "::props") d t))
          else Returns (RText (me_html (eF e)))
        end
    end
  end
with uF_allOf (n : nat) (r : nat) (l : list json) : run Obj :=
  match n with
  | O => OutOfFuel
  | S n =>
      loop (fun s i x =>
        if composite x then
          d ← uF n (Some x) [] (S r)
                (if (has "anyOf" x || has "oneOf" x) && (0 <? i) then decN i else []);
          Returns (assignAll s (fresh d))
        else if arrayLike x then
          d ← uF n (Some x) [] (S r) []; Returns (assignAll s (fresh d))
        else if has "type" x then
          Returns (set (u8 "prop" ++ decN (length s)) (DText (me_html (eF x))) s)
        else Returns s) 0 l []
  end.

(** ** Properties *)

(** *** The fuel is enough *)

Definition ends {A} (m : run A) : Prop := m <> OutOfFuel.

Lemma ends_bind {A B} (m : run A) (f : A -> run B) : ends m -> (forall a, ends (f a)) -> ends (m ≫= f).
Proof. unfold ends. by destruct m; cbn. Qed.

Lemma ends_returns {A} (a : A) : ends (Returns a).
Proof. done. Qed.

Lemma ends_loop {A S} (f : S -> nat -> A -> run S) l i t :
  (forall t i x, x ∈ l -> ends (f t i x)) -> ends (loop f i l t).
Proof.
  revert i t. induction l as [|x l IH]; intros i t H; cbn [loop]; [done|].
  apply ends_bind; [apply H; by left|]. intros t'. apply IH. intros ? ? y Hy. apply H. by right.
Qed.

#[local] Hint Resolve ends_returns : core.

Lemma size_pos v : 1 <= size v.
Proof. destruct v; simpl; lia. Qed.

Lemma size_elem x l : x ∈ l -> S (size x) < size (JArr l).
Proof. cbn [size]. induction 1 as [|x y l H IH]; cbn [foldr]; lia. Qed.

Lemma size_member p l : p ∈ l -> S (size p.2) < size (JObj l).
Proof. cbn [size]. induction 1 as [|x y l H IH]; cbn [foldr]; lia. Qed.

Lemma size_field k e x : field k e = Some x -> S (size x) < size e.
Proof.
  unfold field, jfield. destruct e as [| | | | |l]; try done. intros H%assoc_elem.
  by apply (size_member (u8 k, x)).
Qed.

Lemma size_elements k e x : x ∈ elements (field k e) -> 2 + size x < size e.
Proof.
  destruct (field k e) as [v|] eqn:E; [|by intros ?%elem_of_nil]. apply size_field in E.
  destruct v as [| | | |l|]; try by intros ?%elem_of_nil. cbn [elements]. intros H%size_elem. lia.
Qed.

Lemma size_members k e p : p ∈ members (field k e) -> size p.2 < size e.
Proof.
  destruct (field k e) as [v|] eqn:E; [|by intros ?%elem_of_nil]. apply size_field in E.
  cbn [members]. destruct v as [| | |s|l|l]; cbn [entriesOf]; try by intros ?%elem_of_nil.
  - intros (i & c & -> & _)%elem_of_lookup_imap. simpl in *. lia.
  - intros (i & c & -> & H)%elem_of_lookup_imap. apply list_elem_of_lookup_2 in H.
    apply size_elem in H. simpl in *. lia.
  - intros H. apply size_member in H. lia.
Qed.

(** The fuel that reading a schema takes. *)
Definition need (o : option json) : nat := match o with Some e => S (2 * size e) | None => 1 end.

Definition uF_ends (n : nat) : Prop :=
  (forall o t r s, need o <= n -> ends (uF n o t r s))
  /\ (forall r l, 1 <= n -> (forall x, x ∈ l -> S (need (Some x)) <= n) -> ends (uF_allOf n r l)).

Lemma uF_allOf_step n : uF_ends n -> forall r l,
  (forall x, x ∈ l -> need (Some x) <= n) -> ends (uF_allOf (S n) r l).
Proof.
  intros [H _] r l Hl. cbn [uF_allOf]. apply ends_loop. intros t i x Hx. specialize (Hl x Hx).
  destruct (composite x); [apply ends_bind; auto|].
  destruct (arrayLike x); [apply ends_bind; auto|]. by destruct (has "type" x).
Qed.

Lemma need_field n k e : need (Some e) <= S n -> need (field k e) <= n.
Proof.
  unfold need. intros H. pose proof (size_pos e). destruct (field k e) eqn:E; [|lia].
  apply size_field in E. lia.
Qed.

Lemma isRequired_ends e s : ends (isRequired e s).
Proof. unfold isRequired. repeat case_match; done. Qed.

(** One step of [uF], on a schema that is there. *)
Lemma uF_step n : uF_ends n -> forall e t r s, need (Some e) <= S n -> ends (uF (S n) (Some e) t r s).
Proof.
  intros [Hu Ha] e t r s He. cbn [uF].
  assert (Hn : forall o r s, need o <= n -> ends (x ← uF n o [] r s; Returns (fresh x)))
    by (intros; apply ends_bind; auto).
  assert (Hp : forall t, ends (properties
            (fun x => y ← uF n (Some x) [] (S r) []; Returns (fresh y)) e t)).
  { intros t0. apply ends_loop. intros t1 i p Hp. apply ends_bind; [apply isRequired_ends|].
    intros req. apply ends_bind; [|auto]. apply Hn. apply size_members in Hp. unfold need in *. lia. }
  destruct (negb (isTrue e)); [done|].
  destruct (has "allOf" e).
  { assert (Hl : forall l, l = elements (field "allOf" e) -> ends (l ← uF_allOf n r l; Returns (RNode l))).
    { intros l ->. apply ends_bind; [|auto]. apply Ha; [unfold need in He; pose proof (size_pos e); lia|].
      intros x Hx%size_elements. unfold need in *. lia. }
    destruct (elements (field "allOf" e)) as [|x [|y l]]; try by apply Hl.
    destruct (_ && _); [done|]. by apply Hl. }
  destruct (has "anyOf" e || has "oneOf" e).
  { apply ends_bind; [by destruct (_ || _); auto|]. intros t1. apply ends_bind; [|auto].
    apply ends_loop. intros opts i x Hx. destruct (_ || arrayLike x); [|done].
    apply ends_bind; [apply Hn; apply size_elements in Hx; unfold need in *; lia|].
    intros d. apply ends_bind; [by destruct d|auto]. }
  destruct (match field "type" e with Some (JArr _) => true | _ => false end) eqn:Ety.
  { destruct (field "type" e) as [[| | | |types|]|]; try done.
    destruct (splitTypes e types) as [prims others].
    destruct others as [|x0 others]; [by destruct prims|].
    set (L := loop _ 0 (x0 :: others) _).
    assert (HL : ends L).
    { apply ends_loop. intros opts i x _. destruct (includes _ _); [done|].
      destruct (_ === u8 "object"); [apply ends_bind; auto|].
      destruct (_ === u8 "array"); [|done]. apply ends_bind; [|auto].
      apply Hn. by apply need_field. }
    destruct prims; apply ends_bind; auto. }
  assert (Hm : forall X (a : list json -> X) b,
            match field "type" e with Some (JArr l) => a l | _ => b end = b)
    by (intros; repeat (case_match; try done)).
  rewrite Hm. destruct (isStr "object" _ || _).
  { apply ends_bind; [auto|]. intros t1. apply ends_bind.
    - apply ends_loop. intros t2 i p Hx. apply ends_bind; [|auto].
      apply Hu. apply size_members in Hx. unfold need in *. lia.
    - intros t2. destruct (has "additionalProperties" e); [|done].
      apply ends_bind; [|auto]. apply Hn. by apply need_field. }
  destruct (isStr "array" _ || _); [|done].
  apply ends_bind; [|auto]. apply Hn. by apply need_field.
Qed.

Lemma uF_ends_all n : uF_ends n.
Proof.
  induction n as [n IH] using lt_wf_ind. split.
  - intros o t r s Ho. destruct n as [|n]; [destruct o; simpl in Ho; lia|].
    destruct o as [e|]; [|done]. apply uF_step; [|done]. apply IH. lia.
  - intros r l Hn Hl. destruct n as [|n]; [lia|]. apply uF_allOf_step; [apply IH; lia|].
    intros x Hx. specialize (Hl x Hx). lia.
Qed.

(** Twice the size of a schema is fuel enough to read it. *)
Lemma schema_read e t r s n : S (2 * size e) <= n -> uF n (Some e) t r s <> OutOfFuel.
Proof. apply (proj1 (uF_ends_all n) (Some e)). Qed.

(** [uF(e, {})] *)
Definition schemaData (e : json) : run data :=
  x ← uF (S (2 * size e)) (Some e) [] 0 []; Returns (fresh x).
