(* ===== verification/RapidocSchemaTree.v ===== *)
(** * RapiDoc: the trees and tables of schemas

    The elements [schema-tree] and [schema-table], which show the data that
    [RapidocSchema] makes of a schema: their attributes, [generateTree] and [render] of
    each, and the handlers of their clicks.

    The data holds no arrays, so the branches of [generateTree] for an array are not
    modelled.  [OutOfFuel] bounds the nesting of the data, [Throws] is an exception.

    What they hide and show is in [RapidocSchemaFacts] and [RapidocSchemaShown]. *)

From stdpp Require Import strings numbers pretty list sets.
From S2P Require Import Prelude JsString Html RapidocUrl RapidocSpec RapidocElement.
From S2P Require Import RapidocJson RapidocJsonText RapidocRequest RapidocConsole RapidocSchema.

Open Scope nat_scope.

(** ** The elements *)

Inductive treeEvent := handleAllEvents.

Record SchemaView := mkView {
  sv_data : data;
  sv_expandLevel : nat;
  sv_descriptionExpanded : jstr;
  sv_allowToggle : jstr;
  sv_hideReadOnly : jstr;
  sv_hideWriteOnly : jstr;
}.

Definition orFlag (s d : jstr) : jstr :=
  if truthy s && includes (u8 "true false") s then s else d.

(** [connectedCallback]: an attribute that is missing is empty, a missing level is 0. *)
Definition connectedCallback (this : SchemaView) : SchemaView := {|
  sv_data := sv_data this;
  sv_expandLevel := if sv_expandLevel this <? 1 then N.to_nat 99999 else sv_expandLevel this;
  sv_descriptionExpanded := orFlag (sv_descriptionExpanded this) (u8 "false");
  sv_allowToggle := sv_allowToggle this;
  sv_hideReadOnly := orFlag (sv_hideReadOnly this) (u8 "true");
  sv_hideWriteOnly := orFlag (sv_hideWriteOnly this) (u8 "true") |}.

(** ** Fields of the data *)

Definition dfield (k : string) (d : data) : option data :=
  match d with DNode l => assoc (u8 k) l | _ => None end.

Definition isTrueData (d : data) : bool :=
  match d with
  | DUndef => false
  | DText s => truthy s
  | DBool b => b
  | DNode _ | DSelf => true
  end.

(** [d.k || ""] as a text, and whether [d.k] counts as true. *)
Definition dtext (k : string) (d : data) : jstr :=
  match dfield k d with Some (DText s) => s | _ => [] end.
Definition dtrue (k : string) (d : data) : bool :=
  match dfield k d with Some x => isTrueData x | None => false end.

Definition dtype (d : data) : jstr := dtext "::type" d.

(** The default of a parameter that is undefined. *)
Definition orObject (t : jstr) : jstr := if truthy t then t else u8 "object".

Definition metaKeys : list jstr :=
  [u8 "::title"; u8 "::description"; u8 "::type"; u8 "::props"; u8 "::deprecated";
   u8 "::array-type"; u8 "::readwrite"; u8 "::dataTypeLabel"; u8 "::nullable"].

Definition isMeta (k : jstr) : bool := existsb (fun x => x === k) metaKeys.

(** What a part of an object is shown with: the data to go into, its kind, the kind of an
    array's items, the description, the access and whether it is deprecated. *)
Record Part := mkPart {
  pa_data : data;
  pa_type : jstr;
  pa_arrayType : jstr;
  pa_key : jstr;
  pa_description : jstr;
  pa_readWrite : jstr;
  pa_deprecated : bool;
}.

Definition partData (v : data) : data :=
  if dtype v === u8 "array" then default DUndef (dfield "::props" v) else v.

Definition partWith (l : bool) (k : jstr) (v : data) : Part := {|
  pa_data := partData v;
  pa_type := orObject (dtype v);
  pa_arrayType := dtext "::array-type" v;
  pa_key := k;
  pa_description := dtext "::description" v;
  pa_readWrite := dtext "::readwrite" v;
  pa_deprecated := l || dtrue "::deprecated" v |}.

Definition isUndef (v : data) : bool := match v with DUndef => true | _ => false end.

(** The parts of an object, in order; a value that is undefined throws. *)
Definition partOf (e : data) (l : bool) (p : jstr * data) : run (list Part) :=
  let v := match p.2 with DSelf => e | v => v end in
  if isUndef v then Throws
  else if isMeta p.1 && negb ((dtype v === u8 "array") || (dtype v === u8 "object"))
  then Returns []
  else Returns [partWith l p.1 v].

Fixpoint gather {A B} (f : A -> run (list B)) (l : list A) : run (list B) :=
  match l with
  | [] => Returns []
  | x :: r => a ← f x; b ← gather f r; Returns (a ++ b)
  end.

Definition fieldsOf (e : data) : list (jstr * data) := match e with DNode l => l | _ => [] end.

Definition decZ (z : Z) : jstr := u8 (pretty z).

(** [s.replace(/\*$/, "")] *)
Definition dropStar (s : jstr) : jstr := if endsWith (u8 "*") s then sliceLast s else s.

(** The key and the description of an option. *)
Definition tildeParts (s : jstr) : list jstr := splitOn 126 s.

Definition keyTexts (s : jstr) : jstr * jstr :=
  if startsWith (u8 "::ONE~OF") s || startsWith (u8 "::ANY~OF") s then
    (replaceFirst (u8 "~") (u8 " ") (replaceFirst (u8 "::") [] s), [])
  else if startsWith (u8 "::OPTION") s then
    (orE (nth_error (tildeParts s) 1), orE (nth_error (tildeParts s) 2))
  else (s, []).

(** A row of a text: its nine texts. *)
Record Row := mkRow {
  rw_type : jstr; rw_access : jstr; rw_constrain : jstr; rw_default : jstr;
  rw_allowed : jstr; rw_pattern : jstr; rw_description : jstr; rw_title : jstr;
  rw_deprecated : jstr;
}.

Definition rowOf (e : jstr) : Row :=
  let p i := nth i (splitText separator e) [] in
  {| rw_type := p 0; rw_access := p 1; rw_constrain := p 2; rw_default := p 3;
     rw_allowed := p 4; rw_pattern := p 5; rw_description := p 6; rw_title := p 7;
     rw_deprecated := p 8 |}.

(** [v.replace(/┃.*/g, "")] *)
Definition isLineEnd (c : N) : bool :=
  existsb (N.eqb c) [10; 13; 8232; 8233]%N.

Fixpoint dropBars (skip : bool) (s : jstr) : jstr :=
  match s with
  | [] => []
  | c :: r =>
      if isLineEnd c then c :: dropBars false r
      else if skip || (c =? 9475)%N then dropBars true r
      else c :: dropBars false r
  end.

Section trees.
Context {CM : CaseMapping} {MK : Marked}.

Definition typeClass (v : jstr) : jstr :=
  toLowerCase (take 4 (List.filter (fun c => isAlnum c || (c =? 43)%N) (dropBars false v))).

Definition hides (this : SchemaView) (t a : jstr) (e : data) : bool :=
  ((sv_hideReadOnly this === u8 "true")
   && (((t === u8 "array") && (a === u8 "readonly")) || (dtext "::readwrite" e === u8 "readonly")))
  || ((sv_hideWriteOnly this === u8 "true")
   && (((t === u8 "array") && (a === u8 "writeonly")) || (dtext "::readwrite" e === u8 "writeonly"))).

Definition hidesRow (this : SchemaView) (w : Row) : bool :=
  ((rw_access w === u8 "🆁") && (sv_hideReadOnly this === u8 "true"))
  || ((rw_access w === u8 "🆆") && (sv_hideWriteOnly this === u8 "true")).

(** What is shown for a schema that is not there. *)
Definition nothing (t : jstr) : html treeEvent :=
  if t === u8 "array" then el "span" ["class" =: u8 "mono-font"] (txt (u8 " [ ] "))
  else if t === u8 "object" then el "span" ["class" =: u8 "mono-font"] (txt (u8 " { } "))
  else el "span" ["class" =: u8 "mono-font"] (txt (u8 " schema undefined ")).

Definition xxxOf (e : data) : bool := startsWith (u8 "xxx-of") (dtype e).
Definition isOption (e : data) : bool :=
  (dtype e === u8 "xxx-of-option") || (dtype e === u8 "xxx-of-array").

(** The depth of the rows inside, and their indentation. *)
Definition inside (e : data) (i : nat) : nat := if xxxOf e then i else S i.
Definition indent (t s : jstr) (e : data) (o : nat) : nat :=
  if (t === u8 "xxx-of-option") || (dtype e === u8 "xxx-of-option")
     || startsWith (u8 "::OPTION") s then o else S o.

(** ** schema-tree *)

(** The opening bracket, and the text of the closing one. *)
Definition bracket (this : SchemaView) (t r : jstr) (e : data) (i : nat)
    : html treeEvent * jstr :=
  let open_ := i <? sv_expandLevel this in
  let null := if dtrue "::nullable" e then u8 "null┃" else [] in
  if dtype e === u8 "object" then
    if t === u8 "array" then
      (el "span" ["class" =: u8 "open-bracket array-of-object"]
         (txt (if open_ then u8 "[{" else u8 "[{...}]")), u8 "}]")
    else
      (el "span" ["class" =: u8 "open-bracket object"]
         (txt (null ++ if open_ then u8 "{" else u8 "{...}")), u8 "}")
  else if dtype e === u8 "array" then
    if t === u8 "array" then
      let k := if r === u8 "object" then [] else r in
      (el "span" ["class" =: u8 "open-bracket array-of-array"; "data-array-type" =: k]
         (txt (if open_ then u8 "[[ " ++ k else u8 "[[...]]")), u8 "]]")
    else
      (el "span" ["class" =: u8 "open-bracket array"]
         (txt (if open_ then u8 "[" else u8 "[...]")), u8 "]")
  else ([], []).

(** An object with what is inside it. *)
Definition treeObject (this : SchemaView) (e : data) (t r s n : jstr) (i o : nat) (a : jstr)
    (l : bool) (kids : html treeEvent) : html treeEvent :=
  let '(p, u) := keyTexts s in
  let '(h, m) := bracket this t r e i in
  let d := (400 - 12 * Z.of_nat o)%Z in
  el "div" ["class" =: u8 "tr " ++ (if (i <? sv_expandLevel this) || xxxOf e then u8 "expanded" else u8 "collapsed") ++ u8 " " ++ sor (dtype e) (u8 "no-type-info") ++ (if dtrue "::nullable" e then u8 " nullable" else []);
          "title" =: (if l || dtrue "::deprecated" e then u8 "Deprecated" else [])] (
        el "div" ["class" =: u8 "td key " ++ (if l || dtrue "::deprecated" e then u8 "deprecated" else []);
            "style" =: u8 "min-width:" ++ decZ d ++ u8 "px"] (
          (if isOption e || startsWith (u8 "::OPTION") s then el "span" ["class" =: u8 "key-label xxx-of-key"] (txt p) ++
            el "span" ["class" =: u8 "xxx-of-descr"] (txt u)
          else unless ((p === u8 "::props") || (p === u8 "::ARRAY~OF")) (when (0 <? i) (el "span" ["class" =: u8 "key-label";
                      "title" =: (if a === u8 "readonly" then u8 "Read-Only" else (if a === u8 "writeonly" then u8 "Write-Only" else []))] (
                    when (l || dtrue "::deprecated" e) (el "svg" ["viewBox" =: u8 "0 0 10 10";
                            "width" =: u8 "10";
                            "height" =: u8 "10";
                            "style" =: u8 "stroke:var(--red); margin-right:-6px"] (
                          el "path" ["d" =: u8 "M2 2L8 8M2 8L8 2"] [])) ++
                    txt (dropStar p) ++
                    when (endsWith (u8 "*") p) (el "span" ["style" =: u8 "color:var(--red)"] (txt (u8 "*"))) ++
                    (if a === u8 "readonly" then txt (u8 " 🆁")
                    else (if a === u8 "writeonly" then txt (u8 " 🆆")
                      else txt a)) ++
                    txt (u8 ":"))))) ++
          h) ++
        el "div" ["class" =: u8 "td key-descr m-markdown-small"] (raw (markdown n))) ++
    el "div" ["class" =: u8 "inside-bracket " ++ sor (dtype e) (u8 "no-type-info");
          "style" =: u8 "padding-left:" ++ decN (if isOption e then 0 else 12) ++ u8 "px;"] (
        kids) ++
    unless (includes (dtype e) (u8 "xxx-of")) (el "div" ["class" =: u8 "close-bracket"] (txt m)).

(** A row of a text; [j] opens a long description. *)
Definition treeRow (this : SchemaView) (w : Row) (t s n : jstr) (o : nat) (a : jstr) (l : bool)
    : html treeEvent :=
  let '(p, u) := keyTexts s in
  let d := (400 - 12 * Z.of_nat o)%Z in
  let j := if truthy (rw_constrain w) || truthy (rw_default w) || truthy (rw_allowed w)
              || truthy (rw_pattern w)
           then u8 "<span class=" ++ [34%N] ++ u8 "descr-expand-toggle " ++
                (if sv_descriptionExpanded this === u8 "true" then u8 "expanded-descr" else [])
                ++ [34%N] ++ u8 ">➔</span>"
           else [] in
  let acc := if t === u8 "array" then a
             else if rw_access w === u8 "🆁" then u8 "readonly"
             else if rw_access w === u8 "🆆" then u8 "writeonly" else [] in
  let T := if acc === u8 "readonly" then u8 "🆁"
           else if acc === u8 "writeonly" then u8 "🆆" else [] in
  let P := if acc === u8 "readonly" then u8 "Read-Only"
           else if acc === u8 "writeonly" then u8 "Write-Only" else [] in
  el "div" ["class" =: u8 "tr primitive";
          "title" =: (if truthy (rw_deprecated w) then u8 "Deprecated" else [])] (
        el "div" ["class" =: u8 "td key " ++ (if l then u8 "true" else rw_deprecated w);
            "style" =: u8 "min-width:" ++ decZ d ++ u8 "px"] (
          when (l || truthy (rw_deprecated w)) (el "svg" ["viewBox" =: u8 "0 0 10 10";
                  "width" =: u8 "10";
                  "height" =: u8 "10";
                  "style" =: u8 "stroke:var(--red); margin-right:-6px"] (
                el "path" ["d" =: u8 "M2 2L8 8M2 8L8 2"] [])) ++
          (if endsWith (u8 "*") p then el "span" ["class" =: u8 "key-label"] (txt (sliceLast p)) ++
            el "span" ["style" =: u8 "color:var(--red);"] (txt (u8 "*")) ++
            txt (u8 ":")
          else (if startsWith (u8 "::OPTION") s then el "span" ["class" =: u8 "key-label xxx-of-key"] (txt p) ++
              el "span" ["class" =: u8 "xxx-of-descr"] (txt u)
            else el "span" ["class" =: u8 "key-label"] (
                  txt p ++
                  txt (u8 ":")))) ++
          el "span" ["class" =: typeClass (rw_type w); "title" =: P] (
            txt (if t === u8 "array" then u8 "[" ++ rw_type w ++ u8 "]" else rw_type w) ++
            txt T)) ++
        el "div" ["class" =: u8 "td key-descr"] (
          when (truthy n || truthy (rw_title w) || truthy (rw_description w)) (el "span" ["class" =: u8 "m-markdown-small"] (
                  raw (markdown (if t === u8 "array" then j ++ u8 " " ++ n else if truthy (rw_title w) then j ++ u8 " <b>" ++ rw_title w ++ u8 ":</b> " ++ rw_description w else j ++ u8 " " ++ rw_description w)))) ++
          when (truthy (rw_constrain w)) (el "div" ["style" =: u8 "display:inline-block; line-break:anywhere; margin-right:8px"] (
                el "span" ["class" =: u8 "bold-text"] (txt (u8 "Constraints: ")) ++
                txt (rw_constrain w))) ++
          when (truthy (rw_default w)) (el "div" ["style" =: u8 "display:inline-block; line-break:anywhere; margin-right:8px"] (
                el "span" ["class" =: u8 "bold-text"] (txt (u8 "Default: ")) ++
                txt (rw_default w))) ++
          when (truthy (rw_allowed w)) (el "div" ["style" =: u8 "display:inline-block; line-break:anywhere; margin-right:8px"] (
                el "span" ["class" =: u8 "bold-text"] (
                  (if rw_type w === u8 "const" then txt (u8 "Value")
                  else txt (u8 "Allowed")) ++
                  txt (u8 ": ")) ++
                txt (rw_allowed w))) ++
          when (truthy (rw_pattern w)) (el "div" ["style" =: u8 "display:inline-block; line-break: anywhere; margin-right:8px"] (
                el "span" ["class" =: u8 "bold-text"] (txt (u8 "Pattern: ")) ++
                txt (rw_pattern w))))).

(** [generateTree(e, t, r, s, n, i, o, a, l)] of the tree. *)
Fixpoint generateTree (fuel : nat) (this : SchemaView) (e : data) (t r s n : jstr) (i o : nat)
    (a : jstr) (l : bool) : run (html treeEvent) :=
  match fuel with
  | O => OutOfFuel
  | S fuel =>
    if hides this t a e then Returns []
    else match e with
    | DNode [] => Returns (el "span" ["class" =: u8 "key object"] (txt (s ++ u8 ":{ }")))
    | DBool true => Returns (el "span" ["class" =: u8 "key object"] (txt (s ++ u8 ":{ }")))
    | DNode fields =>
        parts ← gather (partOf e l) fields;
        kids ← gather (fun q => generateTree fuel this (pa_data q) (pa_type q)
                 (pa_arrayType q) (pa_key q) (pa_description q) (inside e i) (indent t s e o)
                 (pa_readWrite q) (pa_deprecated q)) parts;
        Returns (treeObject this e t r s n i o a l kids)
    | DText ((_ :: _) as x) =>
        let w := rowOf x in
        if hidesRow this w then Returns [] else Returns (treeRow this w t s n o a l)
    | _ =>
        Returns (el "div" ["class" =: u8 "null"; "style" =: u8 "display:inline;"] (
          el "span" ["class" =: u8 "key-label xxx-of-key"]
            (txt (replaceFirst (u8 "::OPTION~") [] s)) ++
          nothing t))
    end
  end.

Definition renderTree (fuel : nat) (this : SchemaView) : run (html treeEvent) :=
  let d := sv_data this in
  body ← (if isTrueData d
          then generateTree fuel this (partData d) (orObject (dtype d)) (dtext "::array-type" d)
                 [] [] 0 0 [] false
          else Returns (el "span" ["class" =: u8 "mono-font"; "style" =: u8 "color:var(--red)"]
                 (txt (u8 " Schema not found "))));
  Returns (
  el "div" ["class" =: u8 "tree " ++ (if sv_descriptionExpanded this === u8 "true" then u8 "expanded-all-descr" else u8 "collapsed-all-descr");
        "click" =@ handleAllEvents] (
      el "div" ["class" =: u8 "toolbar"] (
        el "div" ["class" =: u8 "toolbar-item schema-root-type " ++ dtype d ++ u8 " "] (
          txt (dtype d)) ++
        when (sv_allowToggle this === u8 "true") (el "div" ["style" =: u8 "flex:1"] [] ++
          el "div" ["part" =: u8 "schema-toolbar-item schema-multiline-toggle";
                "class" =: u8 "toolbar-item schema-multiline-toggle"] (
              (if sv_descriptionExpanded this === u8 "true" then txt (u8 "Single line description")
              else txt (u8 "Multiline description"))))) ++
      el "span" ["part" =: u8 "schema-description"; "class" =: u8 "m-markdown"] (
        raw (markdown (dtext "::description" d))) ++
      body)).

(** ** schema-table *)

(** The type that a row of an object or an array has. *)
Definition tableType (e : data) (t r : jstr) : jstr :=
  if dtype e === u8 "object" then
    (if t === u8 "array" then u8 "array of object" else sor (dtext "::dataTypeLabel" e) (dtype e))
  else if dtype e === u8 "array" then
    (if t === u8 "array"
     then u8 "array of array " ++ (if r === u8 "object" then [] else u8 "of " ++ r)
     else sor (dtext "::dataTypeLabel" e) (dtype e))
  else [].

(** An object with what is inside it; the element has a row of its own if it has a key. *)
Definition tableObject (this : SchemaView) (e : data) (t r s n : jstr) (i o : nat) (l : bool)
    (kids : html treeEvent) : html treeEvent :=
  let '(m, f) := keyTexts s in
  let g := startsWith (u8 "::ONE~OF") s || startsWith (u8 "::ANY~OF") s in
  let u := inside e i in
  let h := 16 * indent t s e o in
  let y := tableType e t r in
  (if truthy s then el "div" ["class" =: u8 "tr " ++ (if u <=? sv_expandLevel this then u8 "expanded" else u8 "collapsed") ++ u8 " " ++ (match dfield "::type" e with Some (DText x) => x | _ => u8 "undefined" end);
              "data-obj" =: m;
              "title" =: (if l || dtrue "::deprecated" e then u8 "Deprecated" else [])] (
            el "div" ["class" =: u8 "td key " ++ (if l || dtrue "::deprecated" e then u8 "deprecated" else []);
                "style" =: u8 "padding-left:" ++ decN h ++ u8 "px"] (
              when (truthy m || truthy f) (el "span" ["class" =: u8 "obj-toggle " ++ (if u <? sv_expandLevel this then u8 "expanded" else u8 "collapsed");
                      "data-obj" =: m] (
                    (if i <? sv_expandLevel this then txt (u8 "-")
                    else txt (u8 "+")))) ++
              (if isOption e || startsWith (u8 "::OPTION") s then el "span" ["class" =: u8 "xxx-of-key"; "style" =: u8 "margin-left:-6px"] (txt m) ++
                el "span" ["class" =: (if g then u8 "xxx-of-key" else u8 "xxx-of-descr")] (txt f)
              else (if endsWith (u8 "*") m then el "span" ["class" =: u8 "key-label";
                        "style" =: u8 "display:inline-block; margin-left:-6px;"] (
                      when (l || dtrue "::deprecated" e) (el "svg" ["viewBox" =: u8 "0 0 10 10";
                              "width" =: u8 "10";
                              "height" =: u8 "10";
                              "style" =: u8 "stroke:var(--red); margin-right:-6px"] (
                            el "path" ["d" =: u8 "M2 2L8 8M2 8L8 2"] [])) ++
                      txt (sliceLast m)) ++
                  el "span" ["style" =: u8 "color:var(--red);"] (txt (u8 "*"))
                else el "span" ["class" =: u8 "key-label";
                        "style" =: u8 "display:inline-block; margin-left:-6px;"] (
                      when (l || dtrue "::deprecated" e) (el "svg" ["viewBox" =: u8 "0 0 10 10";
                              "width" =: u8 "10";
                              "height" =: u8 "10";
                              "style" =: u8 "stroke:var(--red); margin-right:-6px"] (
                            el "path" ["d" =: u8 "M2 2L8 8M2 8L8 2"] [])) ++
                      unless (m === u8 "::props") (txt m)))) ++
              when ((dtype e === u8 "xxx-of") && (t === u8 "array")) (el "span" ["style" =: u8 "color:var(--primary-color)"] (txt (u8 "ARRAY")))) ++
            el "div" ["class" =: u8 "td key-type";
                "title" =: (if dtext "::readwrite" e === u8 "readonly" then u8 "Read-Only" else (if dtext "::readwrite" e === u8 "writeonly" then u8 "Write-Only" else []))] (
              unless (includes (dtype e) (u8 "xxx-of")) (txt y) ++
              (if dtext "::readwrite" e === u8 "readonly" then txt (u8 " 🆁")
              else when (dtext "::readwrite" e === u8 "writeonly") (txt (u8 " 🆆")))) ++
            el "div" ["class" =: u8 "td key-descr m-markdown-small";
                "style" =: u8 "line-height:1.7"] (
              raw (markdown n)))
      else when ((dtype e === u8 "array") && (t === u8 "array")) (el "div" ["class" =: u8 "tr"] (
                el "div" ["class" =: u8 "td key"] [] ++
                el "div" ["class" =: u8 "td key-type"] (
                  (if truthy r && negb (r === u8 "object") then txt (t ++ u8 " of " ++ r)
                  else txt t)) ++
                el "div" ["class" =: u8 "td key-descr"] []))) ++
    el "div" ["class" =: u8 "object-body"] (kids).

Definition tableRow (this : SchemaView) (w : Row) (t s n : jstr) (o : nat) (a : jstr) (l : bool)
    : html treeEvent :=
  let '(m, f) := keyTexts s in
  let h := 16 * o in
  let j := if truthy (rw_constrain w) || truthy (rw_default w) || truthy (rw_allowed w)
              || truthy (rw_pattern w)
           then u8 "<span class=" ++ [34%N] ++ u8 "descr-expand-toggle" ++ [34%N] ++ u8 ">➔</span>"
           else [] in
  let T : html treeEvent :=
    if t === u8 "array" then
      el "div" ["class" =: u8 "td key-type " ++ typeClass (rw_type w);
            "title" =: (if a === u8 "readonly" then u8 "Read-Only" else (if rw_access w === u8 "writeonly" then u8 "Write-Only" else []))] (
          txt (u8 "[") ++
          txt (rw_type w) ++
          txt (u8 "] ") ++
          (if a === u8 "readonly" then txt (u8 "🆁")
          else when (a === u8 "writeonly") (txt (u8 "🆆"))))
    else
      el "div" ["class" =: u8 "td key-type " ++ typeClass (rw_type w);
            "title" =: (if rw_access w === u8 "🆁" then u8 "Read-Only" else (if rw_access w === u8 "🆆" then u8 "Write-Only" else []))] (
          txt (rw_type w) ++
          txt (rw_access w)) in
  el "div" ["class" =: u8 "tr primitive";
          "title" =: (if l || truthy (rw_deprecated w) then u8 "Deprecated" else [])] (
        el "div" ["class" =: u8 "td key " ++ (if l || truthy (rw_deprecated w) then u8 "deprecated" else []);
            "style" =: u8 "padding-left:" ++ decN h ++ u8 "px"] (
          when (l || truthy (rw_deprecated w)) (el "svg" ["viewBox" =: u8 "0 0 10 10";
                  "width" =: u8 "10";
                  "height" =: u8 "10";
                  "style" =: u8 "stroke:var(--red); margin-right:-6px"] (
                el "path" ["d" =: u8 "M2 2L8 8M2 8L8 2"] [])) ++
          (if endsWith (u8 "*") m then el "span" ["class" =: u8 "key-label"] (txt (sliceLast m)) ++
            el "span" ["style" =: u8 "color:var(--red);"] (txt (u8 "*"))
          else (if startsWith (u8 "::OPTION") s then el "span" ["class" =: u8 "xxx-of-key"] (txt m) ++
              el "span" ["class" =: u8 "xxx-of-descr"] (txt f)
            else (if truthy m then el "span" ["class" =: u8 "key-label"] (txt m)
                else el "span" ["class" =: u8 "xxx-of-descr"] (txt (rw_title w)))))) ++
        T ++
        el "div" ["class" =: u8 "td key-descr";
            "style" =: u8 "font-size: var(--font-size-small)"] (
          el "span" ["class" =: u8 "m-markdown-small"] (
              raw (markdown (if t === u8 "array" then j ++ u8 " " ++ n else if truthy (rw_title w) then j ++ u8 " <b>" ++ rw_title w ++ u8 ":</b> " ++ rw_description w else j ++ u8 " " ++ rw_description w))) ++
          when (truthy (rw_constrain w)) (el "div" ["class" =: [];
                  "style" =: u8 "display:inline-block; line-break:anywhere; margin-right:8px;"] (
                el "span" ["class" =: u8 "bold-text"] (txt (u8 "Constraints: ")) ++
                txt (rw_constrain w))) ++
          when (truthy (rw_default w)) (el "div" ["style" =: u8 "display:inline-block; line-break:anywhere; margin-right:8px;"] (
                el "span" ["class" =: u8 "bold-text"] (txt (u8 "Default: ")) ++
                txt (rw_default w))) ++
          when (truthy (rw_allowed w)) (el "div" ["style" =: u8 "display:inline-block; line-break:anywhere; margin-right:8px;"] (
                el "span" ["class" =: u8 "bold-text"] (
                  (if rw_type w === u8 "const" then txt (u8 "Value")
                  else txt (u8 "Allowed")) ++
                  txt (u8 ": ")) ++
                txt (rw_allowed w))) ++
          when (truthy (rw_pattern w)) (el "div" ["style" =: u8 "display:inline-block; line-break:anywhere; margin-right:8px;"] (
                el "span" ["class" =: u8 "bold-text"] (txt (u8 "Pattern: ")) ++
                txt (rw_pattern w))))).

(** [generateTree] of the table; a key of an empty object is shown alone. *)
Fixpoint generateTable (fuel : nat) (this : SchemaView) (e : data) (t r s n : jstr) (i o : nat)
    (a : jstr) (l : bool) : run (html treeEvent) :=
  match fuel with
  | O => OutOfFuel
  | S fuel =>
    let lone := el "span" ["class" =: u8 "td key object";
                           "style" =: u8 "padding-left:" ++ decN (16 * indent t s e o) ++ u8 "px"]
                  (txt s) in
    if hides this t a e then Returns []
    else match e with
    | DNode [] | DBool true => Returns lone
    | DNode fields =>
        parts ← gather (partOf e l) fields;
        kids ← gather (fun q => generateTable fuel this (pa_data q) (pa_type q)
                 (pa_arrayType q) (pa_key q) (pa_description q) (inside e i) (indent t s e o)
                 (pa_readWrite q) (pa_deprecated q)) parts;
        Returns (tableObject this e t r s n i o l kids)
    | DText ((_ :: _) as x) =>
        let w := rowOf x in
        if hidesRow this w then Returns []
        else Returns (tableRow this w t s n (indent t s e o) a l)
    | _ =>
        Returns (el "div" ["class" =: u8 "null"; "style" =: u8 "display:inline;"] (
          el "span" ["style" =: u8 "margin-left:" ++ decN (16 * (i + 1)) ++ u8 "px"] (txt [160%N]) ++
          el "span" ["class" =: u8 "key-label xxx-of-key"]
            (txt (replaceFirst (u8 "::OPTION~") [] s)) ++
          nothing t))
    end
  end.

Definition renderTable (fuel : nat) (this : SchemaView) : run (html treeEvent) :=
  let d := sv_data this in
  body ← (if isTrueData d
          then generateTable fuel this (partData d) (orObject (dtype d)) (dtext "::array-type" d)
                 [] [] 0 0 [] false
          else Returns []);
  Returns (
  el "div" ["class" =: u8 "table " ++ (if sv_descriptionExpanded this === u8 "true" then u8 "expanded-all-descr" else u8 "collapsed-all-descr");
        "click" =@ handleAllEvents] (
      el "div" ["class" =: u8 "toolbar"] (
        el "div" ["class" =: u8 "toolbar-item schema-root-type " ++ dtype d ++ u8 " "] (
          txt (dtype d)) ++
        when (sv_allowToggle this === u8 "true") (el "div" ["style" =: u8 "flex:1"] [] ++
          el "div" ["part" =: u8 "schema-multiline-toggle";
                "class" =: u8 "toolbar-item schema-multiline-toggle"] (
              (if sv_descriptionExpanded this === u8 "true" then txt (u8 "Single line description")
              else txt (u8 "Multiline description"))))) ++
      el "span" ["part" =: u8 "schema-description"; "class" =: u8 "m-markdown"] (
        raw (markdown (dtext "::description" d))) ++
      el "div" ["style" =: u8 "border:1px solid var(--light-border-color)"] (
        el "div" ["style" =: u8 "display:flex; background-color: var(--bg2); padding:8px 4px; border-bottom:1px solid var(--light-border-color);"] (
          el "div" ["class" =: u8 "key";
              "style" =: u8 "font-family:var(--font-regular); font-weight:bold; color:var(--fg);"] (
            txt (u8 " Field ")) ++
          el "div" ["class" =: u8 "key-type";
              "style" =: u8 "font-family:var(--font-regular); font-weight:bold; color:var(--fg);"] (
            txt (u8 " Type ")) ++
          el "div" ["class" =: u8 "key-descr";
              "style" =: u8 "font-family:var(--font-regular); font-weight:bold; color:var(--fg);"] (
            txt (u8 " Description "))) ++
        body))).

End trees.

(** ** Clicks *)

(** The button of the toolbar. *)
Definition toggleDescriptions (this : SchemaView) : SchemaView := {|
  sv_data := sv_data this; sv_expandLevel := sv_expandLevel this;
  sv_descriptionExpanded := if sv_descriptionExpanded this === u8 "true" then u8 "false"
                            else u8 "true";
  sv_allowToggle := sv_allowToggle this; sv_hideReadOnly := sv_hideReadOnly this;
  sv_hideWriteOnly := sv_hideWriteOnly this |}.

(** A bracket of the tree: the classes of its row and its own, the kind of its items and
    its text. *)
Inductive bracketKind := ArrayOfObject | ArrayOfArray | PlainArray | PlainObject.

Record TreeBracket := mkTreeBracket {
  tb_expanded : bool;
  tb_nullable : bool;
  tb_kind : bracketKind;
  tb_arrayType : jstr;
  tb_text : jstr;
}.

Definition closedText (b : TreeBracket) : jstr :=
  match tb_kind b with
  | ArrayOfObject => u8 "[{...}]"
  | ArrayOfArray => u8 "[[...]]"
  | PlainArray => u8 "[...]"
  | PlainObject => (if tb_nullable b then u8 "null┃" else []) ++ u8 "{...}"
  end.

Definition openText (b : TreeBracket) : jstr :=
  match tb_kind b with
  | ArrayOfObject => u8 "[{"
  | ArrayOfArray => u8 "[[ " ++ tb_arrayType b
  | PlainArray => u8 "["
  | PlainObject => (if tb_nullable b then u8 "null┃" else []) ++ u8 "{"
  end.

(** [toggleObjectExpand] of the tree. *)
Definition toggleBracket (b : TreeBracket) : TreeBracket := {|
  tb_expanded := negb (tb_expanded b); tb_nullable := tb_nullable b; tb_kind := tb_kind b;
  tb_arrayType := tb_arrayType b;
  tb_text := if tb_expanded b then closedText b else openText b |}.

(** [toggleObjectExpand] of the table: the row and its toggle. *)
Definition toggleRow (b : bool * jstr) : bool * jstr :=
  (negb b.1, if b.1 then u8 "+" else u8 "-").
