(* ===== verification/RapidocSchemaFacts.v ===== *)
(** * RapiDoc: what the trees of schemas hide

    [tree_hides] and [table_hides]: with read-only (write-only) properties hidden, nothing
    that is shown is marked read-only (write-only). *)

From stdpp Require Import strings numbers pretty list sets.
From S2P Require Import Prelude JsString Html RapidocUrl RapidocSpec RapidocElement.
From S2P Require Import RapidocJson RapidocJsonText RapidocRequest RapidocConsole.
From S2P Require Import RapidocSchema RapidocSchemaTree.

Open Scope nat_scope.

(** ** Gathering *)

Section gather.
Context {A B : Type} (f : A -> run (list B)).

Lemma bind_returns {X Y} (m : run X) (g : X -> run Y) y :
  m ≫= g = Returns y -> exists x, m = Returns x /\ g x = Returns y.
Proof. destruct m; cbn; try done. eauto. Qed.

Lemma gather_elem l b y :
  gather f l = Returns b -> y ∈ b -> exists x a, x ∈ l /\ f x = Returns a /\ y ∈ a.
Proof.
  revert b. induction l as [|x l IH]; intros b; cbn [gather]; [by intros [= <-] ?%elem_of_nil|].
  intros (a & Ha & (c & Hc & [= <-])%bind_returns)%bind_returns.
  rewrite elem_of_app. intros [Hy|Hy].
  - exists x, a. split_and!; [by left|done|done].
  - destruct (IH c Hc Hy) as (x' & a' & ? & ? & ?). exists x', a'. split_and!; [by right|done|done].
Qed.

Lemma gather_part l b x :
  gather f l = Returns b -> x ∈ l -> exists a c d, f x = Returns a /\ b = c ++ a ++ d.
Proof.
  revert b. induction l as [|y l IH]; intros b; cbn [gather]; [by intros _ ?%elem_of_nil|].
  intros (a & Ha & (k & Hk & [= <-])%bind_returns)%bind_returns [->|Hx]%elem_of_cons.
  - by exists a, [], k.
  - destruct (IH k Hk Hx) as (a' & c & d & E & ->). exists a', (a ++ c), d. by rewrite <- app_assoc.
Qed.

End gather.

Lemma gather_attrs {A H} (f : A -> run (html H)) name l h y :
  gather f l = Returns h -> y ∈ attrs name h ->
  exists x a, x ∈ l /\ f x = Returns a /\ y ∈ attrs name a.
Proof.
  revert h. induction l as [|x l IH]; intros h; cbn [gather]; [by intros [= <-] ?%elem_of_nil|].
  intros (a & Ha & (c & Hc & [= <-])%bind_returns)%bind_returns.
  unfold attrs at 1. rewrite collect_app, elem_of_app. intros [Hy|Hy].
  - exists x, a. split_and!; [by left|done|done].
  - destruct (IH c Hc Hy) as (x' & a' & ? & ? & ?). exists x', a'. split_and!; [by right|done|done].
Qed.

(** ** Hidden properties *)

Section hidden.
Context {CM : CaseMapping} {MK : Marked}.

(** The two kinds of access that can be hidden. *)
Inductive access := ReadOnly | WriteOnly.

Definition flagOf (c : access) (this : SchemaView) : jstr :=
  match c with ReadOnly => sv_hideReadOnly this | WriteOnly => sv_hideWriteOnly this end.
Definition wordOf (c : access) : jstr :=
  match c with ReadOnly => u8 "readonly" | WriteOnly => u8 "writeonly" end.
Definition markOf (c : access) : jstr :=
  match c with ReadOnly => u8 "🆁" | WriteOnly => u8 "🆆" end.
Definition labelOf (c : access) : jstr :=
  match c with ReadOnly => u8 "Read-Only" | WriteOnly => u8 "Write-Only" end.

(** The access of a part is that of its data, or of the array it is the items of. *)
Definition okAccess (t a : jstr) (e : data) : Prop :=
  forall c, a = wordOf c -> t = u8 "array" \/ dtext "::readwrite" e = wordOf c.

Lemma hides_access c this t a e :
  flagOf c this = u8 "true" -> okAccess t a e -> hides this t a e = false ->
  a <> wordOf c /\ dtext "::readwrite" e <> wordOf c.
Proof.
  intros Hf Ha Hh. unfold hides in Hh. apply orb_false_iff in Hh as [H1 H2].
  assert (H : ((t === u8 "array") && (a === wordOf c)) || (dtext "::readwrite" e === wordOf c) = false).
  { destruct c; simpl in Hf; [rewrite Hf in H1|rewrite Hf in H2]; [clear H2|clear H1].
    - rewrite bool_decide_true in H1 by done. exact H1.
    - rewrite bool_decide_true in H2 by done. exact H2. }
  apply orb_false_iff in H as [H3 H4]. apply bool_decide_eq_false in H4. split; [|done].
  intros E. destruct (Ha c E) as [->|?]; [|done].
  apply andb_false_iff in H3 as [H3|H3]; apply bool_decide_eq_false in H3; done.
Qed.

Lemma hidesRow_mark c this w :
  flagOf c this = u8 "true" -> hidesRow this w = false -> rw_access w <> markOf c.
Proof.
  intros Hf Hh E. unfold hidesRow in Hh. apply orb_false_iff in Hh as [H1 H2].
  destruct c; simpl in Hf; [rewrite Hf, E in H1|rewrite Hf, E in H2];
    [rewrite !bool_decide_true in H1 by done|rewrite !bool_decide_true in H2 by done]; done.
Qed.

#[local] Instance title_kids (k : html treeEvent) :
  Collects (getAt "title") k (attrs "title" k).
Proof. done. Qed.

Definition deprecatedTitle (b : bool) : jstr := if b then u8 "Deprecated" else [].

Lemma deprecated_label c b : deprecatedTitle b <> labelOf c.
Proof. by destruct c, b. Qed.

Definition accessTitle (a : jstr) : jstr :=
  if a === u8 "readonly" then u8 "Read-Only" else if a === u8 "writeonly" then u8 "Write-Only" else [].

Lemma access_label c a : a <> wordOf c -> accessTitle a <> labelOf c.
Proof.
  intros H. unfold accessTitle. destruct (bool_decide_reflect (a = u8 "readonly")) as [->|].
  - by destruct c.
  - destruct (bool_decide_reflect (a = u8 "writeonly")) as [->|]; by destruct c.
Qed.

Lemma bracket_titles this t r e i : attrs "title" (bracket this t r e i).1 = [].
Proof. unfold bracket. repeat case_match; done. Qed.

(** The titles in an object of the tree: its own, that of its key, and those inside. *)
Lemma treeObject_titles this e t r s n i o a l kids x :
  x ∈ attrs "title" (treeObject this e t r s n i o a l kids) ->
  x = deprecatedTitle (l || dtrue "::deprecated" e) \/ x = accessTitle a \/ x ∈ attrs "title" kids.
Proof.
  unfold treeObject. destruct (keyTexts s) as [p u].
  pose proof (bracket_titles this t r e i) as Hb. destruct (bracket this t r e i) as [h m].
  cbn [fst] in Hb. assert (Collects (getAt "title") h []) by exact Hb.
  collect_simpl.
  rewrite !elem_of_app, list_elem_of_singleton. intros [[->|Hx]|Hx]; [by left|right; left|by right; right].
  destruct (_ || _); [by apply elem_of_nil in Hx|].
  apply elem_of_unless in Hx as [_ Hx]. apply elem_of_when in Hx as [_ Hx].
  by apply list_elem_of_singleton in Hx.
Qed.

Definition rowAccess (w : Row) (t a : jstr) : jstr :=
  if t === u8 "array" then a
  else if rw_access w === u8 "🆁" then u8 "readonly"
  else if rw_access w === u8 "🆆" then u8 "writeonly" else [].

Lemma treeRow_titles this w t s n o a l x :
  x ∈ attrs "title" (treeRow this w t s n o a l) ->
  x = deprecatedTitle (truthy (rw_deprecated w)) \/ x = accessTitle (rowAccess w t a).
Proof.
  unfold treeRow. destruct (keyTexts s) as [p u]. collect_simpl.
  rewrite !elem_of_app, !list_elem_of_singleton. intros [->| ->]; [by left|right]. done.
Qed.

Lemma rowAccess_word c w t a :
  a <> wordOf c -> rw_access w <> markOf c -> rowAccess w t a <> wordOf c.
Proof.
  intros Ha Hw. unfold rowAccess. destruct (t === _); [done|].
  destruct (bool_decide_reflect (rw_access w = u8 "🆁")); [by destruct c|].
  destruct (bool_decide_reflect (rw_access w = u8 "🆆")); by destruct c.
Qed.

(** A part has the access of its data. *)
Lemma partOf_access e l p qs q : partOf e l p = Returns qs -> q ∈ qs ->
  okAccess (pa_type q) (pa_readWrite q) (pa_data q).
Proof.
  unfold partOf. set (v := match p.2 with DSelf => e | v => v end).
  destruct (isUndef v); [done|]. destruct (_ && _); [by intros [= <-] ?%elem_of_nil|].
  intros [= <-] ->%list_elem_of_singleton c Hc. cbn in *. unfold partData.
  destruct (bool_decide_reflect (dtype v = u8 "array")) as [E|E]; [left|by right].
  by rewrite E.
Qed.

(** With read-only properties hidden, no row of the tree of any schema data is marked
    read-only; with write-only properties hidden, none is marked write-only: at every
    depth, in objects, in arrays and in the options of a schema. *)
Theorem tree_hides c this fuel e t r s n i o a l h :
  flagOf c this = u8 "true" -> okAccess t a e ->
  generateTree fuel this e t r s n i o a l = Returns h ->
  labelOf c ∉ attrs "title" h.
Proof.
  intros Hf. revert e t r s n i o a l h. induction fuel as [|fuel IH]; [done|].
  intros e t r s n i o a l h Ha. cbn [generateTree].
  destruct (hides this t a e) eqn:Hh; [intros [= <-]; apply not_elem_of_nil|].
  destruct (hides_access c _ _ _ _ Hf Ha Hh) as [Ha' _].
  assert (Hnull : forall k, labelOf c ∉ attrs "title"
            (el "div" ["class" =: u8 "null"; "style" =: u8 "display:inline;"] (
               el "span" ["class" =: u8 "key-label xxx-of-key"] (txt k) ++ nothing t) : html treeEvent)).
  { intros k. unfold nothing. destruct (t === _); [|destruct (t === _)]; collect_simpl; apply not_elem_of_nil. }
  assert (Hempty : labelOf c ∉ attrs "title"
            (el "span" ["class" =: u8 "key object"] (txt (s ++ u8 ":{ }")) : html treeEvent)).
  { collect_simpl. apply not_elem_of_nil. }
  destruct e as [|x|[]|fields|]; try (intros [= <-]; by apply Hnull || by apply Hempty).
  - destruct x as [|y x]; [intros [= <-]; by apply Hnull|]. destruct (hidesRow this _) eqn:Hr.
    { intros [= <-]. apply not_elem_of_nil. }
    intros [= <-]. intros Hx. apply treeRow_titles in Hx as [Hx|Hx].
    + by apply (deprecated_label c (truthy (rw_deprecated (rowOf (y :: x))))).
    + symmetry in Hx. revert Hx. apply access_label, rowAccess_word; [done|].
      by eapply hidesRow_mark.
  - destruct fields as [|f fields]; [intros [= <-]; by apply Hempty|].
    intros (parts & Hp & (kids & Hk & [= <-])%bind_returns)%bind_returns.
    intros Hx. apply treeObject_titles in Hx as [Hx|[Hx|Hx]].
    + by apply (deprecated_label c (l || dtrue "::deprecated" (DNode (f :: fields)))).
    + symmetry in Hx. revert Hx. by apply access_label.
    + destruct (gather_attrs _ _ _ _ _ Hk Hx) as (q & h' & Hq & Hh' & Hx').
      destruct (gather_elem _ _ _ _ Hp Hq) as (p & qs & _ & Hqs & Hq').
      revert Hx'. eapply IH; [|exact Hh']. by eapply partOf_access.
Qed.

(** ** The table *)

(** The titles of an object of the table; the access is that of its data. *)
Lemma tableObject_titles this e t r s n i o l kids x :
  x ∈ attrs "title" (tableObject this e t r s n i o l kids) ->
  x = deprecatedTitle (l || dtrue "::deprecated" e) \/ x = accessTitle (dtext "::readwrite" e)
  \/ x ∈ attrs "title" kids.
Proof.
  unfold tableObject. destruct (keyTexts s) as [m f]. collect_simpl.
  rewrite !elem_of_app. intros [Hx|Hx]; [|by right; right].
  destruct (truthy s); [|by apply elem_of_nil in Hx].
  apply elem_of_app in Hx as [Hx|Hx]; apply list_elem_of_singleton in Hx as ->; [by left|by right; left].
Qed.

(** The title of an array's items looks for [writeonly] in the access of the row, which
    is a sign, so that it is never given. *)
Lemma tableRow_titles this w t s n o a l :
  a <> wordOf ReadOnly -> rw_access w <> markOf ReadOnly ->
  labelOf ReadOnly ∉ attrs "title" (tableRow this w t s n o a l).
Proof.
  intros Ha Hw. unfold tableRow. destruct (keyTexts s) as [m f]. collect_simpl.
  rewrite elem_of_app, list_elem_of_singleton. intros [Hx|Hx].
  { symmetry in Hx. by apply (deprecated_label ReadOnly (l || truthy (rw_deprecated w))). }
  destruct (t === u8 "array"); apply list_elem_of_singleton in Hx.
  - rewrite (bool_decide_false (a = u8 "readonly")) in Hx by done.
    by destruct (rw_access w === u8 "writeonly").
  - rewrite (bool_decide_false (rw_access w = u8 "🆁")) in Hx by done.
    by destruct (rw_access w === u8 "🆆").
Qed.

(** The same of the table: nothing that is shown is marked read-only. *)
Lemma table_hides this fuel e t r s n i o a l h :
  flagOf ReadOnly this = u8 "true" -> okAccess t a e ->
  generateTable fuel this e t r s n i o a l = Returns h ->
  labelOf ReadOnly ∉ attrs "title" h.
Proof.
  intros Hf. revert e t r s n i o a l h. induction fuel as [|fuel IH]; [done|].
  intros e t r s n i o a l h Ha. cbn [generateTable].
  destruct (hides this t a e) eqn:Hh; [intros [= <-]; apply not_elem_of_nil|].
  destruct (hides_access ReadOnly _ _ _ _ Hf Ha Hh) as [Ha' Hd'].
  assert (Hnull : forall k j, labelOf ReadOnly ∉ attrs "title"
            (el "div" ["class" =: u8 "null"; "style" =: u8 "display:inline;"] (
               el "span" ["style" =: j] (txt [160%N]) ++
               el "span" ["class" =: u8 "key-label xxx-of-key"] (txt k) ++ nothing t) : html treeEvent)).
  { intros k j. unfold nothing. destruct (t === _); [|destruct (t === _)]; collect_simpl; apply not_elem_of_nil. }
  assert (Hempty : forall j, labelOf ReadOnly ∉ attrs "title"
            (el "span" ["class" =: u8 "td key object"; "style" =: j] (txt s) : html treeEvent)).
  { intros j. collect_simpl. apply not_elem_of_nil. }
  destruct e as [|x|[]|fields|]; try (intros [= <-]; by apply Hnull || by apply Hempty).
  - destruct x as [|y x]; [intros [= <-]; by apply Hnull|]. destruct (hidesRow this _) eqn:Hr.
    { intros [= <-]. apply not_elem_of_nil. }
    intros [= <-]. apply tableRow_titles; [done|]. by apply (hidesRow_mark ReadOnly this).
  - destruct fields as [|f fields]; [intros [= <-]; by apply Hempty|].
    intros (parts & Hp & (kids & Hk & [= <-])%bind_returns)%bind_returns.
    intros Hx. apply tableObject_titles in Hx as [Hx|[Hx|Hx]].
    + by apply (deprecated_label ReadOnly (l || dtrue "::deprecated" (DNode (f :: fields)))).
    + symmetry in Hx. revert Hx. by apply access_label.
    + destruct (gather_attrs _ _ _ _ _ Hk Hx) as (q & h' & Hq & Hh' & Hx').
      destruct (gather_elem _ _ _ _ Hp Hq) as (p & qs & _ & Hqs & Hq').
      revert Hx'. eapply IH; [|exact Hh']. by eapply partOf_access.
Qed.

End hidden.
