(* ===== verification/RapidocSchemaShown.v ===== *)
(** * RapiDoc: every property of a schema is in its tree

    [tree_shows_property]: every property of a schema that is not hidden has its name in
    the tree.  [tree_ends]: the tree of a schema is rendered; [tree_never_ends]: but not
    when data contains itself. *)

From stdpp Require Import strings numbers pretty list sets.
From S2P Require Import Prelude JsString Html RapidocUrl RapidocSpec RapidocElement.
From S2P Require Import RapidocJson RapidocJsonText RapidocRequest RapidocConsole.
From S2P Require Import RapidocSchema RapidocSchemaTree RapidocSchemaFacts.

Open Scope nat_scope.

(** ** Every property is shown *)

Lemma assoc_insertKey {A} k (v : A) o k' :
  k ∉ (o.*1) -> assoc k' (insertKey k v o) = if k' === k then Some v else assoc k' o.
Proof.
  induction o as [|[k1 v1] o IH]; [done|]. csimpl. intros [Hk1 Hk]%not_elem_of_cons. cbn [insertKey].
  destruct (keyBefore k k1); [done|]. cbn [assoc]. rewrite IH by done.
  destruct (bool_decide_reflect (k' = k1)) as [->|]; [|done]. by rewrite bool_decide_false.
Qed.

Lemma assoc_putKey {A} k (v : A) o k' :
  assoc k' (putKey k v o) = if k' === k then Some v else assoc k' o.
Proof.
  unfold putKey. destruct (assoc k o) eqn:E.
  - destruct (bool_decide_reflect (k' = k)) as [->|Hne]; [by apply assoc_set|].
    by apply assoc_set_ne.
  - by apply assoc_insertKey, assoc_None.
Qed.

(** A name of a property that is told apart from the keys of the data. *)
Definition okPropertyName (k : jstr) : bool :=
  negb (startsWith (u8 "::") k) && negb (startsWith (u8 "[") k) && negb (endsWith (u8 "*") k).

Lemma endsWith_snoc k : endsWith (u8 "*") (k ++ u8 "*") = true.
Proof. apply endsWith_spec. by exists k. Qed.

Lemma keyName_inj req req' k k' :
  okPropertyName k = true -> okPropertyName k' = true -> keyName req k = keyName req' k' -> k = k'.
Proof.
  unfold okPropertyName, keyName. intros Hk Hk' E. bool_simpl.
  destruct req, req'; [by apply app_inv_tail in E|subst k'|subst k|done];
    match goal with H : endsWith _ (_ ++ _) = false |- _ => by rewrite endsWith_snoc in H end.
Qed.

Lemma dropStar_keyName req k : okPropertyName k = true -> dropStar (keyName req k) = k.
Proof.
  unfold okPropertyName, keyName, dropStar. intros Hk. bool_simpl. destruct req.
  - rewrite endsWith_snoc. unfold sliceLast. rewrite length_app. simpl.
    rewrite Nat.add_1_r. simpl. apply take_app_length.
  - match goal with H : endsWith _ k = false |- _ => by rewrite H end.
Qed.

(** The entries that the loop over the properties makes. *)
Lemma properties_loop read e ps i t t' :
  loop (fun t _ p => setProperty read e t p) i ps t = Returns t' ->
  NoDup (ps.*1) -> Forall (fun k => okPropertyName k = true) (ps.*1) ->
  (forall k c, (k, c) ∈ ps -> exists d req, read c = Returns d /\ assoc (keyName req k) t' = Some d)
  /\ (forall key, (forall k req, k ∈ (ps.*1) -> key <> keyName req k) -> assoc key t' = assoc key t).
Proof.
  revert i t. induction ps as [|[k c] ps IH]; intros i t; cbn [loop].
  { intros [= <-] _ _. split; [by intros ? ? ?%elem_of_nil|done]. }
  intros (t1 & H1 & H)%bind_returns. csimpl. intros [Hk Hd]%NoDup_cons [Hok Hf]%Forall_cons.
  unfold setProperty in H1. cbn [fst snd] in H1.
  apply bind_returns in H1 as (req & _ & H1). apply bind_returns in H1 as (d & Hread & [= <-]).
  destruct (IH _ _ H Hd Hf) as [H1 H2]. split.
  - intros k' c' [[= -> ->]|Hin]%elem_of_cons; [|by apply H1].
    exists d, req. split; [done|]. rewrite H2; [unfold set; by rewrite assoc_putKey, bool_decide_true|].
    intros k2 req2 Hk2 E. apply keyName_inj in E as ->; [done|done|].
    by apply (proj1 (Forall_forall _ _) Hf).
  - intros key Hkey. rewrite H2; [|intros k2 req2 Hk2; apply Hkey; by right].
    unfold set. rewrite assoc_putKey, bool_decide_false; [done|]. apply Hkey. by left.
Qed.

(** *** What [uF] makes of a plain schema *)

Definition plain (e : json) : bool :=
  isTrue e && negb (has "allOf" e) && negb (has "anyOf" e || has "oneOf" e)
  && negb (match field "type" e with Some (JArr _) => true | _ => false end).

Definition objectSchema (e : json) : bool :=
  plain e && (isStr "object" (field "type" e) || has "properties" e).
Definition arraySchema (e : json) : bool :=
  plain e && negb (isStr "object" (field "type" e) || has "properties" e)
  && (isStr "array" (field "type" e) || has "items" e).

(** The data of a schema at some depth. *)
Definition reads (n : nat) (e : json) (d : data) : Prop :=
  exists r s x, uF n (Some e) [] r s = Returns x /\ d = fresh x.

Lemma type_not_list X e (a : list json -> X) b :
  (match field "type" e with Some (JArr _) => true | _ => false end) = false ->
  match field "type" e with Some (JArr l) => a l | _ => b end = b.
Proof. intros H. repeat (case_match; try done). Qed.

Ltac plain_uF H :=
  unfold objectSchema, arraySchema, plain in H; bool_simpl.

Lemma reads_object n e d :
  objectSchema e = true -> members (field "patternProperties" e) = [] -> reads n e d ->
  exists m r l l0, n = S m /\ d = DNode l
    /\ properties (fun c => x ← uF m (Some c) [] (S r) []; Returns (fresh x)) e (heading "object" e r [])
       = Returns l0
    /\ (forall key, key <> u8 "[any-key]" -> assoc key l = assoc key l0).
Proof.
  intros He Hp (r & s & x & H & ->). destruct n as [|m]; [done|]. cbn [uF] in H.
  unfold objectSchema, plain in He. apply andb_true_iff in He as [He Ho].
  apply andb_true_iff in He as [He Ht]. apply andb_true_iff in He as [He Hany].
  apply andb_true_iff in He as [He Hall].
  apply negb_true_iff in Hall, Hany, Ht. rewrite He, Hall, Hany in H. cbn [negb] in H.
  rewrite (type_not_list _ _ _ _ Ht), Ho, Hp in H. cbn [loop] in H.
  apply bind_returns in H as (l0 & Hl0 & H). cbn [mbind run_bind] in H.
  destruct (has "additionalProperties" e).
  - apply bind_returns in H as (y & Hy & [= <-]). exists m, r. do 2 eexists.
    split_and!; [done|done|exact Hl0|]. intros key Hk. unfold set. rewrite assoc_putKey.
    by rewrite bool_decide_false.
  - injection H as <-. exists m, r, l0, l0. done.
Qed.

Lemma reads_array n e d :
  arraySchema e = true -> reads n e d ->
  exists m r l y, n = S m /\ d = DNode l
    /\ uF m (field "items" e) [] (S r) [] = Returns y
    /\ assoc (u8 "::props") l = Some (fresh y)
    /\ (forall key, key <> u8 "::props" -> key <> u8 "::array-type" ->
          assoc key l = assoc key (heading "array" e r [])).
Proof.
  intros He (r & s & x & H & ->). destruct n as [|m]; [done|]. cbn [uF] in H.
  unfold arraySchema, plain in He. apply andb_true_iff in He as [He Harr].
  apply andb_true_iff in He as [He Ho]. apply andb_true_iff in He as [He Ht].
  apply andb_true_iff in He as [He Hany]. apply andb_true_iff in He as [He Hall].
  apply negb_true_iff in Hall, Hany, Ht, Ho. rewrite He, Hall, Hany in H. cbn [negb] in H.
  rewrite (type_not_list _ _ _ _ Ht), Ho, Harr in H.
  apply bind_returns in H as (d & Hd & [= <-]).
  apply bind_returns in Hd as (y & Hy & [= <-]).
  exists m, r. do 2 eexists. split_and!; [done|done|exact Hy| |].
  - unfold set. by rewrite assoc_putKey, bool_decide_true.
  - intros key Hk1 Hk2. unfold set at 1. rewrite assoc_putKey, bool_decide_false by done.
    destruct (has "items" (default JNull (field "items" e))); [|done]. unfold set at 1. by rewrite assoc_putKey, bool_decide_false.
Qed.

Lemma reads_text n e d :
  plain e = true -> objectSchema e = false -> arraySchema e = false -> reads n e d ->
  d = DText (me_html (eF e)).
Proof.
  intros He Ho Ha (r & s & x & H & ->). destruct n as [|m]; [done|]. cbn [uF] in H.
  unfold objectSchema in Ho. unfold arraySchema in Ha. rewrite He in Ho, Ha. cbn [andb] in Ho, Ha.
  rewrite Ho in Ha. cbn [negb andb] in Ha.
  unfold plain in He. apply andb_true_iff in He as [He Ht]. apply andb_true_iff in He as [He Hany].
  apply andb_true_iff in He as [He Hall].
  apply negb_true_iff in Hall, Hany, Ht. rewrite He, Hall, Hany in H. cbn [negb] in H.
  rewrite (type_not_list _ _ _ _ Ht), Ho, Ha in H. by injection H as <-.
Qed.

Lemma heading_assoc kind e r :
  assoc (u8 "::type") (heading kind e r []) = Some (DText (u8 kind))
  /\ assoc (u8 "::readwrite") (heading kind e r []) = Some (DText (readWrite e)).
Proof.
  unfold heading, set. destruct (nullableType e); rewrite !assoc_putKey; done.
Qed.

Lemma returns_inj {A} (a b : A) : Returns a = Returns b -> a = b.
Proof. by intros [= ->]. Qed.

(** *** Labels in a document *)

(** A node of a document, at any depth. *)
Inductive Within {B} (x : node B) : html B -> Prop :=
| within_here h : x ∈ h -> Within x h
| within_kids t ats kids h : El t ats kids ∈ h -> Within x kids -> Within x h.

Section within.
Context {B : Type} (x : node B).
Implicit Types h k : html B.

Lemma within_sub h k : (forall y, y ∈ h -> y ∈ k) -> Within x h -> Within x k.
Proof.
  intros Hs. destruct 1 as [h H|t ats kids h H H']; [by apply within_here, Hs|].
  eapply within_kids; [by apply Hs|done].
Qed.

Lemma within_l h k : Within x h -> Within x (h ++ k).
Proof. apply within_sub. intros y. rewrite elem_of_app. by left. Qed.

Lemma within_r h k : Within x k -> Within x (h ++ k).
Proof. apply within_sub. intros y. rewrite elem_of_app. by right. Qed.

Lemma within_el t ats h : Within x h -> Within x (el t ats h).
Proof. intros H. eapply within_kids; [|exact H]. by left. Qed.

End within.

Lemma within_self {B} t ats (h : html B) : Within (El t ats h) (el t ats h).
Proof. apply within_here. by left. Qed.

Create HintDb within.
#[export] Hint Resolve within_self | 1 : within.
#[export] Hint Resolve within_l within_r within_el | 5 : within.

(** What may follow the name of a property in its label. *)
Definition labelEnds : list jstr :=
  [[]; u8 ":"; u8 "*:"; u8 " 🆁:"; u8 "* 🆁:"; u8 " 🆆:"; u8 "* 🆆:"].

Definition labelled {H} (k : jstr) (h : html H) : Prop :=
  exists ats kids r, Within (El "span" ats kids) h /\ At "class" (u8 "key-label") ∈ ats
    /\ text kids = k ++ r /\ r ∈ labelEnds.

Lemma labelled_sub {H} k (h h' : html H) :
  (forall x, Within x h -> Within x h') -> labelled k h -> labelled k h'.
Proof. intros Hs (ats & kids & r & Hw & ?). exists ats, kids, r. split; [by apply Hs|done]. Qed.

(** *** The names of the parts *)

Lemma plain_key req k :
  okPropertyName k = true ->
  startsWith (u8 "::") (keyName req k) = false /\ keyName req k <> u8 "[any-key]".
Proof.
  unfold okPropertyName, keyName. intros H. bool_simpl.
  destruct k as [|c [|c' k]], req; try (split; [done|intros [=]]; fail);
    (split; [|intros [=]; by subst]).
  all: try done.
Qed.

Lemma startsWith_more p q s : startsWith p s = false -> startsWith (p ++ q) s = false.
Proof.
  intros H. destruct (startsWith (p ++ q) s) eqn:E; [|done].
  apply startsWith_spec in E as [r ->]. by rewrite <- app_assoc, startsWith_app in H.
Qed.

Lemma keyTexts_plain s : startsWith (u8 "::") s = false ->
  keyTexts s = (s, []) /\ startsWith (u8 "::OPTION") s = false /\ isMeta s = false
  /\ s <> u8 "::props" /\ s <> u8 "::ARRAY~OF".
Proof.
  intros H. unfold keyTexts.
  rewrite (startsWith_more (u8 "::") (u8 "ONE~OF") s H : startsWith (u8 "::ONE~OF") s = false).
  rewrite (startsWith_more (u8 "::") (u8 "ANY~OF") s H : startsWith (u8 "::ANY~OF") s = false).
  rewrite (startsWith_more (u8 "::") (u8 "OPTION") s H : startsWith (u8 "::OPTION") s = false).
  split_and!; [done|done| |by intros ->|by intros ->].
  destruct (isMeta s) eqn:E; [|done]. apply existsb_exists in E as (x & Hx & E).
  apply bool_decide_eq_true in E as ->.
  assert (Hall : Forall (fun x => startsWith (u8 "::") x = true) metaKeys) by (by repeat constructor).
  apply list_elem_of_In in Hx. rewrite Forall_forall in Hall. by rewrite (Hall _ Hx) in H.
Qed.

(** *** The row of a text *)

Lemma splitText_first a b :
  126%N ∉ a -> splitText separator (a ++ separator ++ b) = a :: splitText separator b.
Proof.
  unfold splitText. intros Ha.
  enough (H : forall cur, splitGo separator (a ++ separator ++ b) cur 0
                          = (reverse cur ++ a) :: splitGo separator b [] 0)
    by (by rewrite H).
  induction a as [|c a IH]; intros cur.
  - by rewrite app_nil_r.
  - apply not_elem_of_cons in Ha as [Hc Ha]. cbn [app splitGo].
    assert (startsWith separator (c :: a ++ separator ++ b) = false) as ->.
    { destruct (startsWith _ _) eqn:E; [|done]. apply startsWith_spec in E as [r E]. by injection E. }
    rewrite IH by done. by rewrite reverse_cons, <- app_assoc.
Qed.

Lemma row_access e :
  126%N ∉ typeName e -> rw_access (rowOf (me_html (eF e))) = me_readOrWriteOnly (eF e).
Proof.
  intros H. cbn [eF me_html me_readOrWriteOnly]. unfold metaTexts. rewrite !joinWith_cons.
  unfold rowOf. cbn [rw_access]. rewrite splitText_first by done. cbn [nth].
  rewrite splitText_first; [done|]. set_unfold. destruct (has "readOnly" e), (has "writeOnly" e);
    by (intros H'; repeat (apply elem_of_cons in H' as [?|H']; [done|]); apply elem_of_nil in H').
Qed.

Lemma html_cons e : exists c s, me_html (eF e) = c :: s.
Proof.
  cbn [eF me_html]. unfold metaTexts. rewrite joinWith_cons.
  destruct (typeName e) as [|c s]; [by exists 126%N; eexists|by do 2 eexists].
Qed.

(** *** What one part shows *)

Section shown.
Context {CM : CaseMapping} {MK : Marked}.
Implicit Types this : SchemaView.

(** The access of a part. *)
Definition accessWord (a : jstr) : Prop := a ∈ [u8 "readonly"; u8 "writeonly"; []].

Lemma readWrite_word (e : json) : accessWord (readWrite e).
Proof. unfold accessWord, readWrite. repeat case_match; set_solver. Qed.

Lemma keyName_ends req k : okPropertyName k = true -> endsWith (u8 "*") (keyName req k) = req.
Proof.
  unfold okPropertyName, keyName. intros H. bool_simpl. destruct req; [apply endsWith_snoc|done].
Qed.

Lemma sliceLast_snoc k : sliceLast (k ++ u8 "*") = k.
Proof. unfold sliceLast. rewrite length_app. simpl. rewrite Nat.add_1_r. apply take_app_length. Qed.

Lemma treeRow_label this w t req k n o a l :
  okPropertyName k = true -> labelled k (treeRow this w t (keyName req k) n o a l).
Proof.
  intros Hk. destruct (plain_key req k Hk) as [H1 _].
  destruct (keyTexts_plain _ H1) as (E1 & E2 & _).
  unfold treeRow. rewrite E1, E2, (keyName_ends req k Hk). destruct req.
  - exists ["class" =: u8 "key-label"], (txt (sliceLast (k ++ u8 "*"))), [].
    split_and!; [|set_solver|by rewrite text_txt, sliceLast_snoc, app_nil_r|set_solver].
    apply within_el, within_l, within_el, within_r, within_l, within_l, within_self.
  - exists ["class" =: u8 "key-label"], (txt k ++ txt (u8 ":")), (u8 ":").
    split_and!; [|set_solver|by rewrite text_app, !text_txt|set_solver].
    apply within_el, within_l, within_el, within_r, within_l, within_self.
Qed.

Lemma text_svg {H} (b : bool) ats ats' :
  text (when b (el "svg" ats (el "path" ats' [])) : html H) = [].
Proof. by destruct b. Qed.

Lemma treeObject_label this e t r req k n i o a l kids :
  okPropertyName k = true -> isOption e = false -> 0 < i -> accessWord a ->
  labelled k (treeObject this e t r (keyName req k) n i o a l kids).
Proof.
  intros Hk He Hi Ha. destruct (plain_key req k Hk) as [H1 _].
  destruct (keyTexts_plain _ H1) as (E1 & E2 & _ & E3 & E4).
  unfold treeObject. rewrite E1, E2, He. destruct (bracket this t r e i) as [h m].
  rewrite !bool_decide_false by done. cbn [orb unless]. rewrite (proj2 (Nat.ltb_lt 0 i) Hi).
  cbn [when]. rewrite (keyName_ends req k Hk), (dropStar_keyName req k Hk).
  do 2 eexists. exists (when req (u8 "*") ++ (if a === u8 "readonly" then u8 " 🆁"
            else if a === u8 "writeonly" then u8 " 🆆" else []) ++ u8 ":").
  split_and!.
  - apply within_l, within_el, within_l, within_el, within_l, within_self.
  - set_solver.
  - rewrite !text_app, text_svg, !text_txt, app_nil_l. f_equal. f_equal; [by destruct req|].
    f_equal. unfold accessWord in Ha. set_unfold. destruct Ha as [->|[->|[->|[]]]]; done.
  - unfold accessWord in Ha. set_unfold. destruct Ha as [->|[->|[->|[]]]]; destruct req; vm_compute; tauto.
Qed.

Lemma treeObject_kids this e t r s n i o a l kids x :
  Within x kids -> Within x (treeObject this e t r s n i o a l kids).
Proof.
  intros H. unfold treeObject. destruct (keyTexts s), (bracket this t r e i).
  by apply within_r, within_l, within_el.
Qed.

(** *** Schemas that are shown *)

(** A schema that the view does not hide, without what this development does not follow:
    parts ([allOf], [anyOf], [oneOf]), a list of types, or properties by a pattern. *)
Record shownSchema this (e : json) : Prop := {
  sh_plain : plain e = true;
  sh_read : sv_hideReadOnly this = u8 "true" -> has "readOnly" e = false;
  sh_write : sv_hideWriteOnly this = u8 "true" -> has "writeOnly" e = false;
  sh_pattern : members (field "patternProperties" e) = [];
  sh_names : Forall (fun k => okPropertyName k = true) ((members (field "properties" e)).*1);
  sh_distinct : NoDup ((members (field "properties" e)).*1);
  sh_type : 126%N ∉ typeName e;
}.

(** A property: its schema, and that of its items when it is an array. *)
Record shownProperty this (c : json) : Prop := {
  sp_schema : shownSchema this c;
  sp_items : arraySchema c = true -> exists c', field "items" c = Some c' /\ shownSchema this c';
}.

Lemma shown_readWrite this e :
  shownSchema this e ->
  (sv_hideReadOnly this = u8 "true" -> readWrite e <> u8 "readonly")
  /\ (sv_hideWriteOnly this = u8 "true" -> readWrite e <> u8 "writeonly").
Proof.
  intros [_ Hr Hw _ _ _ _]. unfold readWrite.
  split; intros H; [rewrite (Hr H)|rewrite (Hw H)].
  - by destruct (has "writeOnly" e).
  - by destruct (has "readOnly" e).
Qed.

Lemma object_type n e d :
  objectSchema e = true -> members (field "patternProperties" e) = [] ->
  Forall (fun k => okPropertyName k = true) ((members (field "properties" e)).*1) ->
  NoDup ((members (field "properties" e)).*1) -> reads n e d ->
  exists m l, n = S m /\ d = DNode l /\ dtype d = u8 "object"
    /\ dtext "::readwrite" d = readWrite e
    /\ (forall k c, (k, c) ∈ members (field "properties" e) ->
          exists req d', reads m c d' /\ (keyName req k, d') ∈ l).
Proof.
  intros He Hp Hok Hnd Hr. destruct (reads_object _ _ _ He Hp Hr) as (m & r & l & l0 & -> & -> & Hl & Hk).
  exists m, l. pose proof (properties_loop _ _ _ _ _ _ Hl Hnd Hok) as [H1 H2].
  assert (Hmeta : forall key, startsWith (u8 "::") key = true ->
            assoc key l = assoc key (heading "object" e r [])).
  { intros key Hkey. rewrite Hk by (by intros ->). apply H2. intros k req Hin ->.
    rewrite Forall_forall in Hok. destruct (plain_key req k (Hok k Hin)) as [E _].
    by rewrite E in Hkey. }
  destruct (heading_assoc "object" e r) as [Ht Hrw].
  unfold dtype, dtext, dfield. rewrite !Hmeta by done. rewrite Ht, Hrw.
  split_and!; [done..|]. intros k c Hin. destruct (H1 k c Hin) as (d & req & Hd & Ha).
  apply bind_returns in Hd as (x & Hx & [= <-]). exists req, (fresh x). split.
  - exists (S r), [], x. done.
  - apply assoc_elem. rewrite Hk; [done|]. rewrite Forall_forall in Hok.
    apply (plain_key req k), Hok. by apply (list_elem_of_fmap_2 fst _ (k, c)).
Qed.

Lemma array_type n e d :
  arraySchema e = true -> reads n e d ->
  exists m l d', n = S m /\ d = DNode l /\ dtype d = u8 "array"
    /\ dtext "::readwrite" d = readWrite e /\ partData d = d'
    /\ (forall c, field "items" e = Some c -> reads m c d').
Proof.
  intros He Hr. destruct (reads_array _ _ _ He Hr) as (m & r & l & y & -> & -> & Hy & Hp & Hk).
  destruct (heading_assoc "array" e r) as [Ht Hrw].
  exists m, l, (fresh y).
  assert (E : dtype (DNode l) = u8 "array").
  { unfold dtype, dtext, dfield. by rewrite Hk, Ht by done. }
  split_and!; [done|done|done| | |].
  - unfold dtext, dfield. by rewrite Hk, Hrw by done.
  - unfold partData. rewrite E, bool_decide_true by done. unfold dfield. by rewrite Hp.
  - intros c Hc. rewrite Hc in Hy. by exists (S r), [], y.
Qed.

(** *** Going into a tree *)

(** Properties of a schema at any depth: through objects, and through arrays of objects. *)
Inductive mentions this : json -> jstr -> Prop :=
| mentions_here e k c :
    (k, c) ∈ members (field "properties" e) -> shownProperty this c -> mentions this e k
| mentions_object e k' c k :
    (k', c) ∈ members (field "properties" e) -> shownSchema this c -> objectSchema c = true ->
    mentions this c k -> mentions this e k
| mentions_array e k' c c' k :
    (k', c) ∈ members (field "properties" e) -> shownSchema this c -> arraySchema c = true ->
    field "items" c = Some c' -> shownSchema this c' -> objectSchema c' = true ->
    mentions this c' k -> mentions this e k.

Lemma not_hidden this t a x :
  (sv_hideReadOnly this = u8 "true" -> a <> u8 "readonly" /\ dtext "::readwrite" x <> u8 "readonly") ->
  (sv_hideWriteOnly this = u8 "true" -> a <> u8 "writeonly" /\ dtext "::readwrite" x <> u8 "writeonly") ->
  hides this t a x = false.
Proof.
  intros Hr Hw. unfold hides. apply orb_false_iff. split; apply andb_false_iff.
  - destruct (bool_decide_reflect (sv_hideReadOnly this = u8 "true")) as [H|_]; [right|by left].
    destruct (Hr H) as [H1 H2]. by rewrite (bool_decide_false _ H1), (bool_decide_false _ H2), andb_false_r.
  - destruct (bool_decide_reflect (sv_hideWriteOnly this = u8 "true")) as [H|_]; [right|by left].
    destruct (Hw H) as [H1 H2]. by rewrite (bool_decide_false _ H1), (bool_decide_false _ H2), andb_false_r.
Qed.

Lemma row_not_hidden this c :
  shownSchema this c -> hidesRow this (rowOf (me_html (eF c))) = false.
Proof.
  intros [_ Hr Hw _ _ _ Ht]. unfold hidesRow. rewrite row_access by done. cbn [eF me_readOrWriteOnly].
  apply orb_false_iff. split; apply andb_false_iff.
  - destruct (bool_decide_reflect (sv_hideReadOnly this = u8 "true")) as [H|]; [left|by right].
    rewrite (Hr H). by destruct (has "writeOnly" c).
  - destruct (bool_decide_reflect (sv_hideWriteOnly this = u8 "true")) as [H|]; [left|by right].
    rewrite (Hw H). by destruct (has "readOnly" c).
Qed.

(** What a schema reads as: a text, an object or an array. *)
Variant kind_of (m : nat) (c : json) (d : data) : Prop :=
| kind_text : d = DText (me_html (eF c)) -> kind_of m c d
| kind_node l : d = DNode l -> dtype d = u8 "object" \/ dtype d = u8 "array" ->
    dtext "::readwrite" d = readWrite c -> kind_of m c d.

Lemma shown_kind this m c d : shownSchema this c -> reads m c d -> kind_of m c d.
Proof.
  intros H Hr. destruct (objectSchema c) eqn:Ho.
  - destruct (object_type m c d) as (? & l & _ & Hl & Ht & Hw & _); try apply H; try done.
    eapply kind_node; [done|by left|done].
  - destruct (arraySchema c) eqn:Ha.
    + destruct (array_type m c d) as (? & l & ? & _ & Hl & Ht & Hw & _); [done..|].
      eapply kind_node; [done|by right|done].
    + apply kind_text. eapply reads_text; [apply H|done..].
Qed.

(** A part with the name of a property is labelled with it. *)
Lemma tree_labelled this m c d fuel t r req k n i o a l h :
  shownSchema this c -> reads m c d -> okPropertyName k = true -> 0 < i -> accessWord a ->
  hides this t a d = false ->
  generateTree fuel this d t r (keyName req k) n i o a l = Returns h -> labelled k h.
Proof.
  intros Hc Hr Hk Hi Ha Hh. destruct fuel as [|fuel]; [done|]. cbn [generateTree]. rewrite Hh.
  destruct (shown_kind this m c d Hc Hr) as [->|fs Hd Ht _].
  - pose proof (row_not_hidden this c Hc) as Hrow. destruct (html_cons c) as (u & s & E).
    rewrite E in Hrow |- *. rewrite Hrow. intros [= <-]. by apply treeRow_label.
  - subst d. destruct fs as [|f fs].
    { by destruct Ht. }
    intros (parts & _ & (kids & _ & [= <-])%bind_returns)%bind_returns.
    apply treeObject_label; [done| |done|done]. unfold isOption. by destruct Ht as [->| ->].
Qed.

Lemma partOf_value E l k d :
  d <> DUndef -> d <> DSelf ->
  partOf E l (k, d) = if isMeta k && negb ((dtype d === u8 "array") || (dtype d === u8 "object"))
                      then Returns [] else Returns [partWith l k d].
Proof. by destruct d. Qed.

Lemma partOf_plain E l k d :
  isMeta k = false -> d <> DUndef -> d <> DSelf -> partOf E l (k, d) = Returns [partWith l k d].
Proof. intros H ? ?. by rewrite partOf_value, H. Qed.

(** The part that a property makes, and that it is not hidden. *)
Lemma property_part this m c d E l req k qs :
  shownSchema this c -> reads m c d -> okPropertyName k = true ->
  partOf E l (keyName req k, d) = Returns qs ->
  exists q, qs = [q] /\ pa_key q = keyName req k /\ pa_data q = partData d
    /\ accessWord (pa_readWrite q)
    /\ (forall x t, shownSchema this x -> forall j, reads j x (partData d) ->
          hides this t (pa_readWrite q) (partData d) = false).
Proof.
  intros Hc Hr Hk. destruct (keyTexts_plain _ (proj1 (plain_key req k Hk))) as (_ & _ & Hm & _).
  pose proof (shown_kind this m c d Hc Hr) as Hd.
  rewrite partOf_plain by (by destruct Hd as [->|? -> _ _] || done).
  intros [= <-]. eexists. split; [done|]. cbn [partWith pa_key pa_data pa_readWrite].
  split; [done|]. split; [done|].
  destruct (shown_readWrite this c Hc) as [Hro Hwo].
  assert (Hw : dtext "::readwrite" d = readWrite c \/ dtext "::readwrite" d = [])
    by (destruct Hd as [->|? _ _ ?]; [by right|by left]).
  split; [destruct Hw as [->| ->]; [apply readWrite_word|unfold accessWord; set_solver]|].
  intros x t Hx j Hj. destruct (shown_readWrite this x Hx) as [Hxr Hxw].
  assert (Hw' : dtext "::readwrite" (partData d) = readWrite x \/ dtext "::readwrite" (partData d) = [])
    by (destruct (shown_kind this j x _ Hx Hj) as [->|? _ _ ?]; [by right|by left]).
  apply not_hidden; intros Hv; (split; [destruct Hw as [->| ->]|destruct Hw' as [->| ->]]); by auto.
Qed.

Lemma shown_object this e n d :
  shownSchema this e -> objectSchema e = true -> reads n e d ->
  exists m l, n = S m /\ d = DNode l /\ dtype d = u8 "object"
    /\ dtext "::readwrite" d = readWrite e
    /\ (forall k c, (k, c) ∈ members (field "properties" e) ->
          exists req d', reads m c d' /\ (keyName req k, d') ∈ l).
Proof. intros H He. by apply object_type; try apply H. Qed.

(** A property of an object is rendered inside it. *)
Lemma property_inside this e n d fuel t r s nn i o a l h k c :
  shownSchema this e -> objectSchema e = true -> reads n e d ->
  (k, c) ∈ members (field "properties" e) -> shownSchema this c ->
  hides this t a d = false -> generateTree fuel this d t r s nn i o a l = Returns h ->
  exists fuel' m q req d' o' hq,
    reads m c d' /\ okPropertyName k = true /\ pa_key q = keyName req k /\ pa_data q = partData d'
    /\ accessWord (pa_readWrite q)
    /\ (forall x t j, shownSchema this x -> reads j x (partData d') ->
          hides this t (pa_readWrite q) (partData d') = false)
    /\ generateTree fuel' this (pa_data q) (pa_type q) (pa_arrayType q) (pa_key q)
         (pa_description q) (S i) o' (pa_readWrite q) (pa_deprecated q) = Returns hq
    /\ (forall x, Within x hq -> Within x h).
Proof.
  intros He Ho Hr Hin Hc Hh Hg.
  destruct (shown_object this e n d He Ho Hr) as (m & fs & -> & Ed & Ht & _ & Hfs).
  destruct (Hfs k c Hin) as (req & d' & Hd' & Hf).
  destruct fuel as [|fuel]; [done|]. cbn [generateTree] in Hg. rewrite Hh in Hg.
  assert (Hi : inside d i = S i) by (unfold inside, xxxOf; by rewrite Ht). rewrite Hi in Hg.
  assert (Hk : okPropertyName k = true).
  { pose proof (sh_names _ _ He) as H. rewrite Forall_forall in H. apply H.
    by apply (list_elem_of_fmap_2 fst _ (k, c)). }
  destruct d as [| | |[|f fs']|]; try discriminate Ed;
    [by injection Ed as <-; apply elem_of_nil in Hf|].
  apply bind_returns in Hg as (parts & Hp & (kids & Hg & [= <-])%bind_returns).
  injection Ed as <-.
  destruct (gather_part _ _ _ _ Hp Hf) as (qs & c1 & c2 & Hq & ->).
  destruct (property_part this m c d' _ l req k qs Hc Hd' Hk Hq) as (q & -> & Hqk & Hqd & Hqa & Hqh).
  assert (Hqin : q ∈ c1 ++ [q] ++ c2) by set_solver.
  destruct (gather_part _ _ _ _ Hg Hqin) as (hq & k1 & k2 & Hhq & ->).
  exists fuel, m, q, req, d'. eexists. exists hq.
  split_and!; [done|done|done|done|done| |exact Hhq|].
  - intros x t0 j Hx Hj. by apply (Hqh x t0 Hx j).
  - intros x Hx. by apply treeObject_kids, within_r, within_l.
Qed.

Lemma object_mentions this e k :
  mentions this e k -> forall n d fuel t r s nn i o a l h,
  shownSchema this e -> objectSchema e = true -> reads n e d -> hides this t a d = false ->
  generateTree fuel this d t r s nn i o a l = Returns h -> labelled k h.
Proof.
  induction 1 as [e k c Hin Hc|e k' c k Hin Hc Hco Hm IH|e k' c c' k Hin Hc Hca Hi Hc' Hco Hm IH];
    intros n d fuel t r s nn i o a l h He Ho Hr Hh Hg.
  - destruct (property_inside this e n d fuel t r s nn i o a l h k c) as
      (fuel' & m & q & req & d' & o' & hq & Hd' & Hk & Eq & Eqd & Hqa & Hqh & Hhq & Hsub);
      [done..|apply Hc|done|done|].
    rewrite Eq, Eqd in Hhq. apply (labelled_sub k hq); [done|].
    destruct (arraySchema c) eqn:Ha.
    + destruct (sp_items _ _ Hc Ha) as (c' & Ei & Hc').
      destruct (array_type m c d' Ha Hd') as (j & ? & d'' & _ & _ & _ & _ & Ed & Hi).
      specialize (Hi c' Ei). rewrite <- Ed in Hi.
      eapply (tree_labelled this j c'); [done|exact Hi|done|apply Nat.lt_0_succ|done| |exact Hhq].
      by eapply Hqh.
    + assert (Epd : partData d' = d').
      { unfold partData. destruct (shown_kind this m c d' (sp_schema _ _ Hc) Hd') as [->|? Ed Ht _];
          [done|]. destruct (objectSchema c) eqn:Hco.
        - destruct (shown_object this c m d' (sp_schema _ _ Hc) Hco Hd') as (? & ? & _ & _ & -> & _).
          done.
        - exfalso. pose proof (reads_text m c d' (sh_plain _ _ (sp_schema _ _ Hc)) Hco Ha Hd') as E.
          by rewrite E in Ed. }
      pose proof Hd' as Hd''. rewrite <- Epd in Hd''.
      eapply (tree_labelled this m c); [apply Hc|exact Hd''|done|apply Nat.lt_0_succ|done| |exact Hhq].
      eapply Hqh; [apply Hc|done].
  - destruct (property_inside this e n d fuel t r s nn i o a l h k' c) as
      (fuel' & m & q & req & d' & o' & hq & Hd' & Hk & Eq & Eqd & Hqa & Hqh & Hhq & Hsub); [done..|].
    rewrite Eqd in Hhq. apply (labelled_sub k hq); [done|].
    assert (Epd : partData d' = d').
    { destruct (shown_object this c m d' Hc Hco Hd') as (? & ? & _ & _ & Ht & _).
      unfold partData. by rewrite Ht. }
    pose proof Hd' as Hd''. rewrite <- Epd in Hd''.
    eapply IH; [done|done|exact Hd''| |exact Hhq]. by apply (Hqh c _ m).
  - destruct (property_inside this e n d fuel t r s nn i o a l h k' c) as
      (fuel' & m & q & req & d' & o' & hq & Hd' & Hk & Eq & Eqd & Hqa & Hqh & Hhq & Hsub); [done..|].
    rewrite Eqd in Hhq. apply (labelled_sub k hq); [done|].
    destruct (array_type m c d' Hca Hd') as (j & ? & d'' & _ & _ & _ & _ & Ed & Hj).
    specialize (Hj c' Hi). rewrite <- Ed in Hj.
    eapply IH; [done|done|exact Hj| |exact Hhq]. by apply (Hqh c' _ j).
Qed.



(** *** Whether a tree is rendered *)

(** Data without a value that is undefined, and without itself inside. *)
Fixpoint wellFounded (d : data) : bool :=
  match d with
  | DUndef | DSelf => false
  | DText _ | DBool _ => true
  | DNode l => forallb (fun p => wellFounded p.2) l
  end.

Fixpoint depth (d : data) : nat :=
  match d with
  | DNode l => S (foldr (fun p n => depth p.2 `max` n) 0 l)
  | _ => 0
  end.

Lemma depth_elem k v l : (k, v) ∈ l -> depth v < depth (DNode l).
Proof.
  cbn [depth]. induction l as [|[k1 v1] l IH]; [by intros ?%elem_of_nil|].
  cbn [foldr snd]. intros [[= <- <-]|H%IH]%elem_of_cons; lia.
Qed.

Lemma wellFounded_elem k v l : (k, v) ∈ l -> wellFounded (DNode l) = true -> wellFounded v = true.
Proof.
  cbn [wellFounded]. rewrite forallb_forall. intros H%list_elem_of_In Hl. apply (Hl _ H).
Qed.

Lemma gather_returns {A B} (f : A -> run (list B)) l :
  (forall x, x ∈ l -> exists a, f x = Returns a) -> exists b, gather f l = Returns b.
Proof.
  induction l as [|x l IH]; intros H; [by exists []|]. cbn [gather].
  destruct (H x) as [a ->]; [by left|]. destruct IH as [b ->]; [intros y Hy; apply H; by right|].
  by exists (a ++ b).
Qed.

Lemma partOf_returns l p e b :
  p ∈ l -> wellFounded (DNode l) = true ->
  exists qs, partOf e b p = Returns qs
    /\ (forall q, q ∈ qs -> wellFounded (pa_data q) = true /\ depth (pa_data q) <= depth p.2
                            \/ pa_data q = DUndef).
Proof.
  destruct p as [k v]. intros Hin Hw. pose proof (wellFounded_elem _ _ _ Hin Hw) as Hv.
  rewrite partOf_value by (by destruct v).
  destruct (_ && _); [eexists; split; [done|]; by intros q ?%elem_of_nil|].
  eexists. split; [done|]. intros q ->%list_elem_of_singleton. cbn [partWith pa_data].
  unfold partData. destruct (dtype v === u8 "array"); [|by left].
  unfold dfield. destruct v as [| | |fs|]; try by right.
  destruct (assoc (u8 "::props") fs) as [x|] eqn:Ex; [left|by right]. cbn [default].
  apply assoc_elem in Ex. split; [by eapply wellFounded_elem|]. by apply Nat.lt_le_incl, (depth_elem (u8 "::props")).
Qed.

Lemma tree_returns fuel : forall this d t r s n i o a l,
  wellFounded d = true \/ d = DUndef -> depth d < fuel ->
  exists h, generateTree fuel this d t r s n i o a l = Returns h.
Proof.
  induction fuel as [|fuel IH]; intros this d t r s n i o a l Hw Hd; [lia|]. cbn [generateTree].
  destruct (hides this t a d); [by eexists|].
  destruct d as [|[|c x]|[]|[|f fs]|]; try by eexists.
  - destruct (hidesRow this _); by eexists.
  - destruct Hw as [Hw|]; [|done].
    assert (Hps : forall p, p ∈ f :: fs -> exists a, partOf (DNode (f :: fs)) l p = Returns a).
    { intros p Hp. destruct (partOf_returns _ _ (DNode (f :: fs)) l Hp Hw) as (qs & E & _). by exists qs. }
    destruct (gather_returns _ _ Hps) as [parts Ep]. rewrite Ep. cbn [mbind run_bind].
    match goal with |- context [gather ?g parts] =>
      assert (Hk : exists kids, gather g parts = Returns kids) end.
    { apply gather_returns. intros q Hq.
      destruct (gather_elem _ _ _ _ Ep Hq) as ([k v] & qs & Hp & Eq & Hqs).
      destruct (partOf_returns _ _ (DNode (f :: fs)) l Hp Hw) as (qs' & E' & Hall).
      rewrite Eq in E'. injection E' as ->. pose proof (depth_elem _ _ _ Hp) as Hlt.
      apply IH; destruct (Hall q Hqs) as [[? ?]| E]; [by left|by right| |].
      - cbn [snd] in *. lia.
      - rewrite E. cbn [depth] in *. lia. }
    destruct Hk as [kids ->]. by eexists.
Qed.

(** The tree of such data is rendered, with its depth as fuel. *)
Lemma tree_ends this fuel :
  wellFounded (sv_data this) = true -> depth (sv_data this) < fuel ->
  exists h, renderTree fuel this = Returns h.
Proof.
  intros Hw Hd. unfold renderTree. destruct (isTrueData (sv_data this)); [|by eexists].
  destruct (tree_returns fuel this (partData (sv_data this)) (orObject (dtype (sv_data this)))
              (dtext "::array-type" (sv_data this)) [] [] 0 0 [] false) as [h ->]; [| |by eexists].
  - unfold partData. destruct (_ === u8 "array"); [|by left]. unfold dfield.
    destruct (sv_data this) as [| | |fs|]; try by right.
    destruct (assoc _ fs) as [x|] eqn:E; [left|by right]. by eapply wellFounded_elem, Hw; apply assoc_elem.
  - eapply Nat.le_lt_trans; [|exact Hd]. unfold partData. destruct (_ === u8 "array"); [|done].
    unfold dfield. destruct (sv_data this) as [| | |fs|]; try (cbn; lia).
    destruct (assoc _ fs) as [x|] eqn:E; [|cbn; lia]. apply assoc_elem in E. cbn [default].
    by apply Nat.lt_le_incl, (depth_elem (u8 "::props")).
Qed.

(** An object that contains itself, as a schema with [patternProperties] of objects makes
    it, is never rendered: no fuel is enough. *)
Lemma tree_never this l k : (k, DSelf) ∈ l -> isMeta k = false -> dtype (DNode l) = u8 "object" ->
  forall fuel t r s n i o a b h, hides this t a (DNode l) = false ->
  generateTree fuel this (DNode l) t r s n i o a b <> Returns h.
Proof.
  intros Hin Hk Ht. induction fuel as [|fuel IH]; [done|]. intros t r s n i o a b h Hh.
  cbn [generateTree]. rewrite Hh. destruct l as [|f l]; [by apply elem_of_nil in Hin|].
  intros (parts & Hp & (kids & Hg & _)%bind_returns)%bind_returns.
  destruct (gather_part _ _ _ _ Hp Hin) as (qs & c & d & Hq & ->).
  unfold partOf in Hq. cbn [fst snd isUndef] in Hq. rewrite Hk in Hq. injection Hq as <-.
  assert (Hqin : partWith b k (DNode (f :: l)) ∈ c ++ [partWith b k (DNode (f :: l))] ++ d) by set_solver.
  destruct (gather_part _ _ _ _ Hg Hqin) as (h' & ? & ? & Hh' & _).
  cbn [partWith pa_data pa_type pa_arrayType pa_key pa_description pa_readWrite pa_deprecated] in Hh'.
  unfold partData in Hh'. rewrite Ht in Hh'. revert Hh'. apply IH.
  unfold hides in *. apply orb_false_iff in Hh as [H1 H2]. apply orb_false_iff.
  split; [clear H2; rename H1 into H|clear H1; rename H2 into H].
  - apply andb_false_iff in H as [->|H]; [done|]. apply orb_false_iff in H as [_ ->].
    by rewrite andb_false_r.
  - apply andb_false_iff in H as [->|H]; [done|]. apply orb_false_iff in H as [_ ->].
    by rewrite andb_false_r.
Qed.

Lemma tree_never_ends this l k fuel h :
  sv_data this = DNode l -> (k, DSelf) ∈ l -> isMeta k = false -> dtype (DNode l) = u8 "object" ->
  dtext "::readwrite" (DNode l) = [] -> renderTree fuel this <> Returns h.
Proof.
  intros Hd Hin Hk Ht Hr. unfold renderTree. rewrite Hd. cbn [isTrueData].
  intros (body & Hb & _)%bind_returns. revert Hb. unfold partData. rewrite Ht.
  apply (tree_never this l k Hin Hk Ht). apply not_hidden; intros _; by rewrite Hr.
Qed.

End shown.

(** A schema whose data contains itself. *)
Definition patternSchema : json :=
  JObj [(u8 "type", JStr (u8 "object"));
        (u8 "patternProperties", JObj [(u8 "^x-", JObj [(u8 "type", JStr (u8 "object"))])])].

Lemma pattern_schema_self :
  match schemaData patternSchema with
  | Returns (DNode l) => (u8 "[pattern: ^x-]", DSelf) ∈ l /\ dtype (DNode l) = u8 "object"
      /\ dtext "::readwrite" (DNode l) = []
  | _ => False
  end.
Proof. vm_compute. set_solver. Qed.
