(* ===== verification/RapidocExamples.v ===== *)
(** * RapiDoc: examples

    The examples of parameters, bodies and form fields: [tF] brings the examples of a
    document to one form, [rF] makes them choices of a field, [mF] finds the schema of a
    parameter, [dF] the examples of a body.

    Parameter: [cF] generates examples of a schema; it draws random texts and asks the
    clock. *)

From stdpp Require Import strings numbers pretty list sets.
From S2P Require Import Prelude JsString Html RapidocUrl RapidocSpec RapidocElement.
From S2P Require Import RapidocJson RapidocJsonText RapidocRequest RapidocConsole.
From S2P Require Import RapidocSchema RapidocSchemaTree.

Open Scope nat_scope.

(** ** Examples of a document *)

Definition Examples : Type := list (jstr * json).

(** The entries with a value; an entry that is [null] has no field to read. *)
Fixpoint withValues (l : Examples) : run Examples :=
  match l with
  | [] => Returns []
  | (k, v) :: r =>
      if isNull v then Throws
      else r ← withValues r; Returns (if defined "value" v then (k, v) :: r else r)
  end.

Definition aValue (v : json) : json := JObj [(u8 "value", v)].

(** [tF] *)
Definition tF (o : option json) : run (option Examples) :=
  match o with
  | None => Returns None
  | Some JNull => Throws
  | Some (JObj l) =>
      if defined "value" (JObj l) then Returns (Some [(u8 "Example", JObj l)])
      else t ← withValues l; Returns (match t with [] => None | _ => Some t end)
  | Some (JArr l) => Returns (Some (imap (fun i x => (u8 "Example" ++ decN (S i), aValue x)) l))
  | Some v => Returns (if isTrue v then Some [(u8 "Example", aValue v)] else None)
  end.

(** The first that is there; the later ones are not evaluated. *)
Fixpoint firstExamples (l : list (option json)) : run (option Examples) :=
  match l with
  | [] => Returns None
  | o :: r => t ← tF o; match t with Some x => Returns (Some x) | None => firstExamples r end
  end.

(** *** The choices of a field *)

Record Choice := mkChoice {
  ch_value : json;
  ch_printable : jstr;
  ch_summary : jstr;
  ch_description : jstr;
}.

Record Choices := mkChoices { exampleVal : json; exampleList : list Choice }.

Definition noChoices : Choices := {| exampleVal := JStr []; exampleList := [] |}.

(** [v || ""] *)
Definition orBlank (o : option json) : json :=
  match o with Some v => if isTrue v then v else JStr [] | None => JStr [] end.

Definition choiceValue (v : json) : json :=
  match field "value" v with
  | Some (JBool b) => JStr (decB b)
  | Some (JNum r) => JStr r
  | o => orBlank o
  end.

Definition choiceOf (v : json) : Choice := {|
  ch_value := choiceValue v; ch_printable := QR (field "value" v);
  ch_summary := textOr "summary" v; ch_description := textOr "description" v |}.

Definition hiddenValue (v : json) : bool :=
  match field "x-example-show-value" v with Some (JBool false) => true | _ => false end.

Definition firstValue (l : list Choice) : json :=
  match l with [] => JStr [] | c :: _ => ch_value c end.

Definition plainChoice (f : json -> json) (v : json) : Choice := {|
  ch_value := f v; ch_printable := QR (Some v); ch_summary := []; ch_description := [] |}.

(** [v.toString()] *)
Definition asText (v : json) : json := JStr (jsToString v).

(** [rF]: [t] is the type of the field. *)
Definition rF (o : option json) (t : jstr) : run Choices :=
  match o with
  | None => Returns noChoices
  | Some v =>
    if negb (isTrue v) then Returns noChoices
    else match v with
    | JObj l =>
        if existsb (fun p => isNull p.2) l then Throws
        else
          let c := map (fun p => choiceOf p.2)
                     (List.filter (fun p => negb (hiddenValue p.2)) l) in
          Returns {| exampleVal := firstValue c; exampleList := c |}
    | _ =>
        let l := match v with JArr l => l | _ => [v] end in
        match l with
        | [] => Returns noChoices
        | _ =>
          if t === u8 "array" then
            let c := map (plainChoice (fun x => x)) l in
            Returns {| exampleVal := firstValue c; exampleList := c |}
          else if existsb isNull l then Throws
          else
            let c := map (plainChoice asText) l in
            Returns {| exampleVal := firstValue c; exampleList := c |}
        end
    end
  end.

(** ** The schema of a parameter *)

(** [hF] *)
Definition hF (mime : jstr) : option jstr :=
  if mime === u8 "application/json" then Some (u8 "json")
  else if mime === u8 "application/xml" then Some (u8 "xml") else None.

(** [mF]: the schema, the style of its content type, and its content. *)
Fixpoint contentSchema (l : list (jstr * json))
    : run (option (json * option jstr * option json)) :=
  match l with
  | [] => Returns None
  | (t, c) :: r =>
      if isNull c then Throws
      else if has "schema" c then
        Returns ((fun s => (s, hF t, Some c)) <$> field "schema" c)
      else contentSchema r
  end.

Definition mF (e : json) : run (option (json * option jstr * option json)) :=
  if has "schema" e then Returns ((fun s => (s, None, None)) <$> field "schema" e)
  else if has "content" e then contentSchema (members (field "content" e))
  else Returns None.

(** ** The examples of a body *)

Record Sample := mkSample {
  sa_id : jstr;
  sa_summary : jstr;
  sa_description : jstr;
  sa_value : option json;
  sa_format : jstr;
}.

(** [oF]: the fields that [cF] leaves for the titles and the tags are removed. *)
Definition ownKey (k : jstr) : bool :=
  negb (existsb (fun x => x === k)
          [u8 "::TITLE"; u8 "::DESCRIPTION"; u8 "::XML_TAG"; u8 "::XML_WRAP"]).

Fixpoint oF (e : json) : json :=
  match e with
  | JObj l => JObj (List.filter (fun p => ownKey p.1) (map (fun p => (p.1, oF p.2)) l))
  | JArr l => JArr (map oF l)
  | _ => e
  end.

Definition quoted (s : jstr) : jstr := [34%N] ++ s ++ [34%N].

Definition xmlOpen (e : json) : jstr :=
  let xml := default JNull (field "xml" e) in
  if has "name" xml then
    u8 "<" ++ valueOf (field "name" xml) ++ u8 " " ++
    (if has "namespace" xml then u8 "xmlns=" ++ quoted (valueOf (field "namespace" xml)) else [])
    ++ u8 ">"
  else u8 "<root>".

Definition xmlClose (e : json) : jstr :=
  let xml := default JNull (field "xml" e) in
  if has "name" xml then u8 "</" ++ valueOf (field "name" xml) ++ u8 ">" else u8 "</root>".

Definition xmlProlog : jstr :=
  u8 "<?xml version=" ++ quoted (u8 "1.0") ++ u8 " encoding=" ++ quoted (u8 "UTF-8") ++ u8 "?>".

Section examples.
Context {CM : CaseMapping} {NM : Numerals}.
(** What [cF] makes of a schema, with and without read-only and write-only fields, and for
    XML or not. *)
Context (cF : json -> bool -> bool -> bool -> option json).

Definition about (t : jstr) (k : string) : bool := includes (toLowerCase t) (u8 k).

(** The value of an example for a content type: as a text, or as a value. *)
Definition sampleValue (t : jstr) (text : bool) (o : option json) : option json * jstr :=
  if about t "json" then
    match o, text with
    | Some (JStr s), true => (o, u8 "text")
    | _, true => ((fun v => JStr (stringify2 v)) <$> o, u8 "text")
    | Some (JStr s), false =>
        match parseJson s with Some v => (Some v, u8 "json") | None => (o, u8 "text") end
    | _, false => (o, u8 "json")
    end
  else (o, u8 "text").

Definition namedSample (t : jstr) (text : bool) (p : jstr * json) : run Sample :=
  if isNull p.2 then Throws
  else
    let v := sampleValue t text (field "value" p.2) in
    Returns {| sa_id := p.1; sa_summary := sor (textOr "summary" p.2) p.1;
               sa_description := textOr "description" p.2; sa_value := v.1; sa_format := v.2 |}.

Definition oneSample (summary : jstr) (v : option json) (format : jstr) : Sample := {|
  sa_id := u8 "Example"; sa_summary := summary; sa_description := []; sa_value := v;
  sa_format := format |}.

(** The one example [s]: of the values only texts and objects are taken for JSON. *)
Definition givenSample (t : jstr) (text : bool) (v : json) : Sample :=
  let x := match v, text with
           | (JNum _ | JBool _), false =>
               if about t "json" then (Some (JStr []), u8 "json") else sampleValue t text (Some v)
           | _, _ => sampleValue t text (Some v)
           end in
  oneSample [] x.1 x.2.

(** The generated examples; [h] counts those without a title. *)
Fixpoint generated (e : json) (t : jstr) (text : bool) (h : nat) (l : list (jstr * json))
    : run (list Sample) :=
  match l with
  | [] => Returns []
  | (k, v) :: r =>
      if negb (isTrue v) then generated e t text h r
      else
        let titled := has "::TITLE" v in
        let h := if titled then h else S h in
        x ← (if about t "xml" then
               match nF v 1 with
               | Some s => Returns (JStr (xmlProlog ++ [10%N] ++ xmlOpen e ++ s ++ [10%N] ++ xmlClose e),
                                    u8 "text")
               | None => Throws
               end
             else if text then Returns (JStr (stringify2 (oF v)), u8 "text")
             else Returns (oF v, u8 "json"));
        rest ← generated e t text h r;
        Returns ({| sa_id := k;
                    sa_summary := if titled then valueOf (field "::TITLE" v)
                                  else u8 "Example " ++ decN h;
                    sa_description := textOr "::DESCRIPTION" v;
                    sa_value := Some x.1; sa_format := x.2 |} :: rest)
  end.

(** Those of a schema. *)
Definition schemaSamples (o : option json) (t : jstr) (readOnly writeOnly text : bool)
    : run (list Sample) :=
  match o with
  | Some e =>
    if negb (isTrue e) then Returns [oneSample [] (Some (JStr [])) (u8 "text")]
    else if has "example" e then
      Returns [oneSample [] (field "example" e)
                 (if about t "json" && isObject (default (JStr []) (field "example" e))
                  then u8 "json" else u8 "text")]
    else if about t "json" || about t "text" || about t "*/*" || about t "xml" then
      generated e t text 0 (members (cF e readOnly writeOnly (about t "xml")))
    else if about t "jose" then
      Returns [oneSample (u8 "Base64 Encoded")
                 (Some (if has "pattern" e then default JNull (field "pattern" e)
                        else JStr (u8 "bXJpbg=="))) (u8 "text")]
    else Returns [oneSample [] (Some (JStr [])) (u8 "text")]
  | None => Returns [oneSample [] (Some (JStr [])) (u8 "text")]
  end.

Fixpoint inOrder {A B} (f : A -> run B) (l : list A) : run (list B) :=
  match l with
  | [] => Returns []
  | x :: r => a ← f x; b ← inOrder f r; Returns (a :: b)
  end.

(** [dF(e, t, r, s, n, i, o)]: the examples [r], or the example [s], or those of the
    schema.  [text] says whether [o] is [text]; the console never asks for the generated
    examples besides the given ones. *)
Definition dF (e : option json) (t : jstr) (r : option Examples) (s : option json)
    (readOnly writeOnly text : bool) : run (list Sample) :=
  l ← match r with
      | Some r => inOrder (namedSample t text) r
      | None =>
          match s with
          | Some v => Returns (if isTrue v then [givenSample t text v] else [])
          | None => Returns []
          end
      end;
  match l with
  | [] => schemaSamples e t readOnly writeOnly text
  | _ => Returns l
  end.

(** Examples that are missing are replaced by none at all, so that the example [s] is not
    looked at. *)
Definition orNone (r : option Examples) : option Examples := Some (default [] r).

(** The examples of a document as they are: what counts as false is no examples. *)
Definition rawExamples (o : option json) : option Examples :=
  match o with
  | None => Some []
  | Some v => if isTrue v then Some (entriesOf v) else None
  end.

End examples.
