(* ===== verification/RapidocForm.v ===== *)
(** * RapiDoc: the fields of a request

    The templates of [api-request] above the console: [render], the parameters
    ([inputParametersTemplate]), the body ([requestBodyTemplate]), the fields of a form
    ([formDataTemplate], [formDataParamAsObjectTemplate]) and the lists of examples.

    A template that fails is [Throws].  The body's template chooses a content type and an
    example when none is chosen.  The tree of a schema is bound to the schema ([HSchema]),
    of which [schemaData] makes the data.  The [guard] around the parameters' templates,
    which skips an evaluation when nothing that it watches has changed, is not modelled. *)

From stdpp Require Import strings numbers pretty list sets.
From S2P Require Import Prelude JsString Html RapidocUrl RapidocSpec RapidocElement.
From S2P Require Import RapidocJson RapidocJsonText RapidocRequest RapidocConsole.
From S2P Require Import RapidocSchema RapidocSchemaTree RapidocExamples.

Open Scope nat_scope.

(** ** Values in documents *)

(** A value in an attribute, and in a child of an element. *)
Definition attrText (v : json) : jstr := match v with JNull => [] | _ => jsToString v end.
Definition attrTextO (o : option json) : jstr := match o with Some v => attrText v | None => [] end.

Fixpoint childText (v : json) : jstr :=
  match v with
  | JNull => []
  | JArr l => flat_map childText l
  | _ => jsToString v
  end.

(** The example that a link carries, and the example of a field. *)
Definition linkText (v : json) : jstr :=
  match v with
  | JArr l => joinJson (u8 "~|~") l
  | JObj _ | JNull => stringify2 v
  | _ => if isTrue v then jsToString v else []
  end.

Definition fieldExample (v : json) : jstr :=
  match v with JArr l => joinJson (u8 "~|~") l | _ => attrText v end.

Definition formattedText (v : json) : jstr :=
  match v with JObj _ | JArr _ | JNull => stringify2 v | _ => jsToString v end.

Definition listOf (v : json) : list jstr :=
  match v with JArr l => map jsToString l | _ => [jsToString v] end.

(** [`${b}`] *)
Definition flagText (b : bool) : jstr := if b then u8 "true" else u8 "false".

(** [o.allowedValues.split], which a constant that is no text does not have; a constant
    that counts as false is shown as it is. *)
Definition allowedParts (o : Meta) : run (list jstr) :=
  match me_allowedValues o with
  | Some (JStr s) => Returns (if truthy s then splitOn 9475 s else [])
  | Some v => if isTrue v then Throws else Returns []
  | None => Returns []
  end.

Definition falsyAllowed (o : Meta) : jstr :=
  match me_allowedValues o with
  | Some v => if isTrue v then [] else childText v
  | None => []
  end.

(** Whether there is a column of constraints. *)
Definition constrained (o : Meta) : bool :=
  truthy (me_default o) || truthy (me_constrain o) || given (me_allowedValues o)
  || truthy (me_pattern o).

Section form.
Context {CM : CaseMapping} {NM : Numerals} {MK : Marked}.
Context (cF : json -> bool -> bool -> bool -> option json).
Context (highlight : jstr -> jstr -> jstr).

Definition allowTry (this : ApiRequest) : bool := rq_allowTry (rq_attrs this) === u8 "true".
Definition fills (this : ApiRequest) : bool := rq_fill (rq_attrs this) === u8 "true".
Definition inward (this : ApiRequest) : bool :=
  (rq_callback (rq_attrs this) === u8 "true") || (rq_webhook (rq_attrs this) === u8 "true").
Definition spacious (this : ApiRequest) : bool :=
  includes (u8 "read focused") (rq_renderStyle (rq_attrs this)).

(** [`${this.schemaExpandLevel}`] *)
Definition levelText (this : ApiRequest) : jstr := dec (rq_expandLevel (rq_attrs this)).

(** ** Examples *)

Definition renderExample (this : ApiRequest) (e : Choice) (t r : jstr) : html handler :=
  when (t === u8 "array") (txt (u8 "[")) ++
  el "a" ["part" =: u8 "anchor anchor-param-example";
        "style" =: u8 "display:inline-block; min-width:24px; text-align:center";
        "class" =: (if allowTry this then [] else u8 "inactive-link");
        "data-example-type" =: (if t === u8 "array" then t else u8 "string");
        "data-example" =: linkText (ch_value e);
        "title" =: linkText (ch_value e);
        "click" =@ (useExample r)] (
      txt (if truthy (ch_printable e) then ch_printable e else childText (ch_value e))) ++
  when (t === u8 "array") (txt (u8 "] ")).

Definition renderShortFormatExamples (this : ApiRequest) (e : list Choice) (t r : jstr)
    : html handler :=
  flat_map (fun '(s, e) => unless (s =? 0) (txt (u8 "┃")) ++
      renderExample this e t r) (imap pair e).

Definition renderLongFormatExamples (this : ApiRequest) (e : list Choice) (t r : jstr)
    : html handler :=
  el "ul" ["style" =: u8 "list-style-type: disclosure-closed;"] (
      flat_map (fun e => el "li" [] (
            renderExample this e t r ++
            when (truthy (ch_summary e)) (el "span" [] (
                  txt (u8 "(") ++
                  txt (ch_summary e) ++
                  txt (u8 ")"))) ++
            when (truthy (ch_description e)) (el "p" [] (raw (markdown (ch_description e)))))) e).

Definition exampleListTemplate (this : ApiRequest) (e t : jstr) (r : list Choice)
    : html handler :=
  when (0 <? length r) (
    el "span" ["style" =: u8 "font-weight:bold"] (txt (u8 "Examples: ")) ++
    (if existsb (fun c => truthy (ch_summary c) || truthy (ch_description c)) r
     then renderLongFormatExamples this r t e
     else renderShortFormatExamples this r t e)).

(** ** Parameters *)

(** How a parameter is written into the request. *)
Record Serialization := mkSerialization {
  se_style : jstr;
  se_explode : bool;
  se_allowReserved : bool;
}.

Definition serializationOf (e : jstr) (r : json) (n : option jstr) : Serialization :=
  if (e === u8 "query") || (e === u8 "header") || (e === u8 "path") then
    {| se_style :=
         if has "style" r && includes (u8 "form spaceDelimited pipeDelimited") (valueOf (field "style" r))
         then valueOf (field "style" r) else default (u8 "form") n;
       se_explode := match field "explode" r with Some (JBool b) => b | _ => true end;
       se_allowReserved := match field "allowReserved" r with Some (JBool b) => b | _ => false end |}
  else {| se_style := u8 "form"; se_explode := true; se_allowReserved := false |}.

(** The examples of a parameter; an object without any has a generated one, as a value. *)
Definition parameterChoices (this : ApiRequest) (r t : json) (n : option jstr)
    (i : option json) (o : Meta) : run Choices :=
  let content k := default None ((fun c => field k c) <$> i) in
  x ← firstExamples [field "examples" r; field "example" r; content "example"%string;
                     content "examples"%string; me_examples o];
  u ← rF ((fun l => JObj l) <$> x) (me_type o);
  if isTrue (exampleVal u) || negb (me_type o === u8 "object") then Returns u
  else
    l ← dF cF (Some t) (default (u8 "json") n) (Some []) (Some (JObj [])) (inward this)
          (negb (inward this)) false;
    match l with
    | x :: _ => Returns {| exampleVal := default (JStr []) (sa_value x);
                           exampleList := exampleList u |}
    | [] => Throws
    end.

Definition fillExample (r : json) : jstr := sor (textOr "x-fill-example" r) (u8 "yes").
Definition noFill (r : json) : bool := isStr "no" (field "x-fill-example" r).

Definition paramTab (this : ApiRequest) (name : jstr) : bool :=
  match assoc name (rq_paramTabs this) with Some t => t === u8 "example" | None => false end.

Definition typeText (o : Meta) : jstr :=
  if me_type o === u8 "array" then me_arrayType o
  else if truthy (me_format o) then me_format o else me_type o.

(** The constraints of a field; each value that it may have is a link that puts it there. *)
Definition constraintList (this : ApiRequest) (o : Meta) (name : jstr) (v : list jstr)
    : html handler :=
  el "div" ["class" =: u8 "param-constraint"] (
      when (truthy (me_default o)) (el "span" ["style" =: u8 "font-weight:bold"] (txt (u8 "Default: ")) ++
        txt (me_default o) ++
        el "br" [] []) ++
      when (truthy (me_pattern o)) (el "span" ["style" =: u8 "font-weight:bold"] (txt (u8 "Pattern: ")) ++
        txt (me_pattern o) ++
        el "br" [] []) ++
      when (truthy (me_constrain o)) (txt (me_constrain o) ++
        el "br" [] []) ++
      txt (falsyAllowed o) ++
      flat_map (fun '(t, e) => (if 0 <? t then txt (u8 "┃")
          else el "span" ["style" =: u8 "font-weight:bold"] (txt (u8 "Allowed: "))) ++
        el "a" ["part" =: u8 "anchor anchor-param-constraint";
                "class" =: (if allowTry this then [] else u8 "inactive-link");
                "data-type" =: (if me_type o === u8 "array" then me_type o else u8 "string");
                "data-enum" =: trim e;
                "click" =@ (useAllowed name)] (
              txt e)) (imap pair v)).

(** The field of a parameter: of an array, of an object, of a value. *)
Definition arrayField (this : ApiRequest) (e name : jstr) (r : json) (s : Serialization)
    (u : Choices) : html handler :=
  el "tag-input" ["class" =: u8 "request-param";
        "id" =: u8 "tag-input-request-param-" ++ name;
        "style" =: u8 "width:100%";
        "data-ptype" =: e;
        "data-pname" =: name;
        "data-example" =: fieldExample (exampleVal u);
        "data-param-serialize-style" =: se_style s;
        "data-param-serialize-explode" =: flagText (se_explode s);
        "data-param-allow-reserved" =: flagText (se_allowReserved s);
        "data-x-fill-example" =: fillExample r;
        "data-array" =: u8 "true";
        "placeholder" =: u8 "add-multiple ↩";
        ".value" =@ (HValue (VList (if noFill r then [] else if fills this then listOf (exampleVal u) else [])))] [].

Definition objectField (this : ApiRequest) (e name : jstr) (r t : json) (s : Serialization)
    (u : Choices) : html handler :=
  el "div" ["part" =: u8 "tab-panel";
        "class" =: u8 "tab-panel col";
        "style" =: u8 "border-width:0 0 1px 0;"] (
      el "div" ["part" =: u8 "tab-btn-row";
          "class" =: u8 "tab-buttons row";
          "click" =@ (selectParamTab name)] (
        el "button" ["part" =: u8 "tab-btn";
            "class" =: u8 "tab-btn " ++ (if paramTab this name then u8 "active" else []);
            "data-tab" =: u8 "example"] (
          txt (u8 "EXAMPLE ")) ++
        el "button" ["part" =: u8 "tab-btn";
            "class" =: u8 "tab-btn " ++ (if negb (paramTab this name) then u8 "active" else []);
            "data-tab" =: u8 "schema"] (
          txt (u8 "SCHEMA"))) ++
      el "div" ["part" =: u8 "tab-content";
            "class" =: u8 "tab-content col";
            "data-tab" =: u8 "example";
            "style" =: u8 "display:" ++ (if paramTab this name then u8 "block" else u8 "none") ++ u8 "; padding-left:5px; width:100%"] (
          el "textarea" ["id" =: u8 "textarea-request-param-" ++ name;
              "class" =: u8 "textarea request-param";
              "part" =: u8 "textarea textarea-param";
              "data-ptype" =: e ++ u8 "-object";
              "data-pname" =: name;
              "data-example" =: attrText (exampleVal u);
              "data-param-serialize-style" =: se_style s;
              "data-param-serialize-explode" =: flagText (se_explode s);
              "data-param-allow-reserved" =: flagText (se_allowReserved s);
              "data-x-fill-example" =: fillExample r;
              "spellcheck" =: u8 "false";
              ".textContent" =@ (HText (if noFill r then [] else if fills this then formattedText (exampleVal u) else []));
              "style" =: u8 "resize:vertical; width:100%; height: " ++ (if spacious this then u8 "180px" else u8 "120px") ++ u8 ";";
              "input" =@ onInput] []) ++
      el "div" ["part" =: u8 "tab-content";
            "class" =: u8 "tab-content col";
            "data-tab" =: u8 "schema";
            "style" =: u8 "display:" ++ (if negb (paramTab this name) then u8 "block" else u8 "none") ++ u8 "; padding-left:5px; width:100%;"] (
          el "schema-tree" ["class" =: u8 "json";
              "style" =: u8 "display: block";
              ".data" =@ (HSchema (Some t));
              "schema-expand-level" =: levelText this;
              "schema-description-expanded" =: rq_descriptionExpanded (rq_attrs this);
              "allow-schema-description-expand-toggle" =: rq_allowToggle (rq_attrs this);
              "schema-hide-read-only" =: flagText (includes (rq_hideReadOnly (rq_attrs this)) (rq_method (rq_attrs this)));
              "schema-hide-write-only" =: flagText (includes (rq_hideWriteOnly (rq_attrs this)) (rq_method (rq_attrs this)));
              "exportparts" =: u8 "wrap-request-btn:wrap-request-btn, btn:btn, btn-fill:btn-fill, btn-outline:btn-outline, btn-try:btn-try, btn-clear:btn-clear, btn-clear-resp:btn-clear-resp, file-input:file-input, textbox:textbox, textbox-param:textbox-param, textarea:textarea, textarea-param:textarea-param, anchor:anchor, anchor-param-example:anchor-param-example"] [])).

Definition valueField (this : ApiRequest) (e name : jstr) (r : json) (s : Serialization)
    (o : Meta) (u : Choices) : html handler :=
  el "input" ["type" =: (if me_format o === u8 "password" then u8 "password" else u8 "text");
        "spellcheck" =: u8 "false";
        "style" =: u8 "width:100%";
        "id" =: u8 "input-request-param-" ++ name;
        "class" =: u8 "request-param";
        "part" =: u8 "textbox textbox-param";
        "data-ptype" =: e;
        "data-pname" =: name;
        "data-example" =: fieldExample (exampleVal u);
        "data-param-allow-reserved" =: flagText (se_allowReserved s);
        "data-x-fill-example" =: fillExample r;
        "data-array" =: u8 "false";
        ".value" =@ (HText (if noFill r then [] else if fills this then attrText (exampleVal u) else []));
        "input" =@ onInput] [].

Definition parameterField (this : ApiRequest) (e name : jstr) (r t : json) (s : Serialization)
    (o : Meta) (u : Choices) : html handler :=
  if me_type o === u8 "array" then arrayField this e name r s u
  else if me_type o === u8 "object" then objectField this e name r t s u
  else valueField this e name r s o u.

Definition parameterRow (this : ApiRequest) (e name : jstr) (r t : json) (s : Serialization)
    (o : Meta) (u : Choices) (v : list jstr) : html handler :=
  el "tr" ["title" =: (if has "deprecated" r then u8 "Deprecated" else [])] (
      el "td" ["rowspan" =: (if allowTry this then u8 "1" else u8 "2");
          "style" =: u8 "width:" ++ (if spacious this then u8 "200px" else u8 "160px") ++ u8 "; min-width:100px;"] (
        el "div" ["class" =: u8 "param-name " ++ (if has "deprecated" r then u8 "deprecated" else [])] (
          when (has "deprecated" r) (el "svg" ["viewBox" =: u8 "0 0 10 10";
                  "width" =: u8 "10";
                  "height" =: u8 "10";
                  "style" =: u8 "stroke:var(--red); margin-right:-6px"] (
                el "path" ["d" =: u8 "M2 2L8 8M2 8L8 2"] [])) ++
          when (has "required" r) (el "span" ["style" =: u8 "color:var(--red)"] (txt (u8 "*"))) ++
          txt name) ++
        el "div" ["class" =: u8 "param-type"] (txt (typeText o))) ++
      when (allowTry this) (el "td" ["style" =: u8 "min-width:100px;";
              "colspan" =: (if constrained o then u8 "1" else u8 "2")] (
            parameterField this e name r t s o u)) ++
      (if constrained o then el "td" ["colspan" =: (if allowTry this then u8 "1" else u8 "2")] (constraintList this o name v)
            else el "td" [] [])) ++
  el "tr" [] (
      when (allowTry this) (el "td" ["style" =: u8 "border:none"] []) ++
      el "td" ["colspan" =: u8 "2"; "style" =: u8 "border:none"] (
        el "span" ["class" =: u8 "m-markdown-small"] (raw (markdown (textOr "description" r))) ++
        exampleListTemplate this name (me_type o) (exampleList u))).

Definition parameterRows (this : ApiRequest) (e : jstr) (p : Param) : run (html handler) :=
  let r := prm_rest p in
  m ← mF r;
  match m with
  | None => Returns []
  | Some (t, n, i) =>
      let o := eF t in
      _ ← schemaData t;
      u ← parameterChoices this r t n i o;
      v ← allowedParts o;
      Returns (parameterRow this e (prm_name p) r t (serializationOf e r n) o u v)
  end.

Definition titleOf (e : jstr) : jstr :=
  if e === u8 "path" then u8 "PATH PARAMETERS"
  else if e === u8 "query" then u8 "QUERY-STRING PARAMETERS"
  else if e === u8 "header" then u8 "REQUEST HEADERS"
  else if e === u8 "cookie" then u8 "COOKIES" else [].

Definition parametersIn (this : ApiRequest) (e : jstr) : list Param :=
  List.filter (fun t => prm_in t === e) (default [] (rq_parameters (rq_attrs this))).

Definition inputParametersTemplate (this : ApiRequest) (e : jstr) : run (html handler) :=
  match parametersIn this e with
  | [] => Returns []
  | t =>
      s ← gather (parameterRows this e) t;
      Returns (
  el "div" ["class" =: u8 "table-title top-gap"] (txt (titleOf e)) ++
  el "div" ["style" =: u8 "display:block; overflow-x:auto; max-width:100%;"] (
      el "table" ["role" =: u8 "presentation";
          "class" =: u8 "m-table";
          "style" =: u8 "width:100%; word-break:break-word;"] (
        s)))
  end.

(** ** Forms *)

Definition formType (mime : jstr) : jstr :=
  if includes mime (u8 "form-urlencode") then u8 "form-urlencode" else u8 "form-data".

(** The text of an example in a document. *)
Definition sampleText (x : Sample) : jstr :=
  if sa_format x === u8 "text" then attrTextO (sa_value x)
  else match sa_value x with Some v => stringify2 v | None => [] end.

Definition sampleChild (x : Sample) : jstr :=
  match sa_value x with
  | Some v => if sa_format x === u8 "text" then childText v else stringify2 v
  | None => []
  end.

Definition formDataParamAsObjectTemplate (this : ApiRequest) (e : jstr) (t : json) (r : jstr)
    : run (html handler) :=
  _ ← schemaData t;
  x ← tF (field "examples" t);
  _ ← tF (field "example" t);
  i ← dF cF (Some t) (u8 "json") (orNone x) None (inward this) (negb (inward this)) true;
  first ← (match i with
           | [] => if fills this then Throws else Returns None
           | y :: _ => Returns (sa_value y)
           end);
  Returns (
  el "div" ["part" =: u8 "tab-panel";
        "class" =: u8 "tab-panel row";
        "style" =: u8 "min-height:220px; border-left: 6px solid var(--light-border-color); align-items: stretch;"] (
      el "div" ["style" =: u8 "width:24px; background-color:var(--light-border-color)"] (
        el "div" ["class" =: u8 "row";
            "style" =: u8 "flex-direction:row-reverse; width:160px; height:24px; transform:rotate(270deg) translateX(-160px); transform-origin:top left; display:block;";
            "click" =@ selectFormTab] (
          el "button" ["class" =: u8 "v-tab-btn " ++ (if rq_schemaTab this === u8 "example" then u8 "active" else []);
              "data-tab" =: u8 "example"] (
            txt (u8 "EXAMPLE")) ++
          el "button" ["class" =: u8 "v-tab-btn " ++ (if negb (rq_schemaTab this === u8 "example") then u8 "active" else []);
              "data-tab" =: u8 "schema"] (
            txt (u8 "SCHEMA")))) ++
      el "div" ["class" =: u8 "tab-content col";
            "data-tab" =: u8 "example";
            "style" =: u8 "display:" ++ (if rq_schemaTab this === u8 "example" then u8 "block" else u8 "none") ++ u8 "; padding-left:5px; width:100%"] (
          el "textarea" ["class" =: u8 "textarea";
              "part" =: u8 "textarea textarea-param";
              "style" =: u8 "width:100%; border:none; resize:vertical;";
              "data-array" =: u8 "false";
              "data-ptype" =: formType r;
              "data-pname" =: e;
              "data-example" =: attrText (orBlank first);
              ".textContent" =@ (HText (if fills this then attrTextO first else []));
              "spellcheck" =: u8 "false"] []) ++
      el "div" ["class" =: u8 "tab-content col";
            "data-tab" =: u8 "schema";
            "style" =: u8 "display:" ++ (if negb (rq_schemaTab this === u8 "example") then u8 "block" else u8 "none") ++ u8 "; padding-left:5px; width:100%;"] (
          el "schema-tree" [".data" =@ (HSchema (Some t));
              "schema-expand-level" =: levelText this;
              "schema-description-expanded" =: rq_descriptionExpanded (rq_attrs this);
              "allow-schema-description-expand-toggle" =: rq_allowToggle (rq_attrs this)] []))).

Definition requiredHas (e : json) (r : jstr) : run bool :=
  match field "required" e with
  | None | Some JNull => Returns false
  | Some (JArr l) => Returns (existsb (fun x => match x with JStr y => y === r | _ => false end) l)
  | Some (JStr y) => Returns (includes y r)
  | Some _ => Throws
  end.

(** The example of a property of a form. *)
Definition propertyExample (o : json) : json :=
  if has "examples" o then default JNull (field "examples" o) else orBlank (field "example" o).

Definition firstList (a : json) : list jstr :=
  match a with
  | JArr (JArr l :: _) => map jsToString l
  | JArr l => map jsToString l
  | _ => []
  end.
Definition firstText (a : json) : jstr :=
  match a with
  | JArr (v :: _) => attrText v
  | JArr [] => []
  | v => attrText v
  end.

Definition fileSet (r t : jstr) : html handler :=
  el "div" ["class" =: u8 "file-input-container col";
        "style" =: u8 "align-items:flex-end;";
        "click" =@ (onAddRemoveFileInput_ r t)] (
      el "div" ["class" =: u8 "input-set row"] (
        el "input" ["type" =: u8 "file";
            "part" =: u8 "file-input";
            "style" =: u8 "width:100%";
            "data-pname" =: r;
            "data-ptype" =: formType t;
            "data-array" =: u8 "false";
            "data-file-array" =: u8 "true"] [] ++
        el "button" ["class" =: u8 "file-input-remove-btn"] (txt (u8 " ✕ "))) ++
      el "button" ["class" =: u8 "m-btn primary file-input-add-btn";
          "part" =: u8 "btn btn-fill";
          "style" =: u8 "margin:2px 25px 0 0; padding:2px 6px;"] (
        txt (u8 "ADD"))).

Definition tagField (r t : jstr) (a : json) : html handler :=
  el "tag-input" ["style" =: u8 "width:100%";
        "data-ptype" =: formType t;
        "data-pname" =: r;
        "data-example" =: fieldExample a;
        "data-array" =: u8 "true";
        "placeholder" =: u8 "add-multiple ↩";
        ".value" =@ (HValue (VList (firstList a)))] [].

Definition textField (this : ApiRequest) (r t : jstr) (o a : json) (u : Choices) : html handler :=
  when (allowTry this) (el "input" [".value" =@ (HText (if fills this then attrText (exampleVal u) else []));
            "spellcheck" =: u8 "false";
            "type" =: (if isStr "binary" (field "format" o) then u8 "file" else (if isStr "password" (field "format" o) then u8 "password" else u8 "text"));
            "part" =: u8 "textbox textbox-param";
            "style" =: u8 "width:100%";
            "data-ptype" =: formType t;
            "data-pname" =: r;
            "data-example" =: firstText a;
            "data-array" =: u8 "false"] []).

Definition binaryItems (o : json) : bool :=
  isStr "binary" (field "format" (default JNull (field "items" o))).

(** The field of a property. *)
Definition formField (this : ApiRequest) (t r : jstr) (o : json) (u : Choices)
    : run (html handler) :=
  if isStr "array" (field "type" o) then
    Returns (if binaryItems o then fileSet r t else tagField r t (propertyExample o))
  else if isStr "object" (field "type" o) then formDataParamAsObjectTemplate this r o t
  else Returns (textField this r t o (propertyExample o) u).

Definition formRow (this : ApiRequest) (t r : jstr) (o : json) (c : Meta) (u : Choices)
    (required : bool) (v : list jstr) (input : html handler) : html handler :=
  let object := isStr "object" (field "type" o) in
  el "tr" ["title" =: (if has "deprecated" o then u8 "Deprecated" else [])] (
      el "td" ["style" =: u8 "width:" ++ (if spacious this then u8 "200px" else u8 "160px") ++ u8 "; min-width:100px;"] (
        el "div" ["class" =: u8 "param-name " ++ (if has "deprecated" o then u8 "deprecated" else [])] (
          txt r ++
          when (required) (el "span" ["style" =: u8 "color:var(--red);"] (txt (u8 "*")))) ++
        el "div" ["class" =: u8 "param-type"] (txt (me_type c))) ++
      el "td" ["style" =: (if object then u8 "width:100%; padding:0;" else (if allowTry this then [] else u8 "display:none;")) ++ u8 " min-width:100px;";
          "colspan" =: (if object then u8 "2" else u8 "1")] (
        input) ++
      unless (object) (el "td" [] (when (constrained c) (constraintList this c r v)))) ++
  unless (object) (el "tr" [] (
          el "td" ["style" =: u8 "border:none"] [] ++
          el "td" ["colspan" =: u8 "2";
              "style" =: u8 "border:none; margin-top:0; padding:0 5px 8px 5px;"] (
            el "span" ["class" =: u8 "m-markdown-small"] (raw (markdown (textOr "description" o))) ++
            exampleListTemplate this r (me_type c) (exampleList u)))).

Definition formRows (this : ApiRequest) (e : json) (t : jstr) (p : jstr * json)
    : run (html handler) :=
  let '(r, o) := p in
  if isNull o then Throws
  else if has "readOnly" o then Returns []
  else if negb (isTrue o) then Throws
  else
    let c := eF o in
    u ← rF (me_examples c) (me_type c);
    q ← requiredHas e r;
    input ← formField this t r o u;
    v ← (if isStr "object" (field "type" o) then Returns [] else allowedParts c);
    Returns (formRow this t r o c u (q || has "required" o) v input).

Definition formDataTemplate (this : ApiRequest) (e : json) (t r : jstr) : run (html handler) :=
  if has "properties" e then
    s ← gather (formRows this e t) (members (field "properties" e));
    Returns (
    el "table" ["role" =: u8 "presentation";
          "style" =: u8 "width:100%;";
          "class" =: u8 "m-table"] (
        s))
  else Returns (
    el "textarea" ["class" =: u8 "textarea dynamic-form-param " ++ t;
          "part" =: u8 "textarea textarea-param";
          "spellcheck" =: u8 "false";
          "data-pname" =: u8 "dynamic-form";
          "data-ptype" =: t;
          ".textContent" =@ (HText r);
          "style" =: u8 "width:100%"] [] ++
    when (has "description" e) (el "span" ["class" =: u8 "m-markdown-small"] (
            raw (markdown (valueOf (field "description" e)))))).

(** ** The body *)

Record BodyType := mkBodyType {
  bt_mime : jstr;
  bt_schema : option json;
  bt_example : option json;
  bt_examples : option json;
}.

Definition bodyType (p : jstr * json) : run BodyType :=
  if isNull p.2 then Throws
  else Returns {| bt_mime := p.1; bt_schema := field "schema" p.2;
                  bt_example := field "example" p.2; bt_examples := field "examples" p.2 |}.

(** What the templates of the content types put together. *)
Record BodyParts := mkBodyParts {
  bp_this : ApiRequest;
  bp_examples : html handler;
  bp_file : html handler;
  bp_form : html handler;
  bp_schemas : html handler;
}.

Definition selectedType (this : ApiRequest) : jstr := rq_bodyType this.
Definition selectedExample (this : ApiRequest) : jstr := rq_bodyExample this.

(** The content types whose bodies are texts, forms and files. *)
Definition textual (t : jstr) : bool :=
  includes t (u8 "json") || includes t (u8 "xml") || includes t (u8 "text")
  || includes t (u8 "jose").
Definition formLike (t : jstr) : bool :=
  includes t (u8 "form-urlencoded") || includes t (u8 "form-data").
Definition fileType (t : jstr) : bool :=
  existsb (fun p => startsWith p t) [u8 "audio/"; u8 "image/"; u8 "video/"; u8 "font/"]
  || existsb (fun p => endsWith p t)
       [u8 "tar"; u8 "zip"; u8 "7z"; u8 "rtf"; u8 "msword"; u8 "excel"; u8 "/pdf";
        u8 "/octet-stream"].

(** [m.substring(m.indexOf("/") + 1)] *)
Definition afterSlash (m : jstr) : jstr :=
  match indexOf [cSlash] m 0 with Some i => drop (S i) m | None => m end.

Definition optionText (x : Sample) : jstr :=
  if 80 <? length (sa_summary x) then sa_id x
  else if truthy (sa_summary x) then sa_summary x else sa_id x.

Definition examplePanel (this : ApiRequest) (mime : jstr) (o : list Sample) : html handler :=
  el "div" ["class" =: u8 "example-panel border-top pad-top-8"] (
      unless (length o =? 1) (el "select" ["style" =: u8 "min-width:100px; max-width:100%;  margin-bottom:-1px;";
              "change" =@ onSelectExample_] (
            flat_map (fun e => el "option" ["value" =: sa_id e; "selected" =! (sa_id e === selectedExample this)] (
                  txt (optionText e))) o)) ++
      flat_map (fun t => el "div" ["class" =: u8 "example " ++ (if sa_id t === selectedExample this then u8 "example-selected" else []);
              "data-example" =: sa_id t] (
            when (80 <? length (sa_summary t)) (el "div" ["style" =: u8 "padding: 4px 0"] (txt (sa_summary t))) ++
            when (truthy (sa_description t)) (el "div" ["class" =: u8 "m-markdown-small"; "style" =: u8 "padding: 4px 0"] (
                  raw (markdown (sa_description t)))) ++
            el "pre" ["class" =: u8 "textarea is-hidden request-body-param " ++ afterSlash mime;
                "spellcheck" =: u8 "false";
                "data-ptype" =: mime;
                "style" =: u8 "width:100%; resize:vertical; display:none"] (
              txt (sampleChild t)) ++
            el "textarea" ["class" =: u8 "textarea request-body-param-user-input";
                "part" =: u8 "textarea textarea-param";
                "spellcheck" =: u8 "false";
                "data-ptype" =: mime;
                "data-example" =: sampleText t;
                "data-example-format" =: sa_format t;
                "style" =: u8 "width:100%; resize:vertical;";
                ".textContent" =@ (HText (if fills this then sampleText t else []));
                "input" =@ onInput;
                "keydown" =@ onKeydown] [])) (List.filter (fun e => sa_id e === selectedExample this) o)).

Definition fileInput (mime : jstr) : html handler :=
  el "div" ["class" =: u8 "small-font-size bold-text row"] (
      el "input" ["id" =: u8 "input-request-body-param-file";
          "type" =: u8 "file";
          "part" =: u8 "file-input";
          "style" =: u8 "max-width:100%";
          "class" =: u8 "request-body-param-file";
          "data-ptype" =: mime;
          "spellcheck" =: u8 "false"] []).

Definition bodySchema (this : ApiRequest) (e : BodyType) : html handler :=
  if rq_schemaStyle (rq_attrs this) === u8 "table" then
    el "schema-table" ["class" =: afterSlash (bt_mime e);
          "style" =: u8 "display: " ++ (if selectedType this === bt_mime e then u8 "block" else u8 "none") ++ u8 ";";
          ".data" =@ (HSchema (bt_schema e));
          "schema-expand-level" =: levelText this;
          "schema-description-expanded" =: rq_descriptionExpanded (rq_attrs this);
          "allow-schema-description-expand-toggle" =: rq_allowToggle (rq_attrs this);
          "schema-hide-read-only" =: rq_hideReadOnly (rq_attrs this);
          "schema-hide-write-only" =: rq_hideWriteOnly (rq_attrs this);
          "exportparts" =: u8 "schema-description:schema-description, schema-multiline-toggle:schema-multiline-toggle"] []
  else if rq_schemaStyle (rq_attrs this) === u8 "tree" then
    el "schema-tree" ["class" =: afterSlash (bt_mime e);
          "style" =: u8 "display: " ++ (if selectedType this === bt_mime e then u8 "block" else u8 "none") ++ u8 ";";
          ".data" =@ (HSchema (bt_schema e));
          "schema-expand-level" =: levelText this;
          "schema-description-expanded" =: rq_descriptionExpanded (rq_attrs this);
          "allow-schema-description-expand-toggle" =: rq_allowToggle (rq_attrs this);
          "schema-hide-read-only" =: rq_hideReadOnly (rq_attrs this);
          "schema-hide-write-only" =: rq_hideWriteOnly (rq_attrs this);
          "exportparts" =: u8 "schema-description:schema-description, schema-multiline-toggle:schema-multiline-toggle"] []
  else [].

Definition chooseExample (id : jstr) (this : ApiRequest) : ApiRequest :=
  if truthy (rq_bodyExample this) then this else withBody (rq_bodyType this) id this.

Definition firstId (o : list Sample) : jstr := match o with x :: _ => sa_id x | [] => [] end.

(** The example, the file or the form of one content type. *)
Definition bodyInput (p : BodyParts) (e : BodyType) : run BodyParts :=
  let this := bp_this p in
  let selected := bt_mime e === selectedType this in
  if textual (selectedType this) then
    if selected then
      x ← tF (bt_examples e);
      _ ← tF (bt_example e);
      o ← dF cF (bt_schema e) (bt_mime e) (orNone x) None (inward this) (negb (inward this)) true;
      let this := chooseExample (firstId o) this in
      Returns {| bp_this := this;
                 bp_examples := bp_examples p ++ examplePanel this (bt_mime e) o;
                 bp_file := bp_file p; bp_form := bp_form p; bp_schemas := bp_schemas p |}
    else Returns p
  else if formLike (selectedType this) then
    if selected then
      o ← dF cF (bt_schema e) (bt_mime e) (rawExamples (bt_examples e))
            (Some (default (JObj []) (bt_example e)))
            (inward this) (negb (inward this)) true;
      if given (bt_schema e) then
        h ← formDataTemplate this (default JNull (bt_schema e)) (bt_mime e)
              (match o with x :: _ => attrTextO (sa_value x) | [] => [] end);
        Returns {| bp_this := this; bp_examples := bp_examples p; bp_file := bp_file p;
                   bp_form := h; bp_schemas := bp_schemas p |}
      else Returns p
    else Returns p
  else if fileType (selectedType this) && selected then
    Returns {| bp_this := this; bp_examples := bp_examples p; bp_file := fileInput (bt_mime e);
               bp_form := bp_form p; bp_schemas := bp_schemas p |}
  else Returns p.

(** The same with its schema. *)
Definition bodyStep (p : BodyParts) (_ : nat) (e : BodyType) : run BodyParts :=
  p ← bodyInput p e;
  let this := bp_this p in
  if includes (bt_mime e) (u8 "json") || includes (bt_mime e) (u8 "xml")
     || includes (bt_mime e) (u8 "text") || includes (selectedType this) (u8 "jose") then
    _ ← (match bt_schema e with Some s => schemaData s | None => Returns DUndef end);
    Returns {| bp_this := this; bp_examples := bp_examples p; bp_file := bp_file p;
               bp_form := bp_form p; bp_schemas := bp_schemas p ++ bodySchema this e |}
  else Returns p.

Definition chooseType (l : list BodyType) (this : ApiRequest) : ApiRequest :=
  if truthy (rq_bodyType this) then this
  else match List.filter (fun e => truthy (bt_mime e)) l with
       | e :: _ => withBody (bt_mime e) (rq_bodyExample this) this
       | [] => this
       end.

Definition typeSelect (this : ApiRequest) (l : list BodyType) : html handler :=
  unless (length l =? 1) (
    el "select" ["style" =: u8 "min-width:100px; max-width:100%;  margin-bottom:-1px;";
          "change" =@ onMimeTypeChange_] (
        flat_map (fun e => el "option" ["value" =: bt_mime e; "selected" =! (bt_mime e === selectedType this)] (
              txt (bt_mime e))) l)).

Definition bodyTemplate (p : BodyParts) (body : json) (l : list BodyType) : html handler :=
  let this := bp_this p in
  el "div" ["class" =: u8 "request-body-container";
        "data-selected-request-body-type" =: selectedType this] (
      el "div" ["class" =: u8 "table-title top-gap row"] (
        txt (u8 "REQUEST BODY ") ++
        when (has "required" body) (el "span" ["class" =: u8 "mono-font"; "style" =: u8 "color:var(--red)"] (txt (u8 "*"))) ++
        el "span" ["style" =: u8 "font-weight:normal; margin-left:5px"] (txt (selectedType this)) ++
        el "span" ["style" =: u8 "flex:1"] [] ++
        typeSelect this l) ++
      when (has "description" body) (el "div" ["class" =: u8 "m-markdown"; "style" =: u8 "margin-bottom:12px"] (
            raw (markdown (valueOf (field "description" body))))) ++
      (if textual (selectedType this) then el "div" ["part" =: u8 "tab-panel";
              "class" =: u8 "tab-panel col";
              "style" =: u8 "border-width:0 0 1px 0;"] (
            el "div" ["part" =: u8 "tab-btn-row";
                "class" =: u8 "tab-buttons row";
                "click" =@ selectSchemaTab_] (
              el "button" ["part" =: u8 "tab-btn";
                  "class" =: u8 "tab-btn " ++ (if rq_schemaTab this === u8 "example" then u8 "active" else []);
                  "data-tab" =: u8 "example"] (
                txt (u8 "EXAMPLE")) ++
              el "button" ["part" =: u8 "tab-btn";
                  "class" =: u8 "tab-btn " ++ (if negb (rq_schemaTab this === u8 "example") then u8 "active" else []);
                  "data-tab" =: u8 "schema"] (
                txt (u8 "SCHEMA"))) ++
            el "div" ["part" =: u8 "tab-content";
                  "class" =: u8 "tab-content col";
                  "style" =: u8 "display:" ++ (if rq_schemaTab this === u8 "example" then u8 "block" else u8 "none") ++ u8 ";"] (
                bp_examples p) ++
            el "div" ["part" =: u8 "tab-content";
                  "class" =: u8 "tab-content col";
                  "style" =: u8 "display:" ++ (if rq_schemaTab this === u8 "example" then u8 "none" else u8 "block") ++ u8 ";"] (
                bp_schemas p))
      else bp_file p ++
        bp_form p)).

Definition requestBodyTemplate (this : ApiRequest) : run (ApiRequest * html handler) :=
  match rq_body (rq_attrs this) with
  | None => Returns (this, [])
  | Some b =>
      if negb (isTrue b) || (keyCount b =? 0) then Returns (this, [])
      else
        l ← inOrder bodyType (members (field "content" b));
        let this := chooseType l this in
        p ← loop bodyStep 0 l {| bp_this := this; bp_examples := []; bp_file := [];
                                 bp_form := []; bp_schemas := [] |};
        Returns (bp_this p, bodyTemplate p b l)
  end.

(** ** The element *)

Definition requestPanel (this : ApiRequest) (path query body header cookie : html handler)
    : html handler :=
  el "div" ["class" =: u8 "col regular-font request-panel " ++ (if spacious this || (rq_callback (rq_attrs this) === u8 "true") then u8 "read-mode" else u8 "view-mode")] (
      el "div" ["class" =: u8 " " ++ (if rq_callback (rq_attrs this) === u8 "true" then u8 "tiny-title" else u8 "req-res-title") ++ u8 " "] (
        (if rq_callback (rq_attrs this) === u8 "true" then txt (u8 "CALLBACK REQUEST")
        else txt (u8 "REQUEST"))) ++
      el "div" [] (
        path ++
        query ++
        body ++
        header ++
        cookie ++
        unless (rq_allowTry (rq_attrs this) === u8 "false") (apiCallTemplate highlight this))).

Definition render (this : ApiRequest) : run (ApiRequest * html handler) :=
  path ← inputParametersTemplate this (u8 "path");
  query ← inputParametersTemplate this (u8 "query");
  body ← requestBodyTemplate this;
  header ← inputParametersTemplate body.1 (u8 "header");
  cookie ← inputParametersTemplate body.1 (u8 "cookie");
  Returns (body.1, requestPanel body.1 path query body.2 header cookie).

End form.

(** ** Handlers *)

(** [onAddRemoveFileInput] on the files of one property: ADD appends an input, the cross of
    an input removes it. *)
Definition addFileInput (files : list (option File)) : list (option File) := files ++ [None].
Definition removeFileInput (i : nat) (files : list (option File)) : list (option File) :=
  delete i files.

(** [updated], for a webhook: it cannot be tried. *)
Definition noTry (a : Attributes) : Attributes := {|
  rq_serverUrl := rq_serverUrl a; rq_method := rq_method a; rq_path := rq_path a;
  rq_security := rq_security a; rq_parameters := rq_parameters a; rq_body := rq_body a;
  rq_keys := rq_keys a; rq_accept := rq_accept a; rq_callback := rq_callback a;
  rq_webhook := rq_webhook a; rq_fill := rq_fill a; rq_allowTry := u8 "false";
  rq_showCurl := rq_showCurl a; rq_renderStyle := rq_renderStyle a;
  rq_schemaStyle := rq_schemaStyle a; rq_expandLevel := rq_expandLevel a;
  rq_descriptionExpanded := rq_descriptionExpanded a; rq_allowToggle := rq_allowToggle a;
  rq_hideReadOnly := rq_hideReadOnly a; rq_hideWriteOnly := rq_hideWriteOnly a;
  rq_credentials := rq_credentials a |}.

Definition withAttributes (a : Attributes) (this : ApiRequest) : ApiRequest := {|
  rq_attrs := a; rq_console := rq_console this; rq_responseTab := rq_responseTab this;
  rq_schemaTab := rq_schemaTab this; rq_paramTabs := rq_paramTabs this;
  rq_bodyType := rq_bodyType this; rq_bodyExample := rq_bodyExample this;
  rq_disabled := rq_disabled this |}.

Section updated.
Context {CM : CaseMapping} {LC : Locale} {NM : Numerals}.
Context (resolveUrl : jstr -> jstr).

Definition updated (selected : option jstr) (p : Panel) (this : ApiRequest)
    : option ApiRequest :=
  t ← (if rq_showCurl (rq_attrs this) === u8 "true"
       then applyCURLSyntax resolveUrl selected this p else Some this);
  Some (if rq_webhook (rq_attrs t) === u8 "true" then withAttributes (noTry (rq_attrs t)) t
        else t).

End updated.
