(* ===== verification/RapidocFormFacts.v ===== *)
(** * RapiDoc: what the form offers

    [form_offers_parameters]: with TRY enabled every parameter with a schema has one field,
    named and placed as the request reads it.  [body_settles]: rendering the body again
    changes nothing.  [editor_holds_example]: the body's editor holds the first example.
    The last section shows what the form offers in vain. *)

From stdpp Require Import strings numbers pretty list sets.
From S2P Require Import Prelude JsString Html RapidocUrl RapidocSpec RapidocElement.
From S2P Require Import RapidocJson RapidocJsonText RapidocRequest RapidocConsole.
From S2P Require Import RapidocSchema RapidocSchemaTree RapidocSchemaFacts RapidocSchemaShown.
From S2P Require Import RapidocExamples RapidocForm.

Open Scope nat_scope.

Section facts.
Context {CM : CaseMapping} {NM : Numerals} {MK : Marked}.
Context (cF : json -> bool -> bool -> bool -> option json).
Context (highlight : jstr -> jstr -> jstr).
Implicit Types this : ApiRequest.

(** ** Parameters *)

(** Where the fields of a document write, and under which names. *)
Definition places (h : html handler) : list jstr := attrs "data-ptype" h.
Definition names (h : html handler) : list jstr := attrs "data-pname" h.

Definition offered (p : Param) : bool :=
  match mF (prm_rest p) with Returns (Some _) => true | _ => false end.

Definition placeOf (e : jstr) (p : Param) : jstr :=
  match mF (prm_rest p) with
  | Returns (Some (t, _, _)) => if me_type (eF t) === u8 "object" then e ++ u8 "-object" else e
  | _ => e
  end.

Lemma examples_attrs name this e t r :
  name = "data-ptype" \/ name = "data-pname" ->
  attrs name (exampleListTemplate this e t r) = [].
Proof.
  intros [->| ->]; unfold exampleListTemplate, renderLongFormatExamples,
    renderShortFormatExamples, renderExample; collect_simpl; done.
Qed.

Lemma constraints_attrs name this o n v :
  name = "data-ptype" \/ name = "data-pname" ->
  attrs name (constraintList this o n v) = [].
Proof. intros [->| ->]; unfold constraintList; collect_simpl; done. Qed.

Lemma parameterField_attrs this e n r t s o u :
  places (parameterField this e n r t s o u)
    = [if me_type o === u8 "object" then e ++ u8 "-object" else e]
  /\ names (parameterField this e n r t s o u) = [n].
Proof.
  unfold parameterField, places, names.
  destruct (bool_decide_reflect (me_type o = u8 "array")) as [->|].
  { unfold arrayField. by split; collect_simpl. }
  destruct (me_type o === u8 "object"); [unfold objectField|unfold valueField];
    by split; collect_simpl.
Qed.

Lemma parameterRow_attrs this e n r t s o u v :
  allowTry this = true ->
  places (parameterRow this e n r t s o u v)
    = [if me_type o === u8 "object" then e ++ u8 "-object" else e]
  /\ names (parameterRow this e n r t s o u v) = [n].
Proof.
  intros Ht. destruct (parameterField_attrs this e n r t s o u) as [H1 H2].
  unfold places, names, attrs in *.
  assert (Collects (getAt "data-ptype") (parameterField this e n r t s o u)
    [if me_type o === u8 "object" then e ++ u8 "-object" else e]) by exact H1.
  assert (Collects (getAt "data-pname") (parameterField this e n r t s o u) [n]) by exact H2.
  assert (forall a, Collects (getAt "data-ptype") (exampleListTemplate this n a (exampleList u)) [])
    by (intros a; apply (examples_attrs "data-ptype"); by left).
  assert (forall a, Collects (getAt "data-pname") (exampleListTemplate this n a (exampleList u)) [])
    by (intros a; apply (examples_attrs "data-pname"); by right).
  assert (Collects (getAt "data-ptype") (constraintList this o n v) [])
    by (apply (constraints_attrs "data-ptype"); by left).
  assert (Collects (getAt "data-pname") (constraintList this o n v) [])
    by (apply (constraints_attrs "data-pname"); by right).
  unfold parameterRow. rewrite Ht. split; collect_simpl; done.
Qed.

Lemma gather_collect {A H X} (f : A -> run (html H)) (g : string -> list (attr H) -> list X)
    (v : A -> list X) l h :
  (forall x h, f x = Returns h -> collect g h = v x) ->
  gather f l = Returns h -> collect g h = flat_map v l.
Proof.
  intros Hf. revert h. induction l as [|x l IH]; intros h; cbn [gather]; [by intros [= <-]|].
  intros (a & Ha & (b & Hb & [= <-])%bind_returns)%bind_returns.
  rewrite collect_app, (Hf _ _ Ha), (IH _ Hb). done.
Qed.

Lemma flat_map_filter {A B} (b : A -> bool) (f : A -> B) l :
  flat_map (fun x => if b x then [f x] else []) l = map f (List.filter b l).
Proof. induction l as [|x l IH]; [done|]. simpl. destruct (b x); simpl; by rewrite IH. Qed.

(** When a request can be tried, the fields that the form offers for a place (path,
    query, header or cookie) are the parameters of that place that have a schema, in their
    order: one field each, with the parameter's name, and with the place as its type. *)
Theorem form_offers_parameters this e h :
  allowTry this = true -> inputParametersTemplate cF this e = Returns h ->
  names h = map prm_name (List.filter offered (parametersIn this e))
  /\ places h = map (placeOf e) (List.filter offered (parametersIn this e)).
Proof.
  intros Ht. unfold inputParametersTemplate. destruct (parametersIn this e) as [|p l] eqn:E.
  { by intros [= <-]. }
  rewrite <- E. intros (s & Hs & Hh)%bind_returns. apply returns_inj in Hh as <-.
  assert (Hrow : forall p h, parameterRows cF this e p = Returns h ->
            places h = (if offered p then [placeOf e p] else [])
            /\ names h = (if offered p then [prm_name p] else [])).
  { intros p0 h. unfold parameterRows, offered, placeOf.
    destruct (mF (prm_rest p0)) as [| |[[[t n] i]|]]; try done; [|by intros [= <-]].
    cbn [mbind run_bind].
    intros (d & _ & (u & _ & (v & _ & Hr)%bind_returns)%bind_returns)%bind_returns.
    apply returns_inj in Hr as <-. by apply parameterRow_attrs. }
  rewrite <- !flat_map_filter. unfold names, places, attrs.
  assert (Collects (getAt "data-pname") s
            (flat_map (fun x => if offered x then [prm_name x] else []) (parametersIn this e))).
  { eapply gather_collect, Hs. intros x h0 Hx. by destruct (Hrow _ _ Hx). }
  assert (Collects (getAt "data-ptype") s
            (flat_map (fun x => if offered x then [placeOf e x] else []) (parametersIn this e))).
  { eapply gather_collect, Hs. intros x h0 Hx. by destruct (Hrow _ _ Hx). }
  split; collect_simpl; done.
Qed.


(** ** The body *)

Definition withThis this (p : BodyParts) : BodyParts := {|
  bp_this := this; bp_examples := bp_examples p; bp_file := bp_file p; bp_form := bp_form p;
  bp_schemas := bp_schemas p |}.

(** The element with another example chosen. *)
Definition withExample (x : jstr) this : ApiRequest := withBody (rq_bodyType this) x this.

Lemma withThis_id p : withThis (bp_this p) p = p.
Proof. by destruct p. Qed.

Lemma withExample_id this : withExample (rq_bodyExample this) this = this.
Proof. by destruct this. Qed.

Lemma chooseExample_with id this :
  chooseExample id this = withExample (rq_bodyExample (chooseExample id this)) this.
Proof. unfold chooseExample. destruct (truthy _); [by rewrite withExample_id|done]. Qed.

Lemma chooseExample_twice id this : chooseExample id (chooseExample id this) = chooseExample id this.
Proof.
  unfold chooseExample at 2 3. destruct (truthy (rq_bodyExample this)) eqn:E.
  - unfold chooseExample. by rewrite E.
  - unfold chooseExample. cbn [withBody rq_bodyExample]. by destruct (truthy id).
Qed.

(** The content types that are not selected. *)
Lemma other_input p e :
  bt_mime e <> rq_bodyType (bp_this p) -> bodyInput cF p e = Returns p.
Proof.
  intros H. unfold bodyInput, selectedType. rewrite bool_decide_false by done.
  destruct (textual _); [done|]. destruct (formLike _); [done|]. by rewrite andb_false_r.
Qed.

Lemma other_step p i e q :
  bt_mime e <> rq_bodyType (bp_this p) -> bodyStep cF p i e = Returns q ->
  bp_this q = bp_this p
  /\ (forall x, bodyStep cF (withThis (withExample x (bp_this p)) p) i e
                = Returns (withThis (withExample x (bp_this p)) q)).
Proof.
  intros H. unfold bodyStep. rewrite other_input by done. cbn [mbind run_bind].
  intros Hq. split.
  - destruct (_ || _ || _ || _); [|by injection Hq as <-].
    apply bind_returns in Hq as (d & _ & Hq). by injection Hq as <-.
  - intros x. rewrite other_input by done. cbn [mbind run_bind withThis bp_this].
    change (selectedType (withExample x (bp_this p))) with (selectedType (bp_this p)).
    destruct (_ || _ || _ || _); [|by injection Hq as <-].
    apply bind_returns in Hq as (d & -> & Hq). by injection Hq as <-.
Qed.

(** One content type: the example that it chooses is kept when it is rendered again. *)
Lemma input_again p e q :
  bodyInput cF p e = Returns q ->
  (exists x, bp_this q = withExample x (bp_this p))
  /\ bodyInput cF (withThis (bp_this q) p) e = Returns q.
Proof.
  intros H. assert (Hsame : bp_this q = bp_this p -> (exists x, bp_this q = withExample x (bp_this p))
                            /\ bodyInput cF (withThis (bp_this q) p) e = Returns q).
  { intros ->. rewrite withThis_id. split; [|done].
    exists (rq_bodyExample (bp_this p)). by rewrite withExample_id. }
  unfold bodyInput in H. destruct (textual (selectedType (bp_this p))) eqn:Ht.
  - destruct (bt_mime e === selectedType (bp_this p)) eqn:Hs; [|apply Hsame; by injection H as <-].
    apply bind_returns in H as (x & Ex & (y & Ey & (o & Eo & Hq)%bind_returns)%bind_returns).
    injection Hq as <-. cbn [bp_this]. rewrite (chooseExample_with (firstId o) (bp_this p)).
    set (z := rq_bodyExample _). split; [by exists z|].
    unfold bodyInput. cbn [withThis bp_this].
    change (selectedType (withExample z (bp_this p))) with (selectedType (bp_this p)).
    rewrite Ht, Hs, Ex. cbn [mbind run_bind]. rewrite Ey. cbn [mbind run_bind].
    change (inward (withExample z (bp_this p))) with (inward (bp_this p)). rewrite Eo.
    cbn [mbind run_bind].
    assert (Ez : chooseExample (firstId o) (withExample z (bp_this p)) = withExample z (bp_this p)).
    { unfold z. rewrite <- chooseExample_with. apply chooseExample_twice. }
    by rewrite Ez.
  - apply Hsame. destruct (formLike (selectedType (bp_this p))).
    + destruct (bt_mime e === selectedType (bp_this p)); [|by injection H as <-].
      apply bind_returns in H as (o & _ & H). destruct (given (bt_schema e)); [|by injection H as <-].
      apply bind_returns in H as (h & _ & H). by injection H as <-.
    + destruct (fileType _ && _); by injection H as <-.
Qed.

Lemma step_again p i e q :
  bodyStep cF p i e = Returns q ->
  (exists x, bp_this q = withExample x (bp_this p))
  /\ bodyStep cF (withThis (bp_this q) p) i e = Returns q.
Proof.
  unfold bodyStep. intros (p' & Hp & Hq)%bind_returns.
  destruct (input_again _ _ _ Hp) as [Hx Hagain].
  assert (bp_this q = bp_this p') as ->.
  { destruct (_ || _ || _ || _); [|by injection Hq as <-].
    apply bind_returns in Hq as (d & _ & Hq). by injection Hq as <-. }
  split; [done|]. rewrite Hagain. exact Hq.
Qed.

(** Once the selected type has been passed, nothing is chosen any more. *)
Lemma others_keep l i p q :
  Forall (fun e => bt_mime e <> rq_bodyType (bp_this p)) l ->
  loop (bodyStep cF) i l p = Returns q -> bp_this q = bp_this p.
Proof.
  revert i p. induction l as [|e l IH]; intros i p Hl; cbn [loop]; [by intros [= <-]|].
  apply Forall_cons in Hl as [He Hl]. intros (p' & Hp & H)%bind_returns.
  destruct (other_step p i e p' He Hp) as [E _]. rewrite <- E. eapply IH, H. by rewrite E.
Qed.

Lemma loop_again l i p q :
  NoDup (map bt_mime l) -> loop (bodyStep cF) i l p = Returns q ->
  (exists x, bp_this q = withExample x (bp_this p))
  /\ loop (bodyStep cF) i l (withThis (bp_this q) p) = Returns q.
Proof.
  revert i p. induction l as [|e l IH]; intros i p Hd; cbn [loop].
  { intros [= <-]. rewrite withThis_id. split; [|done].
    exists (rq_bodyExample (bp_this p)). by rewrite withExample_id. }
  cbn [map] in Hd. apply NoDup_cons in Hd as [He Hd]. intros (p' & Hp & H)%bind_returns.
  destruct (decide (bt_mime e = rq_bodyType (bp_this p))) as [Es|Hne].
  - destruct (step_again p i e p' Hp) as [[x Hx] Hagain].
    assert (bp_this q = bp_this p') as ->.
    { eapply others_keep, H. apply Forall_forall. intros e' He' E. apply He.
      apply list_elem_of_In, in_map_iff. exists e'. split; [|by apply list_elem_of_In].
      rewrite E, Hx. by rewrite Es. }
    split; [by exists x|]. by rewrite Hagain.
  - destruct (other_step p i e p' Hne Hp) as [E Hother]. destruct (IH _ _ Hd H) as [[x Hx] Hl].
    rewrite E in Hx. split; [by exists x|].
    rewrite Hx, Hother. cbn [mbind run_bind]. by rewrite Hx in Hl.
Qed.

Lemma chooseType_again l this x :
  chooseType l (withExample x (chooseType l this)) = withExample x (chooseType l this).
Proof.
  unfold chooseType at 2 3. destruct (truthy (rq_bodyType this)) eqn:E.
  - unfold chooseType. cbn [withExample withBody rq_bodyType]. by rewrite E.
  - destruct (List.filter _ l) as [|e l'] eqn:F.
    + unfold chooseType. cbn [withExample withBody rq_bodyType]. by rewrite E, F.
    + unfold chooseType. cbn [withExample withBody rq_bodyType].
      assert (He : In e (List.filter (fun e => truthy (bt_mime e)) l)) by (rewrite F; by left).
      apply filter_In in He as [_ ->]. done.
Qed.

Lemma inOrder_mimes l ts : inOrder bodyType l = Returns ts -> map bt_mime ts = l.*1.
Proof.
  revert ts. induction l as [|p l IH]; intros ts; cbn [inOrder]; [by intros [= <-]|].
  intros (a & Ha & (b & Hb & [= <-])%bind_returns)%bind_returns. csimpl. rewrite (IH _ Hb).
  unfold bodyType in Ha. destruct (isNull p.2); [done|]. by injection Ha as <-.
Qed.

Lemma chooseType_attrs l this : rq_attrs (chooseType l this) = rq_attrs this.
Proof. unfold chooseType. by repeat case_match. Qed.

(** The content types of the body are distinct, as the keys of an object are. *)
Definition distinctTypes this : Prop :=
  forall b, rq_body (rq_attrs this) = Some b -> NoDup ((members (field "content" b)).*1).

(** Rendering the body settles: what it chooses (a content type and an example) makes
    the next rendering give the same document and choose nothing else. *)
Theorem body_settles this this' h :
  distinctTypes this ->
  requestBodyTemplate cF this = Returns (this', h) ->
  requestBodyTemplate cF this' = Returns (this', h).
Proof.
  intros Hd. unfold requestBodyTemplate. destruct (rq_body (rq_attrs this)) as [b|] eqn:Eb.
  2: { intros [= <- <-]. by rewrite Eb. }
  destruct (negb (isTrue b) || (keyCount b =? 0)) eqn:Ek.
  { intros [= <- <-]. by rewrite Eb, Ek. }
  intros (l & Hl & (p & Hp & E)%bind_returns)%bind_returns. apply returns_inj in E.
  injection E as <- <-.
  assert (Hdup : NoDup (map bt_mime l)) by (rewrite (inOrder_mimes _ _ Hl); by apply Hd).
  destruct (loop_again _ _ _ _ Hdup Hp) as [[x Hx] Hagain]. cbn [bp_this] in Hx.
  assert (Ea : rq_attrs (bp_this p) = rq_attrs this).
  { rewrite Hx. cbn [withExample withBody rq_attrs]. apply chooseType_attrs. }
  rewrite Ea, Eb, Ek, Hl. cbn [mbind run_bind].
  assert (Ec : chooseType l (bp_this p) = bp_this p) by (rewrite Hx; apply chooseType_again).
  rewrite Ec. unfold withThis in Hagain. cbn [bp_examples bp_file bp_form bp_schemas] in Hagain.
  by rewrite Hagain.
Qed.


(** *** The editor of the body *)

Lemma other_examples p i e q :
  bt_mime e <> rq_bodyType (bp_this p) -> bodyStep cF p i e = Returns q ->
  bp_examples q = bp_examples p.
Proof.
  intros H. unfold bodyStep. rewrite other_input by done. cbn [mbind run_bind].
  destruct (_ || _ || _ || _); [|by intros [= <-]].
  intros (d & _ & Hq)%bind_returns. by injection Hq as <-.
Qed.

Lemma others_examples l i p q :
  Forall (fun e => bt_mime e <> rq_bodyType (bp_this p)) l ->
  loop (bodyStep cF) i l p = Returns q -> bp_examples q = bp_examples p.
Proof.
  revert i p. induction l as [|e l IH]; intros i p Hl; cbn [loop]; [by intros [= <-]|].
  apply Forall_cons in Hl as [He Hl]. intros (p' & Hp & H)%bind_returns.
  destruct (other_step p i e p' He Hp) as [E _]. rewrite <- (other_examples p i e p' He Hp).
  eapply IH, H. by rewrite E.
Qed.

Definition others_of (l : list BodyType) (e : BodyType) : Prop :=
  forall l1 l2, l = l1 ++ e :: l2 -> Forall (fun e' => bt_mime e' <> bt_mime e) (l1 ++ l2).

Lemma nodup_others l e : NoDup (map bt_mime l) -> others_of l e.
Proof.
  intros H l1 l2 ->. rewrite map_app in H. cbn [map] in H. apply NoDup_app in H as (_ & H1 & H2).
  apply NoDup_cons in H2 as [H2 _]. apply Forall_app. split; apply Forall_forall; intros e' He' E.
  - apply (H1 (bt_mime e')); [|rewrite E; by left].
    apply list_elem_of_In, in_map, list_elem_of_In, He'.
  - apply H2. rewrite <- E. apply list_elem_of_In, in_map, list_elem_of_In, He'.
Qed.

(** The one selected content type makes the examples. *)
Lemma loop_app {A S} (f : S -> nat -> A -> run S) i l1 l2 t :
  loop f i (l1 ++ l2) t = (t' ← loop f i l1 t; loop f (i + length l1) l2 t').
Proof.
  revert i t. induction l1 as [|x l1 IH]; intros i t; cbn [app loop length].
  { cbn. by rewrite Nat.add_0_r. }
  destruct (f t i x) as [| |t1]; cbn [mbind run_bind]; [done..|]. rewrite IH.
  by rewrite Nat.add_succ_r.
Qed.

Lemma selected_examples l e p q :
  NoDup (map bt_mime l) -> e ∈ l -> bt_mime e = rq_bodyType (bp_this p) ->
  loop (bodyStep cF) 0 l p = Returns q ->
  exists p' q', bp_this p' = bp_this p /\ bp_examples p' = bp_examples p
    /\ bodyInput cF p' e = Returns q' /\ bp_this q = bp_this q' /\ bp_examples q = bp_examples q'.
Proof.
  intros Hd (l1 & l2 & ->)%list_elem_of_split Es. pose proof (nodup_others _ e Hd l1 l2 eq_refl) as Ho.
  apply Forall_app in Ho as [H1 H2]. rewrite loop_app. intros (p' & Hp & H)%bind_returns.
  rewrite Es in H1. pose proof (others_keep _ _ _ _ H1 Hp) as Et.
  pose proof (others_examples _ _ _ _ H1 Hp) as Ee. cbn [loop] in H.
  apply bind_returns in H as (p2 & Hs & H). unfold bodyStep in Hs.
  apply bind_returns in Hs as (q' & Hin & Hs). exists p', q'.
  assert (Hq : bp_this p2 = bp_this q' /\ bp_examples p2 = bp_examples q').
  { destruct (_ || _ || _ || _); [|by injection Hs as <-].
    apply bind_returns in Hs as (d & _ & Hs). by injection Hs as <-. }
  destruct Hq as [Hq1 Hq2]. destruct (input_again _ _ _ Hin) as [[x Hx] _].
  assert (H3 : Forall (fun e' => bt_mime e' <> rq_bodyType (bp_this p2)) l2).
  { rewrite Hq1, Hx. cbn [withExample withBody rq_bodyType]. by rewrite Et, <- Es. }
  rewrite (others_keep _ _ _ _ H3 H), (others_examples _ _ _ _ H3 H). done.
Qed.

Lemma filter_first (x : Sample) l :
  sa_id x ∉ map sa_id l -> List.filter (fun e => sa_id e === sa_id x) (x :: l) = [x].
Proof.
  intros H. cbn [List.filter]. rewrite bool_decide_true by done. f_equal.
  induction l as [|y l IH]; [done|]. cbn [map] in H. apply not_elem_of_cons in H as [H1 H2].
  cbn [List.filter]. by rewrite bool_decide_false, IH by done.
Qed.

Lemma panel_editor this mime x l :
  selectedExample this = sa_id x -> sa_id x ∉ map sa_id l ->
  binds ".textContent" (examplePanel this mime (x :: l))
    = [HText (if fills this then sampleText x else [])].
Proof.
  intros Hs Hl. unfold examplePanel. rewrite Hs, filter_first by done. cbn [flat_map].
  collect_simpl. done.
Qed.

Lemma bodySchema_editor this e : binds ".textContent" (bodySchema this e) = [].
Proof. unfold bodySchema. collect_simpl. done. Qed.

Lemma step_schemas p i e q :
  bodyStep cF p i e = Returns q -> binds ".textContent" (bp_schemas p) = [] ->
  binds ".textContent" (bp_schemas q) = [].
Proof.
  unfold bodyStep. intros (p' & Hp & Hq)%bind_returns Hs.
  assert (E : bp_schemas p' = bp_schemas p).
  { revert Hp. unfold bodyInput. destruct (textual _).
    - destruct (_ === _); [|by intros [= <-]].
      intros (x & _ & (y & _ & (o & _ & H)%bind_returns)%bind_returns)%bind_returns. by injection H as <-.
    - destruct (formLike _).
      + destruct (_ === _); [|by intros [= <-]]. intros (o & _ & H)%bind_returns.
        destruct (given _); [|by injection H as <-].
        apply bind_returns in H as (h & _ & H). by injection H as <-.
      + destruct (fileType _ && _); by intros [= <-]. }
  destruct (_ || _ || _ || _); [|by injection Hq as <-; rewrite E].
  apply bind_returns in Hq as (d & _ & Hq). injection Hq as <-. cbn [bp_schemas].
  unfold binds in *. rewrite collect_app, E, Hs. apply bodySchema_editor.
Qed.

Lemma loop_schemas l i p q :
  loop (bodyStep cF) i l p = Returns q -> binds ".textContent" (bp_schemas p) = [] ->
  binds ".textContent" (bp_schemas q) = [].
Proof.
  revert i p. induction l as [|e l IH]; intros i p; cbn [loop]; [by intros [= <-]|].
  intros (p' & Hp & H)%bind_returns Hs. eapply IH; [exact H|]. by eapply step_schemas.
Qed.

(** The examples of the content type that the body is rendered with, when it is textual. *)
Definition bodySamples this : run (list Sample) :=
  match rq_body (rq_attrs this) with
  | None => Throws
  | Some b =>
      if negb (isTrue b) || (keyCount b =? 0) then Throws
      else
        l ← inOrder bodyType (members (field "content" b));
        let this := chooseType l this in
        match List.find (fun e => bt_mime e === selectedType this) l with
        | Some e =>
            if textual (bt_mime e) then
              x ← tF (bt_examples e);
              dF cF (bt_schema e) (bt_mime e) (orNone x) None (inward this) (negb (inward this)) true
            else Throws
        | None => Throws
        end
  end.

(** With no example chosen, the body of a textual content type has one editor, for its
    first example: it holds the example's text when the fields are filled, and that example
    is the chosen one from then on. *)
Theorem editor_holds_example this this' h s0 rest :
  bodySamples this = Returns (s0 :: rest) -> distinctTypes this ->
  rq_bodyExample this = [] -> sa_id s0 ∉ map sa_id rest -> sa_id s0 <> [] ->
  requestBodyTemplate cF this = Returns (this', h) ->
  binds ".textContent" h = [HText (if fills this then sampleText s0 else [])]
  /\ rq_bodyExample this' = sa_id s0.
Proof.
  unfold bodySamples. intros Hs Hdt Hex Hid Hne. unfold requestBodyTemplate.
  destruct (rq_body (rq_attrs this)) as [b|] eqn:Hb; [|done].
  destruct (negb (isTrue b) || (keyCount b =? 0)); [done|].
  apply bind_returns in Hs as (l & Hl & Hs). rewrite Hl. cbn [mbind run_bind].
  assert (Hd : NoDup (map bt_mime l)) by (rewrite (inOrder_mimes _ _ Hl); by apply Hdt).
  destruct (List.find _ l) as [e|] eqn:Hf; [|done].
  apply find_some in Hf as [He%list_elem_of_In Hm%bool_decide_eq_true].
  destruct (textual (bt_mime e)) eqn:Htext; [|done].
  apply bind_returns in Hs as (x & Hx & Ho).
  intros (q & Hq & E)%bind_returns. apply returns_inj in E. injection E as <- <-.
  set (t := chooseType l this) in *.
  assert (Hta : rq_attrs t = rq_attrs this) by apply chooseType_attrs.
  unfold selectedType in Hm.
  assert (Hte : rq_bodyExample t = []).
  { unfold t, chooseType. repeat case_match; done. }
  edestruct (selected_examples l e) as (p' & q' & Et & Ee & Hin & Eq & Eqe);
    [exact Hd|exact He|..|exact Hq|]; [exact Hm|].
  cbn [bp_this bp_examples] in Et, Ee. unfold bodyInput, selectedType in Hin.
  rewrite Et, <- Hm, Htext, bool_decide_true, Hx in Hin by done. cbn [mbind run_bind] in Hin.
  apply bind_returns in Hin as (y & _ & (o & Eo & Hin)%bind_returns).
  rewrite Ho in Eo. injection Eo as <-. injection Hin as <-.
  cbn [bp_this bp_examples firstId] in Eq, Eqe.
  assert (Ech : chooseExample (sa_id s0) t = withExample (sa_id s0) t).
  { unfold chooseExample. by rewrite Hte. }
  rewrite Ech in Eq, Eqe. rewrite Ee in Eqe. cbn [app] in Eqe.
  split; [|by rewrite Eq].
  assert (Hpanel : binds ".textContent" (bp_examples q) = [HText (if fills this then sampleText s0 else [])]).
  { rewrite Eqe, panel_editor by done. unfold fills. cbn [withExample withBody rq_attrs].
    by rewrite Hta. }
  assert (Hsch : binds ".textContent" (bp_schemas q) = []) by (by eapply loop_schemas).
  unfold bodyTemplate. rewrite Eq. unfold selectedType. cbn [withExample withBody rq_bodyType].
  rewrite <- Hm, Htext. unfold binds in *.
  assert (Collects (getBind ".textContent") (bp_examples q)
            [HText (if fills this then sampleText s0 else [])]) by exact Hpanel.
  assert (Collects (getBind ".textContent") (bp_schemas q) []) by exact Hsch.
  unfold typeSelect. collect_simpl. done.
Qed.


(** ** In vain *)

(** Places that the form has fields for and no request reads. *)
Definition unread (t : jstr) : bool :=
  existsb (fun x => t === x) [u8 "cookie"; u8 "cookie-object"; u8 "path-object"].

Definition addTo (p : Panel) (f : Field) : Panel := {|
  pn_fields := f :: pn_fields p; pn_bodyType := pn_bodyType p; pn_userInput := pn_userInput p;
  pn_bodyFile := pn_bodyFile p |}.

Lemma withPtype_add t p f : fd_ptype f <> t -> withPtype t (addTo p f) = withPtype t p.
Proof. intros H. unfold withPtype. cbn [addTo pn_fields List.filter]. by rewrite bool_decide_false. Qed.

Lemma cookies_unsent selected accept server path keys p f :
  unread (fd_ptype f) = true ->
  buildFetchURL server path keys (addTo p f) = buildFetchURL server path keys p
  /\ buildFetchHeaders selected accept keys (addTo p f) = buildFetchHeaders selected accept keys p
  /\ buildFetchBody (addTo p f) = buildFetchBody p.
Proof.
  intros Hf.
  assert (Hne : forall t, unread t = false -> fd_ptype f <> t) by (intros t Ht E; by rewrite E, Ht in Hf).
  split_and!.
  - unfold buildFetchURL, collectQuery. by rewrite !withPtype_add by by apply Hne.
  - unfold buildFetchHeaders. assert (headerFields (addTo p f) = headerFields p) as ->; [|done].
    unfold headerFields. cbn [addTo pn_fields List.filter].
    by rewrite !bool_decide_false by by apply Hne.
  - unfold buildFetchBody. cbn [addTo pn_bodyType pn_bodyFile pn_userInput].
    destruct (pn_bodyType p) as [t|]; [|done]. by rewrite !withPtype_add by by apply Hne.
Qed.

(** The example of a content type is not looked at, only its examples. *)
Lemma body_example_ignored e t x s r w text :
  dF cF e t (orNone x) s r w text = dF cF e t (orNone x) None r w text.
Proof. done. Qed.

(** A constant that is a number has no [split], so that the parameters are not rendered. *)
Lemma number_const_throws : allowedParts (eF (JObj [(u8 "const", JNum (u8 "1"))])) = Throws.
Proof. vm_compute. done. Qed.

(** The editor of a form without properties writes to its content type, where no request
    looks for it. *)
Lemma dynamic_form_place this e t r h :
  has "properties" e = false -> formDataTemplate cF this e t r = Returns h -> places h = [t].
Proof.
  unfold formDataTemplate. intros -> E. apply returns_inj in E as <-. unfold places.
  collect_simpl. done.
Qed.

End facts.
