(* ===== verification/RapidocViewer.v ===== *)
(** * RapiDoc: the schema viewer

    The custom element [json-schema-viewer] of [rapidoc-min.js]: the schemas of a document
    ([hR]), the navigation bar [ZF], the content [QF], the page [eM], and the handlers of
    its clicks.

    [schema_link_leads]: a link of the bar leads to the section that was rendered for its
    schema.  [panel_shows_one]: a schema's panel shows one example, before and after a
    choice; [example_twice_shown] says when it shows two. *)

From stdpp Require Import strings numbers pretty list sets.
From S2P Require Import Prelude JsString Html RapidocUrl RapidocSpec RapidocElement.
From S2P Require Import RapidocMain RapidocTheme RapidocJson RapidocJsonText RapidocRequest.
From S2P Require Import RapidocSchema RapidocSchemaTree RapidocSchemaFacts RapidocSchemaShown.
From S2P Require Import RapidocExamples RapidocForm.

#[local] Set Default Proof Using "Type".
Open Scope nat_scope.

(** ** Documents of another binding *)

(** What the viewer's templates bind; the parts that it shares with [rapi-doc] keep theirs. *)
Inductive vbound :=
| VPage (b : bound)
| VTree (d : data)
| VJson (v : option json)
| VFilter
| VGo
| VPick.

Definition mapAttr {A C} (f : A -> C) (a : attr A) : attr C :=
  match a with
  | At n v => At n v
  | Flag n b => Flag n b
  | Bind n b => Bind n (f b)
  end.

Fixpoint mapNode {A C} (f : A -> C) (n : node A) : node C :=
  match n with
  | El t ats kids => El t (map (mapAttr f) ats) (map (mapNode f) kids)
  | Txt s => Txt s
  | Raw s => Raw s
  end.

Definition shared (h : html bound) : html vbound := map (mapNode VPage) h.

(** ** The schemas of a document *)

(** [{show, expanded, selectedExample, name, elementId, ...e[1]}] *)
Definition entryOf (e : jstr * json) : json :=
  JObj (foldl (fun o p => putKey p.1 p.2 o)
    [(u8 "show", JBool true); (u8 "expanded", JBool true); (u8 "selectedExample", JNull);
     (u8 "name", JStr e.1); (u8 "elementId", JStr (dashed e.1))] (entriesOf e.2)).

(** The branch of [hR] for a document of schemas; [None] is another document. *)
Definition schemasOf (resolved : json) : option (list json) :=
  if has "jsonSchemaViewer" resolved && has "schemaAndExamples" resolved
  then Some (map entryOf (entriesOf (default JNull (field "schemaAndExamples" resolved))))
  else None.

(** The element: its attributes and state, and the schemas, which a document of another
    kind does not have. *)
Record Viewer := mkViewer { vw_page :> RapiDoc; vw_items : option (list json) }.

Section viewer.
Context {CM : CaseMapping} {LC : Locale} {NM : Numerals} {MK : Marked}.
Context (cF : json -> bool -> bool -> bool -> option json) (idsOf : jstr -> list jstr).

(** ** The navigation bar *)

Definition idText (e : json) : jstr := attrTextO (field "elementId" e).
Definition nameText (e : json) : jstr :=
  match field "name" e with Some v => childText v | None => [] end.

Definition navLink (e : json) : html vbound :=
  el "div" ["class" =: u8 "nav-bar-path"; "data-content-id" =: idText e;
        "id" =: u8 "link-" ++ idText e; "click" =@ VGo] (txt (nameText e)).

(** [ZF] *)
Definition ZF (l : list json) : html vbound :=
  el "nav" ["class" =: u8 "nav-bar"; "part" =: u8 "section-navbar"] (
    el "slot" ["name" =: u8 "nav-logo"; "class" =: u8 "logo"] [] ++
    el "div" ["style" =: u8 "display:flex;line-height:22px; padding:8px"] (
      el "input" ["id" =: u8 "nav-bar-search";
          "part" =: u8 "textbox textbox-nav-filter";
          "style" =: u8 "width:100%; height: 26px; padding-right:20px; color:var(--nav-hover-text-color); border-color:var(--nav-accent-color); background-color:var(--nav-hover-bg-color)";
          "type" =: u8 "text";
          "placeholder" =: u8 "Filter";
          "change" =@ VFilter;
          "spellcheck" =: u8 "false"] [] ++
      el "div" ["style" =: u8 "margin: 6px 5px 0 -24px; font-size:var(--font-size-regular); cursor:pointer;"] (
        txt (u8 "↩"))) ++
    el "nav" ["style" =: u8 "flex:1"; "class" =: u8 "nav-scroll"; "part" =: u8 "section-navbar-scroll"] (
      flat_map navLink l)).

(** ** The content *)

(** [dF] as the viewer asks it: the given examples and the generated ones; a single
    [example] is turned into examples, but never looked at. *)
Definition viewerSamples (e : json) : run (list Sample) :=
  examples ← tF (field "examples" e);
  _ ← tF (field "example" e);
  l ← inOrder (namedSample (u8 "json") false) (default [] examples);
  g ← schemaSamples cF (field "schema" e) (u8 "json") true false false;
  Returns (l ++ g).

(** [marked] refuses what is not a text. *)
Definition descriptionOf (e : json) : run jstr :=
  match field "description" e with
  | Some (JStr s) => Returns s
  | Some v => if isTrue v then Throws else Returns []
  | None => Returns []
  end.

Definition exampleSelect (selected : jstr) (r : list Sample) : html vbound :=
  el "select" ["style" =: u8 "min-width:100px; max-width:100%"; "change" =@ VPick] (
    flat_map (fun t => el "option" ["value" =: sa_id t; "selected" =! (sa_id t === selected)] (
        txt (if 80 <? length (sa_summary t) then sa_id t else sa_summary t))) r).

Definition displayOf (b : bool) : jstr :=
  u8 "margin-top:16px; display: " ++ (if b then u8 "flex" else u8 "none").

Definition examplePanelOf (selected summary : jstr) (r : list Sample) : html vbound :=
  el "div" ["class" =: u8 "json-schema-example-panel";
        "style" =: u8 "width:400px; background-color: var(--input-bg); padding:16px 0 16px 16px; border-left: 1px dashed var(--border-color);"] (
      (if 1 <? length r then exampleSelect selected r
       else el "div" ["style" =: u8 "font-size: var(--font-size-small);font-weight:700; margin:5px 0"] (
              txt summary)) ++
      flat_map (fun t => el "json-tree" [".data" =@ VJson (sa_value t); "data-example" =: sa_id t;
              "class" =: u8 "example"; "style" =: displayOf (sa_id t === selected)] []) r).

(** The section of a schema; without any example the summary of the first is a field of
    nothing. *)
Definition sectionOf (this : RapiDoc) (e : json) : run (html vbound) :=
  r ← viewerSamples e;
  description ← descriptionOf e;
  tree ← uF (need (field "schema" e)) (field "schema" e) [] 0 [];
  match r with
  | [] => Throws
  | x :: _ => Returns (
    el "section" ["id" =: idText e;
          "class" =: u8 "json-schema-and-example regular-font";
          "style" =: u8 "display:flex; flex-direction: column; border:1px solid var(--border-color); margin-bottom:32px; border-top: 5px solid var(--border-color)"] (
      el "div" ["style" =: u8 "padding:16px; border-bottom: 1px solid var(--border-color)"] (
        el "div" ["style" =: u8 "font-size:var(--font-size-small); font-weight:bold"] (txt (nameText e)) ++
        el "span" ["class" =: u8 "json-schema-description m-markdown "] (raw (markdown description))) ++
      el "div" ["style" =: u8 "display:flex; flex-direction: row; gap:16px;"] (
        el "div" ["class" =: u8 "json-schema-def"; "style" =: u8 "flex:1; padding:16px 0 16px 16px; "] (
          el "schema-tree" [".data" =@ VTree (fresh tree);
              "schema-expand-level" =: dec (schemaExpandLevel this);
              "schema-description-expanded" =: schemaDescriptionExpanded this;
              "allow-schema-description-expand-toggle" =: allowSchemaDescriptionExpandToggle this;
              "schema-hide-read-only" =: u8 "false";
              "schema-hide-write-only" =: u8 "false"] []) ++
        examplePanelOf (sa_id x) (sa_summary x) r)))
  end.

(** [QF] *)
Definition QF (this : RapiDoc) (l : list json) : run (html vbound) :=
  s ← inOrder (sectionOf this) l;
  Returns (when (showInfo this === u8 "true") (shared (EF this)) ++
           el "div" ["style" =: u8 "font-size:var(--font-size-regular);"] (concat s)).

(** ** The page *)

(** The colours that the viewer hands to the palettes: the last has the key that they read. *)
Definition viewerColors (this : RapiDoc) (k : string) : jstr :=
  if String.eqb k "navAccentTextColor" then []
  else if String.eqb k "navAccenttextColor" then
    if GF (navAccentTextColor this) then navAccentTextColor this else []
  else givenColors this k.

(** [eM(e)], which [render] calls with [true]: nothing without a document, the message of one that
    could not be read, the sign of one that is being read, or the schemas of one that has
    some.  A document of another kind throws. *)
Definition eM (e : bool) (this : Viewer) : run (html vbound) :=
  match resolvedSpec this with
  | None => Returns []
  | Some sp =>
    match JF this (if theme this === u8 "dark" then u8 "dark" else u8 "light") (viewerColors this) with
    | None => Throws
    | Some style =>
      if specLoadError sp then
        if e then Returns (shared style ++
        el "div" ["style" =: u8 "display:flex; align-items:center; border:1px dashed var(--border-color); height:42px; padding:5px; font-size:var(--font-size-small); color:var(--red); font-family:var(--font-mono)"] (
          txt (orE (i ← s_info sp; i_description i))))
        else Returns (shared style ++ shared (zF this []) ++
          el "h1" [] (txt (u8 " Header ")) ++
          el "main" ["class" =: u8 "main-content regular-font"; "part" =: u8 "section-main-content"] (
            el "slot" [] [] ++
            el "div" ["style" =: u8 "margin:24px; text-align: center;"] (
              el "h1" ["style" =: u8 "color: var(--red)"] (txt (orE (i ← s_info sp; i_title i))) ++
              el "div" ["style" =: u8 "font-family:var(--font-mono)"] (
                txt (orE (i ← s_info sp; i_description i))))))
      else if isSpecLoading sp then Returns (shared style ++
        el "main" ["class" =: u8 "main-content regular-font"; "part" =: u8 "section-main-content"] (
          el "slot" [] [] ++
          el "div" ["class" =: u8 "main-content-inner--" ++ renderStyle this ++ u8 "-mode"] (
            el "div" ["class" =: u8 "loader"] [])))
      else
        match vw_items this with
        | None => Throws
        | Some l =>
          content ← (if loading this then Returns (el "div" ["class" =: u8 "loader"] [])
                     else if loadFailed this then
                       Returns (el "div" ["style" =: u8 "text-align: center;margin: 16px;"] (
                         txt (u8 " Unable to load the Spec")))
                     else
                       q ← QF this l;
                       Returns (el "div" ["class" =: u8 "operations-root"; "click" =@ VPage handleHref] q));
          Returns (shared style ++
            unless (showHeader this === u8 "false") (shared (zF this [])) ++
            el "div" ["id" =: u8 "the-main-body"; "class" =: u8 "body " ++ cssClasses this;
                  "dir" =: pageDirection this] (
              ZF l ++
              el "main" ["class" =: u8 "main-content regular-font"; "part" =: u8 "section-main-content"] (
                el "slot" [] [] ++
                el "div" ["class" =: u8 "main-content-inner--" ++ renderStyle this ++ u8 "-mode"] content ++
                el "slot" ["name" =: u8 "footer"] [])))
        end
    end
  end.

(** ** Clicks *)

(** The ids that a node has itself; [idsOf] gives those of generated HTML. *)
Definition ownIds (n : node vbound) : list jstr :=
  match n with
  | El t ats _ => getAt "id" t ats
  | Raw s => idsOf s
  | Txt _ => []
  end.

(** [shadowRoot.getElementById(id)]: the first node, in document order, that has the id. *)
Definition hasId (id : jstr) (n : node vbound) : bool := existsb (fun x => x === id) (ownIds n).

Fixpoint descend (n : node vbound) : list (node vbound) :=
  match n with
  | El t ats kids => n :: flat_map descend kids
  | _ => [n]
  end.

Definition getElement (id : jstr) (h : html vbound) : option (node vbound) :=
  List.find (hasId id) (flat_map descend h).

(** [scrollToEventTarget]: the element that a click on a link brings into view; [id] is the
    link's [data-content-id]. *)
Definition scrollToEventTarget (id : jstr) (h : html vbound) : option (node vbound) :=
  if truthy id then getElement id h else None.

(** [onSelectExample]: the examples of a panel, by id and whether they are displayed. *)
Definition onSelectExample (value : jstr) (panel : list (jstr * bool)) : list (jstr * bool) :=
  map (fun x => (x.1, x.1 === value)) panel.

(** The panel as it is rendered first. *)
Definition firstPanel (r : list Sample) : list (jstr * bool) :=
  match r with [] => [] | x :: _ => map (fun t => (sa_id t, sa_id t === sa_id x)) r end.
End viewer.

(** ** Lemmas *)

Section observers.
Context (idsOf : jstr -> list jstr).

Lemma getAt_map {A C} (f : A -> C) name t ats : getAt name t (map (mapAttr f) ats) = getAt name t ats.
Proof.
  unfold getAt. induction ats as [|a ats IH]; [done|]. cbn [map flat_map]. rewrite IH. by destruct a.
Qed.

(** Induction on a node through the nodes below it. *)
Lemma node_deep_ind {A} (P : node A -> Prop) :
  (forall t ats kids, Forall P kids -> P (El t ats kids)) ->
  (forall s, P (Txt s)) -> (forall s, P (Raw s)) -> forall n, P n.
Proof.
  intros He Ht Hr. fix IH 1. intros [t ats kids|s|s]; [|apply Ht|apply Hr].
  apply He. induction kids as [|k kids IHk]; [apply Forall_nil_2|].
  apply Forall_cons_2; [apply IH|apply IHk].
Qed.

Lemma elemsOf_mapNode {A C} (f : A -> C) name n :
  flat_map (fun e => getAt name e.1 e.2) (elemsOf (mapNode f n))
  = flat_map (fun e => getAt name e.1 e.2) (elemsOf n).
Proof.
  induction n as [t ats kids IH|s|s] using node_deep_ind; [|done..].
  cbn [mapNode elemsOf flat_map fst snd]. rewrite getAt_map. f_equal.
  induction IH as [|k kids Hk _ IHk]; [done|]. cbn [map flat_map]. by rewrite !flat_map_app, Hk, IHk.
Qed.

(** A shared part has the attributes that it has in [rapi-doc]. *)
Lemma attrs_shared name h : attrs name (shared h) = attrs name h.
Proof.
  unfold attrs, shared, collect, elems. induction h as [|n h IH]; [done|]. cbn [map flat_map].
  by rewrite !flat_map_app, elemsOf_mapNode, IH.
Qed.

Lemma attrs_when {A} name b (g : html A) x : x ∈ attrs name (when b g) -> x ∈ attrs name g.
Proof. destruct b; [done|]. cbn. by intros ?%elem_of_nil. Qed.

Lemma attrs_unless {A} name b (g : html A) x : x ∈ attrs name (unless b g) -> x ∈ attrs name g.
Proof. destruct b; [|done]. cbn. by intros ?%elem_of_nil. Qed.

Lemma raws_app {B} (h k : html B) : raws (h ++ k) = raws h ++ raws k.
Proof. apply flat_map_app. Qed.

Lemma raws_el {B} t ats (k : html B) : raws (el t ats k) = raws k.
Proof. apply app_nil_r. Qed.

(** All ids of a document. *)
Definition allIds (h : html vbound) : list jstr := flat_map (ownIds idsOf) (flat_map descend h).

Lemma allIds_app h k : allIds (h ++ k) = allIds h ++ allIds k.
Proof. unfold allIds. by rewrite !flat_map_app. Qed.

Lemma allIds_el t ats k : allIds (el t ats k) = getAt "id" t ats ++ allIds k.
Proof. unfold allIds, el. cbn. by rewrite app_nil_r. Qed.

Lemma allIds_spec h x : x ∈ allIds h <-> x ∈ attrs "id" h \/ x ∈ flat_map idsOf (raws h).
Proof.
  assert (Hn : forall n, x ∈ flat_map (ownIds idsOf) (descend n)
      <-> x ∈ flat_map (fun e => getAt "id" e.1 e.2) (elemsOf n) \/ x ∈ flat_map idsOf (rawsOf n)).
  { intros n. induction n as [t ats kids IH|s|s] using node_deep_ind.
    - cbn [descend elemsOf rawsOf flat_map ownIds fst snd]. rewrite !elem_of_app.
      induction IH as [|k kids Hk _ IHk]; [cbn; set_solver|]. cbn [flat_map].
      rewrite !flat_map_app, !elem_of_app, Hk. tauto.
    - cbn. set_solver.
    - cbn. rewrite app_nil_r, elem_of_nil. tauto. }
  unfold allIds, attrs, collect, elems, raws in *.
  induction h as [|n h IH]; [cbn; set_solver|]. cbn [flat_map].
  rewrite !flat_map_app, !elem_of_app, IH, Hn. tauto.
Qed.

Lemma hasId_spec id n : hasId idsOf id n = true <-> id ∈ ownIds idsOf n.
Proof.
  unfold hasId. rewrite existsb_exists. setoid_rewrite <- list_elem_of_In. setoid_rewrite bool_decide_eq_true. naive_solver.
Qed.

Lemma getElement_none id h : id ∉ allIds h -> getElement idsOf id h = None.
Proof.
  unfold getElement, allIds. induction (flat_map descend h) as [|n l IH]; [done|]. cbn.
  rewrite elem_of_app. intros Hn. destruct (hasId idsOf id n) eqn:E; [|apply IH; tauto].
  apply hasId_spec in E. tauto.
Qed.

Lemma getElement_app id h k :
  getElement idsOf id (h ++ k) =
  match getElement idsOf id h with Some n => Some n | None => getElement idsOf id k end.
Proof.
  unfold getElement. rewrite flat_map_app. induction (flat_map descend h) as [|n l IH]; [done|]. cbn.
  by destruct (hasId idsOf id n).
Qed.

Lemma getElement_skip id h k : id ∉ allIds h -> getElement idsOf id (h ++ k) = getElement idsOf id k.
Proof. intros Hn. by rewrite getElement_app, getElement_none. Qed.

Lemma getElement_el id t ats k :
  id ∉ getAt "id" t ats -> getElement idsOf id (el t ats k) = getElement idsOf id k.
Proof.
  intros Hn. unfold getElement, el. cbn [flat_map descend]. rewrite app_nil_r. cbn [List.find].
  destruct (hasId idsOf id _) eqn:E; [|done]. by apply hasId_spec in E.
Qed.

Lemma getElement_own id t ats k :
  id ∈ getAt "id" t ats -> getElement idsOf id (el t ats k) = Some (El t ats k).
Proof.
  intros Hn. unfold getElement, el. cbn [flat_map descend]. rewrite app_nil_r. cbn [List.find].
  destruct (hasId idsOf id _) eqn:E; [done|]. apply not_true_iff_false in E. by rewrite hasId_spec in E.
Qed.
End observers.

(** *** The links and the sections *)

Section links.
Context {CM : CaseMapping} {LC : Locale} {NM : Numerals} {MK : Marked}.
Context (cF : json -> bool -> bool -> bool -> option json) (idsOf : jstr -> list jstr).

Lemma inOrder_forall2 {A B} (f : A -> run B) l s :
  inOrder f l = Returns s -> Forall2 (fun x y => f x = Returns y) l s.
Proof.
  revert s. induction l as [|x l IH]; intros s Hs; cbn in Hs; [by injection Hs as <-|].
  apply bind_returns in Hs as (a & Ha & Hs). apply bind_returns in Hs as (b & Hb & Hs).
  injection Hs as <-. constructor; auto.
Qed.

(** A section is one element with the id of its schema, and no other id but those of the
    description's HTML. *)
Lemma sectionOf_shape this e h :
  sectionOf cF this e = Returns h ->
  exists ats kids, h = [El "section" ats kids] /\ getAt "id" "section" ats = [idText e]
  /\ attrs "id" h = [idText e].
Proof.
  unfold sectionOf. intros (r & _ & Hs)%bind_returns. apply bind_returns in Hs as (d & _ & Hs).
  apply bind_returns in Hs as (t & _ & Hs). destruct r as [|x r]; [done|].
  apply returns_inj in Hs as <-. eexists _, _. split; [reflexivity|]. split; [done|].
  unfold examplePanelOf, exampleSelect. collect_simpl. by destruct (1 <? length (x :: r)).
Qed.

Lemma getElement_sections this x l s :
  Forall2 (fun e h => sectionOf cF this e = Returns h) l s ->
  x ∉ flat_map idsOf (raws (concat s)) -> NoDup (map idText l) ->
  forall e, e ∈ l -> idText e = x ->
  exists n, getElement idsOf x (concat s) = Some n /\ sectionOf cF this e = Returns [n].
Proof.
  intros Hf. induction Hf as [|e0 h l s He0 _ IH]; intros Hr Hn e He Hx; [by apply elem_of_nil in He|].
  cbn [concat map] in *. rewrite raws_app, flat_map_app, elem_of_app in Hr.
  apply NoDup_cons in Hn as [Hn0 Hn].
  destruct (sectionOf_shape _ _ _ He0) as (ats & kids & -> & Hid & Hids).
  apply elem_of_cons in He as [->|He].
  - exists (El "section" ats kids). split; [|done]. rewrite getElement_app.
    change [El "section" ats kids] with (el "section" ats kids).
    rewrite getElement_own; [done|]. rewrite Hid, <- Hx. set_solver.
  - rewrite getElement_skip; [apply IH; tauto|]. rewrite allIds_spec, Hids. intros [Hi|Hi]; [|tauto].
    apply list_elem_of_singleton in Hi. apply Hn0. rewrite <- Hi, <- Hx. by apply list_elem_of_fmap_2.
Qed.

(** The ids that the page has besides those of the sections. *)
Definition fixedIds : list jstr :=
  map u8 ["spec-url"; "spec-file"; "search"; "nav-bar-search"; "the-main-body"; "overview"; "api-title";
          "api-info"; "api-description"].

Definition reserved (l : list json) : list jstr :=
  fixedIds ++ map (fun e => u8 "link-" ++ idText e) l.

Lemma fixed_in (k : string) : u8 k ∈ fixedIds -> forall x, x = u8 k -> x ∈ fixedIds.
Proof. by intros ? x ->. Qed.

Ltac fixed k := apply (fixed_in k); [apply (bool_decide_unpack _); vm_compute; exact I|done].

Lemma header_ids this x : x ∈ attrs "id" (zF this []) -> x ∈ fixedIds.
Proof.
  clear idsOf. unfold zF. collect_simpl. rewrite !elem_of_app, !elem_of_unless, !list_elem_of_singleton.
  intros [[_ Hx]|[[_ Hx]|[_ Hx]]]; [fixed "spec-url"|fixed "spec-file"|fixed "search"].
Qed.

Lemma overview_ids this x : x ∈ attrs "id" (EF this) -> x ∈ fixedIds.
Proof.
  clear idsOf. unfold EF. collect_simpl. rewrite elem_of_app, list_elem_of_singleton.
  intros [Hx|Hx]; [fixed "overview"|]. destruct (infoOf this); [|by apply elem_of_nil in Hx].
  rewrite !elem_of_app, !list_elem_of_singleton in Hx.
  destruct Hx as [Hx|[Hx|Hx]]; [fixed "api-title"|fixed "api-info"|fixed "api-description"].
Qed.

Lemma nav_ids l x : x ∈ attrs "id" (ZF l) -> x ∈ reserved l.
Proof.
  clear idsOf. unfold ZF, navLink, reserved. collect_simpl. rewrite flat_map_single, !elem_of_app, list_elem_of_singleton.
  intros [Hx|Hx]; [left; fixed "nav-bar-search"|by right].
Qed.

Lemma nav_links l : attrs "data-content-id" (ZF l) = map idText l.
Proof. unfold ZF, navLink. collect_simpl. by rewrite flat_map_single. Qed.

Lemma style_ids this e t h : JF this e t = Some h -> attrs "id" h = [].
Proof. unfold JF. destruct (palette e t); [|done]. intros [= <-]. by collect_simpl. Qed.

(** The schemas are shown. *)
Definition shows (this : Viewer) (l : list json) : Prop :=
  vw_items this = Some l /\ loading this = false /\ loadFailed this = false
  /\ exists sp, resolvedSpec this = Some sp /\ specLoadError sp = false /\ isSpecLoading sp = false.

(** The page of the schemas: what stands before the sections, and the sections. *)
Lemma eM_shape this l h :
  shows this l -> eM cF true this = Returns h ->
  exists style s, attrs "id" style = [] /\ Forall2 (fun e y => sectionOf cF this e = Returns y) l s
  /\ h = style ++ unless (showHeader this === u8 "false") (shared (zF this [])) ++
            el "div" ["id" =: u8 "the-main-body"; "class" =: u8 "body " ++ cssClasses this;
                  "dir" =: pageDirection this] (
              ZF l ++
              el "main" ["class" =: u8 "main-content regular-font"; "part" =: u8 "section-main-content"] (
                el "slot" [] [] ++
                el "div" ["class" =: u8 "main-content-inner--" ++ renderStyle this ++ u8 "-mode"] (
                  el "div" ["class" =: u8 "operations-root"; "click" =@ VPage handleHref] (
                    when (showInfo this === u8 "true") (shared (EF this)) ++
                    el "div" ["style" =: u8 "font-size:var(--font-size-regular);"] (concat s))) ++
                el "slot" ["name" =: u8 "footer"] [])).
Proof.
  intros (Hi & Hl & Hf & sp & Hs & He & Hsl). unfold eM. rewrite Hs.
  destruct (JF _ _ _) as [style|] eqn:Hj; [|done]. rewrite He, Hsl, Hi, Hl, Hf.
  intros (c & Hc & Hh)%bind_returns. apply bind_returns in Hc as (q & Hq & Hc).
  apply returns_inj in Hc as <-. unfold QF in Hq. apply bind_returns in Hq as (s & Hss & Hq).
  apply returns_inj in Hq as <-. apply returns_inj in Hh as <-.
  exists (shared style), s. split; [|split; [by apply inOrder_forall2|done]].
  rewrite attrs_shared. by eapply style_ids.
Qed.
End links.

(** ** Properties *)

(** The links of the bar lead to their schemas.  When the viewer shows the schemas of a
    document, the bar has one link for each of them, in order; and when the ids of the
    schemas differ from each other and from those of the page, a click on the link of a
    schema brings the section into view that was rendered for this schema. *)
Theorem schema_link_leads {CM : CaseMapping} {LC : Locale} {NM : Numerals} {MK : Marked}
    (cF : json -> bool -> bool -> bool -> option json) (idsOf : jstr -> list jstr)
    (this : Viewer) (l : list json) (h : html vbound) :
  shows this l -> eM cF true this = Returns h ->
  NoDup (map idText l) ->
  attrs "data-content-id" (ZF l) = map idText l
  /\ forall e, e ∈ l -> idText e <> [] -> idText e ∉ reserved l ->
       idText e ∉ flat_map idsOf (raws h) ->
       exists n, scrollToEventTarget idsOf (idText e) h = Some n /\ sectionOf cF this e = Returns [n].
Proof.
  intros Hs Hr Hn. split; [apply nav_links|]. intros e He Hne Hres Hraw.
  destruct (eM_shape cF this l h Hs Hr) as (style & s & Hst & Hf & ->).
  unfold scrollToEventTarget. replace (truthy (idText e)) with true by (by destruct (idText e)).
  assert (Hskip : forall g : html vbound, idText e ∉ attrs "id" g ->
                    idText e ∉ flat_map idsOf (raws g) -> idText e ∉ allIds idsOf g).
  { intros g Hg Hw. rewrite allIds_spec. tauto. }
  unfold reserved in Hres. rewrite elem_of_app in Hres.
  repeat first [rewrite raws_app in Hraw|rewrite raws_el in Hraw].
  rewrite !flat_map_app, !elem_of_app in Hraw.
  rewrite getElement_skip, getElement_skip, getElement_el, getElement_skip, getElement_el, getElement_skip,
    getElement_app, getElement_el, getElement_el, getElement_skip, getElement_el.
  - destruct (getElement_sections cF idsOf this (idText e) l s Hf) with (e := e) as (n & Hg & Hsec); try done; [tauto|].
    exists n. by rewrite Hg.
  - apply not_elem_of_nil.
  - apply Hskip; [|tauto]. intros Hi%attrs_when. apply Hres. left.
    rewrite attrs_shared in Hi. by apply overview_ids in Hi.
  - apply not_elem_of_nil.
  - apply not_elem_of_nil.
  - apply Hskip; apply not_elem_of_nil.
  - apply not_elem_of_nil.
  - apply Hskip; [|tauto]. intros Hi%nav_ids. apply Hres. by apply elem_of_app in Hi.
  - intros Hi%list_elem_of_singleton. apply Hres. left.
    apply (fixed_in "the-main-body"); [apply (bool_decide_unpack _); vm_compute; exact I|exact Hi].
  - apply Hskip; [|tauto]. intros Hi%attrs_unless. apply Hres. left.
    rewrite attrs_shared in Hi. by apply header_ids in Hi.
  - apply Hskip; [rewrite Hst; apply not_elem_of_nil|tauto].
Qed.

(** *** Examples *)

Definition shownIds (panel : list (jstr * bool)) : list jstr :=
  (List.filter (fun x => x.2) panel).*1.

Lemma filter_self (v : jstr) l : NoDup l -> v ∈ l -> List.filter (fun x => x === v) l = [v].
Proof.
  induction l as [|x l IH]; intros Hn Hv; [by apply elem_of_nil in Hv|].
  apply NoDup_cons in Hn as [Hx Hn]. cbn. apply elem_of_cons in Hv as [->|Hv].
  - rewrite bool_decide_true by done. f_equal. clear IH Hn. induction l as [|y l IH]; [done|]. cbn.
    apply not_elem_of_cons in Hx as [Hxy Hx]. rewrite bool_decide_false by done. auto.
  - rewrite bool_decide_false by (intros ->; done). auto.
Qed.

Lemma onSelectExample_shown value panel :
  shownIds (onSelectExample value panel) = List.filter (fun x => x === value) panel.*1.
Proof.
  unfold shownIds, onSelectExample. induction panel as [|[k b] panel IH]; [done|]. cbn.
  destruct (k === value); cbn; by rewrite IH.
Qed.

(** When the ids of a panel's examples differ, the first is shown alone, and so is one that
    is chosen, after any choices before. *)
Lemma panel_shows_one x r choices v :
  NoDup (map sa_id (x :: r)) -> v ∈ map sa_id (x :: r) ->
  shownIds (firstPanel (x :: r)) = [sa_id x]
  /\ shownIds (onSelectExample v (foldl (fun p c => onSelectExample c p) (firstPanel (x :: r)) choices)) = [v].
Proof.
  intros Hn Hv.
  assert (Hp : (firstPanel (x :: r)).*1 = map sa_id (x :: r)).
  { unfold firstPanel. by rewrite <- list_fmap_compose. }
  assert (Hk : forall p, (foldl (fun p c => onSelectExample c p) p choices).*1 = p.*1).
  { induction choices as [|c choices IH]; intros p; [done|]. cbn. rewrite IH.
    unfold onSelectExample. by rewrite <- list_fmap_compose. }
  split; [|rewrite onSelectExample_shown, Hk, Hp; by apply filter_self].
  replace (firstPanel (x :: r)) with (onSelectExample (sa_id x) (map (fun t => (sa_id t, true)) (x :: r)))
    by (unfold onSelectExample, firstPanel; by rewrite map_map).
  rewrite onSelectExample_shown. rewrite <- list_fmap_compose. apply filter_self; [done|]. cbn. set_solver.
Qed.

(** ** Instances *)

Section instances.
#[local] Instance noLocale : Locale := { toUpperCase s := s; localeCompare _ _ := 0%Z }.
#[local] Instance sameText : Numerals := fun s => s.
#[local] Instance noMarkdown : Marked :=
  { lexer _ := []; slug s := s; markdown s := s; markdownWith _ s := s }.

Definition schemaDocument : json :=
  JObj [(u8 "jsonSchemaViewer", JBool true);
        (u8 "schemaAndExamples",
         JObj [(u8 "A user", JObj [(u8 "schema", JObj [(u8 "type", JStr (u8 "string")); (u8 "example", JStr (u8 "x"))])]);
               (u8 "Order", JObj [(u8 "schema", JObj [(u8 "type", JStr (u8 "string"))]);
                                  (u8 "example", JStr (u8 "shown never"))])])].

Definition sampleItems : list json := default [] (schemasOf schemaDocument).

Definition loadedSpec : Spec := mkSpec false false None [] [] [] [] [].
Definition sampleViewer : Viewer := mkViewer (withSpec (Some loadedSpec) (created pageConfig)) (Some sampleItems).

Definition oneExampleOf (e : json) (a b c : bool) : option json :=
  Some (JObj [(u8 "example-0", JStr (u8 "text"))]).

Lemma schema_link_leads_witness :
  exists h, eM oneExampleOf true sampleViewer = Returns h
  /\ exists n, scrollToEventTarget (fun _ => []) (u8 "A-user") h = Some n
       /\ exists e, e ∈ sampleItems /\ idText e = u8 "A-user" /\ sectionOf oneExampleOf sampleViewer e = Returns [n].
Proof.
  destruct (eM oneExampleOf true sampleViewer) as [| |h] eqn:E; [vm_compute in E; discriminate E..|].
  exists h. split; [reflexivity|].
  assert (Hs : shows sampleViewer sampleItems) by (repeat split; exists loadedSpec; repeat split).
  assert (Hn : NoDup (map idText sampleItems)) by (apply (bool_decide_unpack _); vm_compute; exact I).
  destruct (schema_link_leads oneExampleOf (fun _ => []) sampleViewer sampleItems h Hs E Hn) as [_ Hl].
  destruct sampleItems as [|e l] eqn:Ei; [vm_compute in Ei; discriminate Ei|].
  assert (He : idText e = u8 "A-user") by (vm_compute in Ei; injection Ei as <- _; vm_compute; reflexivity).
  destruct (Hl e) as (n & Hg & Hsec).
  - apply list_elem_of_here.
  - rewrite He. vm_compute. discriminate.
  - rewrite <- Ei, He. apply (bool_decide_unpack _). vm_compute. exact I.
  - rewrite (flat_map_nil (raws h)). apply not_elem_of_nil.
  - exists n. rewrite He in Hg. split; [exact Hg|]. exists e. split; [apply list_elem_of_here|]. by split.
Defined.

(** The only example given as [example] is not among those that are shown. *)
Lemma viewer_example_ignored :
  forall e, e ∈ sampleItems -> forall r, viewerSamples oneExampleOf e = Returns r ->
  Forall (fun t => sa_value t <> Some (JStr (u8 "shown never"))) r.
Proof.
  assert (H : Forall (fun e => match viewerSamples oneExampleOf e with
                               | Returns r => Forall (fun t => sa_value t <> Some (JStr (u8 "shown never"))) r
                               | _ => True end) sampleItems).
  { repeat constructor; vm_compute; discriminate. }
  intros e He r Hr. rewrite Forall_forall in H. specialize (H e He). by rewrite Hr in H.
Qed.

(** A single one of [examples] and the example of the schema have the same id: both are
    shown, and neither can be chosen alone. *)
Definition doubled : json :=
  JObj [(u8 "schema", JObj [(u8 "type", JStr (u8 "string")); (u8 "example", JStr (u8 "a"))]);
        (u8 "examples", JStr (u8 "b"))].

Lemma example_twice_shown :
  exists r, viewerSamples oneExampleOf doubled = Returns r
  /\ shownIds (firstPanel r) = [u8 "Example"; u8 "Example"]
  /\ shownIds (onSelectExample (u8 "Example") (firstPanel r)) = [u8 "Example"; u8 "Example"].
Proof. eexists. split; [vm_compute; reflexivity|]. split; vm_compute; reflexivity. Qed.

(** A document of another kind, as every API is, makes the rendering throw. *)
Lemma viewer_refuses_api (this : Viewer) :
  (exists sp, resolvedSpec this = Some sp /\ specLoadError sp = false /\ isSpecLoading sp = false) ->
  vw_items this = None -> eM oneExampleOf true this = Throws.
Proof. intros (sp & H1 & H2 & H3) Hi. unfold eM. rewrite H1. destruct (JF _ _ _); [by rewrite H2, H3, Hi|done]. Qed.
End instances.
