(* ===== verification/RapidocConsoleExample.v ===== *)
(** * RapiDoc: a request

    An operation with parameters, keys and a JSON body on the console of the documentation
    page, with numerals that are kept when they are read back whole.  The theorems about
    requests, schemas and the form are applied to it. *)

From stdpp Require Import strings numbers pretty list sets.
From S2P Require Import Prelude JsString Html RapidocUrl RapidocSpec RapidocElement.
From S2P Require Import RapidocAuth RapidocJson RapidocJsonText RapidocRequest.
From S2P Require Import RapidocRequestFacts RapidocConsole RapidocSchema RapidocSchemaTree.
From S2P Require Import RapidocSchemaFacts RapidocSchemaShown RapidocExamples RapidocForm.
From S2P Require Import RapidocFormFacts.

Open Scope nat_scope.

#[local] Instance exampleLocale : Locale := {
  toUpperCase := map (fun c => if isLower c then (c - 32)%N else c);
  localeCompare := fun _ _ => 0%Z;
}.

#[local] Instance exampleMarked : Marked := {
  lexer := fun _ => [];
  slug := fun s => s;
  markdown := fun s => s;
  markdownWith := fun _ s => s;
}.

#[local] Instance exampleNumerals : Numerals :=
  fun s => if bool_decide (parseNumeral s = Some (s, [])) then s else u8 "0".

#[local] Instance exampleNumeralsOk : NumeralsOk exampleNumerals.
Proof.
  intros s p _ _. unfold numberText, exampleNumerals.
  destruct (bool_decide_reflect (parseNumeral p.1 = Some (p.1, []))) as [H|H].
  - by rewrite bool_decide_true by done.
  - by rewrite bool_decide_true by reflexivity.
Qed.

(** ** The panel *)

Definition textFieldOf (place name value : string) : Field := {|
  fd_ptype := u8 place; fd_pname := u8 name; fd_array := u8 "false"; fd_style := u8 "form";
  fd_explode := u8 "true"; fd_allowReserved := u8 "false"; fd_example := [];
  fd_tagInput := false; fd_isFile := false; fd_file := None; fd_value := VText (u8 value) |}.

Definition keyIn (place name value : string) : SecurityScheme := {|
  ss_id := []; ss_type := Some (u8 "apiKey"); ss_scheme := None; ss_description := None;
  ss_name := Some (u8 name); ss_in := Some (u8 place); ss_user := []; ss_password := [];
  ss_value := u8 value; ss_finalKeyValue := u8 value; ss_typeDisplay := []; ss_flows := [];
  ss_clientId := None; ss_clientSecret := None; ss_defaultScopes := None;
  ss_receiveTokenIn := None; ss_receiveTokenInOptions := None |}.

Definition exampleKeys : list SecurityScheme :=
  [keyIn "header" "Authorization" "Bearer a1b2"; keyIn "query" "token" "k&y"].

Definition examplePanel_ : Panel := {|
  pn_fields := [textFieldOf "path" "jid" "6281/2?x"; textFieldOf "query" "to" "a&b=c";
                textFieldOf "header" "X-Trace" "on"];
  pn_bodyType := Some (u8 "application/json");
  pn_userInput := Some (u8 "[1, true]"); pn_bodyFile := None |}.

(** [/messages/{jid}/read] *)
Definition exampleSegments : list (list piece) :=
  [[Lit (u8 "messages")]; [Var (u8 "jid")]; [Lit (u8 "read")]].

Definition server : jstr := u8 "https://gateway.example/".

Example request_url :
  buildFetchURL server (pathText exampleSegments) exampleKeys examplePanel_
  = Some (u8 "https://gateway.example/messages/6281%2F2%3Fx/read?to=a%26b%3Dc&token=k%26y").
Proof. vm_compute. reflexivity. Qed.

Definition pathValuesOf : list (jstr * jstr) :=
  default [] (pathValues (withPtype (u8 "path") examplePanel_)).

Lemma path_value_one_segment_witness :
  exists path tail,
    buildFetchURL server (pathText exampleSegments) exampleKeys examplePanel_
    = Some (dropSlash server ++ path ++ tail)
    /\ splitOn 47 path = [] :: map (fun s => piecesText (fillAll pathValuesOf s)) exampleSegments.
Proof.
  refine (match path_value_one_segment server exampleSegments exampleKeys examplePanel_
                  pathValuesOf [u8 "token=k%26y"] _ _ _ _ _ with
          | ex_intro _ p (ex_intro _ t (conj a (conj b _))) =>
              ex_intro _ p (ex_intro _ t (conj a b))
          end).
  all: try (vm_compute; reflexivity).
  apply (bool_decide_unpack _). vm_compute. exact I.
Defined.


Definition exampleHeaders : Headers :=
  default [] (buildFetchHeaders None (Some (u8 "application/json")) exampleKeys examplePanel_).

Lemma key_reaches_request_witness :
  headerValue (u8 "authorization") (tidyHeaders exampleHeaders) = u8 "Bearer a1b2".
Proof.
  refine (key_reaches_request None (Some (u8 "application/json")) exampleKeys examplePanel_
            exampleHeaders (keyIn "header" "Authorization" "Bearer a1b2") _ _ _ _ _ _).
  all: try (vm_compute; reflexivity).
  2: constructor.
  all: apply (bool_decide_unpack _); vm_compute; exact I.
Defined.

Lemma shell_reads_body_witness :
  exists w,
    shellWord Plain (dataWord (u8 "application/json") (u8 "[1, true]"))
      = Some (w, u8 " " ++ newline)
    /\ (w = u8 "[1, true]"
        \/ exists v, parseJson (u8 "[1, true]") = Some v /\ parseJson w = Some v).
Proof.
  refine (shell_reads_body (u8 "application/json") (u8 "[1, true]") _ _).
  - vm_compute. reflexivity.
  - intros v _ E. assert (v = JArr [JNum (u8 "1"); JBool true]) as ->.
    { vm_compute in E. injection E as <-. reflexivity. }
    split; [|vm_compute; reflexivity]. apply (bool_decide_unpack _). vm_compute. exact I.
Defined.

(** ** The console *)

Definition sendSchema : json :=
  JObj [(u8 "type", JStr (u8 "object"));
        (u8 "properties", JObj [
           (u8 "to", JObj [(u8 "type", JStr (u8 "string"))]);
           (u8 "id", JObj [(u8 "type", JStr (u8 "string")); (u8 "readOnly", JBool true)]);
           (u8 "media", JObj [(u8 "type", JStr (u8 "array"));
             (u8 "items", JObj [(u8 "type", JStr (u8 "object"));
               (u8 "properties", JObj [(u8 "url", JObj [(u8 "type", JStr (u8 "string"))])])])])])].

Definition exampleBody : json :=
  JObj [(u8 "content", JObj [
    (u8 "application/json", JObj [(u8 "schema", sendSchema);
       (u8 "examples", JObj [(u8 "text", JObj [(u8 "value", JArr [JNum (u8 "1"); JBool true])])])]);
    (u8 "application/xml", JObj [(u8 "schema", sendSchema)])])].

Definition pathParam : Param := {|
  prm_name := u8 "jid"; prm_in := u8 "path";
  prm_rest := JObj [(u8 "required", JBool true);
                    (u8 "schema", JObj [(u8 "type", JStr (u8 "string"))])] |}.
Definition filterParam : Param := {|
  prm_name := u8 "filter"; prm_in := u8 "query";
  prm_rest := JObj [(u8 "schema", JObj [(u8 "type", JStr (u8 "object"))])] |}.

Definition exampleRequest : ApiRequest := newRequest {|
  rq_serverUrl := server; rq_method := u8 "post"; rq_path := pathText exampleSegments;
  rq_security := None; rq_parameters := Some [pathParam; filterParam];
  rq_body := Some exampleBody; rq_keys := exampleKeys; rq_accept := Some (u8 "application/json");
  rq_callback := u8 "false"; rq_webhook := u8 "false"; rq_fill := u8 "true";
  rq_allowTry := u8 "true"; rq_showCurl := u8 "false"; rq_renderStyle := u8 "focused";
  rq_schemaStyle := u8 "tree"; rq_expandLevel := 9; rq_descriptionExpanded := u8 "false";
  rq_allowToggle := u8 "true"; rq_hideReadOnly := u8 "true"; rq_hideWriteOnly := u8 "false";
  rq_credentials := None |}.

Definition same (s : jstr) : jstr := s.

Definition exampleAnswer : Answer := {|
  an_statusText := u8 "OK"; an_status := 200; an_ok := true; an_url := server;
  an_headers := [(u8 "content-type", u8 "application/json; x")];
  an_text := u8 "[true, null]"; an_decoded := fun _ => []; an_jsonError := []; an_uriError := [];
  an_blobUrl := []; an_took := 7 |}.

Definition clicked : ApiRequest * option Outgoing := onTryClick same None examplePanel_ exampleRequest.
Definition outgoing : Outgoing :=
  default {| og_url := []; og_method := []; og_headers := []; og_body := None;
             og_credentials := None |} clicked.2.


Lemma json_reply_shown_witness :
  parseJson (co_text (rq_console (answered same (Answered exampleAnswer) clicked.1).1))
  = Some (JArr [JBool true; JNull]).
Proof.
  refine (proj1 (proj2 (proj2 (json_reply_shown same same (fun s _ => s) None examplePanel_
            exampleRequest clicked.1 outgoing exampleAnswer (JArr [JBool true; JNull])
            _ _ _ _ _ _ _)))).
  all: vm_compute; reflexivity.
Defined.

(** ** The tree *)

Definition sendData : data := match schemaData sendSchema with Returns d => d | _ => DUndef end.

Definition treeView : SchemaView := connectedCallback {|
  sv_data := sendData; sv_expandLevel := 0; sv_descriptionExpanded := []; sv_allowToggle := [];
  sv_hideReadOnly := u8 "true"; sv_hideWriteOnly := u8 "false" |}.

Definition treeHtml : html treeEvent :=
  match renderTree 9 treeView with Returns h => h | _ => [] end.
Definition treeBody : html treeEvent :=
  match generateTree 9 treeView sendData (u8 "object") [] [] [] 0 0 [] false with
  | Returns h => h | _ => [] end.

Lemma tree_hides_witness : u8 "Read-Only" ∉ attrs "title" treeBody.
Proof.
  refine (tree_hides ReadOnly treeView 9 sendData (u8 "object") [] [] [] 0 0 [] false treeBody _ _ _).
  - reflexivity.
  - intros c H. destruct c; discriminate H.
  - vm_compute. reflexivity.
Defined.

Definition itemSchema : json :=
  JObj [(u8 "type", JStr (u8 "object"));
        (u8 "properties", JObj [(u8 "url", JObj [(u8 "type", JStr (u8 "string"))])])].
Definition mediaSchema : json :=
  JObj [(u8 "type", JStr (u8 "array")); (u8 "items", itemSchema)].
Definition textSchema : json := JObj [(u8 "type", JStr (u8 "string"))].

Ltac shown := split;
  first [vm_compute; reflexivity
        | intros; vm_compute; reflexivity
        | discriminate
        | apply (bool_decide_unpack _); vm_compute; exact I].

Lemma sendSchema_shown : shownSchema treeView sendSchema.
Proof. shown. Qed.
Lemma itemSchema_shown : shownSchema treeView itemSchema.
Proof. shown. Qed.
Lemma mediaSchema_shown : shownSchema treeView mediaSchema.
Proof. shown. Qed.
Lemma textSchema_shown : shownSchema treeView textSchema.
Proof. shown. Qed.


(** ** The form *)

(** Examples of an object, without the generator. *)
Definition sampler (e : json) (readOnly writeOnly xml : bool) : option json :=
  Some (JObj [(u8 "example-0", JObj [(u8 "to", JStr (u8 "string"))])]).

Definition queryForm : html handler :=
  match inputParametersTemplate sampler exampleRequest (u8 "query") with Returns h => h | _ => [] end.

Lemma form_offers_parameters_witness :
  names queryForm = [u8 "filter"] /\ places queryForm = [u8 "query-object"].
Proof.
  refine (form_offers_parameters sampler exampleRequest (u8 "query") queryForm _ _).
  - reflexivity.
  - vm_compute. reflexivity.
Defined.

Definition bodyForm : ApiRequest * html handler :=
  match requestBodyTemplate sampler exampleRequest with Returns r => r | _ => (exampleRequest, []) end.

Lemma body_settles_witness :
  requestBodyTemplate sampler bodyForm.1 = Returns (bodyForm.1, bodyForm.2).
Proof.
  refine (body_settles sampler exampleRequest bodyForm.1 bodyForm.2 _ _).
  - intros b E. assert (b = exampleBody) as -> by (vm_compute in E; by injection E).
    apply (bool_decide_unpack _). vm_compute. exact I.
  - vm_compute. reflexivity.
Defined.

Definition typeSamples : list Sample :=
  match bodySamples sampler exampleRequest with Returns l => l | _ => [] end.
Definition firstSample : Sample :=
  List.hd {| sa_id := []; sa_summary := []; sa_description := []; sa_value := None;
             sa_format := [] |} typeSamples.

Lemma editor_holds_example_witness :
  binds ".textContent" bodyForm.2 = [HText (sampleText firstSample)]
  /\ rq_bodyExample bodyForm.1 = u8 "text".
Proof.
  refine (editor_holds_example sampler exampleRequest bodyForm.1 bodyForm.2 firstSample
            (List.tl typeSamples) _ _ _ _ _ _).
  all: try (vm_compute; reflexivity).
  - intros b E. assert (b = exampleBody) as -> by (vm_compute in E; by injection E).
    apply (bool_decide_unpack _). vm_compute. exact I.
  - apply (bool_decide_unpack _). vm_compute. exact I.
  - vm_compute. discriminate.
Defined.
