(* ===== verification/RapidocExample.v ===== *)
(** * RapiDoc: a document

    A small document on the element of the documentation page, with a case mapping and
    order of its own and a markdown library that returns its argument.  The theorems
    about the element are applied to the states it leads to. *)

From stdpp Require Import strings numbers pretty list sets.
From S2P Require Import Prelude JsString Routing Html RapidocSpec RapidocElement.
From S2P Require Import RapidocAuth RapidocOperation RapidocMain RapidocNav RapidocTheme.
From S2P Require Import RapidocPage RapidocEvents RapidocLinks RapidocResponse.

Open Scope nat_scope.

#[local] Instance exampleLocale : Locale := {
  toUpperCase := map (fun c => if isLower c then (c - 32)%N else c);
  localeCompare := fix compare a b :=
    match a, b with
    | [], [] => 0%Z
    | [], _ => (-1)%Z
    | _, [] => 1%Z
    | x :: a, y :: b =>
        if (x =? y)%N then compare a b else if (x <? y)%N then (-1)%Z else 1%Z
    end;
}.

#[local] Instance exampleMarked : Marked := {
  lexer := fun _ => [];
  slug := fun s => s;
  markdown := fun s => s;
  markdownWith := fun _ s => s;
}.

Definition operation (summary : string) : Operation := {|
  o_tags := [u8 "Messages"]; o_summary := Some (u8 summary); o_description := None;
  o_operationId := None; o_externalDocs := None; o_servers := None; o_parameters := None;
  o_requestBody := None;
  o_responses := [(u8 "200", {| rsp_description := Some (u8 "OK"); rsp_headers := [];
                                rsp_content := [] |})];
  o_callbacks := None; o_deprecated := false;
  o_security := Some [[(u8 "bearerAuth", [])]]; o_badges := None; o_codeSamples := None |}.

Definition bearer : SecurityScheme := {|
  ss_id := []; ss_type := Some (u8 "http"); ss_scheme := Some (u8 "bearer");
  ss_description := None; ss_name := None; ss_in := None; ss_user := []; ss_password := [];
  ss_value := []; ss_finalKeyValue := []; ss_typeDisplay := []; ss_flows := [];
  ss_clientId := None; ss_clientSecret := None; ss_defaultScopes := None;
  ss_receiveTokenIn := None; ss_receiveTokenInOptions := None |}.

Definition document : OpenApi := {|
  a_info := Some {| i_title := Some (u8 "Gateway"); i_version := None; i_description := None;
                    i_contact := None; i_license := None; i_termsOfService := None |};
  a_tags := [];
  a_paths := [(u8 "/messages", [(u8 "get", EOp (operation "List messages"));
                                (u8 "post", EOp (operation "Send a message"))])];
  a_webhooks := []; a_components := None;
  a_securitySchemes := [(u8 "bearerAuth", bearer)]; a_servers := [] |}.

Definition same (s : jstr) : jstr := s.
Definition never (a b : jstr) : bool := false.
Definition plain (a b : jstr) : option jstr := None.
Definition noIds (s : jstr) : list jstr := [].
Definition unset (name : string) : option jstr := None.

Abbreviation run := (handle same plain never noIds same same).

Definition href : jstr := u8 "https://gateway.example/docs/".

Definition atStart : RapiDoc * jstr := (withStorage [] (created pageConfig), href).
Definition loaded : RapiDoc * jstr :=
  run (LoadDone unset (u8 "https://gateway.example") document) (run LoadStart atStart).
Definition filtered : RapiDoc * jstr := run (Search (u8 "send")) loaded.
Definition shownSpec : Spec := default loadingSpec (resolvedSpec filtered.1).

(** The navigation bar of the filtered page, and what a click leads to. *)
Example links_of_page :
  attrs "data-content-id" (CF filtered.1)
  = [u8 "overview"; u8 "servers"; u8 "auth"; []; []; u8 "post-/messages"].
Proof. vm_compute. reflexivity. Qed.

Example address_of_click :
  (run (Navigate Click (Some (u8 "navigate")) (Some (u8 "post-/messages"))) filtered).2
  = u8 "https://gateway.example/docs/#post-/messages".
Proof. vm_compute. reflexivity. Qed.

Lemma loaded_reachable :
  reachable same plain never noIds same same pageConfig href filtered.
Proof.
  unfold filtered, loaded. do 3 apply reach_step. apply reach_created.
  split; constructor.
Qed.

Lemma example_focused : shownFocused filtered.1 shownSpec.
Proof.
  unfold shownFocused, focusedMode. split_and!; try (vm_compute; reflexivity).
  - by left.
  - by left.
  - by left.
  - intros H. vm_compute in H. discriminate H.
Qed.

(** ** The theorems on the example *)

Example element_invariant_witness : wfElement pageConfig filtered.1.
Proof.
  apply (element_invariant same plain never noIds same same pageConfig href filtered).
  exact loaded_reachable.
Defined.

Example nav_click_shows_witness :
  let st' := run (Navigate Click (Some (u8 "navigate")) (Some (u8 "post-/messages"))) filtered in
  focusedElementId st'.1 = u8 "post-/messages"
  /\ u8 "post-/messages" ∈ attrs "id" (rendered same plain same st'.1).2.
Proof.
  apply (nav_click_shows same plain never noIds same same pageConfig href filtered shownSpec
           (u8 "post-/messages")).
  - exact loaded_reachable.
  - exact example_focused.
  - rewrite links_of_page. do 5 right. left.
  - discriminate.
Defined.


Example search_shows_matching_witness :
  operationIds (attrs "data-content-id" (CF filtered.1)) = [u8 "post-/messages"]
  /\ operationIds (attrs "data-content-id" (CF filtered.1))
     = map p_elementId (matching filtered.1 shownSpec).
Proof.
  split; [rewrite links_of_page; vm_compute; reflexivity|].
  refine (proj1 (search_shows_matching plain filtered.1 shownSpec false _ _ _)).
  - vm_compute. reflexivity.
  - vm_compute. reflexivity.
  - apply (reachable_wf same plain never noIds same same pageConfig href filtered
             loaded_reachable). vm_compute. reflexivity.
Defined.

Definition shownPath : option Path := head (flat_map t_paths (s_tags shownSpec)).

Example operation_address_opens_docs_witness :
  match shownPath with
  | Some p => parseHash (locationHash (replaceHistoryState [cHash] (p_elementId p) href))
              = HDocs (Some (u8 "get-/messages")) None
  | None => False
  end.
Proof.
  destruct shownPath as [p|] eqn:E; [|vm_compute in E; discriminate E].
  vm_compute in E. injection E as <-.
  match goal with |- context [p_elementId ?p] =>
    refine (operation_address_opens_docs p href _) end.
  split; [left|vm_compute; reflexivity].
Defined.

(** Keys that are kept in the browser. *)
Definition keeping : Config :=
  connectedCallback false None
    (fun name => if String.eqb name "persist-auth" then Some (u8 "true") else None).

Definition keyless : RapiDoc :=
  (run (LoadDone unset (u8 "https://gateway.example") document) (created keeping, href)).1.

Definition keptScheme : SecurityScheme :=
  default bearer (findScheme (u8 "bearerAuth") (schemes keyless)).

Definition keyed : RapiDoc := IR same (u8 "bearerAuth") [] [] (u8 " secret ") true keyless.

Definition reloaded : RapiDoc := withStorage (storage keyed) keyless.

Example kept_key_returns_witness :
  ss_finalKeyValue <$> findScheme (u8 "bearerAuth") (schemes (CR same reloaded))
  = ss_finalKeyValue <$> findScheme (u8 "bearerAuth") (schemes keyed).
Proof.
  refine (proj1 (kept_key_returns same keyless reloaded (u8 "bearerAuth") [] []
                   (u8 " secret ") keptScheme keptScheme _ _ _ _ _ _ _ _)).
  - split; constructor.
  - vm_compute. reflexivity.
  - vm_compute. reflexivity.
  - vm_compute. reflexivity.
  - vm_compute. reflexivity.
  - vm_compute. reflexivity.
  - vm_compute. reflexivity.
  - vm_compute. reflexivity.
Defined.

Example removed_key_stays_removed_witness :
  findScheme (u8 "bearerAuth") (schemes (DR (u8 "bearerAuth") keyed))
  = cleared <$> findScheme (u8 "bearerAuth") (schemes keyed).
Proof.
  refine (proj1 (removed_key_stays_removed same keyed (u8 "bearerAuth") _)).
  apply IR_storageWf. split; constructor.
Defined.

(** Two statuses, of which the second is selected. *)
Definition noTree (e : option json) : option json := None.
Definition noExamples (e : option json) (t : jstr) (a b : option json) (c d : bool) (f : jstr)
  : list Example_ := [].

Definition answers : ApiResponse := {|
  ar_callback := []; ar_webhook := [];
  ar_responses :=
    [(u8 "204", {| rsp_description := None; rsp_headers := []; rsp_content := [] |});
     (u8 "400", {| rsp_description := None; rsp_headers := [];
                   rsp_content := [(u8 "application/json",
                     {| mt_schema := None; mt_examples := None; mt_example := None |})] |})];
  ar_renderStyle := u8 "focused"; ar_schemaStyle := u8 "table"; ar_schemaExpandLevel := 1%N;
  ar_schemaDescriptionExpanded := []; ar_allowSchemaDescriptionExpandToggle := [];
  ar_schemaHideReadOnly := []; ar_schemaHideWriteOnly := [];
  ar_selectedStatus := []; ar_selectedMimeType := None; ar_activeSchemaTab := u8 "schema";
  ar_headersForEachRespStatus := []; ar_mimeResponsesForEachStatus := [] |}.

Definition clicked : ApiResponse := clickStatus (u8 "400") answers.

Example one_response_shown_witness :
  List.filter (fun e => e === ar_selectedStatus (responseTemplate noTree noExamples clicked).1)
    (statuses clicked) = [u8 "400"].
Proof.
  refine (proj1 (proj2 (one_response_shown noTree noExamples clicked _ _))).
  - apply resp_click; [|by right; left]. apply resp_created.
    + split_and!; simpl.
      * repeat constructor; rewrite ?list_elem_of_singleton; [discriminate|apply not_elem_of_nil].
      * intros [H|[H|H%elem_of_nil]%elem_of_cons]%elem_of_cons; done.
      * repeat constructor; simpl; [apply not_elem_of_nil|].
        by intros H%list_elem_of_singleton.
    + done.
    + by left.
  - discriminate.
Defined.
